(* ===== verification/_CoqProject ===== *)
-Q . S2P
Prelude.v
MathLib.v
Series.v
Frame.v
Segmenter.v
CliModel.v
Metrics.v
Processor.v
Insights.v
TrackMap.v
Discovery.v
Reader.v
Pipeline.v
Report.v
Units.v
Origin.v
Dashboard.v
Files.v
Timestamps.v
Requests.v
