(* ===== verification/Prelude.v ===== *)
(** * Verification of the Cognitive-Load-Index telemetry pipeline

    The program (repository mental-fatigue-propagation) turns one lap of
    car telemetry into a "Cognitive Load Index" (CLI) per track segment
    and a short list of insights:

      raw long-format rows (one channel value per row)
        --processor.process_lap_data-->   per-sample table with position
        --segment_lap.segment_lap-->      rows tagged with a segment id
        --compute_metrics.compute_segment_metrics--> one metrics row per segment
        --cli_model.compute_cli-->        normalised metrics, CLI, CLI_smooth
        --app.py (left merge)-->          per-sample table with the segment's scores
        --insights.compute_insights-->    causes, rankings, summary statistics
        --track_map.plot_track_map-->     the path drawn with its scores

    Before the run the page looks for the telemetry file
    (load_data.scan_data_directory) and offers the vehicles and the laps
    that load_data.get_available_vehicles and
    load_data.get_available_laps find in it.  These two and
    process_lap_data each open the file, test its first line for a
    header and iterate over the chunks of pandas.read_csv.  Streamlit
    runs the script of the page again after every interaction; the
    tables of the last analysis and the answers of the scans survive
    from one run to the next.

    Data flows one way and every stage is a pure function of its input
    table.  Each stage is a Rocq function on lists of records, written
    column by column where the source works on columns; stages compose by
    application, and a Python exception is a value [Err e] of the
    [result] monad.

    ** Files and what they model

    - [Prelude] (this file): Python exceptions as [pyerror], the [result]
      monad with its notation, [map2], the lemmas on rationals, lists and
      sorted lists that the components share, the lemmas on lists
      related element by element ([Forall2], [result_rel]), the hint
      databases [qpipe] and [frame] and the tactics [qbool],
      [case_qtest] and [inv].
    - [MathLib]: numpy's and scipy's [log], [sqrt], [tan], [cos], [sin] and
      [pi] as a class [MathLib] of operations and a class [MathLibLaws] of
      the laws the theorems use; [rational_math] is an executable
      instance over the rationals that satisfies the laws.
    - [Series]: the pandas primitives on one column: a possibly-NaN
      number ([float], an option of a rational), NaN-skipping [min],
      [max] and [mean], [diff], [fillna], [ffill] and [bfill], [cumsum],
      the centred rolling mean with [min_periods].
    - [Frame]: the rows of the tables ([sample], [seg_row], [metrics_row],
      [cli_row], [final_row]) and the table primitives [sort_values] (by
      a rational key) and [groupby] (by an integer key).
    - [Segmenter]: src/src/segment_lap.py, function [segment_lap] and
      the test stub at the end of the file ([main]).
    - [CliModel]: src/src/cli_model.py, functions [normalize_series] and
      [compute_cli].  [cli_table] is the body of the function on a table
      that has rows; on the table that [pd.DataFrame] makes of an empty
      list, which has no columns, [compute_cli] raises the KeyError of
      its first column lookup.
    - [Metrics]: src/src/compute_metrics.py, functions
      [calculate_shannon_entropy] and [compute_segment_metrics].
    - [Processor]: src/src/processor.py, function [process_lap_data] from
      the chunks of raw rows on: [load_and_filter], [pivot_table], the
      fill, the renaming and [required_column], the three unit
      normalisations, and [dead_reckoning] (time deltas, heading,
      position, lap distance).
    - [Insights]: src/src/insights.py, function [compute_insights] with
      [get_primary_cause], the rankings [sort_by_float] and [head],
      [quantile], [mode0], [idxmax] and [idxmin].
    - [TrackMap]: src/src/track_map.py, function [plot_track_map] up to
      the styling: the [coordinates] drawn ([smooth], [shift_to_origin],
      the rotation, [scale], [stretch]), the [line_segments], the
      [section_markers] and the [highlights].
    - [Discovery]: src/src/load_data.py, all four functions:
      [scan_data_directory] over a directory given by the answers of
      [glob], [get_available_vehicles], [get_available_laps] and
      [load_telemetry] on the file as the reader presents it
      ([telemetry_file]: absent, unreadable, or the chunks of the columns
      read); Python's set and [sorted] as duplicate-free lists and
      insertion sort.
    - [Reader]: the part of src/src/processor.py (lines 11 to 47) and of
      src/src/load_data.py (lines 57 to 84 and 97 to 122) that reads the
      file: the header test [has_header], the arguments of the three
      calls of the reader, [read_csv] (pandas, from its documented
      behaviour: [parse] makes the table of the lines, [next_chunk] and
      [iterate] are the iterator and the [for] loop over it), the body of
      the loop of [process_lap_data] ([selected], [filtered]) and the
      function on the text of a file, [process_lap_file], with the scans
      [vehicles_of_file] and [laps_of_file].  What pandas makes of the
      text of a cell is the class [Cells]; [decimal_cells] is an
      executable instance.
    - [Pipeline]: src/app.py lines 82 to 123, the run ([analyse],
      [merge_left], [run], and [process], the run with the processor as
      loader), the summary line that reads the insights ([summary]), and
      the link between the lap selector and the loader.  The ways in
      which a run ends are the relation [analysis_outcome].
    - [Report]: no code of its own.  What the page reports of the
      sections of an analysis: the primary causes of the insights
      against the terms of the index ([term], [largest_term]), and the
      three marks of the track map against the sections.
    - [Units]: no code of its own.  The relations between two tables
      whose lap distances differ by a positive factor ([rescaled],
      [seg_rescaled], [same_metrics], [same_session]) and between two
      files whose speeds do ([speed_in]); the stages of the pipeline are
      [Proper] morphisms for them.
    - [Origin]: no code of its own.  The relations between two files
      whose times differ by a constant ([later], [wide_later],
      [retimed]).
    - [Dashboard]: src/app.py as a whole.  The state is what Streamlit
      keeps between reruns: [store] is [st.session_state] with its three
      keys, [caches] the two tables of [st.cache_data].  One run of the
      script is [script]: [sidebar] (lines 38 to 78), [should_run] (line
      80), [run_analysis] (lines 82 to 107) and [display] (lines 109 to
      169); its result is the next state and an [outcome] (a message and
      a stop, an exception, the page, or the invitation).  The reruns of
      a session are the relation [step] and [reachable] its states.  The
      file system is a [world], the user a [widgets] record per run, the
      loader a parameter ([as_written] or [with_processor]).  [click] is
      the button pressed and [eventually] what some sequence of reruns
      reaches.
    - [Files]: the three functions that the page calls on the telemetry
      file, together on the text of one file: a [disk] of text files,
      the loader [file_loader] that opens them, and [world_of], the world
      of typed rows that stands for a disk in [Dashboard].
    - [Timestamps]: the call of [pd.to_datetime] in
      src/src/processor.py (line 54) on times in ISO 8601 notation, from
      the documented behaviour of pandas: [iso_cells], a second instance
      of [Cells], with the calendar ([days_from_civil]), the count of
      nanoseconds ([epoch_ns]) and its 64-bit range ([in_range]).
    - [Requests]: no code of its own.  The relation [request_outcome]
      lists the ways in which [run_analysis] (src/app.py lines 82 to
      107) ends on the text of a file, each with the condition on the
      text that leads to it ([lap_table] is the pivoted table of the
      rows selected).

    ** Numbers

    Python floats are modelled as exact rationals; statements about
    values are up to [Qeq] (written [==]).  Rounding is therefore not
    modelled: a theorem such as "CLI lies in [0,1]" is about the formula
    the code evaluates, not about its binary64 rounding.  NaN is modelled
    where the code can produce it from finite input (an empty or
    one-element aggregate, a missing cell): a column that can hold NaN
    has elements of type [float], [None] being NaN, and the aggregates
    skip it as pandas does.  Infinities arise only from a division by
    zero; every division of the sources is guarded except the two of
    [segment_lap], whose zero cases are modelled explicitly (see
    [Segmenter]).  Timestamps are integers (nanoseconds).  The
    transcendental functions are not computed: theorems that need them
    assume the laws of [MathLibLaws] (tan 0 = 0, cos 0 = 1, sin 0 = 0,
    cos^2 + sin^2 = 1, log 1 = 0, log <= 0 on (0, 1], sqrt >= 0) and hold
    for every implementation of them.

    ** Bounds

    One function of the model takes fuel: [iterate], the [for] loop over
    the chunks of the reader.  [enough], the number of rows left plus
    one, is the fuel that [read_csv] gives it; [reader_terminates] shows
    that this exhausts the reader whenever the chunk size is at least
    one, and [read_csv] raises on a chunk size of zero as pandas does.
    [chunks_of], the reference that the iteration is compared with, is
    defined by well-founded recursion on the number of rows.  Every
    other recursion is structural on a list or a string.  The chunk size
    is the 100000 of the sources; theorems about the reader hold for
    every size.  The reader covers comma separated files without quote
    characters, without duplicate column names and without a first data
    line longer than the header; text that is not of the type of its
    column is read as a missing cell, and the dtype that pandas infers
    for a column is not modelled (a lap is an integer, a vehicle id a
    string): the theorems on files are for files whose cells are of
    the type of their column, for which the type that pandas infers is
    the same in every chunk (a lap cell that is not a number would make
    pandas read the lap column of its chunk as text, in which no row
    equals the lap asked for).  Times are read cell by cell, as counts
    of nanoseconds ([decimal_cells]) or in the ISO 8601 notation with a
    time of the day ([iso_cells]); pandas takes the notation of a column
    from its first cell and raises on a cell in another.  A file holds each acceleration channel
    under one name ('accx_can' or 'accx', 'accy_can' or 'accy'); with
    both, pandas makes two columns of one name, of which
    [required_column] takes the first.  The histogram has the 20 bins of the source and the
    smoothing window of the track map its 20 samples.  The concrete laps
    of the witnesses are small (four to twelve rows) because the exact
    rationals of the executable [rational_math] grow with every step of
    the reconstruction; the theorems are for tables of any size.

    ** Theorems

    - [Segmenter]: every segment id lies in [0, N-1] when no distance is
      negative; the row of maximal distance lands in segment N-1; ids
      never decrease along the sorted rows; the function raises exactly
      on a table with rows whose largest distance is zero
      ([segment_lap_fails_iff]): an empty table, a zero segment count and
      a negative distance do not raise (the guards of the specification
      are absent from the code); the test stub ends in a TypeError
      ([main_never_segments]).
    - [CliModel]: [compute_cli] refines a row-wise specification on
      every table that has a row and raises on the table without rows;
      the normalisation is 0 on a constant column; CLI and CLI_smooth lie in
      [0,1]; they are numbers when the metrics are, and NaN for a segment
      whose lateral instability is NaN.
    - [Metrics]: one metrics row per segment id in ascending order; the
      standard deviation is NaN exactly for one-sample segments; the
      entropy of the density histogram is the entropy of the shares of
      the occupied bins, and 0 for a constant signal.
    - [Processor]: the chunking is transparent; no matching row raises,
      and after the filter the function raises exactly when the throttle
      or the brake is there under both of its names
      ([process_pivot_fails_iff]); the fill puts the nearest known value at
      every index; the rows are strictly ordered in time; throttle and
      brake are in [0,1] and the lap distance is monotone under the
      conditions on the raw values that make them so; the column-wise
      cumulative sums refine an explicit scan over the samples; each
      step of the path is as long as the increase of the lap distance;
      a lap with the wheel straight is a straight line.
    - [Insights]: the primary cause is the first metric of largest
      weighted value; long_jerk weighs nothing; "Unknown" means that all
      five normalised metrics are NaN; the top fives dominate the rows
      they leave out; the most stressful section holds the maximum; the
      common cause is a most frequent cause of the high-load sections
      and is never "N/A"; the function raises exactly when no section
      has an index.
    - [TrackMap]: on a table longer than the window the smoothed
      coordinates hold no NaN; the second coordinate drawn lies in
      [0, 1.3] while the first can be negative; a table of one to nine
      rows raises (the step of the label loop is zero); a table of ten
      rows or more is drawn, with at most three marks; the rows that
      [nlargest] returns hold the largest value of the column when
      enough rows hold it ([nlargest_top]), and each of them is marked
      ([highlights_all]: the test of the loop is always true).
    - [Discovery]: the lists of vehicles and laps are sorted, free of
      duplicates and hold exactly the values that occur (for the laps:
      in a row of the vehicle); they do not depend on the chunking.
    - [Discovery]: the scan for the telemetry file is its six [glob]
      queries and nothing else (a name in mixed case is not found).
    - [Reader]: the loop over the reader ends, and gives the rows cut
      into pieces of the chunk size ([reader_terminates]); the chunks are
      rectangular and share their columns ([read_csv_well_formed]);
      reading what was printed gives the table back
      ([read_csv_print_table]); the loop of [process_lap_data] over the
      chunks is its body on the whole file ([process_lap_file_unchunked]);
      a file without a header loses its first line
      ([headerless_first_line_lost]); a header that holds the text
      vehicle_id without the two columns ends in "No data found"
      ([header_without_columns]); the scans return nothing when the file
      is missing or the reader raises ([scans_hide_failures]); a short
      line is a row of NaN, not a bad line ([short_line_is_a_row]); what
      the two scans return is read off the table of the file, and on
      every file a lap is offered exactly when the loader finds a row
      for it ([offered_laps_have_rows]).
    - [Pipeline]: the left merge gives every sample the scores of its
      segment; grouping the merged table by section gives back the
      metrics table; the processor's rows stay in time order through the
      segmentation; the summary line raises a KeyError; the laps offered
      for a vehicle are exactly the laps that load; the CLI of a section
      is NaN exactly when the section holds one sample
      ([analyse_cli_nan_iff]), and the insights fail exactly when no two
      samples share a segment ([insights_fail_iff_alone]); the body of
      the run ends in one of three ways, which the table decides
      ([analyse_outcome]): a table without rows raises a KeyError in
      [compute_cli], a lap of zero length raises in [segment_lap], every
      other table is analysed.
    - [Report]: the primary cause of a section whose index is a number
      is the first of the four metrics of the index that holds its
      largest term, which is at least a quarter of the index
      ([primary_cause_largest_term]); the two normalisations (of
      [compute_cli] and of [compute_insights]) agree on every cell that
      holds a number ([normalize_metric_agrees]) and differ on the NaN
      cells of a column without range.  The three marks of the track
      map are three samples of the most loaded section, all with its
      score, when that section holds three samples
      ([marks_in_one_section]).
    - [Units]: by [Proper] instances for every stage, a table whose lap
      distances are multiplied by a positive factor gets the same
      sections, metrics, scores and insights, and fails with the same
      error ([run_scaled]); a file whose speeds are multiplied by a
      positive factor gives such a table, whichever way the test
      [speed.max() > 100] goes, so that the unit of the speed shows in
      the path and in the distances only ([speed_unit_immaterial]).
    - [Dashboard]: by induction on [reachable], the store is empty or
      holds the analysis of its configuration, which is a selection of
      the world, and the caches hold what the scans find
      ([session_coherent]); a rerun without a click changes nothing
      ([rerun_stable]); an answer of a scan, once cached, is the answer
      of every later run, whatever the file holds by then
      ([caches_never_refreshed]); no run shows the invitation of the
      last lines of the script, because the first run analyses without
      a click and a stored table has rows ([invitation_never_shown]);
      every selection has rows in the file; with the
      processor as loader every stored section number is in range, end
      to end ([session_sections_in_range]); with any loader and in
      worlds that change, every stored CLI and smoothed CLI is NaN or in
      [0, 1] ([session_scores_in_unit]).  The page as written never
      stores an analysis and always stops ([page_as_written_stops]), and
      with any loader it never shows the summary ([page_never_shown]);
      with the column name of the table of sections it does
      ([page_with_section_id]).  When the file changes under the page
      the caches go stale ([stale_selection_stops]).  Of a stored
      analysis, whose table always has rows, the page shows a KeyError:
      'nan' when no two samples share a segment, 'segment_id' otherwise
      ([page_raises]); with the
      column name corrected the page of such an analysis of ten samples
      or more is shown, and names a segment of the lap and the largest
      smoothed score ([corrected_page_shown]).
      Progress: from
      every state of a session, a click on the button with a selection
      whose lap loads and analyses leads to the store of that analysis
      ([session_progress]).
    - [Files]: on a disk of clean files
      (the two columns present, every row that names a vehicle a full
      record) the loader and the scans on [world_of] are the functions
      of the sources on the text ([world_of_refines]), a run of the page
      with [file_loader] is a run on the world ([page_on_files]), and the
      section numbers stored are in range, from the text to the store
      ([files_sections_in_range]).
    - [Origin]: moving every time of a file by a constant changes the
      times of the samples and nothing else: the same error or the
      same samples, sections, scores and insights
      ([time_origin_immaterial]).
    - [Timestamps]: the closed forms of the calendar count the days of
      the years and of the months ([days_before_year_count],
      [days_before_month_count]); the count of nanoseconds follows the
      order of the times and tells them apart ([epoch_ns_lt],
      [epoch_ns_inj], [iso_datetime_order]); the times of the years 1678
      to 2261 fit the 64 bits ([epoch_ns_fits]); reading what
      [print_civil] writes gives the time back
      ([iso_datetime_round_trip]); a race file with its times in ISO
      notation is read as the same file with its times counted from
      zero, that much later ([evening_rows]).
    - [Requests]: every request ends in exactly one of six ways
      ([request_ends], [request_outcome_unique]): no file, no row of the
      vehicle and the lap, a channel under two names (these three are
      shown as a message and the script stops), no row with a time, a
      channel and a value (KeyError), a lap of zero length (the error of
      the integer cast; these two leave the script as exceptions), or the
      tables are stored.  A request that fails leaves the store as it
      was.

    ** Not modelled

    The matching of [glob] patterns against file names, the [print]
    calls, and the layout of the page and of the track map (titles,
    captions, colours, fonts, number formats).  Of the CSV format:
    quoted fields, and what pandas does with text that is not of the
    type of its column (a time that [pd.to_datetime] cannot read makes
    it raise; the model reads such a cell as missing).  The widgets and
    the caches of Streamlit, the joining of paths and [pandas.read_csv]
    are modelled from their documented behaviour, not from code of this
    repository.  app.py calls [load_data.load_session], which
    load_data.py does not define; [as_written] models the call as it is
    written (an AttributeError that the page catches) and
    [with_processor] puts [processor.process_lap_data] in its place.

    ** What is left

    The development stops here.  What could still be modelled is
    behaviour of pandas, not of the repository: the type inferred for
    the columns of a chunk, times in the other notations that
    [pd.to_datetime] reads, quoted fields.  Binary64 rounding is outside
    of the exact arithmetic of the model throughout. *)

From Stdlib Require Import String QArith Qround Qminmax Qabs Lqa Lia ZArith Bool.
From Stdlib Require Import List Permutation Sorted SetoidList Morphisms Setoid.
Import ListNotations.

Declare Scope pipeline_scope.
Delimit Scope pipeline_scope with pipe.
#[global] Open Scope Q_scope.

(** ** Python exceptions and the result monad *)

(** The exceptions the pipeline can raise.  [IntCastingNaNError] is what
    pandas raises when [astype(int)] meets NaN or an infinity. *)
Inductive pyerror : Type :=
| ValueError (msg : string)
| IntCastingNaNError
| FileNotFoundError (path : string)
| AttributeError (name : string)
| KeyError (key : string)
| TypeError (msg : string).

Inductive result (A : Type) : Type :=
| Ok (a : A)
| Err (e : pyerror).

Arguments Ok {A} a.
Arguments Err {A} e.

Definition bind {A B : Type} (c : result A) (k : A -> result B) : result B :=
  match c with
  | Ok a => k a
  | Err e => Err e
  end.

Definition rmap {A B : Type} (f : A -> B) (c : result A) : result B :=
  bind c (fun a => Ok (f a)).

Definition is_ok {A : Type} (c : result A) : bool :=
  match c with Ok _ => true | Err _ => false end.

(** Apply a fallible function to every element; the first error wins. *)
Fixpoint mapM {A B : Type} (f : A -> result B) (l : list A) : result (list B) :=
  match l with
  | [] => Ok []
  | a :: t =>
      match f a with
      | Ok b => match mapM f t with Ok bs => Ok (b :: bs) | Err e => Err e end
      | Err e => Err e
      end
  end.

Notation "x <- c ;; k" := (bind c (fun x => k))
  (at level 61, c at next level, right associativity) : pipeline_scope.

(** ** Hint databases and tactics *)

Create HintDb qpipe discriminated.
Create HintDb frame discriminated.

(** Turn the boolean tests of the code into the propositions they decide. *)
Ltac qbool :=
  repeat match goal with
  | H : Qle_bool _ _ = true |- _ => apply Qle_bool_iff in H
  | H : Qle_bool _ _ = false |- _ => apply not_true_iff_false in H; rewrite Qle_bool_iff in H
  | H : Qeq_bool _ _ = true |- _ => apply Qeq_bool_iff in H
  | H : Qeq_bool _ _ = false |- _ => apply Qeq_bool_neq in H
  end.

(** Case analysis on the first boolean test of the goal. *)
Ltac case_qtest :=
  match goal with
  | |- context [Qle_bool ?a ?b] => destruct (Qle_bool a b) eqn:?
  | |- context [Qeq_bool ?a ?b] => destruct (Qeq_bool a b) eqn:?
  end; qbool.

Ltac inv H := inversion H; subst; clear H.

(** ** Lemmas on the result monad *)

Lemma bind_Ok {A B : Type} (c : result A) (k : A -> result B) (b : B) :
  bind c k = Ok b -> exists a, c = Ok a /\ k a = Ok b.
Proof. destruct c as [a|e]; simpl; [eauto | discriminate]. Qed.

Lemma bind_Err {A B : Type} (c : result A) (k : A -> result B) (e : pyerror) :
  bind c k = Err e -> c = Err e \/ exists a, c = Ok a /\ k a = Err e.
Proof. destruct c as [a|e']; simpl; [eauto | intros [= ->]; auto]. Qed.

(** ** Lemmas on rationals *)

Lemma Qle_bool_false (a b : Q) : Qle_bool a b = false <-> b < a.
Proof.
  rewrite <- not_true_iff_false, Qle_bool_iff.
  split; [apply Qnot_le_lt | apply Qlt_not_le].
Qed.

Lemma Qdiv_nonneg (a b : Q) : 0 <= a -> 0 < b -> 0 <= a / b.
Proof. intros Ha Hb. apply Qle_shift_div_l; [assumption | lra]. Qed.

Lemma Qdiv_le_1 (a b : Q) : 0 < b -> a <= b -> a / b <= 1.
Proof. intros Hb Hab. apply Qle_shift_div_r; [assumption | lra]. Qed.

Lemma Qdiv_le_mono (a b c : Q) : 0 < c -> a <= b -> a / c <= b / c.
Proof.
  intros Hc Hab. unfold Qdiv. apply Qmult_le_compat_r; [assumption |].
  apply Qlt_le_weak, Qinv_lt_0_compat, Hc.
Qed.

Lemma Qdiv_self (a : Q) : ~ a == 0 -> a / a == 1.
Proof. intros Ha. field. exact Ha. Qed.

Lemma Qdiv_0_l (a : Q) : 0 / a == 0.
Proof. unfold Qdiv. ring. Qed.

Lemma Qfloor_nonneg (x : Q) : 0 <= x -> (0 <= Qfloor x)%Z.
Proof. intros Hx. change 0%Z with (Qfloor 0). apply Qfloor_resp_le, Hx. Qed.

Lemma Qfloor_neg (x : Q) : x < 0 -> (Qfloor x < 0)%Z.
Proof.
  intros Hx. pose proof (Qfloor_le x) as Hf.
  apply Z.lt_nge; intros Hge.
  rewrite Zle_Qle in Hge. change (inject_Z 0) with 0 in Hge. lra.
Qed.

Lemma Qfloor_lt_Z (x : Q) (n : Z) : x < inject_Z n -> (Qfloor x < n)%Z.
Proof.
  intros Hx. rewrite Zlt_Qlt.
  eapply Qle_lt_trans; [apply Qfloor_le | exact Hx].
Qed.

Lemma Qfloor_ge_Z (x : Q) (n : Z) : inject_Z n <= x -> (n <= Qfloor x)%Z.
Proof. intros Hx. rewrite <- (Qfloor_Z n). apply Qfloor_resp_le, Hx. Qed.

Lemma inject_Z_pos (n : Z) : (0 < n)%Z -> 0 < inject_Z n.
Proof. intros Hn. rewrite Zlt_Qlt in Hn. exact Hn. Qed.

Lemma inject_Z_nat_pos (n : nat) : (0 < n)%nat -> 0 < inject_Z (Z.of_nat n).
Proof. intros Hn. apply inject_Z_pos. lia. Qed.

Lemma Qdiv_inject_Z_nonzero (m : Q) (n : Z) :
  ~ m == 0 -> n <> 0%Z -> ~ m / inject_Z n == 0.
Proof.
  intros Hm Hn H. apply Hm.
  assert (Hq : ~ inject_Z n == 0).
  { intros E. apply Hn. apply (inject_Z_injective n 0). exact E. }
  rewrite <- (Qmult_div_r m (inject_Z n) Hq), H. ring.
Qed.

#[export] Hint Resolve Qdiv_nonneg Qdiv_le_1 Qdiv_le_mono Qle_refl
  Qfloor_nonneg inject_Z_pos inject_Z_nat_pos : qpipe.

(** ** Lemmas on lists *)

Lemma find_map_filter {A B : Type} (f : B -> bool) (g : A -> B) (p : A -> bool) (l : list A) :
  (forall x, f (g x) = true -> p x = true) ->
  find f (map g (filter p l)) = find f (map g l).
Proof.
  intros H. induction l as [| a l IH]; [reflexivity |]. cbn [filter map find].
  destruct (f (g a)) eqn:E.
  - rewrite (H a E). simpl. now rewrite E.
  - destruct (p a); simpl; [now rewrite E |]; exact IH.
Qed.

Lemma combine_nth_seq {A B : Type} (d : A) (e : B) (l : list A) (l' : list B) :
  length l' = length l ->
  combine l l' = map (fun i => (nth i l d, nth i l' e)) (seq 0 (length l)).
Proof.
  revert l'. induction l as [| a l IH]; intros [| b l']; try discriminate; [reflexivity |].
  intros [= H]. cbn [combine length seq map nth]. f_equal.
  now rewrite <- seq_shift, map_map, (IH l' H).
Qed.

Lemma combine_map_same {A B I : Type} (f : I -> A) (g : I -> B) (l : list I) :
  combine (map f l) (map g l) = map (fun i => (f i, g i)) l.
Proof. induction l as [| i l IH]; [reflexivity |]. simpl. now rewrite IH. Qed.

Lemma Forall_map_iff {A B : Type} (f : A -> B) (P : B -> Prop) (l : list A) :
  Forall P (map f l) <-> Forall (fun a => P (f a)) l.
Proof. induction l as [|a l IH]; simpl; split; intros H; try constructor; inv H; tauto. Qed.

Lemma Forall_impl_In {A : Type} (P R : A -> Prop) (l : list A) :
  (forall a, In a l -> P a -> R a) -> Forall P l -> Forall R l.
Proof. rewrite !Forall_forall. auto. Qed.

Lemma filter_length_le {A : Type} (f : A -> bool) (l : list A) :
  (length (filter f l) <= length l)%nat.
Proof. induction l as [|a l IH]; simpl; [|destruct (f a); simpl]; lia. Qed.

Lemma filter_all_true {A : Type} (f : A -> bool) (l : list A) :
  (forall a, In a l -> f a = true) -> filter f l = l.
Proof.
  induction l as [|a l IH]; simpl; intros H; [reflexivity |].
  rewrite (H a) by auto. f_equal. apply IH. auto.
Qed.

Lemma In_firstn {A : Type} (n : nat) (l : list A) (x : A) :
  In x (firstn n l) -> In x l.
Proof.
  revert l; induction n as [|n IH]; intros [|a l]; simpl; try tauto.
  intros [->|H]; auto.
Qed.

Lemma In_skipn {A : Type} (n : nat) (l : list A) (x : A) :
  In x (skipn n l) -> In x l.
Proof.
  revert l; induction n as [|n IH]; intros [|a l]; simpl; auto.
Qed.

Lemma nth_error_In_iff {A : Type} (l : list A) (x : A) :
  In x l <-> exists i, nth_error l i = Some x.
Proof.
  split; [apply In_nth_error | intros [i Hi]; eapply nth_error_In, Hi].
Qed.

Lemma mapM_Ok {A B : Type} (f : A -> result B) (g : A -> B) (l : list A) :
  (forall a, In a l -> f a = Ok (g a)) -> mapM f l = Ok (map g l).
Proof.
  induction l as [|a l IH]; simpl; intros H; [reflexivity |].
  rewrite (H a), IH by auto. reflexivity.
Qed.

Lemma mapM_Err {A B : Type} (f : A -> result B) (e : pyerror) (l : list A) :
  l <> [] -> (forall a, In a l -> f a = Err e) -> mapM f l = Err e.
Proof.
  destruct l as [|a l]; [congruence | intros _ H]. simpl.
  rewrite (H a) by (simpl; auto). reflexivity.
Qed.

(** ** Tables related row by row *)

(** Two results that fail alike or return related values. *)
Definition result_rel {A B : Type} (R : A -> B -> Prop) (x : result A) (y : result B) : Prop :=
  match x, y with
  | Ok a, Ok b => R a b
  | Err e, Err e' => e = e'
  | _, _ => False
  end.

Section Related.
Context {A B : Type} (R : A -> B -> Prop).

Lemma Forall2_filter (f : A -> bool) (g : B -> bool) (l : list A) (l' : list B) :
  (forall a b, R a b -> f a = g b) ->
  Forall2 R l l' -> Forall2 R (filter f l) (filter g l').
Proof.
  intros Hfg H. induction H as [| a b l l' Hab _ IH]; simpl; [constructor |].
  rewrite (Hfg a b Hab). destruct (g b); auto.
Qed.

Lemma Forall2_existsb (f : A -> bool) (g : B -> bool) (l : list A) (l' : list B) :
  (forall a b, R a b -> f a = g b) -> Forall2 R l l' -> existsb f l = existsb g l'.
Proof.
  intros Hfg H. induction H as [| a b l l' Hab _ IH]; simpl; [reflexivity |].
  now rewrite (Hfg a b Hab), IH.
Qed.

Lemma Forall2_map_eq {C : Type} (f : A -> C) (g : B -> C) (l : list A) (l' : list B) :
  (forall a b, R a b -> f a = g b) -> Forall2 R l l' -> map f l = map g l'.
Proof.
  intros Hfg H. induction H as [| a b l l' Hab _ IH]; simpl; [reflexivity |].
  now rewrite (Hfg a b Hab), IH.
Qed.

Lemma Forall2_map {C D : Type} (T : C -> D -> Prop) (f : A -> C) (g : B -> D)
  (l : list A) (l' : list B) :
  (forall a b, R a b -> T (f a) (g b)) -> Forall2 R l l' -> Forall2 T (map f l) (map g l').
Proof. intros Hfg H. induction H; simpl; constructor; auto. Qed.

Lemma Forall2_flat_map {C D : Type} (T : C -> D -> Prop) (f : A -> list C) (g : B -> list D)
  (l : list A) (l' : list B) :
  (forall a b, R a b -> Forall2 T (f a) (g b)) ->
  Forall2 R l l' -> Forall2 T (flat_map f l) (flat_map g l').
Proof.
  intros Hfg H. induction H; simpl; [constructor | apply Forall2_app; auto].
Qed.

Lemma Forall2_combine_l {C : Type} (l : list A) (l' : list B) (s : list C) :
  Forall2 R l l' ->
  Forall2 (fun p p' => R (fst p) (fst p') /\ snd p = snd p') (combine l s) (combine l' s).
Proof.
  intros H. revert s. induction H; intros [| z s]; simpl; constructor; auto.
Qed.

Lemma Forall2_nth (l : list A) (l' : list B) (d : A) (d' : B) (i : nat) :
  Forall2 R l l' -> R d d' -> R (nth i l d) (nth i l' d').
Proof.
  intros H Hd. revert i. induction H; intros [| i]; simpl; auto.
Qed.

Lemma Forall2_map_same {I : Type} (f : I -> A) (g : I -> B) (l : list I) :
  (forall i, R (f i) (g i)) -> Forall2 R (map f l) (map g l).
Proof. intros H. induction l; simpl; constructor; auto. Qed.

Lemma Forall2_map_in {I : Type} (f : I -> A) (g : I -> B) (l : list I) :
  (forall i, In i l -> R (f i) (g i)) -> Forall2 R (map f l) (map g l).
Proof.
  induction l as [|i l IH]; intros H; simpl; constructor.
  - apply H. now left.
  - apply IH. intros j Hj. apply H. now right.
Qed.

Lemma mapM_Forall2 {C : Type} (f : A -> result C) (g : B -> result C)
  (l : list A) (l' : list B) :
  (forall a b, R a b -> f a = g b) -> Forall2 R l l' -> mapM f l = mapM g l'.
Proof.
  intros Hfg H. induction H as [| a b l l' Hab _ IH]; simpl; [reflexivity |].
  now rewrite (Hfg a b Hab), IH.
Qed.

End Related.

Lemma mapM_length {A B : Type} (f : A -> result B) (l : list A) (bs : list B) :
  mapM f l = Ok bs -> length bs = length l.
Proof.
  revert bs; induction l as [|a l IH]; simpl; intros bs.
  - intros [= <-]. reflexivity.
  - destruct (f a); [|discriminate].
    destruct (mapM f l); [|discriminate].
    intros [= <-]. simpl. f_equal. auto.
Qed.

(** Columns built from the same table pair up row by row. *)
Lemma combine_map_self {A B : Type} (h : A -> B) (l : list A) :
  combine l (map h l) = map (fun a => (a, h a)) l.
Proof. induction l as [|a l IH]; simpl; congruence. Qed.

Lemma combine_maps {A B C : Type} (f : A -> B) (g : A -> C) (l : list A) :
  combine (map f l) (map g l) = map (fun a => (f a, g a)) l.
Proof. induction l as [|a l IH]; simpl; congruence. Qed.

Lemma combine3_map {A B C D : Type} (f : A -> B) (g : A -> C) (l : list A) (s : list D) :
  combine l (combine (map f l) (combine (map g l) s)) =
  map (fun p => (fst p, (f (fst p), (g (fst p), snd p)))) (combine l s).
Proof.
  revert s; induction l as [|a l IH]; intros [|d s]; simpl; try reflexivity.
  f_equal. apply IH.
Qed.

Lemma map_fst_combine {A B : Type} (l : list A) (s : list B) :
  length s = length l -> map fst (combine l s) = l.
Proof.
  revert s; induction l as [|a l IH]; intros [|b s]; simpl; try discriminate; auto.
  intros [= H]. f_equal. auto.
Qed.

Lemma map_snd_combine {A B : Type} (l : list A) (s : list B) :
  length s = length l -> map snd (combine l s) = s.
Proof.
  revert s; induction l as [|a l IH]; intros [|b s]; simpl; try discriminate; auto.
  intros [= H]. f_equal. auto.
Qed.

Lemma Forall_elim {A : Type} (P : A -> Prop) (l : list A) (x : A) :
  Forall P l -> In x l -> P x.
Proof. rewrite Forall_forall. auto. Qed.

Lemma list_sum_map_zero {A : Type} (f : A -> nat) (l : list A) :
  (forall x, f x = 0%nat) -> list_sum (map f l) = 0%nat.
Proof. intros H. induction l as [|a l IH]; simpl; [reflexivity | rewrite H, IH; reflexivity]. Qed.

(** Counting by key.  Adding one at a single key of a duplicate-free list
    adds one to the sum; hence the classes of a table by a key whose
    values all lie in [ks] have sizes that add up to the table's size. *)
Section Counting.
Context {A K : Type}.
Variable eqb : K -> K -> bool.
Hypothesis eqb_spec : forall x y, reflect (x = y) (eqb x y).
Variable key : A -> K.

Lemma list_sum_indicator (f : K -> nat) (x : K) (ks : list K) :
  NoDup ks -> In x ks ->
  list_sum (map (fun k => (f k + (if eqb x k then 1 else 0))%nat) ks) =
  S (list_sum (map f ks)).
Proof.
  induction 1 as [|k ks Hk Hnd IH]; [contradiction |].
  intros [->|Hin]; simpl.
  - destruct (eqb_spec x x); [|congruence]. rewrite (map_ext_in _ f); [lia |].
    intros k' Hk'. destruct (eqb_spec x k'); [congruence | lia].
  - destruct (eqb_spec x k); [congruence |]. rewrite (IH Hin). lia.
Qed.

Definition class_of (k : K) (l : list A) : list A :=
  filter (fun r => eqb (key r) k) l.

Lemma class_sizes (ks : list K) (l : list A) :
  NoDup ks -> (forall r, In r l -> In (key r) ks) ->
  list_sum (map (fun k => length (class_of k l)) ks) = length l.
Proof.
  intros Hnd Hall. induction l as [|r l IH].
  - apply list_sum_map_zero. reflexivity.
  - rewrite (map_ext _ (fun k => (length (class_of k l) + (if eqb (key r) k then 1 else 0))%nat)).
    + rewrite list_sum_indicator by (auto; apply Hall; simpl; auto).
      simpl. f_equal. apply IH. intros; apply Hall; simpl; auto.
    + intros k. unfold class_of. simpl. destruct (eqb (key r) k); simpl; lia.
Qed.

End Counting.

Lemma filter_nil {A : Type} (f : A -> bool) (l : list A) :
  (forall a, In a l -> f a = false) -> filter f l = [].
Proof.
  induction l as [|a l IH]; simpl; intros H; [reflexivity |].
  rewrite (H a) by auto. apply IH. auto.
Qed.

(** ** Elementwise operations on two columns *)

Fixpoint map2 {A B C : Type} (f : A -> B -> C) (l : list A) (s : list B) : list C :=
  match l, s with
  | a :: l', b :: s' => f a b :: map2 f l' s'
  | _, _ => []
  end.

Lemma map2_length {A B C : Type} (f : A -> B -> C) (l : list A) (s : list B) :
  length s = length l -> length (map2 f l s) = length l.
Proof.
  revert s; induction l as [|a l IH]; intros [|b s]; simpl; try discriminate; auto.
Qed.

Lemma map2_map {A B C D E : Type} (f : B -> C -> D) (g : A -> B) (h : E -> C)
  (l : list A) (s : list E) :
  map2 f (map g l) (map h s) = map2 (fun a e => f (g a) (h e)) l s.
Proof.
  revert s; induction l as [|a l IH]; intros [|b s]; simpl; try reflexivity.
  f_equal. apply IH.
Qed.

Lemma map2_same {A C : Type} (f : A -> A -> C) (l : list A) :
  map2 f l l = map (fun a => f a a) l.
Proof. induction l as [|a l IH]; simpl; congruence. Qed.

Lemma map_nth_seq {A : Type} (l : list A) (d : A) :
  map (fun i => nth i l d) (seq 0 (length l)) = l.
Proof.
  induction l as [|a l IH]; [reflexivity |].
  simpl. f_equal. rewrite <- seq_shift, map_map. exact IH.
Qed.

Lemma map2_Forall {A B C : Type} (P : A -> Prop) (R : B -> Prop) (T : C -> Prop)
  (f : A -> B -> C) (l : list A) (s : list B) :
  (forall a b, P a -> R b -> T (f a b)) ->
  Forall P l -> Forall R s -> Forall T (map2 f l s).
Proof.
  intros Hf Hl; revert s; induction Hl as [|a l Ha Hl IH]; intros s Hs; [constructor |].
  destruct Hs as [|b s Hb Hs]; simpl; constructor; auto.
Qed.

Lemma nth_error_map2 {A B C : Type} (f : A -> B -> C) (l : list A) (s : list B) (i : nat)
  (c : C) :
  nth_error (map2 f l s) i = Some c ->
  exists a b, nth_error l i = Some a /\ nth_error s i = Some b /\ c = f a b.
Proof.
  revert s i; induction l as [|a l IH]; intros [|b s] [|i]; simpl; try discriminate.
  - intros [= <-]. eauto.
  - apply IH.
Qed.

Lemma map2_In {A B C : Type} (f : A -> B -> C) (l : list A) (s : list B) (c : C) :
  In c (map2 f l s) -> exists i a b, nth_error l i = Some a /\ nth_error s i = Some b
                                     /\ c = f a b.
Proof.
  intros H. apply In_nth_error in H as [i Hi]. exists i. now apply nth_error_map2.
Qed.

(** ** Sorted lists *)

Lemma StronglySorted_app {A : Type} (R : A -> A -> Prop) (l s : list A) :
  StronglySorted R l -> StronglySorted R s ->
  (forall a b, In a l -> In b s -> R a b) -> StronglySorted R (l ++ s).
Proof.
  intros Hl Hs Hc. induction Hl as [|a l Hl IH Ha]; simpl; [exact Hs |].
  constructor.
  - apply IH. intros x y Hx. apply Hc. now right.
  - apply Forall_app. split; [exact Ha |].
    apply Forall_forall. intros b Hb. apply Hc; [now left | exact Hb].
Qed.

Lemma StronglySorted_app_inv {A : Type} (R : A -> A -> Prop) (l s : list A) :
  StronglySorted R (l ++ s) -> forall a b, In a l -> In b s -> R a b.
Proof.
  induction l as [|x l IH]; simpl; intros H a b Ha Hb; [contradiction |].
  inversion H as [|? ? Hs Hf]; subst. destruct Ha as [<-|Ha]; [| now apply IH].
  rewrite Forall_forall in Hf. apply Hf, in_or_app. now right.
Qed.

Lemma StronglySorted_impl_In {A : Type} (R T : A -> A -> Prop) (l : list A) :
  (forall a b, In a l -> In b l -> R a b -> T a b) ->
  StronglySorted R l -> StronglySorted T l.
Proof.
  intros H Hs. induction Hs as [|a l Hs IH Ha]; constructor.
  - apply IH. intros x y Hx Hy. apply H; now right.
  - rewrite Forall_forall in *. intros b Hb. apply H; [now left | now right | now apply Ha].
Qed.

Lemma StronglySorted_firstn_skipn {A : Type} (R : A -> A -> Prop) (n : nat) (l : list A) :
  StronglySorted R l -> forall a b, In a (firstn n l) -> In b (skipn n l) -> R a b.
Proof.
  intros H. apply StronglySorted_app_inv. now rewrite firstn_skipn.
Qed.

(** ** Filters and prefixes *)

Lemma Permutation_filter {A : Type} (f : A -> bool) (l l' : list A) :
  Permutation l l' -> Permutation (filter f l) (filter f l').
Proof.
  induction 1 as [| x l l' _ IH | x y l | l l' l'' _ IH1 _ IH2]; simpl.
  - constructor.
  - destruct (f x); [now constructor | exact IH].
  - destruct (f x), (f y); try reflexivity. constructor.
  - now transitivity (filter f l').
Qed.

Lemma filter_none {A : Type} (f : A -> bool) (l : list A) :
  (forall a, In a l -> f a = false) -> filter f l = [].
Proof.
  induction l as [|x l IH]; [reflexivity |]. intros H. simpl.
  rewrite (H x (or_introl eq_refl)). apply IH. intros a Ha. apply H. now right.
Qed.

Lemma filter_length_lt {A : Type} (f : A -> bool) (l : list A) (a : A) :
  In a l -> f a = false -> (length (filter f l) < length l)%nat.
Proof.
  induction l as [|x l IH]; [intros [] |]. intros [->|Hin] Ha; simpl.
  - rewrite Ha. pose proof (filter_length_le f l). lia.
  - specialize (IH Hin Ha). destruct (f x); simpl; lia.
Qed.

Lemma filter_length_mono {A : Type} (f g : A -> bool) (l : list A) :
  (forall a, In a l -> f a = true -> g a = true) ->
  (length (filter f l) <= length (filter g l))%nat.
Proof.
  induction l as [|x l IH]; intros H; simpl; [lia |].
  assert (IH' := IH (fun a Ha => H a (or_intror Ha))).
  destruct (f x) eqn:Ef; [rewrite (H x (or_introl eq_refl) Ef) |]; simpl; [lia |].
  destruct (g x); simpl; lia.
Qed.

Lemma flat_map_guard {A B : Type} (g : A -> bool) (h : A -> B) (l : list A) :
  (forall a, In a l -> g a = true) ->
  flat_map (fun a => if g a then [h a] else []) l = map h l.
Proof.
  induction l as [|a l IH]; intros H; [reflexivity |]. simpl.
  rewrite (H a (or_introl eq_refl)), IH; [reflexivity |]. intros b Hb. apply H. now right.
Qed.

Lemma convex_bounds (mn mx a b f : Q) :
  mn <= a <= mx -> mn <= b <= mx -> 0 <= f <= 1 -> mn <= a + (b - a) * f <= mx.
Proof. intros Ha Hb Hf. split; nra. Qed.

Lemma fold_right_select {A : Type} (f : A -> A -> A) (d : A) (l : list A) :
  (forall a b, f a b = a \/ f a b = b) -> In (fold_right f d l) (d :: l).
Proof.
  intros Hf. induction l as [|a l IH]; simpl; [now left |].
  destruct (Hf a (fold_right f d l)) as [->| ->]; [right; now left |].
  destruct IH as [<-|IH]; [now left | right; now right].
Qed.

Lemma fold_right_max_ge (l : list nat) (n : nat) :
  In n l -> (n <= fold_right Nat.max 0 l)%nat.
Proof.
  induction l as [|a l IH]; simpl; [contradiction |].
  intros [->|H]; [lia | specialize (IH H); lia].
Qed.

Lemma fold_right_max_In (l : list nat) : l <> [] -> In (fold_right Nat.max 0%nat l) l.
Proof.
  induction l as [|a l IH]; [congruence | intros _]. simpl.
  destruct l as [|b l]; [left; simpl; lia |].
  destruct (Nat.max_spec a (fold_right Nat.max 0%nat (b :: l))) as [[_ E]|[_ E]];
    rewrite E; [right; apply IH; discriminate | now left].
Qed.

Lemma map_const_repeat {A B : Type} (b : B) (l : list A) :
  map (fun _ => b) l = repeat b (length l).
Proof. induction l as [|a l IH]; simpl; congruence. Qed.

(** ** Results of concrete runs *)

(** The value of a computation that succeeds, [d] otherwise. *)
Definition get_or {A : Type} (d : A) (c : result A) : A :=
  match c with
  | Ok a => a
  | Err _ => d
  end.

Lemma is_ok_get_or {A : Type} (d : A) (c : result A) :
  is_ok c = true -> c = Ok (get_or d c).
Proof. destruct c; [reflexivity | discriminate]. Qed.

Lemma length_removelast {A : Type} (l : list A) : length (removelast l) = (length l - 1)%nat.
Proof. rewrite removelast_firstn_len, length_firstn. lia. Qed.
