(* ===== verification/MathLib.v ===== *)
(** * MathLib: the transcendental functions of numpy as an interface

    The pipeline calls [np.log] (through scipy's entropy), [np.sqrt]
    (through the standard deviation of pandas), [np.tan], [np.cos],
    [np.sin] and [np.radians].  Their values are not rational, so they
    enter the development as a class of operations on [Q] together with
    the laws the theorems use; every theorem about a component that calls
    them is proved for any implementation that satisfies the laws.
    [rational_math] is one such implementation, by rational approximants,
    which makes the components executable. *)

From Stdlib Require Import String QArith Qround Qminmax Lqa Lia ZArith Bool.
From Stdlib Require Import List Morphisms Setoid.
From S2P Require Import Prelude.
Import ListNotations.

Class MathLib : Type := {
  np_log : Q -> Q;
  np_sqrt : Q -> Q;
  np_tan : Q -> Q;
  np_cos : Q -> Q;
  np_sin : Q -> Q;
  np_pi : Q
}.

Class MathLibLaws (M : MathLib) : Prop := {
  np_log_Proper : Proper (Qeq ==> Qeq) np_log;
  np_log_1 : np_log 1 == 0;
  np_log_nonpos : forall x, 0 < x -> x <= 1 -> np_log x <= 0;
  np_sqrt_Proper : Proper (Qeq ==> Qeq) np_sqrt;
  np_sqrt_nonneg : forall x, 0 <= np_sqrt x;
  np_sqrt_0 : np_sqrt 0 == 0;
  np_tan_Proper : Proper (Qeq ==> Qeq) np_tan;
  np_tan_0 : np_tan 0 == 0;
  np_cos_Proper : Proper (Qeq ==> Qeq) np_cos;
  np_sin_Proper : Proper (Qeq ==> Qeq) np_sin;
  np_cos_sin : forall x, np_cos x * np_cos x + np_sin x * np_sin x == 1;
  np_cos_0 : np_cos 0 == 1;
  np_sin_0 : np_sin 0 == 0;
  np_cos_nonneg : forall x, - (np_pi / 2) <= x <= np_pi / 2 -> 0 <= np_cos x;
  np_sin_nonneg : forall x, 0 <= x <= np_pi -> 0 <= np_sin x;
  np_pi_pos : 0 < np_pi
}.

#[export] Existing Instances np_log_Proper np_sqrt_Proper np_tan_Proper
  np_cos_Proper np_sin_Proper.

(** [np.radians]: degrees to radians. *)
Definition np_radians {M : MathLib} (deg : Q) : Q := deg * np_pi / 180.

(** ** A rational implementation *)

(** Logarithm: three terms of [2 * atanh ((x - 1) / (x + 1))]. *)
Definition q_log (x : Q) : Q :=
  let z := (x - 1) / (x + 1) in
  2 * z * (1 + z * z / 3 + z * z * z * z / 5).

(** Square root: the integer square root at six decimal places. *)
Definition q_sqrt (x : Q) : Q :=
  inject_Z (Z.sqrt (Qfloor (x * 1000000000000))) / 1000000.

(** Tangent: two terms of its series. *)
Definition q_tan (x : Q) : Q := x + x * x * x / 3.

(** Cosine and sine: the point of the unit circle with half-angle
    tangent [x / 2]. *)
Definition q_cos (x : Q) : Q :=
  let t := x / 2 in (1 - t * t) / (1 + t * t).

Definition q_sin (x : Q) : Q :=
  let t := x / 2 in 2 * t / (1 + t * t).

Definition q_pi : Q := 355 # 113.

#[export] Instance rational_math : MathLib := {|
  np_log := q_log;
  np_sqrt := q_sqrt;
  np_tan := q_tan;
  np_cos := q_cos;
  np_sin := q_sin;
  np_pi := q_pi
|}.

(** * Lemmas *)

Lemma q_log_nonpos (x : Q) : 0 < x -> x <= 1 -> q_log x <= 0.
Proof.
  intros Hx Hx1. unfold q_log. cbv zeta.
  set (z := (x - 1) / (x + 1)).
  assert (Hz : z <= 0).
  { unfold z. apply Qle_shift_div_r; lra. }
  clearbody z.
  assert (Hzz : 0 <= z * z) by nra.
  assert (Hz4 : 0 <= z * z * z * z).
  { setoid_replace (z * z * z * z) with ((z * z) * (z * z)) by ring.
    apply Qmult_le_0_compat; assumption. }
  set (b := 1 + z * z / 3 + z * z * z * z / 5).
  assert (H3 : 0 <= z * z / 3) by (apply Qle_shift_div_l; lra).
  assert (H5 : 0 <= z * z * z * z / 5) by (apply Qle_shift_div_l; lra).
  assert (Hb : 1 <= b) by (unfold b; lra).
  clearbody b.
  setoid_replace (2 * z * b) with (- (2 * ((- z) * b))) by ring.
  assert (0 <= (- z) * b) by (apply Qmult_le_0_compat; lra).
  lra.
Qed.

Lemma q_cos_sin (x : Q) : q_cos x * q_cos x + q_sin x * q_sin x == 1.
Proof.
  unfold q_cos, q_sin. cbv zeta. set (t := x / 2). clearbody t.
  assert (Ht : ~ 1 + t * t == 0) by nra.
  field. exact Ht.
Qed.

Lemma q_cos_nonneg (x : Q) : - (q_pi / 2) <= x <= q_pi / 2 -> 0 <= q_cos x.
Proof.
  intros Hx. unfold q_cos. cbv zeta.
  assert (Ht : -1 <= x / 2 <= 1).
  { unfold q_pi in Hx.
    assert (H2 : (355 # 113) / 2 <= 2) by (apply Qle_shift_div_r; [reflexivity | lra]).
    split; [apply Qle_shift_div_l | apply Qle_shift_div_r]; try reflexivity; lra. }
  set (t := x / 2) in *. clearbody t.
  apply Qle_shift_div_l; nra.
Qed.

Lemma q_sin_nonneg (x : Q) : 0 <= x <= q_pi -> 0 <= q_sin x.
Proof.
  intros Hx. unfold q_sin. cbv zeta.
  assert (Ht : 0 <= x / 2) by (apply Qle_shift_div_l; [reflexivity | lra]).
  set (t := x / 2) in *. clearbody t.
  apply Qle_shift_div_l; nra.
Qed.

#[export] Instance rational_math_laws : MathLibLaws rational_math.
Proof.
  split; simpl.
  - intros x y E. unfold q_log. rewrite E. reflexivity.
  - reflexivity.
  - exact q_log_nonpos.
  - intros x y E. unfold q_sqrt. rewrite E. reflexivity.
  - intros x. unfold q_sqrt. apply Qdiv_nonneg; [|reflexivity].
    rewrite <- (Zle_Qle 0). apply Z.sqrt_nonneg.
  - reflexivity.
  - intros x y E. unfold q_tan. rewrite E. reflexivity.
  - unfold q_tan. field.
  - intros x y E. unfold q_cos. rewrite E. reflexivity.
  - intros x y E. unfold q_sin. rewrite E. reflexivity.
  - exact q_cos_sin.
  - reflexivity.
  - reflexivity.
  - exact q_cos_nonneg.
  - exact q_sin_nonneg.
  - reflexivity.
Qed.
