(* ===== verification/Series.v ===== *)
(** * Series: the column primitives of pandas and numpy used by the pipeline

    A column of finite numbers is a [list Q]; a column that may hold NaN is
    a [list float] with [float := option Q] and [None] for NaN.  The
    arithmetic propagates NaN, the comparisons with NaN are false and the
    aggregates ([series_min], [series_max], [series_mean], the rolling
    mean) skip NaN, as pandas does with its default [skipna=True].

    Each primitive is written once here and mapped to a line of the
    sources that calls it; the components apply them in the order the
    sources do. *)

From Stdlib Require Import String QArith Qround Qminmax Qabs Lqa Lia ZArith Bool.
From Stdlib Require Import List Permutation Sorted SetoidList Morphisms Setoid.
From S2P Require Import Prelude.
Import ListNotations.

(** ** Possibly-NaN numbers *)

Abbreviation float := (option Q).

Definition flift2 (f : Q -> Q -> Q) (x y : float) : float :=
  match x, y with
  | Some a, Some b => Some (f a b)
  | _, _ => None
  end.

Definition fadd : float -> float -> float := flift2 Qplus.
Definition fsub : float -> float -> float := flift2 Qminus.
Definition fmul : float -> float -> float := flift2 Qmult.

(** [x / y].  A zero divisor gives a non-finite value in IEEE arithmetic
    (an infinity or NaN), collapsed to [None] here; the callers test the
    divisor first, see [CliModel.normalize_series]. *)
Definition fdiv (x y : float) : float :=
  match x, y with
  | Some a, Some b => if Qeq_bool b 0 then None else Some (a / b)
  | _, _ => None
  end.

(** [x == y] and [x > y] of Python: false as soon as one side is NaN. *)
Definition feqb (x y : float) : bool :=
  match x, y with
  | Some a, Some b => Qeq_bool a b
  | _, _ => false
  end.

Definition fgtb (x y : float) : bool :=
  match x, y with
  | Some a, Some b => negb (Qle_bool a b)
  | _, _ => false
  end.

Definition fgeb (x y : float) : bool :=
  match x, y with
  | Some a, Some b => Qle_bool b a
  | _, _ => false
  end.

(** Equality of possibly-NaN numbers up to [Qeq]; two NaN are related
    (this is the equality of values, not Python's [==]). *)
Definition feq (x y : float) : Prop :=
  match x, y with
  | Some a, Some b => a == b
  | None, None => True
  | _, _ => False
  end.

(** [P] holds of the number when it is not NaN. *)
Definition fholds (P : Q -> Prop) (x : float) : Prop :=
  match x with
  | Some a => P a
  | None => True
  end.

Definition is_nan (x : float) : bool :=
  match x with Some _ => false | None => true end.

Definition in_unit (q : Q) : Prop := 0 <= q <= 1.

(** ** Quotients that may be non-finite

    The two divisions of [segment_lap] are not guarded, so their results
    are kept with the IEEE special values: a division by zero gives an
    infinity (NaN for 0/0), and a floor division by an infinity gives 0 or
    -1 according to the signs of the operands. *)
Inductive xfloat : Type :=
| Finite (q : Q)
| PosInf
| NegInf
| NotANumber.

(** [x / 0] for a finite [x]. *)
Definition div_zero (x : Q) : xfloat :=
  if Qeq_bool x 0 then NotANumber
  else if Qle_bool 0 x then PosInf else NegInf.

(** [m / n] for a possibly-NaN [m] and a Python int [n]. *)
Definition div_by_int (m : float) (n : Z) : xfloat :=
  match m with
  | None => NotANumber
  | Some q => if (n =? 0)%Z then div_zero q else Finite (q / inject_Z n)
  end.

(** [d // len] on a float column. *)
Definition floordiv (d : Q) (len : xfloat) : xfloat :=
  match len with
  | Finite l =>
      if Qeq_bool l 0 then div_zero d
      else Finite (inject_Z (Qfloor (d / l)))
  | PosInf => Finite (if Qle_bool 0 d then 0 else -1)
  | NegInf => Finite (if Qle_bool d 0 then 0 else -1)
  | NotANumber => NotANumber
  end.

(** [.astype(int)] on one value: pandas raises on NaN and on infinities.
    The values it is applied to are integral, so the rounding mode of the
    cast does not matter. *)
Definition astype_int (x : xfloat) : result Z :=
  match x with
  | Finite q => Ok (Qfloor q)
  | _ => Err IntCastingNaNError
  end.

(** [.clip(upper=u)] on an integer. *)
Definition clip_upper (u : Z) (x : Z) : Z := Z.min x u.

(** ** Aggregates of a finite column *)

Definition Qsum (l : list Q) : Q := fold_right Qplus 0 l.

Definition Qlen (l : list Q) : Q := inject_Z (Z.of_nat (length l)).

(** [mean]: NaN on an empty column. *)
Definition Qmean (l : list Q) : float :=
  match l with
  | [] => None
  | _ :: _ => Some (Qsum l / Qlen l)
  end.

Definition Qmin_list (l : list Q) : float :=
  match l with
  | [] => None
  | x :: t => Some (fold_left Qmin t x)
  end.

Definition Qmax_list (l : list Q) : float :=
  match l with
  | [] => None
  | x :: t => Some (fold_left Qmax t x)
  end.

(** ** Aggregates of a possibly-NaN column: NaN is skipped *)

Fixpoint dropna (s : list float) : list Q :=
  match s with
  | [] => []
  | Some a :: t => a :: dropna t
  | None :: t => dropna t
  end.

Definition series_min (s : list float) : float := Qmin_list (dropna s).
Definition series_max (s : list float) : float := Qmax_list (dropna s).
Definition series_mean (s : list float) : float := Qmean (dropna s).

(** [s.fillna(v)] *)
Definition fillna (v : Q) (s : list float) : list Q :=
  map (fun x => match x with Some a => a | None => v end) s.

(** ** Known values

    [first_valid_index] and the fills look for the values that are not
    NaN. *)

Definition known (x : float) : Prop := x <> None.

Definition orelse (a b : float) : float :=
  match a with Some _ => a | None => b end.

(** The first value of a column that is not NaN. *)
Fixpoint first_known (s : list float) : float :=
  match s with
  | [] => None
  | Some v :: _ => Some v
  | None :: t => first_known t
  end.

(** ** Forward and backward fill *)

Fixpoint ffill_from (last : float) (s : list float) : list float :=
  match s with
  | [] => []
  | x :: t =>
      let v := match x with Some _ => x | None => last end in
      v :: ffill_from v t
  end.

Definition ffill (s : list float) : list float := ffill_from None s.

Fixpoint bfill (s : list float) : list float :=
  match s with
  | [] => []
  | x :: t =>
      let t' := bfill t in
      match x with
      | Some _ => x :: t'
      | None => hd None t' :: t'
      end
  end.

(** ** Differences and running sums *)

(** [s.diff()]: NaN first, then the consecutive differences. *)
Fixpoint diff_from (prev : Q) (l : list Q) : list float :=
  match l with
  | [] => []
  | x :: t => Some (x - prev) :: diff_from x t
  end.

Definition diff (l : list Q) : list float :=
  match l with
  | [] => []
  | x :: t => None :: diff_from x t
  end.

(** [s.cumsum()] *)
Fixpoint cumsum_from (acc : Q) (l : list Q) : list Q :=
  match l with
  | [] => []
  | x :: t => (acc + x) :: cumsum_from (acc + x) t
  end.

Definition cumsum (l : list Q) : list Q := cumsum_from 0 l.

(** ** Centred rolling mean

    [s.rolling(window=w, center=True, min_periods=m).mean()]: the value at
    index [i] is the mean of the observations that are not NaN among
    the indices [i + off - w + 1 .. i + off], [off = (w - 1) / 2], clipped
    to the column; it is NaN when fewer than [m] of them exist. *)

Definition window_lo (w i : nat) : nat := (i + (w - 1) / 2 + 1 - w)%nat.
Definition window_hi (w i : nat) : nat := (i + (w - 1) / 2 + 1)%nat.

Definition window {A : Type} (w i : nat) (s : list A) : list A :=
  firstn (window_hi w i - window_lo w i) (skipn (window_lo w i) s).

Definition rolling_mean (w m : nat) (s : list float) : list float :=
  map (fun i =>
         let obs := dropna (window w i s) in
         if (m <=? length obs)%nat then Qmean obs else None)
      (seq 0 (length s)).

(** * Lemmas *)

(** ** Equality up to [Qeq] *)

#[export] Instance feq_Equivalence : Equivalence feq.
Proof.
  split.
  - intros [a|]; simpl; [reflexivity | exact I].
  - intros [a|] [b|]; simpl; auto. intros H; symmetry; exact H.
  - intros [a|] [b|] [c|]; simpl; try tauto. intros H1 H2; rewrite H1; exact H2.
Qed.

#[export] Instance flift2_Proper (f : Q -> Q -> Q) :
  Proper (Qeq ==> Qeq ==> Qeq) f -> Proper (feq ==> feq ==> feq) (flift2 f).
Proof.
  intros Hf [a|] [b|] Hab [c|] [d|] Hcd; simpl in *; try tauto.
  apply Hf; assumption.
Qed.

#[export] Instance fadd_Proper : Proper (feq ==> feq ==> feq) fadd.
Proof. apply flift2_Proper, Qplus_comp. Qed.

#[export] Instance fsub_Proper : Proper (feq ==> feq ==> feq) fsub.
Proof. apply flift2_Proper, Qminus_comp. Qed.

#[export] Instance fmul_Proper : Proper (feq ==> feq ==> feq) fmul.
Proof. apply flift2_Proper, Qmult_comp. Qed.

#[export] Instance fdiv_Proper : Proper (feq ==> feq ==> feq) fdiv.
Proof.
  intros [a|] [b|] Hab [c|] [d|] Hcd; simpl in *; try tauto.
  rewrite (Qeqb_comp c d Hcd 0 0 (Qeq_refl 0)).
  destruct (Qeq_bool d 0); simpl; [exact I | rewrite Hab, Hcd; reflexivity].
Qed.

#[export] Instance feqb_Proper : Proper (feq ==> feq ==> eq) feqb.
Proof.
  intros [a|] [b|] Hab [c|] [d|] Hcd; simpl in *; try tauto.
  apply Qeqb_comp; assumption.
Qed.

#[export] Instance fholds_Proper (P : Q -> Prop) :
  Proper (Qeq ==> iff) P -> Proper (feq ==> iff) (fholds P).
Proof. intros HP [a|] [b|] Hab; simpl in *; try tauto. apply HP, Hab. Qed.

#[export] Instance in_unit_Proper : Proper (Qeq ==> iff) in_unit.
Proof. intros a b Hab. unfold in_unit. rewrite Hab. reflexivity. Qed.

Lemma fholds_impl (P R : Q -> Prop) (x : float) :
  (forall a, P a -> R a) -> fholds P x -> fholds R x.
Proof. destruct x; simpl; auto. Qed.

Lemma fdiv_Some (a b : Q) : ~ b == 0 -> fdiv (Some a) (Some b) = Some (a / b).
Proof.
  intros Hb. simpl. destruct (Qeq_bool b 0) eqn:E; [|reflexivity].
  apply Qeq_bool_iff in E. contradiction.
Qed.

(** ** Selecting folds: minimum and maximum *)

Section SelectFold.
Variable op : Q -> Q -> Q.
Variable R : Q -> Q -> Prop.
Hypothesis op_sel : forall x y, op x y = x \/ op x y = y.
Hypothesis op_l : forall x y, R (op x y) x.
Hypothesis op_r : forall x y, R (op x y) y.
Hypothesis R_trans : forall x y z, R x y -> R y z -> R x z.

Lemma fold_select_In (t : list Q) (x : Q) :
  In (fold_left op t x) (x :: t).
Proof.
  revert x; induction t as [|a t IH]; intros x; simpl; [auto |].
  destruct (IH (op x a)) as [H|H]; [|auto].
  rewrite <- H. destruct (op_sel x a) as [->| ->]; auto.
Qed.

Lemma fold_select_bound (t : list Q) (x : Q) :
  Forall (R (fold_left op t x)) (x :: t).
Proof.
  revert x; induction t as [|a t IH]; intros x; simpl.
  - assert (E : op x x = x) by (destruct (op_sel x x); assumption).
    pose proof (op_l x x) as H. rewrite E in H. auto.
  - specialize (IH (op x a)). inv IH.
    constructor; [eapply R_trans; [eassumption | apply op_l] |].
    constructor; [eapply R_trans; [eassumption | apply op_r] | assumption].
Qed.

End SelectFold.

Lemma Qmin_sel (x y : Q) : Qmin x y = x \/ Qmin x y = y.
Proof. unfold Qmin, GenericMinMax.gmin. destruct (x ?= y); auto. Qed.

Lemma Qmax_sel (x y : Q) : Qmax x y = x \/ Qmax x y = y.
Proof. unfold Qmax, GenericMinMax.gmax. destruct (x ?= y); auto. Qed.

Lemma Qmin_list_In (l : list Q) (m : Q) : Qmin_list l = Some m -> In m l.
Proof.
  destruct l as [|x t]; simpl; intros [= <-].
  apply (fold_select_In Qmin Qmin_sel).
Qed.

Lemma Qmax_list_In (l : list Q) (m : Q) : Qmax_list l = Some m -> In m l.
Proof.
  destruct l as [|x t]; simpl; intros [= <-].
  apply (fold_select_In Qmax Qmax_sel).
Qed.

Lemma Qmin_list_le (l : list Q) (m : Q) :
  Qmin_list l = Some m -> Forall (fun x => m <= x) l.
Proof.
  destruct l as [|x t]; simpl; intros [= <-].
  apply (fold_select_bound Qmin Qle Qmin_sel Q.le_min_l Q.le_min_r Qle_trans).
Qed.

Lemma Qmax_list_ge (l : list Q) (m : Q) :
  Qmax_list l = Some m -> Forall (fun x => x <= m) l.
Proof.
  destruct l as [|x t]; simpl; intros [= <-].
  apply (fold_select_bound Qmax (fun a b => b <= a) Qmax_sel Q.le_max_l Q.le_max_r).
  intros a b c Hab Hbc. eapply Qle_trans; eassumption.
Qed.

Lemma Qmin_list_Some (l : list Q) : l <> [] -> exists m, Qmin_list l = Some m.
Proof. destruct l; [congruence | simpl; eauto]. Qed.

Lemma Qmax_list_Some (l : list Q) : l <> [] -> exists m, Qmax_list l = Some m.
Proof. destruct l; [congruence | simpl; eauto]. Qed.

Lemma Qmin_le_Qmax (l : list Q) (mn mx : Q) :
  Qmin_list l = Some mn -> Qmax_list l = Some mx -> mn <= mx.
Proof.
  intros Hmn Hmx. apply Qmax_list_In in Hmx.
  apply Qmin_list_le in Hmn. rewrite Forall_forall in Hmn. auto.
Qed.

(** ** Sums and means *)

Lemma Qlen_cons (x : Q) (l : list Q) : Qlen (x :: l) == 1 + Qlen l.
Proof.
  unfold Qlen. simpl length. rewrite Nat2Z.inj_succ, <- Z.add_1_l, inject_Z_plus.
  reflexivity.
Qed.

Lemma Qlen_nonneg (l : list Q) : 0 <= Qlen l.
Proof. unfold Qlen. rewrite <- (Zle_Qle 0). lia. Qed.

Lemma Qlen_pos (l : list Q) : l <> [] -> 0 < Qlen l.
Proof.
  destruct l as [|x t]; [congruence | intros _].
  rewrite Qlen_cons. pose proof (Qlen_nonneg t). lra.
Qed.

Lemma Qsum_bounds (a b : Q) (l : list Q) :
  Forall (fun x => a <= x <= b) l -> Qlen l * a <= Qsum l <= Qlen l * b.
Proof.
  induction 1 as [|x l Hx _ IH]; [change (0 * a <= 0 <= 0 * b); lra |].
  rewrite Qlen_cons. cbn [Qsum fold_right]. fold (Qsum l). lra.
Qed.

Lemma Qmean_bounds (a b m : Q) (l : list Q) :
  Forall (fun x => a <= x <= b) l -> Qmean l = Some m -> a <= m <= b.
Proof.
  intros Hl Hm. destruct l as [|x t]; [discriminate | injection Hm as <-].
  pose proof (Qsum_bounds a b _ Hl) as [Hlo Hhi].
  assert (Hpos : 0 < Qlen (x :: t)) by (apply Qlen_pos; discriminate).
  change (Qsum (x :: t)) with (x + Qsum t) in *.
  split; [apply Qle_shift_div_l | apply Qle_shift_div_r]; auto; lra.
Qed.

Lemma Qmean_Some (l : list Q) : l <> [] -> exists m, Qmean l = Some m.
Proof. destruct l; [congruence | simpl; eauto]. Qed.

Lemma Qsum_zero (l : list Q) : Forall (fun x => x == 0) l -> Qsum l == 0.
Proof. induction 1 as [|x l Hx _ IH]; simpl; [reflexivity | rewrite Hx, IH; ring]. Qed.

Lemma Qsum_nonneg (l : list Q) : Forall (fun x => 0 <= x) l -> 0 <= Qsum l.
Proof. induction 1 as [|x l Hx _ IH]; simpl; lra. Qed.

(** ** Dropping NaN *)

Lemma In_dropna (s : list float) (a : Q) : In a (dropna s) <-> In (Some a) s.
Proof.
  induction s as [|[b|] s IH]; simpl; [tauto | |].
  - rewrite IH. split; intros [H|H]; auto; [left; congruence | injection H; auto].
  - rewrite IH. split; [auto | intros [H|H]; [discriminate | auto]].
Qed.

Lemma dropna_Forall (P : Q -> Prop) (s : list float) :
  Forall (fholds P) s -> Forall P (dropna s).
Proof. induction 1 as [|[a|] s Hx _ IH]; simpl; auto. Qed.

Lemma dropna_map_Some (l : list Q) : dropna (map Some l) = l.
Proof. induction l as [|a l IH]; simpl; congruence. Qed.

Lemma dropna_no_nan (s : list float) :
  Forall (fun x => is_nan x = false) s -> map Some (dropna s) = s.
Proof.
  induction s as [|[a|] s IH]; intros H; simpl.
  - reflexivity.
  - inv H. rewrite IH by assumption. reflexivity.
  - inv H. discriminate.
Qed.

Lemma dropna_length (s : list float) : (length (dropna s) <= length s)%nat.
Proof. induction s as [|[a|] s IH]; simpl; lia. Qed.

(** ** Windows *)

Lemma window_incl {A : Type} (w i : nat) (s : list A) (x : A) :
  In x (window w i s) -> In x s.
Proof. unfold window. intros H. eapply In_skipn, In_firstn, H. Qed.

Lemma window_nth {A : Type} (w i j : nat) (s : list A) :
  nth_error (window w i s) j =
  if (j <? window_hi w i - window_lo w i)%nat
  then nth_error s (window_lo w i + j) else None.
Proof. unfold window. rewrite nth_error_firstn, nth_error_skipn. reflexivity. Qed.

Lemma window_centre {A : Type} (w i : nat) (s : list A) (x : A) :
  (1 <= w)%nat -> nth_error s i = Some x -> In x (window w i s).
Proof.
  intros Hw Hx. apply nth_error_In_iff. exists (i - window_lo w i)%nat.
  assert (Hoff : ((w - 1) / 2 < w)%nat).
  { apply Nat.le_lt_trans with (w - 1)%nat; [apply Nat.Div0.div_le_upper_bound |]; lia. }
  rewrite window_nth. unfold window_hi, window_lo in *.
  destruct (Nat.ltb_spec (i - (i + (w - 1) / 2 + 1 - w)) (i + (w - 1) / 2 + 1 - (i + (w - 1) / 2 + 1 - w)));
    [| lia].
  rewrite <- Hx. f_equal. lia.
Qed.

(** ** The rolling mean *)

Lemma rolling_mean_length (w m : nat) (s : list float) :
  length (rolling_mean w m s) = length s.
Proof. unfold rolling_mean. rewrite length_map, length_seq. reflexivity. Qed.

Lemma rolling_mean_nth (w m i : nat) (s : list float) :
  (i < length s)%nat ->
  nth_error (rolling_mean w m s) i =
  Some (let obs := dropna (window w i s) in
        if (m <=? length obs)%nat then Qmean obs else None).
Proof.
  intros Hi. unfold rolling_mean.
  rewrite nth_error_map, nth_error_seq.
  destruct (Nat.ltb_spec i (length s)); [reflexivity | lia].
Qed.

Lemma rolling_mean_bounds (a b : Q) (w m : nat) (s : list float) :
  Forall (fholds (fun x => a <= x <= b)) s ->
  Forall (fholds (fun x => a <= x <= b)) (rolling_mean w m s).
Proof.
  intros Hs. unfold rolling_mean. apply Forall_map_iff, Forall_forall.
  intros i _. cbv zeta.
  destruct (m <=? _)%nat; [|exact I].
  destruct (Qmean _) as [v|] eqn:Hv; [simpl | exact I].
  eapply Qmean_bounds; [|exact Hv].
  apply dropna_Forall, Forall_forall. intros x Hx.
  rewrite Forall_forall in Hs. apply Hs. eapply window_incl, Hx.
Qed.

Lemma rolling_mean_no_nan (w m : nat) (s : list float) :
  (1 <= w)%nat -> (m <= 1)%nat ->
  Forall (fun x => is_nan x = false) s ->
  Forall (fun x => is_nan x = false) (rolling_mean w m s).
Proof.
  intros Hw Hm Hs. apply Forall_forall. intros y Hy.
  apply nth_error_In_iff in Hy as [i Hi].
  assert (Hlt : (i < length s)%nat).
  { rewrite <- (rolling_mean_length w m). apply nth_error_Some. congruence. }
  rewrite rolling_mean_nth in Hi by assumption. injection Hi as <-.
  destruct (nth_error s i) as [[x|]|] eqn:Hx.
  - assert (Hin : In x (dropna (window w i s))).
    { apply In_dropna. eapply window_centre; eassumption. }
    cbv zeta. destruct (dropna (window w i s)) as [|o obs]; [contradiction |].
    destruct (Nat.leb_spec m (length (o :: obs))); [reflexivity | simpl in *; lia].
  - apply nth_error_In in Hx. rewrite Forall_forall in Hs. apply Hs in Hx. discriminate.
  - apply nth_error_None in Hx. lia.
Qed.

Lemma dropna_all_nan (s : list float) : Forall (fun x => x = None) s -> dropna s = [].
Proof. induction 1 as [| x s -> _ IH]; [reflexivity | exact IH]. Qed.

(** With [min_periods=1] the smoothed column is NaN everywhere exactly
    when the column is. *)
Lemma rolling_mean_all_nan (w : nat) (s : list float) :
  (1 <= w)%nat ->
  Forall (fun x => x = None) (rolling_mean w 1 s) <-> Forall (fun x => x = None) s.
Proof.
  intros Hw. rewrite !Forall_forall. split; intros H.
  - intros [q |] Hq; [exfalso | reflexivity].
    apply nth_error_In_iff in Hq as [i Hi].
    assert (Hlt : (i < length s)%nat) by (apply nth_error_Some; congruence).
    pose proof (rolling_mean_nth w 1 i s Hlt) as Hr. cbv zeta in Hr.
    pose proof (proj2 (In_dropna _ _) (window_centre w i s (Some q) Hw Hi)) as Hin.
    destruct (dropna (window w i s)) as [| o obs] eqn:E; [contradiction |].
    destruct (Qmean_Some (o :: obs)) as [v Hv]; [discriminate |].
    cbn [length Nat.leb] in Hr. rewrite Hv in Hr.
    apply nth_error_In in Hr. now apply H in Hr.
  - intros y Hy. apply nth_error_In_iff in Hy as [i Hi].
    assert (Hlt : (i < length s)%nat).
    { rewrite <- (rolling_mean_length w 1). apply nth_error_Some. congruence. }
    rewrite rolling_mean_nth in Hi by assumption. injection Hi as <-. cbv zeta.
    rewrite dropna_all_nan; [reflexivity |].
    apply Forall_forall. intros x Hx. eapply H, window_incl, Hx.
Qed.

Lemma window_map {A B : Type} (f : A -> B) (w i : nat) (s : list A) :
  window w i (map f s) = map f (window w i s).
Proof. unfold window. rewrite skipn_map, firstn_map. reflexivity. Qed.

Lemma window3_shape {A : Type} (i : nat) (s : list A) :
  window 3 i s = firstn (if (i =? 0)%nat then 2 else 3) (skipn (i - 1) s).
Proof.
  unfold window, window_hi, window_lo. change ((3 - 1) / 2)%nat with 1%nat.
  destruct i as [|i]; simpl Nat.eqb; cbv iota.
  - reflexivity.
  - replace (S i + 1 + 1 - 3)%nat with i by lia.
    replace (S i + 1 + 1 - i)%nat with 3%nat by lia.
    replace (S i - 1)%nat with i by lia. reflexivity.
Qed.

(** On a column without NaN the smoothed value at [i] is the mean of the
    values at [i-1], [i] and [i+1] that exist. *)
Lemma rolling_mean3_nth (l : list Q) (i : nat) :
  (i < length l)%nat ->
  nth_error (rolling_mean 3 1 (map Some l)) i =
  Some (Qmean (firstn (if (i =? 0)%nat then 2 else 3) (skipn (i - 1) l))).
Proof.
  intros Hi. rewrite rolling_mean_nth by (rewrite length_map; exact Hi).
  cbv zeta. rewrite window_map, dropna_map_Some, window3_shape.
  set (obs := firstn _ _).
  destruct obs as [|o obs'] eqn:E; [|reflexivity].
  exfalso. assert (Hlen : length obs = 0%nat) by (rewrite E; reflexivity).
  unfold obs in Hlen. rewrite length_firstn, length_skipn in Hlen.
  destruct i; cbn [Nat.eqb] in Hlen; lia.
Qed.

(** ** Differences *)

Lemma diff_from_length (prev : Q) (l : list Q) : length (diff_from prev l) = length l.
Proof. revert prev; induction l as [|x l IH]; intros prev; simpl; auto. Qed.

Lemma fillna_diff_length (l : list Q) : length (fillna 0 (diff l)) = length l.
Proof.
  unfold fillna. rewrite length_map. destruct l; simpl; [reflexivity |].
  rewrite diff_from_length. reflexivity.
Qed.

Lemma fillna_diff_nil (l : list Q) : fillna 0 (diff l) = [] -> l = [].
Proof. intros H. apply length_zero_iff_nil. rewrite <- fillna_diff_length, H. reflexivity. Qed.

Lemma diff_from_const (c prev : Q) (l : list Q) :
  prev == c -> Forall (fun x => x == c) l ->
  Forall (fun d => d == 0) (fillna 0 (diff_from prev l)).
Proof.
  intros Hp Hl. revert prev Hp. induction Hl as [|x l Hx _ IH]; intros prev Hp; simpl.
  - constructor.
  - constructor; [rewrite Hx, Hp; ring | apply IH, Hx].
Qed.

(** A constant column has zero differences. *)
Lemma fillna_diff_const (c : Q) (l : list Q) :
  Forall (fun x => x == c) l -> Forall (fun d => d == 0) (fillna 0 (diff l)).
Proof.
  intros Hl. destruct l as [|x l]; simpl; [constructor |].
  inv Hl. constructor; [reflexivity | eapply diff_from_const; eassumption].
Qed.

Lemma diff_from_decreasing (prev : Q) (l : list Q) :
  HdRel (fun a b => b <= a) prev l -> Sorted (fun a b => b <= a) l ->
  Forall (fun d => d <= 0) (fillna 0 (diff_from prev l)).
Proof.
  intros Hh Hs. revert prev Hh. induction Hs as [|x l Hs IH Hx]; intros prev Hh; simpl.
  - constructor.
  - inv Hh. constructor; [lra | apply IH, Hx].
Qed.

(** A column that never increases has no positive difference. *)
Lemma fillna_diff_decreasing (l : list Q) :
  Sorted (fun a b => b <= a) l -> Forall (fun d => d <= 0) (fillna 0 (diff l)).
Proof.
  intros Hs. destruct l as [|x l]; simpl; [constructor |].
  inv Hs. constructor; [lra | apply diff_from_decreasing; assumption].
Qed.

(** ** Sums and means up to [Qeq] *)

#[export] Instance Qsum_Proper : Proper (Forall2 Qeq ==> Qeq) Qsum.
Proof.
  intros l l' H. induction H as [|x y l l' Hxy _ IH]; simpl; [reflexivity |].
  rewrite Hxy, IH. reflexivity.
Qed.

Lemma Forall2_map_Qeq {A : Type} (f g : A -> Q) (l : list A) :
  (forall a, In a l -> f a == g a) -> Forall2 Qeq (map f l) (map g l).
Proof.
  induction l as [|a l IH]; simpl; intros H; constructor; auto.
Qed.

Lemma Qmean_zero (l : list Q) :
  l <> [] -> Forall (fun x => x == 0) l -> feq (Qmean l) (Some 0).
Proof.
  intros Hne Hz. destruct l as [|x t]; [congruence |].
  unfold Qmean. simpl feq. rewrite (Qsum_zero _ Hz). apply Qdiv_0_l.
Qed.

Lemma Qmean_nonneg (l : list Q) :
  Forall (fun x => 0 <= x) l -> fholds (fun m => 0 <= m) (Qmean l).
Proof.
  intros Hp. destruct l as [|x t]; [exact I |]. unfold Qmean, fholds.
  pose proof (Qsum_nonneg _ Hp). pose proof (Qlen_pos (x :: t)).
  apply Qle_shift_div_l; [apply H0; discriminate | lra].
Qed.

Lemma Qmean_pos (l : list Q) :
  l <> [] -> Forall (fun x => 0 < x) l -> fholds (fun m => 0 < m) (Qmean l).
Proof.
  intros Hne Hp. destruct l as [|x t]; [congruence |]. unfold Qmean, fholds.
  assert (Hs : 0 < Qsum (x :: t)).
  { clear Hne. inv Hp. simpl. assert (0 <= Qsum t); [|lra].
    apply Qsum_nonneg. eapply Forall_impl; [|eassumption]. simpl. intros; lra. }
  apply Qlt_shift_div_l; [apply Qlen_pos; discriminate | lra].
Qed.

(** ** Running sums *)

Lemma cumsum_from_length (acc : Q) (l : list Q) : length (cumsum_from acc l) = length l.
Proof. revert acc; induction l as [|x l IH]; intros; simpl; auto. Qed.

Lemma cumsum_length (l : list Q) : length (cumsum l) = length l.
Proof. apply cumsum_from_length. Qed.

Lemma cumsum_from_ge (acc : Q) (l : list Q) :
  Forall (fun x => 0 <= x) l -> Forall (fun y => acc <= y) (cumsum_from acc l).
Proof.
  revert acc; induction l as [|x l IH]; intros acc H; simpl; [constructor |].
  inv H. constructor; [lra |].
  eapply Forall_impl; [| apply IH; assumption]. simpl. intros; lra.
Qed.

Lemma cumsum_from_sorted (acc : Q) (l : list Q) :
  Forall (fun x => 0 <= x) l -> StronglySorted Qle (cumsum_from acc l).
Proof.
  revert acc; induction l as [|x l IH]; intros acc H; simpl; [constructor |].
  inv H. constructor; [now apply IH | now apply cumsum_from_ge].
Qed.

Lemma cumsum_from_zero (acc : Q) (l : list Q) :
  Forall (fun x => x == 0) l -> Forall (fun y => y == acc) (cumsum_from acc l).
Proof.
  revert acc; induction l as [|x l IH]; intros acc H; simpl; [constructor |].
  inv H. constructor; [lra |].
  eapply Forall_impl; [| apply IH; assumption]. simpl. intros; lra.
Qed.

(** ** Known values *)

Ltac absurd_known :=
  match goal with H : known None |- _ => exfalso; apply H; reflexivity end.

Lemma known_Some (x : Q) : known (Some x).
Proof. discriminate. Qed.
#[export] Hint Resolve known_Some : frame.

Lemma first_known_Exists (s : list float) : known (first_known s) <-> Exists known s.
Proof.
  induction s as [|[x|] s IH]; simpl.
  - split; intros H; [absurd_known | inv H].
  - split; [constructor | ]; auto with frame.
  - rewrite IH. split; [now constructor | intros H; inv H; [absurd_known | assumption]].
Qed.

Lemma first_known_app (s t : list float) :
  first_known (s ++ t) = orelse (first_known s) (first_known t).
Proof. induction s as [|[x|] s IH]; simpl; auto. Qed.

Lemma orelse_assoc (a b c : float) : orelse (orelse a b) c = orelse a (orelse b c).
Proof. now destruct a. Qed.

Lemma first_known_In (s : list float) : first_known s = None \/ In (first_known s) s.
Proof.
  induction s as [|[y|] s IH]; simpl; [now left | right; now left |].
  destruct IH; [now left | right; now right].
Qed.

(** ** Minimum and maximum of a column *)

Lemma series_min_le (s : list float) (mn a : Q) :
  series_min s = Some mn -> In (Some a) s -> mn <= a.
Proof.
  intros Hmn Ha. apply Qmin_list_le in Hmn. rewrite Forall_forall in Hmn.
  apply Hmn, In_dropna, Ha.
Qed.

Lemma series_max_ge (s : list float) (mx a : Q) :
  series_max s = Some mx -> In (Some a) s -> a <= mx.
Proof.
  intros Hmx Ha. apply Qmax_list_ge in Hmx. rewrite Forall_forall in Hmx.
  apply Hmx, In_dropna, Ha.
Qed.

Lemma series_min_In (s : list float) (mn : Q) : series_min s = Some mn -> In (Some mn) s.
Proof. intros H. apply In_dropna, Qmin_list_In, H. Qed.

Lemma series_max_In (s : list float) (mx : Q) : series_max s = Some mx -> In (Some mx) s.
Proof. intros H. apply In_dropna, Qmax_list_In, H. Qed.

Lemma series_min_max_Some (s : list float) (a : Q) :
  In (Some a) s -> exists mn mx, series_min s = Some mn /\ series_max s = Some mx.
Proof.
  intros Ha. apply In_dropna in Ha. unfold series_min, series_max.
  destruct (dropna s); [contradiction | simpl; eauto].
Qed.

(** The maximum is the element that bounds the others. *)
Lemma Qmax_list_char (l : list Q) (m : Q) :
  In m l -> Forall (fun x => x <= m) l -> exists m0, Qmax_list l = Some m0 /\ m0 == m.
Proof.
  intros Hin Hle. destruct (Qmax_list_Some l) as [m0 Hm0]; [now destruct l |].
  exists m0. split; [assumption |].
  pose proof (Qmax_list_In _ _ Hm0) as Hi. pose proof (Qmax_list_ge _ _ Hm0) as Hg.
  rewrite Forall_forall in Hle, Hg. apply Qle_antisym; auto.
Qed.

Lemma Qmax_list_None (l : list Q) : Qmax_list l = None -> l = [].
Proof. destruct l; [reflexivity | discriminate]. Qed.

Lemma Qmin_list_None (l : list Q) : Qmin_list l = None -> l = [].
Proof. destruct l; [reflexivity | discriminate]. Qed.

Lemma first_known_const (x : float) (n : nat) :
  (0 < n)%nat -> first_known (repeat x n) = x.
Proof.
  intros Hn. destruct n as [|n]; [lia |]. clear Hn. simpl.
  destruct x as [a|]; [reflexivity |]. induction n as [|n IH]; simpl; auto.
Qed.

(** ** Forward and backward fill *)

Lemma ffill_from_length (last : float) (s : list float) :
  length (ffill_from last s) = length s.
Proof. revert last; induction s as [|[x|] s IH]; intros; simpl; auto. Qed.

Lemma bfill_length (s : list float) : length (bfill s) = length s.
Proof.
  induction s as [|[x|] s IH]; simpl; auto.
Qed.

Lemma ffill_from_known (last : float) (s : list float) :
  known last -> Forall known (ffill_from last s).
Proof.
  revert last; induction s as [|[x|] s IH]; intros last Hl; simpl; constructor;
    try apply IH; auto with frame.
Qed.

Lemma bfill_known (s : list float) : Forall known s -> bfill s = s.
Proof.
  induction 1 as [|[x|] s Hx Hs IH]; simpl; [reflexivity | now rewrite IH |].
  absurd_known.
Qed.

Lemma hd_bfill (s : list float) : hd None (bfill s) = first_known s.
Proof.
  induction s as [|[x|] s IH]; simpl; auto.
Qed.

Lemma bfill_ffill_from_known (last : float) (s : list float) :
  known last \/ Exists known s -> Forall known (bfill (ffill_from last s)).
Proof.
  revert last; induction s as [|x s IH]; intros last H; [constructor |].
  destruct x as [x|]; [| destruct last as [y|]].
  1,2: rewrite bfill_known; simpl; constructor; auto using ffill_from_known with frame.
  assert (Hs : Exists known s).
  { destruct H as [H|H]; [absurd_known | inv H; [absurd_known | assumption]]. }
  simpl. specialize (IH None (or_intror Hs)). constructor; [| exact IH].
  destruct s as [|y s]; [inv Hs |].
  change (ffill_from None (y :: s)) with
    (match y with Some _ => y | None => None end
       :: ffill_from (match y with Some _ => y | None => None end) s) in *.
  destruct y; simpl in IH |- *; now inv IH.
Qed.

Lemma first_known_ffill (s : list float) : first_known (ffill_from None s) = first_known s.
Proof. induction s as [|[x|] s IH]; simpl; auto. Qed.

Lemma bfill_cons (x : float) (s : list float) :
  bfill (x :: s) = orelse x (first_known s) :: bfill s.
Proof. destruct x; simpl; [reflexivity | now rewrite hd_bfill]. Qed.

Lemma ffill_from_In (last x : float) (s : list float) :
  In x (ffill_from last s) -> x = last \/ In x s.
Proof.
  revert last; induction s as [|y s IH]; intros last; simpl; [tauto |].
  intros [<-|H]; [destruct y; auto |].
  apply IH in H as [->|H]; [destruct y |]; auto.
Qed.

Lemma bfill_In (x : float) (s : list float) : In x (bfill s) -> In x s.
Proof.
  induction s as [|y s IH]; [tauto |]. rewrite bfill_cons.
  intros [<-|H]; [| right; auto].
  destruct y as [y|]; [now left |]. simpl.
  destruct (first_known_In s) as [->|H]; auto.
Qed.

(** The fill, index by index, with the value carried in from the left. *)
Lemma fill_from_nth (s : list float) (last : float) (i : nat) :
  (i < length s)%nat ->
  nth_error (bfill (ffill_from last s)) i
  = Some (orelse (orelse (first_known (rev (firstn (S i) s))) last)
                 (first_known (skipn (S i) s))).
Proof.
  revert last i; induction s as [|x s IH]; intros last i Hi; [inversion Hi |].
  change (ffill_from last (x :: s)) with (orelse x last :: ffill_from (orelse x last) s).
  rewrite bfill_cons. destruct i as [|i].
  - simpl. f_equal. destruct x as [x|]; [reflexivity |].
    destruct last as [l|]; [reflexivity |]. apply first_known_ffill.
  - simpl in Hi. cbn [nth_error]. rewrite IH by lia.
    change (firstn (S (S i)) (x :: s)) with (x :: firstn (S i) s).
    cbn [rev skipn]. rewrite first_known_app. cbn [first_known].
    rewrite !orelse_assoc. repeat f_equal. now destruct x.
Qed.

(** The other order of the fills, as the track map has it. *)
Lemma ffill_bfill_known (s : list float) :
  Exists known s -> Forall known (ffill (bfill s)).
Proof.
  intros H. apply first_known_Exists in H. rewrite <- hd_bfill in H.
  unfold ffill. destruct (bfill s) as [|[x|] t]; simpl in H |- *; try absurd_known.
  constructor; [exact H | apply ffill_from_known, H].
Qed.

Lemma ffill_length (s : list float) : length (ffill s) = length s.
Proof. apply ffill_from_length. Qed.

(** The fills commute with a function on the values. *)
Lemma ffill_from_map (f : Q -> Q) (last : float) (s : list float) :
  ffill_from (option_map f last) (map (option_map f) s)
  = map (option_map f) (ffill_from last s).
Proof.
  revert last. induction s as [| [a |] s IH]; intros last; simpl; [reflexivity | |];
    now rewrite <- IH.
Qed.

Lemma bfill_map (f : Q -> Q) (s : list float) :
  bfill (map (option_map f) s) = map (option_map f) (bfill s).
Proof.
  induction s as [| [a |] s IH]; simpl; [reflexivity | now rewrite IH |].
  rewrite IH. now destruct (bfill s).
Qed.
