(* ===== verification/Frame.v ===== *)
(** * Frame: the tables of the pipeline and the pandas table primitives

    A table is a list of rows in index order.  [sample] is the per-sample
    row that [processor.process_lap_data] returns, [seg_row] the same row
    tagged by [segment_lap.segment_lap], [metrics_row] and [cli_row] the
    rows of the per-segment tables, [final_row] the row of the merged
    table of app.py.  [sort_values] and [groupby] are the two pandas
    table operations the sources call. *)

From Stdlib Require Import String QArith Qround Qminmax Lqa Lia ZArith Bool.
From Stdlib Require Import List Permutation Sorted SetoidList Morphisms Setoid.
From S2P Require Import Prelude Series.
Import ListNotations.

(** ** Rows *)

(** One row of the wide per-sample table.  [timestamp] is in nanoseconds
    (pandas [datetime64[ns]]); the six signal columns are the ones
    [process_lap_data] guarantees; [dt], [X], [Y] and
    [Laptrigger_lapdist_dls] are the columns it computes. *)
Record sample : Type := mkSample {
  timestamp : Z;
  Steering_Angle : Q;
  throttle : Q;
  brake_pressure : Q;
  accx : Q;
  accy : Q;
  speed : Q;
  dt : Q;
  X : Q;
  Y : Q;
  Laptrigger_lapdist_dls : Q
}.

(** A row of the segmented table: the sample and its [segment_id]. *)
Record seg_row : Type := mkSegRow {
  row : sample;
  segment_id : Z
}.

(** One row of the per-segment metrics table built by
    [compute_metrics.compute_segment_metrics].  The metric columns are
    float columns: [lat_instability], a sample standard deviation, is NaN
    for a segment of one row. *)
Record metrics_row : Type := mkMetrics {
  m_segment_id : Z;
  steering_entropy : float;
  throttle_jerk : float;
  brake_panic : float;
  lat_instability : float;
  long_jerk : float;
  avg_dist : float
}.

(** A metrics row with the columns [cli_model.compute_cli] adds. *)
Record cli_row : Type := mkCliRow {
  metrics : metrics_row;
  norm_steering : float;
  norm_throttle : float;
  norm_brake : float;
  norm_lat : float;
  CLI : float;
  CLI_smooth : float
}.

(** A row of the per-sample table that the pipeline hands to the
    insights and to the views: the segmented sample, its [section_id] and
    the per-segment columns that the left merge copies onto every sample
    of the segment (NaN where the metrics table has no row for it). *)
Record final_row : Type := mkFinal {
  f_sample : seg_row;
  section_id : Z;
  f_CLI : float;
  f_CLI_smooth : float;
  f_steering_entropy : float;
  f_throttle_jerk : float;
  f_brake_panic : float;
  f_lat_instability : float;
  f_long_jerk : float
}.

(** ** sort_values

    [df.sort_values(col).reset_index(drop=True)]: the rows in ascending
    order of the key.  Rows with equal keys keep their order (insertion
    from the right, before the first row that is not smaller); pandas'
    default quicksort does not promise an order among ties, so no
    theorem below depends on it. *)

Section Sort.
Context {A : Type}.
Variable key : A -> Q.

Fixpoint insert_by (x : A) (l : list A) : list A :=
  match l with
  | [] => [x]
  | y :: t => if Qle_bool (key x) (key y) then x :: l else y :: insert_by x t
  end.

Definition sort_values (l : list A) : list A := fold_right insert_by [] l.

Definition sorted_by (l : list A) : Prop :=
  StronglySorted (fun a b => key a <= key b) l.

End Sort.

(** ** groupby

    [df.groupby(col)] iterates over the distinct keys in ascending order;
    the group of a key holds the rows with that key, in table order. *)

Fixpoint insert_key (k : Z) (ks : list Z) : list Z :=
  match ks with
  | [] => [k]
  | h :: t =>
      if (k <? h)%Z then k :: ks
      else if (k =? h)%Z then ks
      else h :: insert_key k t
  end.

Definition unique_sorted (l : list Z) : list Z := fold_right insert_key [] l.

Section Group.
Context {A : Type}.
Variable key : A -> Z.

Definition group_of (k : Z) (l : list A) : list A :=
  filter (fun r => (key r =? k)%Z) l.

Definition groupby (l : list A) : list (Z * list A) :=
  map (fun k => (k, group_of k l)) (unique_sorted (map key l)).

End Group.

(** * Lemmas *)

Section SortFacts.
Context {A : Type}.
Variable key : A -> Q.

Lemma insert_by_perm (x : A) (l : list A) : Permutation (x :: l) (insert_by key x l).
Proof.
  induction l as [|y t IH]; simpl; [reflexivity |].
  destruct (Qle_bool (key x) (key y)); [reflexivity |].
  rewrite perm_swap. apply perm_skip, IH.
Qed.

Lemma sort_values_perm (l : list A) : Permutation l (sort_values key l).
Proof.
  induction l as [|x l IH]; simpl; [reflexivity |].
  rewrite <- insert_by_perm. apply perm_skip, IH.
Qed.

Lemma sort_values_length (l : list A) : length (sort_values key l) = length l.
Proof. symmetry. apply Permutation_length, sort_values_perm. Qed.

Lemma sort_values_In (l : list A) (x : A) : In x (sort_values key l) <-> In x l.
Proof.
  split; apply Permutation_in; [symmetry |]; apply sort_values_perm.
Qed.

Lemma insert_by_sorted (x : A) (l : list A) :
  sorted_by key l -> sorted_by key (insert_by key x l).
Proof.
  unfold sorted_by. induction 1 as [|y t Hs IH Hy]; simpl.
  - constructor; constructor.
  - case_qtest.
    + constructor; [constructor; assumption |].
      constructor; [assumption |].
      eapply Forall_impl; [|exact Hy]. intros a Ha. simpl in *. lra.
    + constructor; [assumption |].
      eapply Permutation_Forall; [apply insert_by_perm |].
      constructor; [lra | assumption].
Qed.

Lemma sort_values_sorted (l : list A) : sorted_by key (sort_values key l).
Proof.
  induction l as [|x l IH]; simpl; [constructor | apply insert_by_sorted, IH].
Qed.

Lemma insert_by_head (x : A) (l : list A) :
  Forall (fun y => key x <= key y) l -> insert_by key x l = x :: l.
Proof.
  intros H. destruct l as [|y t]; simpl; [reflexivity |].
  inv H. destruct (Qle_bool (key x) (key y)) eqn:E; [reflexivity |].
  qbool. contradiction.
Qed.

(** A table that is already in order is left as it is. *)
Lemma sort_values_sorted_id (l : list A) : sorted_by key l -> sort_values key l = l.
Proof.
  unfold sorted_by. induction 1 as [|x l Hs IH Hx]; simpl; [reflexivity |].
  rewrite IH. apply insert_by_head, Hx.
Qed.

Lemma sort_values_idem (l : list A) :
  sort_values key (sort_values key l) = sort_values key l.
Proof. apply sort_values_sorted_id, sort_values_sorted. Qed.

End SortFacts.

(** Two tables related row by row, sorted by keys that order their
    rows alike, are related row by row. *)
Section SortRelated.
Context {A B : Type} (key : A -> Q) (key' : B -> Q) (R : A -> B -> Prop).
Hypothesis order : forall a a' b b', R a a' -> R b b' ->
  Qle_bool (key a) (key b) = Qle_bool (key' a') (key' b').

Lemma insert_by_Forall2 (x : A) (x' : B) (l : list A) (l' : list B) :
  R x x' -> Forall2 R l l' -> Forall2 R (insert_by key x l) (insert_by key' x' l').
Proof.
  intros Hx H. induction H as [| y y' l l' Hy Hl IH]; simpl; [now repeat constructor |].
  rewrite (order x x' y y' Hx Hy). destruct (Qle_bool _ _); repeat constructor; auto.
Qed.

Lemma sort_values_Forall2 (l : list A) (l' : list B) :
  Forall2 R l l' -> Forall2 R (sort_values key l) (sort_values key' l').
Proof.
  intros H. induction H; simpl; [constructor | now apply insert_by_Forall2].
Qed.

End SortRelated.

Lemma sorted_by_map {A : Type} (key : A -> Q) (l : list A) :
  StronglySorted Qle (map key l) -> sorted_by key l.
Proof.
  unfold sorted_by. induction l as [|a l IH]; intros H; [constructor |].
  simpl in H. inversion H as [|? ? Hs Hf]; subst.
  constructor; [now apply IH | now rewrite Forall_map_iff in Hf].
Qed.

(** ** groupby *)

Lemma insert_key_In (k x : Z) (ks : list Z) :
  In x (insert_key k ks) <-> x = k \/ In x ks.
Proof.
  induction ks as [|h t IH]; simpl; [intuition |].
  destruct (Z.ltb_spec k h); [simpl; intuition |].
  destruct (Z.eqb_spec k h) as [->|Hne]; simpl; [intuition |].
  rewrite IH. intuition.
Qed.

Lemma unique_sorted_In (l : list Z) (x : Z) : In x (unique_sorted l) <-> In x l.
Proof.
  induction l as [|k l IH]; simpl; [reflexivity |].
  rewrite insert_key_In, IH. intuition.
Qed.

Lemma insert_key_sorted (k : Z) (ks : list Z) :
  StronglySorted Z.lt ks -> StronglySorted Z.lt (insert_key k ks).
Proof.
  induction 1 as [|h t Hs IH Hh]; simpl; [repeat constructor |].
  destruct (Z.ltb_spec k h).
  - constructor; [constructor; assumption |].
    constructor; [assumption |].
    eapply Forall_impl; [|exact Hh]. simpl. intros; lia.
  - destruct (Z.eqb_spec k h) as [->|Hne]; [constructor; assumption |].
    constructor; [assumption |].
    apply Forall_forall. intros x Hx. apply insert_key_In in Hx as [->|Hx]; [lia |].
    eapply Forall_elim; eassumption.
Qed.

Lemma unique_sorted_sorted (l : list Z) : StronglySorted Z.lt (unique_sorted l).
Proof.
  induction l as [|k l IH]; simpl; [constructor | apply insert_key_sorted, IH].
Qed.

Lemma StronglySorted_lt_NoDup (l : list Z) : StronglySorted Z.lt l -> NoDup l.
Proof.
  induction 1 as [|h t Hs IH Hh]; constructor; [|assumption].
  intros Hin. pose proof (Forall_elim _ _ _ Hh Hin). lia.
Qed.

Section GroupFacts.
Context {A : Type}.
Variable key : A -> Z.

Lemma group_of_In (k : Z) (l : list A) (r : A) :
  In r (group_of key k l) <-> In r l /\ key r = k.
Proof. unfold group_of. rewrite filter_In, Z.eqb_eq. reflexivity. Qed.

Lemma group_of_nonempty (k : Z) (l : list A) :
  In k (map key l) -> group_of key k l <> [].
Proof.
  intros Hk Hnil. apply in_map_iff in Hk as (r & Hr & Hin).
  assert (H : In r (group_of key k l)) by (apply group_of_In; auto).
  rewrite Hnil in H. contradiction.
Qed.

Lemma groupby_keys (l : list A) :
  map fst (groupby key l) = unique_sorted (map key l).
Proof. unfold groupby. rewrite map_map. simpl. apply map_id. Qed.

Lemma groupby_In (l : list A) (k : Z) (g : list A) :
  In (k, g) (groupby key l) ->
  In k (map key l) /\ g = group_of key k l /\ g <> [].
Proof.
  unfold groupby. intros H. apply in_map_iff in H as (k' & [= <- <-] & Hk).
  apply (proj1 (unique_sorted_In _ _)) in Hk.
  split; [assumption |]. split; [reflexivity | apply group_of_nonempty, Hk].
Qed.

(** Every row of the table is in the group of its key. *)
Lemma groupby_covers (l : list A) (r : A) :
  In r l -> In (key r, group_of key (key r) l) (groupby key l) /\
            In r (group_of key (key r) l).
Proof.
  intros Hr. split; [|apply group_of_In; auto].
  unfold groupby. apply in_map_iff. exists (key r). split; [reflexivity |].
  apply unique_sorted_In, in_map, Hr.
Qed.

(** The sizes of the groups add up to the size of the table. *)
Lemma groupby_sizes (l : list A) :
  list_sum (map (fun g => length (snd g)) (groupby key l)) = length l.
Proof.
  unfold groupby. rewrite map_map. simpl.
  apply (class_sizes Z.eqb Z.eqb_spec key).
  - apply StronglySorted_lt_NoDup, unique_sorted_sorted.
  - intros r Hr. apply unique_sorted_In, in_map, Hr.
Qed.

End GroupFacts.
