(* ===== verification/Segmenter.v ===== *)
(** * Segmenter: src/src/segment_lap.py

    [segment_lap] sorts the rows by cumulative lap distance, divides the
    largest distance by the number of segments and tags every row with
    the floor of its distance over that length, clipped from above to the
    last segment.  The code has no explicit guard: a lap of zero length
    fails inside [astype(int)], an empty table passes through.  [main]
    is the test stub at the end of the file. *)

From Stdlib Require Import String QArith Qround Qminmax Lqa Lia ZArith Bool.
From Stdlib Require Import List Permutation Sorted SetoidList Morphisms Setoid.
From Stdlib Require Import DecimalString.
From S2P Require Import Prelude Series Frame.
Import ListNotations.
#[local] Open Scope pipeline_scope.

(** [df['Laptrigger_lapdist_dls'].max() / num_segments] *)
Definition segment_length (df : list sample) (num_segments : Z) : xfloat :=
  div_by_int (Qmax_list (map Laptrigger_lapdist_dls df)) num_segments.

(** [(df['Laptrigger_lapdist_dls'] // segment_length).astype(int)] *)
Definition raw_segment_ids (df : list sample) (len : xfloat) : result (list Z) :=
  mapM (fun r => astype_int (floordiv (Laptrigger_lapdist_dls r) len)) df.

(** [df['segment_id'] = ...]: the rows with their ids. *)
Definition assign_segment_id (df : list sample) (ids : list Z) : list seg_row :=
  map (fun p => mkSegRow (fst p) (snd p)) (combine df ids).

Definition segment_lap (df : list sample) (num_segments : Z) : result (list seg_row) :=
  let df := sort_values Laptrigger_lapdist_dls df in
  let len := segment_length df num_segments in
  ids <- raw_segment_ids df len ;;
  Ok (assign_segment_id df (map (clip_upper (num_segments - 1)) ids)).

(** ** The test stub: lines 21 to 29 *)

(** What running the file as a script leaves on the terminal: a line
    printed, or the traceback of an exception. *)
Inductive stub_outcome : Type :=
| Printed (line : string)
| Uncaught (e : pyerror).

(** [load_telemetry()]: the function of load_data.py takes the path of
    the file, and the stub passes none. *)
Definition load_telemetry_call : result (list sample) :=
  Err (TypeError "load_telemetry() missing 1 required positional argument: 'file_path'").

(** [if __name__ == "__main__"]: only a failure of the import is
    caught. *)
Definition main (load_data_found : bool) : stub_outcome :=
  if load_data_found then
    match (df <- load_telemetry_call ;; segment_lap df 60) with
    | Ok df_seg =>
        let nunique := Z.of_nat (length (unique_sorted (map segment_id df_seg))) in
        Printed ("Segmented into " ++ NilZero.string_of_int (Z.to_int nunique)
                 ++ " segments.")%string
    | Err e => Uncaught e
    end
  else Printed "load_data module not found for testing.".

(** ** Specification

    What the segmenter promises for a lap whose largest distance is [m]:
    row [r] goes to bin [bin_of m n (distance r)]. *)

Definition bin_of (m : Q) (n : Z) (d : Q) : Z :=
  Z.min (Qfloor (d / (m / inject_Z n))) (n - 1).

Definition tag (m : Q) (n : Z) (r : sample) : seg_row :=
  mkSegRow r (bin_of m n (Laptrigger_lapdist_dls r)).

(** A lap that has rows and whose largest distance is zero. *)
Definition zero_length (df : list sample) : bool :=
  match Qmax_list (map Laptrigger_lapdist_dls df) with
  | Some m => Qeq_bool m 0
  | None => false
  end.

(** The number of rows of segment [k]. *)
Definition segment_count (k : Z) (out : list seg_row) : nat :=
  length (group_of segment_id k out).

(** * Lemmas *)

#[local] Abbreviation dist := Laptrigger_lapdist_dls.

Lemma assign_segment_id_map (h : sample -> Z) (df : list sample) :
  assign_segment_id df (map h df) = map (fun r => mkSegRow r (h r)) df.
Proof. unfold assign_segment_id. rewrite combine_map_self, map_map. reflexivity. Qed.

Lemma assign_segment_id_rows (df : list sample) (ids : list Z) :
  length ids = length df -> map row (assign_segment_id df ids) = df.
Proof.
  unfold assign_segment_id. rewrite map_map. simpl.
  revert ids; induction df as [|r df IH]; intros [|i ids]; simpl; try discriminate; auto.
  intros [= H]. f_equal. auto.
Qed.

#[export] Instance bin_of_Proper : Proper (Qeq ==> eq ==> Qeq ==> eq) bin_of.
Proof. intros m m' Hm n ? <- d d' Hd. unfold bin_of. rewrite Hm, Hd. reflexivity. Qed.

Lemma div_zero_not_finite (x : Q) : astype_int (div_zero x) = Err IntCastingNaNError.
Proof. unfold div_zero. repeat case_qtest; reflexivity. Qed.

Lemma floordiv_finite (d l : Q) :
  ~ l == 0 -> astype_int (floordiv d (Finite l)) = Ok (Qfloor (d / l)).
Proof.
  intros Hl. unfold floordiv. case_qtest; [contradiction |].
  unfold astype_int. rewrite Qfloor_Z. reflexivity.
Qed.

Lemma floordiv_zero (d l : Q) :
  l == 0 -> astype_int (floordiv d (Finite l)) = Err IntCastingNaNError.
Proof.
  intros Hl. unfold floordiv. case_qtest; [apply div_zero_not_finite | contradiction].
Qed.

Lemma segment_length_finite (df : list sample) (n : Z) (m : Q) :
  Qmax_list (map dist df) = Some m -> n <> 0%Z ->
  segment_length df n = Finite (m / inject_Z n).
Proof.
  intros Hm Hn. unfold segment_length. rewrite Hm. simpl.
  destruct (Z.eqb_spec n 0); [contradiction | reflexivity].
Qed.

(** The segmenter implements [bin_of] whenever the lap has a non-zero
    largest distance and the segment count is not zero. *)
Lemma segment_lap_finite (df : list sample) (n : Z) (m : Q) :
  Qmax_list (map dist (sort_values dist df)) = Some m ->
  ~ m == 0 -> n <> 0%Z ->
  segment_lap df n = Ok (map (tag m n) (sort_values dist df)).
Proof.
  intros Hm Hm0 Hn. unfold segment_lap, raw_segment_ids.
  rewrite (segment_length_finite _ _ _ Hm Hn).
  rewrite (mapM_Ok _ (fun r => Qfloor (dist r / (m / inject_Z n)))).
  - simpl. rewrite map_map, assign_segment_id_map. reflexivity.
  - intros r _. apply floordiv_finite, Qdiv_inject_Z_nonzero; assumption.
Qed.

(** A lap whose largest distance is zero fails in the integer cast. *)
Lemma segment_lap_zero (df : list sample) (n : Z) (m : Q) :
  Qmax_list (map dist (sort_values dist df)) = Some m ->
  m == 0 -> segment_lap df n = Err IntCastingNaNError.
Proof.
  intros Hm Hm0. unfold segment_lap, raw_segment_ids, segment_length.
  rewrite Hm. rewrite mapM_Err with (e := IntCastingNaNError); [reflexivity | |].
  - intros E. rewrite E in Hm. discriminate.
  - intros r _. unfold div_by_int.
    destruct (Z.eqb_spec n 0) as [->|Hn].
    + unfold div_zero. apply Qeq_bool_iff in Hm0. rewrite Hm0. reflexivity.
    + apply floordiv_zero. rewrite Hm0. apply Qdiv_0_l.
Qed.

Lemma segment_lap_nil (df : list sample) (n : Z) :
  sort_values dist df = [] -> segment_lap df n = Ok [].
Proof. intros E. unfold segment_lap. rewrite E. reflexivity. Qed.

(** Inversion of a successful run with a non-zero segment count. *)
Lemma segment_lap_Ok_inv (df : list sample) (n : Z) (out : list seg_row) :
  n <> 0%Z -> segment_lap df n = Ok out ->
  (df = [] /\ out = []) \/
  exists m, Qmax_list (map dist (sort_values dist df)) = Some m /\ ~ m == 0 /\
            out = map (tag m n) (sort_values dist df).
Proof.
  intros Hn Hok.
  destruct (Qmax_list (map dist (sort_values dist df))) as [m|] eqn:Hm.
  - right. exists m. destruct (Qeq_dec m 0) as [E|E].
    + rewrite (segment_lap_zero _ _ _ Hm E) in Hok. discriminate.
    + rewrite (segment_lap_finite _ _ _ Hm E Hn) in Hok. injection Hok as <-. auto.
  - left. assert (E : sort_values dist df = []).
    { destruct (sort_values dist df); [reflexivity | discriminate]. }
    rewrite (segment_lap_nil _ _ E) in Hok. injection Hok as <-.
    split; [|reflexivity].
    apply length_zero_iff_nil. rewrite <- (sort_values_length dist), E. reflexivity.
Qed.

(** The largest distance of the sorted table bounds every row of the
    table and is the distance of one of them. *)
Lemma max_dist_spec (df : list sample) (m : Q) :
  Qmax_list (map dist (sort_values dist df)) = Some m ->
  Forall (fun r => dist r <= m) df /\ exists r, In r df /\ dist r = m.
Proof.
  intros Hm. split.
  - apply Qmax_list_ge in Hm. rewrite Forall_map_iff in Hm.
    rewrite Forall_forall in *. intros r Hr. apply Hm, sort_values_In, Hr.
  - apply Qmax_list_In, in_map_iff in Hm. destruct Hm as (r & Hr & Hin).
    exists r. split; [apply (sort_values_In dist), Hin | exact Hr].
Qed.

(** ** Properties of the bins *)

Lemma seglen_pos (m : Q) (n : Z) : 0 < m -> (1 <= n)%Z -> 0 < m / inject_Z n.
Proof.
  intros Hm Hn. apply Qlt_shift_div_l; [apply inject_Z_pos; lia | lra].
Qed.

Lemma bin_of_range (m : Q) (n : Z) (d : Q) :
  0 < m -> (1 <= n)%Z -> 0 <= d -> (0 <= bin_of m n d <= n - 1)%Z.
Proof.
  intros Hm Hn Hd. unfold bin_of.
  assert (0 <= Qfloor (d / (m / inject_Z n)))%Z; [|lia].
  apply Qfloor_nonneg, Qdiv_nonneg; [assumption | apply seglen_pos; assumption].
Qed.

Lemma bin_of_max (m : Q) (n : Z) (d : Q) :
  ~ m == 0 -> n <> 0%Z -> d == m -> bin_of m n d = (n - 1)%Z.
Proof.
  intros Hm Hn Hd. unfold bin_of.
  assert (Hq : ~ inject_Z n == 0) by (rewrite (inject_Z_injective n 0); exact Hn).
  assert (E : d / (m / inject_Z n) == inject_Z n) by (rewrite Hd; field; auto).
  rewrite E, Qfloor_Z. lia.
Qed.

Lemma bin_of_mono (m : Q) (n : Z) (d d' : Q) :
  0 < m -> (1 <= n)%Z -> d <= d' -> (bin_of m n d <= bin_of m n d')%Z.
Proof.
  intros Hm Hn Hd. unfold bin_of.
  apply Z.min_le_compat_r, Qfloor_resp_le, Qdiv_le_mono; [apply seglen_pos |]; assumption.
Qed.

(** Below the last bin, bin [k] is the half-open interval
    [k * len, (k + 1) * len) of distances. *)
Lemma bin_of_interval (m : Q) (n : Z) (d : Q) :
  0 < m -> (1 <= n)%Z -> (bin_of m n d < n - 1)%Z ->
  inject_Z (bin_of m n d) * (m / inject_Z n) <= d
  < (inject_Z (bin_of m n d) + 1) * (m / inject_Z n).
Proof.
  intros Hm Hn Hk. pose proof (seglen_pos m n Hm Hn) as Hlen.
  unfold bin_of in *. set (len := m / inject_Z n) in *.
  rewrite Z.min_l in * by lia.
  pose proof (Qfloor_le (d / len)) as Hlo.
  pose proof (Qlt_floor (d / len)) as Hhi. rewrite inject_Z_plus in Hhi.
  assert (Hd : d == d / len * len) by (field; lra).
  split.
  - rewrite Hd at 2. apply Qmult_le_compat_r; lra.
  - rewrite Hd at 1. apply Qmult_lt_compat_r; assumption.
Qed.

Lemma bins_monotone (m : Q) (n : Z) (l : list sample) :
  0 < m -> (1 <= n)%Z -> sorted_by dist l ->
  StronglySorted Z.le (map (fun r => bin_of m n (dist r)) l).
Proof.
  intros Hm Hn. unfold sorted_by.
  induction 1 as [|r l _ IH Hr]; simpl; constructor; [exact IH |].
  apply Forall_map_iff. eapply Forall_impl; [|exact Hr].
  intros r' Hle. apply bin_of_mono; assumption.
Qed.

(** ** Fixtures for the witnesses *)

Definition sample_at (d : Q) : sample := mkSample 0 0 0 0 0 0 0 0 0 0 d.

Definition lap4 : list sample := [sample_at 3; sample_at 1; sample_at 2; sample_at 0].

(** 120 samples at equal spacing from 0 to 1200. *)
Definition lap120 : list sample :=
  map (fun i => sample_at (inject_Z (Z.of_nat i) * (1200 # 119))) (seq 0 120).

Definition ids_of (r : result (list seg_row)) : list Z :=
  match r with Ok out => map segment_id out | Err _ => [] end.

(** * Theorems *)

Lemma segment_lap_ids_range (df : list sample) (n : Z) (out : list seg_row) :
  (1 <= n)%Z -> Forall (fun r => 0 <= dist r) df ->
  segment_lap df n = Ok out ->
  Forall (fun sr => (0 <= segment_id sr <= n - 1)%Z) out.
Proof.
  intros Hn Hpos Hok.
  destruct (segment_lap_Ok_inv df n out) as [[_ ->] | (m & Hm & Hm0 & ->)];
    [lia | assumption | constructor |].
  destruct (max_dist_spec _ _ Hm) as [_ (r0 & Hr0 & E)].
  rewrite Forall_forall in Hpos.
  assert (Hmpos : 0 < m) by (specialize (Hpos r0 Hr0); rewrite E in Hpos; lra).
  apply Forall_map_iff, Forall_forall. intros r Hr. simpl.
  apply bin_of_range; [assumption | assumption |].
  apply Hpos, (sort_values_In dist), Hr.
Qed.

(** C1: with at least one segment and no negative distance, every row of a
    successful run gets a segment id in [0, num_segments - 1]. *)
Theorem segment_lap_ids_in_range (df : list sample) (n : Z) (out : list seg_row) :
  (1 <= n)%Z -> Forall (fun r => 0 <= dist r) df ->
  segment_lap df n = Ok out ->
  Forall (fun sr => (0 <= segment_id sr <= n - 1)%Z) out.
Proof. exact (segment_lap_ids_range df n out). Qed.

Lemma segment_lap_ids_in_range_witness :
  Forall (fun sr => (0 <= segment_id sr <= 3 - 1)%Z)
         (map (tag 3 3) (sort_values dist lap4)).
Proof.
  apply (segment_lap_ids_in_range lap4 3); [lia | | reflexivity].
  repeat constructor; simpl; lra.
Defined.

(** C10: a row whose distance is the largest of the lap lands in the last
    segment, num_segments - 1 (the boundary clamp). *)
Theorem segment_lap_max_row_last (df : list sample) (n : Z) (out : list seg_row) (sr : seg_row) :
  (1 <= n)%Z -> segment_lap df n = Ok out -> In sr out ->
  Forall (fun r => dist r <= dist (row sr)) df ->
  segment_id sr = (n - 1)%Z.
Proof.
  intros Hn Hok Hin Hmax.
  destruct (segment_lap_Ok_inv df n out) as [[_ ->] | (m & Hm & Hm0 & ->)];
    [lia | assumption | contradiction |].
  apply in_map_iff in Hin as (r & <- & Hr). simpl in *.
  destruct (max_dist_spec _ _ Hm) as [Hle (r0 & Hr0 & E)].
  rewrite Forall_forall in Hle, Hmax.
  apply bin_of_max; [assumption | lia |].
  apply Qle_antisym; [apply Hle, (sort_values_In dist), Hr |].
  rewrite <- E. apply Hmax, Hr0.
Qed.

Lemma segment_lap_max_row_last_witness :
  segment_id (tag 3 3 (sample_at 3)) = (3 - 1)%Z.
Proof.
  apply (segment_lap_max_row_last lap4 3 (map (tag 3 3) (sort_values dist lap4)));
    [lia | reflexivity | simpl; tauto |].
  repeat constructor; simpl; lra.
Defined.

(** A non-empty lap whose distances are all zero raises the integer-cast
    error of pandas (the division by the zero segment length is not
    guarded in the code; the failure is the one of [astype(int)]). *)
Theorem segment_lap_zero_length (df : list sample) (n : Z) :
  df <> [] -> Forall (fun r => dist r == 0) df ->
  segment_lap df n = Err IntCastingNaNError.
Proof.
  intros Hne Hz.
  destruct (Qmax_list_Some (map dist (sort_values dist df))) as [m Hm].
  - intros E. apply map_eq_nil in E. apply Hne, length_zero_iff_nil.
    rewrite <- (sort_values_length dist), E. reflexivity.
  - apply (segment_lap_zero df n m Hm).
    destruct (max_dist_spec _ _ Hm) as [_ (r & Hr & <-)].
    rewrite Forall_forall in Hz. auto.
Qed.

Lemma segment_lap_zero_length_witness :
  segment_lap [sample_at 0; sample_at 0] 60 = Err IntCastingNaNError.
Proof.
  apply segment_lap_zero_length; [discriminate |].
  repeat constructor.
Defined.

(** The rows of the output are the rows of the input, reordered by
    ascending lap distance; no row is lost or duplicated. *)
Theorem segment_lap_rows (df : list sample) (n : Z) (out : list seg_row) :
  segment_lap df n = Ok out ->
  Permutation df (map row out) /\ sorted_by dist (map row out).
Proof.
  unfold segment_lap. intros Hok.
  apply bind_Ok in Hok as (ids & Hids & [= <-]).
  apply mapM_length in Hids.
  rewrite assign_segment_id_rows by (rewrite length_map; exact Hids).
  split; [apply sort_values_perm | apply sort_values_sorted].
Qed.

Lemma segment_lap_length (df : list sample) (n : Z) (out : list seg_row) :
  segment_lap df n = Ok out -> length out = length df.
Proof.
  intros H. apply segment_lap_rows in H as [P _].
  apply Permutation_length in P. now rewrite P, length_map.
Qed.

Lemma segment_lap_rows_witness :
  Permutation lap4 (map row (map (tag 3 3) (sort_values dist lap4))) /\
  sorted_by dist (map row (map (tag 3 3) (sort_values dist lap4))).
Proof. apply (segment_lap_rows lap4 3). reflexivity. Defined.

(** [segment_lap] succeeds on every lap that has a positive distance and
    no negative one, for every non-zero segment count, and tags each row. *)
Theorem segment_lap_total (df : list sample) (n : Z) :
  n <> 0%Z -> Forall (fun r => 0 <= dist r) df -> Exists (fun r => 0 < dist r) df ->
  exists out, segment_lap df n = Ok out /\ length out = length df.
Proof.
  intros Hn Hpos Hex. apply Exists_exists in Hex as (r1 & Hr1 & Hd1).
  destruct (Qmax_list_Some (map dist (sort_values dist df))) as [m Hm].
  - intros E. apply map_eq_nil in E.
    apply (sort_values_In dist) in Hr1. rewrite E in Hr1. contradiction.
  - destruct (max_dist_spec _ _ Hm) as [Hle _]. rewrite Forall_forall in Hle.
    assert (Hm0 : ~ m == 0) by (specialize (Hle r1 Hr1); lra).
    rewrite (segment_lap_finite df n m Hm Hm0 Hn).
    eexists; split; [reflexivity |].
    rewrite length_map. apply sort_values_length.
Qed.

Lemma segment_lap_total_witness :
  exists out, segment_lap lap4 3 = Ok out /\ length out = length lap4.
Proof.
  apply segment_lap_total; [lia | repeat constructor; simpl; lra |].
  apply Exists_cons_hd. simpl. lra.
Defined.

(** Along the output table the segment ids never decrease: segments are
    contiguous runs of the distance-ordered rows. *)
Theorem segment_lap_ids_monotone (df : list sample) (n : Z) (out : list seg_row) :
  (1 <= n)%Z -> Forall (fun r => 0 <= dist r) df ->
  segment_lap df n = Ok out ->
  StronglySorted Z.le (map segment_id out).
Proof.
  intros Hn Hpos Hok.
  destruct (segment_lap_Ok_inv df n out) as [[_ ->] | (m & Hm & Hm0 & ->)];
    [lia | assumption | constructor |].
  destruct (max_dist_spec _ _ Hm) as [_ (r0 & Hr0 & E)].
  rewrite Forall_forall in Hpos.
  assert (Hmpos : 0 < m) by (specialize (Hpos r0 Hr0); rewrite E in Hpos; lra).
  rewrite map_map. simpl.
  apply bins_monotone; [assumption | assumption | apply sort_values_sorted].
Qed.

Lemma segment_lap_ids_monotone_witness :
  StronglySorted Z.le (map segment_id (map (tag 3 3) (sort_values dist lap4))).
Proof.
  apply (segment_lap_ids_monotone lap4 3); [lia | | reflexivity].
  repeat constructor; simpl; lra.
Defined.

(** Below the last segment, segment [k] holds exactly the distances of
    the half-open interval from k segment lengths to k+1 segment lengths. *)
Theorem segment_lap_bin_interval (df : list sample) (n : Z) (out : list seg_row)
  (m : Q) (sr : seg_row) :
  (1 <= n)%Z -> Forall (fun r => 0 <= dist r) df ->
  Qmax_list (map dist (sort_values dist df)) = Some m ->
  segment_lap df n = Ok out -> In sr out -> (segment_id sr < n - 1)%Z ->
  inject_Z (segment_id sr) * (m / inject_Z n) <= dist (row sr)
  < (inject_Z (segment_id sr) + 1) * (m / inject_Z n).
Proof.
  intros Hn Hpos Hm Hok Hin Hk.
  destruct (segment_lap_Ok_inv df n out) as [[_ ->] | (m' & Hm' & Hm0 & ->)];
    [lia | assumption | contradiction |].
  rewrite Hm in Hm'. injection Hm' as <-.
  destruct (max_dist_spec _ _ Hm) as [_ (r0 & Hr0 & E)].
  rewrite Forall_forall in Hpos.
  assert (Hmpos : 0 < m) by (specialize (Hpos r0 Hr0); rewrite E in Hpos; lra).
  apply in_map_iff in Hin as (r & <- & Hr). simpl in *.
  apply bin_of_interval; assumption.
Qed.

Lemma segment_lap_bin_interval_witness :
  inject_Z 1 * (3 / inject_Z 3) <= dist (sample_at 1) < (inject_Z 1 + 1) * (3 / inject_Z 3).
Proof.
  apply (segment_lap_bin_interval lap4 3 (map (tag 3 3) (sort_values dist lap4)) 3
           (tag 3 3 (sample_at 1)));
    [lia | repeat constructor; simpl; lra | reflexivity | reflexivity | simpl; tauto | simpl].
  vm_compute. reflexivity.
Defined.

(** An empty table is returned empty, without an error. *)
Theorem segment_lap_empty (n : Z) : segment_lap [] n = Ok [].
Proof. reflexivity. Qed.

(** With a segment count of zero and a positive largest distance the
    division gives an infinite segment length, and every row is tagged
    -1: no error is raised. *)
Theorem segment_lap_zero_segments (df : list sample) :
  Forall (fun r => 0 <= dist r) df -> Exists (fun r => 0 < dist r) df ->
  segment_lap df 0 = Ok (map (fun r => mkSegRow r (-1)) (sort_values dist df)).
Proof.
  intros Hpos Hex. apply Exists_exists in Hex as (r1 & Hr1 & Hd1).
  unfold segment_lap, raw_segment_ids, segment_length.
  destruct (Qmax_list_Some (map dist (sort_values dist df))) as [m Hm].
  - intros E. apply map_eq_nil in E.
    apply (sort_values_In dist) in Hr1. rewrite E in Hr1. contradiction.
  - destruct (max_dist_spec _ _ Hm) as [Hle _]. rewrite Forall_forall in Hle, Hpos.
    assert (Hm0 : 0 < m) by (specialize (Hle r1 Hr1); lra).
    rewrite Hm. unfold div_by_int, div_zero. simpl Z.eqb. cbv iota.
    destruct (Qeq_bool m 0) eqn:E1; qbool; [lra |].
    destruct (Qle_bool 0 m) eqn:E2; qbool; [| lra].
    rewrite (mapM_Ok _ (fun _ => 0%Z)).
    + simpl. rewrite map_map, assign_segment_id_map. reflexivity.
    + intros r Hr. apply (proj1 (sort_values_In dist df r)) in Hr. specialize (Hpos r Hr).
      simpl. destruct (Qle_bool 0 (dist r)) eqn:E3; qbool; [reflexivity | lra].
Qed.

Lemma segment_lap_zero_segments_witness :
  segment_lap lap4 0 = Ok (map (fun r => mkSegRow r (-1)) (sort_values dist lap4)).
Proof.
  apply segment_lap_zero_segments; [repeat constructor; simpl; lra |].
  apply Exists_cons_hd. simpl. lra.
Defined.

(** ** When the segmenter raises *)

Lemma Qmax_list_sort (df : list sample) (m : Q) :
  Qmax_list (map dist (sort_values dist df)) = Some m ->
  exists m', Qmax_list (map dist df) = Some m' /\ m' == m.
Proof.
  intros Hm.
  destruct (Qmax_list_Some (map dist df)) as [m' Hm'].
  - intros E. apply map_eq_nil in E. subst df. discriminate.
  - exists m'. split; [assumption |].
    pose proof (Qmax_list_In _ _ Hm) as Hi. pose proof (Qmax_list_In _ _ Hm') as Hi'.
    apply in_map_iff in Hi as (r & <- & Hr). apply in_map_iff in Hi' as (r' & <- & Hr').
    pose proof (Qmax_list_ge _ _ Hm) as G. pose proof (Qmax_list_ge _ _ Hm') as G'.
    rewrite Forall_forall in G, G'. apply Qle_antisym.
    + apply G, in_map, sort_values_In, Hr'.
    + apply G', in_map, (sort_values_In dist), Hr.
Qed.

(** With a segment count of zero the segment length is an infinity
    whenever the largest distance is not zero, and no cast fails. *)
Lemma segment_lap_infinite (df : list sample) (m : Q) :
  Qmax_list (map dist (sort_values dist df)) = Some m -> ~ m == 0 ->
  exists out, segment_lap df 0 = Ok out.
Proof.
  intros Hm Hm0. unfold segment_lap, raw_segment_ids, segment_length.
  rewrite Hm. unfold div_by_int, div_zero. simpl Z.eqb. cbv iota.
  destruct (Qeq_bool m 0) eqn:E1; qbool; [contradiction |].
  destruct (Qle_bool 0 m);
    [rewrite (mapM_Ok _ (fun r => Qfloor (if Qle_bool 0 (dist r) then 0 else -1)))
    |rewrite (mapM_Ok _ (fun r => Qfloor (if Qle_bool (dist r) 0 then 0 else -1)))];
    simpl; eauto.
Qed.

Lemma zero_length_sorted (df : list sample) (m : Q) :
  Qmax_list (map dist (sort_values dist df)) = Some m ->
  zero_length df = Qeq_bool m 0.
Proof.
  intros Hm. unfold zero_length. destruct (Qmax_list_sort df m Hm) as (m' & -> & E).
  destruct (Qeq_bool m 0) eqn:B, (Qeq_bool m' 0) eqn:B'; qbool; try reflexivity.
  - rewrite E in B'. contradiction.
  - rewrite E in B'. contradiction.
Qed.

Lemma segment_lap_raises (df : list sample) (n : Z) (e : pyerror) :
  segment_lap df n = Err e <-> e = IntCastingNaNError /\ zero_length df = true.
Proof.
  destruct (Qmax_list (map dist (sort_values dist df))) as [m|] eqn:Hm.
  - rewrite (zero_length_sorted df m Hm).
    destruct (Qeq_bool m 0) eqn:B; qbool.
    + rewrite (segment_lap_zero df n m Hm B).
      split; [intros [= <-]; auto | now intros [-> _]].
    + destruct (Z.eq_dec n 0) as [->|Hn];
        [destruct (segment_lap_infinite df m Hm B) as [out ->]
        |rewrite (segment_lap_finite df n m Hm B Hn)];
        (split; [discriminate | intros [_ ?]; discriminate]).
  - apply Qmax_list_None, map_eq_nil in Hm.
    assert (df = []) as ->.
    { apply length_zero_iff_nil. now rewrite <- (sort_values_length dist), Hm. }
    simpl. split; [discriminate | now intros [_ ?]].
Qed.

(** C22: the segmenter raises in one case only, whatever the segment count:
    the lap has rows and its largest distance is zero.  The error is
    the one of the integer cast. *)
Theorem segment_lap_fails_iff (df : list sample) (n : Z) (e : pyerror) :
  segment_lap df n = Err e <-> e = IntCastingNaNError /\ zero_length df = true.
Proof. exact (segment_lap_raises df n e). Qed.

(** A negative lap distance is tagged with a negative segment id: the
    code clips from above only. *)
Theorem segment_lap_negative_distance :
  ids_of (segment_lap [sample_at (-5); sample_at 0; sample_at 10] 5) = [-3; 0; 4]%Z.
Proof. reflexivity. Qed.

(** 120 samples spaced evenly from 0 to 1200, cut into 60 segments:
    every segment holds exactly 2 samples and the last sample is in
    segment 59. *)
Theorem segment_lap_scenario_120 :
  forallb (fun k => Nat.eqb (count_occ Z.eq_dec (ids_of (segment_lap lap120 60)) (Z.of_nat k)) 2)
          (seq 0 60) = true /\
  last (ids_of (segment_lap lap120 60)) 0%Z = 59%Z.
Proof. split; vm_compute; reflexivity. Qed.

(** The test stub never reports a number of segments: with load_data
    in reach the call of [load_telemetry] without its argument raises a
    TypeError, which [except ImportError] does not catch. *)
Theorem main_never_segments (load_data_found : bool) :
  main load_data_found
  = if load_data_found
    then Uncaught (TypeError "load_telemetry() missing 1 required positional argument: 'file_path'")
    else Printed "load_data module not found for testing.".
Proof. now destruct load_data_found. Qed.
