(* ===== verification/CliModel.v ===== *)
(** * CliModel: src/src/cli_model.py

    [normalize_series] is the min-max normalisation of one column;
    [compute_cli] normalises four metric columns, fuses them with fixed
    weights into [CLI] and smooths [CLI] with a centred rolling mean of
    three segments.  The columns are lists in segment order; a column
    assignment [df[c] = col] pairs the rows with the column by position.

    The table that the function receives is the one that
    [pd.DataFrame(metrics)] makes of the list of rows of
    [compute_segment_metrics]: its columns are the keys of the rows, so
    a list of no rows makes a table of no columns, and the first column
    that [compute_cli] reads is not there.  [cli_table] is the function
    on a table that has rows, [compute_cli] the function with this
    failure. *)

From Stdlib Require Import String QArith Qround Qminmax Lqa Lia ZArith Bool.
From Stdlib Require Import List Permutation Sorted SetoidList Morphisms Setoid.
From S2P Require Import Prelude Series Frame.
Import ListNotations.

(** ** normalize_series *)

(** One element of the result, given the column's [min] and [max]:
    [x * 0] when [max - min == 0], else [(x - min) / (max - min)].  With a
    NaN [min] or [max] (an all-NaN or empty column) the test is false and
    the quotient is NaN. *)
Definition normalize_value (min_val max_val x : float) : float :=
  if feqb (fsub max_val min_val) (Some 0) then fmul x (Some 0)
  else fdiv (fsub x min_val) (fsub max_val min_val).

Definition normalize_series (series : list float) : list float :=
  let min_val := series_min series in
  let max_val := series_max series in
  map (normalize_value min_val max_val) series.

(** ** compute_cli *)

Definition w_steering : Q := 4 # 10.
Definition w_throttle : Q := 3 # 10.
Definition w_brake : Q := 2 # 10.
Definition w_lat : Q := 1 # 10.

(** The weighted sum of one row. *)
Definition cli_formula (ns nt nb nl : float) : float :=
  fadd (fadd (fadd (fmul (Some w_steering) ns) (fmul (Some w_throttle) nt))
             (fmul (Some w_brake) nb))
       (fmul (Some w_lat) nl).

(** The four normalised columns, paired by position. *)
Definition norm_columns (metrics_df : list metrics_row)
  : list (float * (float * (float * float))) :=
  combine (normalize_series (map steering_entropy metrics_df))
  (combine (normalize_series (map throttle_jerk metrics_df))
  (combine (normalize_series (map brake_panic metrics_df))
           (normalize_series (map lat_instability metrics_df)))).

Definition cli_column (norms : list (float * (float * (float * float)))) : list float :=
  map (fun n => cli_formula (fst n) (fst (snd n)) (fst (snd (snd n))) (snd (snd (snd n)))) norms.

(** Lines 22 to 43: the columns added to a table that has the four
    metric columns. *)
Definition cli_table (metrics_df : list metrics_row) : list cli_row :=
  let norms := norm_columns metrics_df in
  let cli := cli_column norms in
  let cli_smooth := rolling_mean 3 1 cli in
  map (fun p =>
         let '(r, (n, (c, s))) := p in
         mkCliRow r (fst n) (fst (snd n)) (fst (snd (snd n))) (snd (snd (snd n))) c s)
      (combine metrics_df (combine norms (combine cli cli_smooth))).

(** [df['steering_entropy']] on a table without rows: the table has no
    columns either, and the lookup raises. *)
Definition compute_cli (metrics_df : list metrics_row) : result (list cli_row) :=
  match metrics_df with
  | [] => Err (KeyError "steering_entropy"%string)
  | _ :: _ => Ok (cli_table metrics_df)
  end.

(** ** Specification: the table row by row

    [norm_of col g r] is the normalised value of row [r] in the column
    extracted by [g]; [cli_of df r] the fused score of row [r]. *)

Definition norm_of (df : list metrics_row) (g : metrics_row -> float) (r : metrics_row) : float :=
  normalize_value (series_min (map g df)) (series_max (map g df)) (g r).

Definition cli_of (df : list metrics_row) (r : metrics_row) : float :=
  cli_formula (norm_of df steering_entropy r) (norm_of df throttle_jerk r)
              (norm_of df brake_panic r) (norm_of df lat_instability r).

Definition cli_row_of (df : list metrics_row) (p : metrics_row * float) : cli_row :=
  mkCliRow (fst p)
           (norm_of df steering_entropy (fst p)) (norm_of df throttle_jerk (fst p))
           (norm_of df brake_panic (fst p)) (norm_of df lat_instability (fst p))
           (cli_of df (fst p)) (snd p).

Definition compute_cli_spec (df : list metrics_row) : list cli_row :=
  map (cli_row_of df) (combine df (rolling_mean 3 1 (map (cli_of df) df))).

(** * Lemmas *)

(** ** normalize_value *)

Lemma normalize_value_nan (mn mx : float) : normalize_value mn mx None = None.
Proof. unfold normalize_value. destruct (feqb _ _); reflexivity. Qed.

Lemma normalize_value_no_min (mx x : float) : normalize_value None mx x = None.
Proof. unfold normalize_value. destruct mx, x; reflexivity. Qed.

Lemma normalize_value_no_max (mn x : float) : normalize_value mn None x = None.
Proof. unfold normalize_value. destruct mn, x; reflexivity. Qed.

Lemma normalize_value_const (mn mx a : Q) :
  mx - mn == 0 -> normalize_value (Some mn) (Some mx) (Some a) = Some (a * 0).
Proof.
  intros H. unfold normalize_value. simpl.
  apply Qeq_bool_iff in H. rewrite H. reflexivity.
Qed.

Lemma normalize_value_scaled (mn mx a : Q) :
  ~ mx - mn == 0 ->
  normalize_value (Some mn) (Some mx) (Some a) = Some ((a - mn) / (mx - mn)).
Proof.
  intros H. unfold normalize_value. simpl.
  destruct (Qeq_bool (mx - mn) 0) eqn:E; qbool; [contradiction | reflexivity].
Qed.

Lemma normalize_value_unit (mn mx a : Q) :
  mn <= a <= mx -> fholds in_unit (normalize_value (Some mn) (Some mx) (Some a)).
Proof.
  intros [Hlo Hhi]. destruct (Qeq_dec (mx - mn) 0) as [E|E].
  - rewrite normalize_value_const by assumption. simpl. unfold in_unit. lra.
  - rewrite normalize_value_scaled by assumption. simpl. unfold in_unit.
    split; [apply Qdiv_nonneg | apply Qdiv_le_1]; lra.
Qed.

Lemma normalize_value_mono (mn mx a b : Q) :
  mn <= mx -> a <= b ->
  exists u v, normalize_value (Some mn) (Some mx) (Some a) = Some u /\
              normalize_value (Some mn) (Some mx) (Some b) = Some v /\ u <= v.
Proof.
  intros Hm Hab. destruct (Qeq_dec (mx - mn) 0) as [E|E].
  - rewrite !normalize_value_const by assumption. do 2 eexists. repeat split. lra.
  - rewrite !normalize_value_scaled by assumption. do 2 eexists. repeat split.
    apply Qdiv_le_mono; lra.
Qed.

Lemma normalize_series_length (s : list float) : length (normalize_series s) = length s.
Proof. unfold normalize_series. apply length_map. Qed.

(** ** The program computes the row-wise specification *)

Lemma normalize_series_map (df : list metrics_row) (g : metrics_row -> float) :
  normalize_series (map g df) = map (norm_of df g) df.
Proof. unfold normalize_series, norm_of. rewrite map_map. reflexivity. Qed.

Lemma norm_columns_map (df : list metrics_row) :
  norm_columns df =
  map (fun r => (norm_of df steering_entropy r, (norm_of df throttle_jerk r,
                 (norm_of df brake_panic r, norm_of df lat_instability r)))) df.
Proof.
  unfold norm_columns.
  rewrite !normalize_series_map, !combine_maps. reflexivity.
Qed.

Lemma cli_column_map (df : list metrics_row) :
  cli_column (norm_columns df) = map (cli_of df) df.
Proof. rewrite norm_columns_map. unfold cli_column. rewrite map_map. reflexivity. Qed.

Lemma cli_formula_unit (a b c d : float) :
  fholds in_unit a -> fholds in_unit b -> fholds in_unit c -> fholds in_unit d ->
  fholds in_unit (cli_formula a b c d).
Proof.
  destruct a, b, c, d; simpl; auto.
  unfold in_unit, w_steering, w_throttle, w_brake, w_lat. intros. lra.
Qed.

Lemma cli_formula_nan_lat (a b c : float) : cli_formula a b c None = None.
Proof. unfold cli_formula. destruct a, b, c; reflexivity. Qed.

Lemma norm_of_unit (df : list metrics_row) (g : metrics_row -> float) (r : metrics_row) :
  In r df -> fholds in_unit (norm_of df g r).
Proof.
  intros Hr. unfold norm_of. destruct (g r) as [a|] eqn:Ha;
    [|rewrite normalize_value_nan; exact I].
  assert (Hin : In (Some a) (map g df)) by (rewrite <- Ha; apply in_map, Hr).
  destruct (series_min_max_Some _ _ Hin) as (mn & mx & Hmn & Hmx).
  rewrite Hmn, Hmx. apply normalize_value_unit.
  split; [eapply series_min_le | eapply series_max_ge]; eassumption.
Qed.

Lemma norm_of_Some (df : list metrics_row) (g : metrics_row -> float) (r : metrics_row) (a : Q) :
  In r df -> g r = Some a -> exists v, norm_of df g r = Some v.
Proof.
  intros Hr Ha. unfold norm_of. rewrite Ha.
  assert (Hin : In (Some a) (map g df)) by (rewrite <- Ha; apply in_map, Hr).
  destruct (series_min_max_Some _ _ Hin) as (mn & mx & -> & ->).
  destruct (Qeq_dec (mx - mn) 0) as [E|E];
    [rewrite normalize_value_const | rewrite normalize_value_scaled]; eauto.
Qed.

Lemma cli_of_unit (df : list metrics_row) (r : metrics_row) :
  In r df -> fholds in_unit (cli_of df r).
Proof. intros Hr. apply cli_formula_unit; apply norm_of_unit, Hr. Qed.

(** No metric of the row is NaN. *)
Definition finite_metrics (r : metrics_row) : Prop :=
  is_nan (steering_entropy r) = false /\ is_nan (throttle_jerk r) = false /\
  is_nan (brake_panic r) = false /\ is_nan (lat_instability r) = false.

Lemma norm_of_not_nan (df : list metrics_row) (g : metrics_row -> float) (r : metrics_row) :
  In r df -> is_nan (g r) = false -> exists v, norm_of df g r = Some v.
Proof.
  intros Hr Hg. destruct (g r) as [a|] eqn:Ha; [|discriminate].
  eapply norm_of_Some; eassumption.
Qed.

Lemma cli_of_Some (df : list metrics_row) (r : metrics_row) :
  In r df -> finite_metrics r -> is_nan (cli_of df r) = false.
Proof.
  intros Hr (H1 & H2 & H3 & H4). unfold cli_of.
  destruct (norm_of_not_nan df steering_entropy r Hr H1) as [v1 ->].
  destruct (norm_of_not_nan df throttle_jerk r Hr H2) as [v2 ->].
  destruct (norm_of_not_nan df brake_panic r Hr H3) as [v3 ->].
  destruct (norm_of_not_nan df lat_instability r Hr H4) as [v4 ->]. reflexivity.
Qed.

(** ** Fixtures for the witnesses *)

Definition metrics_at (i : Z) (se tj bp lat lj : Q) : metrics_row :=
  mkMetrics i (Some se) (Some tj) (Some bp) (Some lat) (Some lj) (Some (inject_Z i)).

Definition metrics4 : list metrics_row :=
  [ metrics_at 0 1 0 5 1 7; metrics_at 1 2 0 5 2 0;
    metrics_at 2 3 1 5 3 1; metrics_at 3 2 (1 # 2) 5 2 4 ].

(** A segment of one sample: its standard deviation is NaN. *)
Definition metrics_single : metrics_row :=
  mkMetrics 0 (Some 0) (Some 0) (Some 0) None (Some 0) (Some 0).

(** * Theorems *)

(** Every value of a normalised column that is not NaN lies in [0, 1],
    whatever the column (empty, constant, with NaN). *)
Theorem normalize_series_in_unit (s : list float) :
  Forall (fholds in_unit) (normalize_series s).
Proof.
  unfold normalize_series. apply Forall_map_iff, Forall_forall.
  intros [a|] Hin; [|rewrite normalize_value_nan; exact I].
  destruct (series_min_max_Some _ _ Hin) as (mn & mx & Hmn & Hmx).
  rewrite Hmn, Hmx. apply normalize_value_unit.
  split; [eapply series_min_le | eapply series_max_ge]; eassumption.
Qed.

(** C20: a column whose values are all equal is normalised to zero in every
    segment: the zero range is tested before the division. *)
Theorem normalize_series_constant (s : list float) (c : Q) :
  Forall (fun x => feq x (Some c)) s ->
  Forall (fun y => feq y (Some 0)) (normalize_series s).
Proof.
  intros Hc. unfold normalize_series. apply Forall_map_iff, Forall_forall.
  rewrite Forall_forall in Hc.
  intros [a|] Hin; [|apply Hc in Hin; contradiction].
  destruct (series_min_max_Some _ _ Hin) as (mn & mx & Hmn & Hmx).
  rewrite Hmn, Hmx.
  pose proof (Hc _ (series_min_In _ _ Hmn)) as E1.
  pose proof (Hc _ (series_max_In _ _ Hmx)) as E2. simpl in E1, E2.
  rewrite normalize_value_const by (rewrite E1, E2; ring).
  simpl. ring.
Qed.

Lemma normalize_series_constant_witness :
  Forall (fun y => feq y (Some 0)) (normalize_series [Some 5; Some (10 # 2); Some 5]).
Proof.
  apply (normalize_series_constant _ 5).
  repeat constructor.
Defined.

(** On a column that is not constant the smallest value is normalised
    to 0 and the largest to 1. *)
Theorem normalize_series_extremes (s : list float) (mn mx : Q) :
  series_min s = Some mn -> series_max s = Some mx -> mn < mx ->
  Exists (feq (Some 0)) (normalize_series s) /\
  Exists (feq (Some 1)) (normalize_series s).
Proof.
  intros Hmn Hmx Hlt. unfold normalize_series. rewrite Hmn, Hmx.
  assert (E : ~ mx - mn == 0) by lra.
  split; apply Exists_exists.
  - exists (normalize_value (Some mn) (Some mx) (Some mn)).
    split; [apply in_map, series_min_In, Hmn |].
    rewrite normalize_value_scaled by assumption. simpl. field. exact E.
  - exists (normalize_value (Some mn) (Some mx) (Some mx)).
    split; [apply in_map, series_max_In, Hmx |].
    rewrite normalize_value_scaled by assumption. simpl. field. exact E.
Qed.

Lemma normalize_series_extremes_witness :
  Exists (feq (Some 0)) (normalize_series [Some 2; None; Some 6; Some 3]) /\
  Exists (feq (Some 1)) (normalize_series [Some 2; None; Some 6; Some 3]).
Proof.
  apply (normalize_series_extremes _ 2 6); [reflexivity | reflexivity | lra].
Defined.

(** Normalisation keeps the order of the values: a segment with a
    larger metric never gets a smaller normalised metric. *)
Theorem normalize_series_monotone (s : list float) (i j : nat) (a b : Q) :
  nth_error s i = Some (Some a) -> nth_error s j = Some (Some b) -> a <= b ->
  exists u v, nth_error (normalize_series s) i = Some (Some u) /\
              nth_error (normalize_series s) j = Some (Some v) /\ u <= v.
Proof.
  intros Hi Hj Hab. unfold normalize_series.
  rewrite !nth_error_map, Hi, Hj. simpl.
  apply nth_error_In in Hi.
  destruct (series_min_max_Some _ _ Hi) as (mn & mx & Hmn & Hmx).
  rewrite Hmn, Hmx.
  destruct (normalize_value_mono mn mx a b) as (u & v & -> & -> & Huv);
    [eapply Qmin_le_Qmax; eassumption | assumption | eauto].
Qed.

Lemma normalize_series_monotone_witness :
  exists u v, nth_error (normalize_series [Some 2; None; Some 6; Some 3]) 3 = Some (Some u) /\
              nth_error (normalize_series [Some 2; None; Some 6; Some 3]) 2 = Some (Some v) /\
              u <= v.
Proof.
  apply (normalize_series_monotone _ 3%nat 2%nat 3 6); [reflexivity | reflexivity | lra].
Defined.

(** NaN goes in and comes out at the same places: a value that is not
    NaN is never normalised to NaN, and NaN stays NaN. *)
Theorem normalize_series_nan_iff (s : list float) :
  map is_nan (normalize_series s) = map is_nan s.
Proof.
  unfold normalize_series. rewrite map_map. apply map_ext_in.
  intros [a|] Hin; [|rewrite normalize_value_nan; reflexivity].
  destruct (series_min_max_Some _ _ Hin) as (mn & mx & -> & ->).
  destruct (Qeq_dec (mx - mn) 0) as [E|E];
    [rewrite normalize_value_const | rewrite normalize_value_scaled]; auto.
Qed.

Lemma compute_cli_unfold (df : list metrics_row) :
  cli_table df = compute_cli_spec df.
Proof.
  unfold cli_table, compute_cli_spec.
  rewrite cli_column_map. rewrite norm_columns_map at 1.
  set (smooth := rolling_mean 3 1 (map (cli_of df) df)).
  rewrite combine3_map, map_map.
  apply map_ext. intros [r s]. reflexivity.
Qed.

(** C3: the column-wise program computes, row by row, the normalised
    metrics of the row, their weighted sum and the rolling mean of the
    sums: [compute_cli] refines [compute_cli_spec] on every table that
    has a row, and raises the KeyError of the missing column on the
    table without rows. *)
Theorem compute_cli_refines_spec (df : list metrics_row) :
  compute_cli df = match df with
                   | [] => Err (KeyError "steering_entropy"%string)
                   | _ :: _ => Ok (compute_cli_spec df)
                   end.
Proof. destruct df; [reflexivity |]. unfold compute_cli. now rewrite compute_cli_unfold. Qed.

Lemma compute_cli_Ok (df : list metrics_row) (out : list cli_row) :
  compute_cli df = Ok out <-> df <> [] /\ out = cli_table df.
Proof.
  destruct df; simpl; split; try discriminate; try (now intros [[] _]).
  - intros [= <-]. now split.
  - now intros [_ ->].
Qed.

Lemma compute_cli_length (df : list metrics_row) : length (cli_table df) = length df.
Proof.
  rewrite compute_cli_unfold. unfold compute_cli_spec.
  rewrite length_map, length_combine, rolling_mean_length, length_map. lia.
Qed.

Lemma compute_cli_In (df : list metrics_row) (r : cli_row) :
  In r (cli_table df) ->
  exists p, r = cli_row_of df p /\ In (fst p) df /\
            In (snd p) (rolling_mean 3 1 (map (cli_of df) df)).
Proof.
  rewrite compute_cli_unfold. unfold compute_cli_spec.
  intros H. apply in_map_iff in H as ([r0 s] & <- & Hin).
  exists (r0, s). split; [reflexivity |].
  split; [eapply in_combine_l | eapply in_combine_r]; exact Hin.
Qed.

(** The rows of the metrics table come back unchanged and in order,
    one fused row per segment. *)
Theorem compute_cli_rows (df : list metrics_row) :
  map metrics (cli_table df) = df.
Proof.
  rewrite compute_cli_unfold. unfold compute_cli_spec.
  rewrite map_map. simpl.
  change (fun x => fst x) with (@fst metrics_row float).
  apply map_fst_combine. rewrite rolling_mean_length, length_map. reflexivity.
Qed.

(** CLI is the weighted sum 0.4, 0.3, 0.2, 0.1 of the row's own four
    normalised metrics; long_jerk does not enter it. *)
Theorem compute_cli_formula (df : list metrics_row) :
  Forall (fun r => CLI r = cli_formula (norm_steering r) (norm_throttle r)
                                       (norm_brake r) (norm_lat r))
         (cli_table df).
Proof.
  apply Forall_forall. intros r Hr.
  apply compute_cli_In in Hr as (p & -> & _). reflexivity.
Qed.

Lemma compute_cli_unit (df : list metrics_row) :
  Forall (fun r => fholds in_unit (CLI r) /\
                   fholds in_unit (norm_steering r) /\ fholds in_unit (norm_throttle r) /\
                   fholds in_unit (norm_brake r) /\ fholds in_unit (norm_lat r))
         (cli_table df).
Proof.
  apply Forall_forall. intros r Hr.
  apply compute_cli_In in Hr as (p & -> & Hp & _). simpl.
  repeat split; try apply norm_of_unit; try apply cli_of_unit; exact Hp.
Qed.

(** C9: every CLI that is not NaN lies in [0, 1], and so does every
    normalised metric. *)
Theorem compute_cli_in_unit (df : list metrics_row) (out : list cli_row) :
  compute_cli df = Ok out ->
  Forall (fun r => fholds in_unit (CLI r) /\
                   fholds in_unit (norm_steering r) /\ fholds in_unit (norm_throttle r) /\
                   fholds in_unit (norm_brake r) /\ fholds in_unit (norm_lat r))
         out.
Proof. intros [_ ->]%compute_cli_Ok. exact (compute_cli_unit df). Qed.

Lemma compute_cli_in_unit_witness :
  Forall (fun r => fholds in_unit (CLI r) /\
                   fholds in_unit (norm_steering r) /\ fholds in_unit (norm_throttle r) /\
                   fholds in_unit (norm_brake r) /\ fholds in_unit (norm_lat r))
         (cli_table metrics4).
Proof. exact (compute_cli_in_unit metrics4 (cli_table metrics4) eq_refl). Defined.

Lemma compute_cli_smooth_column (df : list metrics_row) :
  map CLI_smooth (cli_table df) = rolling_mean 3 1 (map CLI (cli_table df)) /\
  Forall (fun r => fholds in_unit (CLI_smooth r)) (cli_table df).
Proof.
  assert (Hcli : map CLI (cli_table df) = map (cli_of df) df).
  { rewrite compute_cli_unfold. unfold compute_cli_spec.
    rewrite map_map. simpl. rewrite <- (map_map fst (cli_of df)).
    rewrite map_fst_combine; [reflexivity |].
    rewrite rolling_mean_length, length_map. reflexivity. }
  split.
  - rewrite Hcli. rewrite compute_cli_unfold. unfold compute_cli_spec.
    rewrite map_map. simpl.
    change (fun x => snd x) with (@snd metrics_row float).
    apply map_snd_combine. rewrite rolling_mean_length, length_map. reflexivity.
  - apply Forall_forall. intros r Hr.
    apply compute_cli_In in Hr as (p & -> & _ & Hs). simpl.
    apply (Forall_elim (fholds in_unit) _ _) with (2 := Hs).
    apply (rolling_mean_bounds 0 1), Forall_map_iff, Forall_forall.
    intros r0 Hr0. apply cli_of_unit, Hr0.
Qed.

(** CLI_smooth is the centred rolling mean of window 3 of the CLI
    column, and every value of it that is not NaN lies in [0, 1]. *)
Theorem compute_cli_smooth (df : list metrics_row) :
  map CLI_smooth (cli_table df) = rolling_mean 3 1 (map CLI (cli_table df)) /\
  Forall (fun r => fholds in_unit (CLI_smooth r)) (cli_table df).
Proof. exact (compute_cli_smooth_column df). Qed.

(** When no metric of any segment is NaN, no CLI and no CLI_smooth is
    NaN: both are numbers for every segment, the first and the last
    included. *)
Theorem compute_cli_no_nan (df : list metrics_row) :
  Forall finite_metrics df ->
  Forall (fun r => is_nan (CLI r) = false /\ is_nan (CLI_smooth r) = false) (cli_table df).
Proof.
  intros Hlat. rewrite Forall_forall in Hlat.
  assert (Hcol : Forall (fun x => is_nan x = false) (map (cli_of df) df)).
  { apply Forall_map_iff, Forall_forall. intros r Hr. apply cli_of_Some; auto. }
  apply Forall_forall. intros r Hr.
  apply compute_cli_In in Hr as (p & -> & Hp & Hs). simpl. split.
  - apply cli_of_Some; auto.
  - apply (Forall_elim (fun x => is_nan x = false) _ _
             (rolling_mean_no_nan 3 1 _ ltac:(lia) ltac:(lia) Hcol) Hs).
Qed.

Lemma compute_cli_no_nan_witness :
  Forall (fun r => is_nan (CLI r) = false /\ is_nan (CLI_smooth r) = false)
         (cli_table metrics4).
Proof. apply compute_cli_no_nan. repeat constructor. Defined.

(** A segment whose lat_instability is NaN (a segment of one sample)
    has a NaN CLI: the fused score is not a number there. *)
Theorem compute_cli_nan_lat (df : list metrics_row) (r : cli_row) :
  In r (cli_table df) -> lat_instability (metrics r) = None -> CLI r = None.
Proof.
  intros Hr Hlat. apply compute_cli_In in Hr as (p & -> & _). simpl in *.
  unfold cli_of, norm_of at 4. rewrite Hlat, normalize_value_nan.
  apply cli_formula_nan_lat.
Qed.

Lemma compute_cli_nan_lat_witness :
  CLI (cli_row_of [metrics_single] (metrics_single, None)) = None.
Proof.
  apply (compute_cli_nan_lat [metrics_single]); [simpl; auto | reflexivity].
Defined.

(** [long_jerk] replaced in every row. *)
Definition set_long_jerk (f : metrics_row -> float) (r : metrics_row) : metrics_row :=
  mkMetrics (m_segment_id r) (steering_entropy r) (throttle_jerk r) (brake_panic r)
            (lat_instability r) (f r) (avg_dist r).

Lemma norm_of_set_long_jerk (f : metrics_row -> float) (df : list metrics_row)
  (g : metrics_row -> float) (r : metrics_row) :
  (forall x, g (set_long_jerk f x) = g x) ->
  norm_of (map (set_long_jerk f) df) g (set_long_jerk f r) = norm_of df g r.
Proof.
  intros Hg. unfold norm_of. rewrite map_map, Hg.
  rewrite (map_ext _ g) by exact Hg. reflexivity.
Qed.

(** [long_jerk] has no influence on the scores: changing it in any way
    changes neither CLI nor CLI_smooth of any segment. *)
Theorem compute_cli_ignores_long_jerk (f : metrics_row -> float) (df : list metrics_row) :
  map CLI (cli_table (map (set_long_jerk f) df)) = map CLI (cli_table df) /\
  map CLI_smooth (cli_table (map (set_long_jerk f) df)) = map CLI_smooth (cli_table df).
Proof.
  assert (Hcli : forall d, map CLI (cli_table d) = map (cli_of d) d).
  { intros d. rewrite compute_cli_unfold. unfold compute_cli_spec.
    rewrite map_map. simpl. rewrite <- (map_map fst (cli_of d)).
    rewrite map_fst_combine; [reflexivity |].
    rewrite rolling_mean_length, length_map. reflexivity. }
  assert (E : map CLI (cli_table (map (set_long_jerk f) df)) = map CLI (cli_table df)).
  { rewrite !Hcli, map_map. apply map_ext. intros r. unfold cli_of.
    rewrite !norm_of_set_long_jerk by reflexivity. reflexivity. }
  split; [exact E |].
  rewrite (proj1 (compute_cli_smooth_column _)), (proj1 (compute_cli_smooth_column df)), E. reflexivity.
Qed.

(** At the first segment of a lap without NaN, CLI_smooth is the mean
    of the first two CLI values; in the interior it is the mean of three
    and at the last segment of the last two: the window shrinks at the
    ends of the lap. *)
Theorem compute_cli_smooth_window (df : list metrics_row) (cli : list Q) (i : nat) :
  map CLI (cli_table df) = map Some cli -> (i < length cli)%nat ->
  nth_error (map CLI_smooth (cli_table df)) i =
  Some (Qmean (firstn (if (i =? 0)%nat then 2 else 3) (skipn (i - 1) cli))).
Proof.
  intros Hcli Hi. rewrite (proj1 (compute_cli_smooth_column df)), Hcli.
  apply rolling_mean3_nth, Hi.
Qed.

Lemma compute_cli_smooth_window_witness :
  nth_error (map CLI_smooth (cli_table metrics4)) 3 =
  Some (Qmean (firstn 3 (skipn 2 [0 # 40000; 10000 # 40000; 32000 # 40000; 32000 # 80000]))).
Proof.
  apply (compute_cli_smooth_window metrics4
           [0 # 40000; 10000 # 40000; 32000 # 40000; 32000 # 80000] 3);
    [vm_compute; reflexivity | simpl; lia].
Defined.
