(* ===== verification/Metrics.v ===== *)
(** * Metrics: src/src/compute_metrics.py

    [compute_segment_metrics] groups the segmented table by segment id and
    computes, for every group, the Shannon entropy of the steering angle
    (over a 20-bin density histogram), the mean absolute throttle
    difference, the mean positive brake-pressure difference, the sample
    standard deviation of the lateral acceleration, the mean absolute
    difference of the longitudinal acceleration and the mean distance.

    [np.histogram] and [scipy.stats.entropy] are modelled by what they
    compute on a one-dimensional array with equal-width bins. *)

From Stdlib Require Import String QArith Qround Qminmax Qabs Lqa Lia ZArith Bool.
From Stdlib Require Import List Permutation Sorted SetoidList Morphisms Setoid.
From S2P Require Import Prelude MathLib Series Frame.
Import ListNotations.

Section Metrics.
Context {M : MathLib}.

(** ** np.histogram(series, bins, density=True) *)

(** The outer bin edges: the range of the data, widened by one half on
    each side when it is a single point, (0, 1) for no data. *)
Definition outer_edges (a : list Q) : Q * Q :=
  match Qmin_list a, Qmax_list a with
  | Some first_edge, Some last_edge =>
      if Qeq_bool first_edge last_edge
      then (first_edge - (1 # 2), last_edge + (1 # 2))
      else (first_edge, last_edge)
  | _, _ => (0, 1)
  end.

(** The bin of a value: the integer part of its position scaled to
    the number of bins; the right edge belongs to the last bin. *)
Definition bin_index (bins : nat) (first_edge last_edge x : Q) : nat :=
  let norm := inject_Z (Z.of_nat bins) / (last_edge - first_edge) in
  let i := Z.to_nat (Qfloor ((x - first_edge) * norm)) in
  if (i =? bins)%nat then (bins - 1)%nat else i.

Definition histogram (bins : nat) (a : list Q) : list nat :=
  let (first_edge, last_edge) := outer_edges a in
  map (fun k => length (filter (fun x => (bin_index bins first_edge last_edge x =? k)%nat) a))
      (seq 0 bins).

Definition Qnat (n : nat) : Q := inject_Z (Z.of_nat n).

(** [n / db / n.sum()] with [db] the common bin width. *)
Definition histogram_density (bins : nat) (a : list Q) : list float :=
  let (first_edge, last_edge) := outer_edges a in
  let n := histogram bins a in
  let db := (last_edge - first_edge) / Qnat bins in
  let total := Qsum (map Qnat n) in
  map (fun c => fdiv (fdiv (Some (Qnat c)) (Some db)) (Some total)) n.

(** [counts[counts > 0]]: NaN compares false and is dropped. *)
Definition positive_values (counts : list float) : list Q :=
  filter (fun c => negb (Qle_bool c 0)) (dropna counts).

(** ** scipy.stats.entropy(pk) *)

(** [scipy.special.entr]: [-x log x], 0 at 0.  Negative arguments do not
    occur: the probabilities are positive counts over their sum. *)
Definition entr (x : Q) : Q :=
  if Qeq_bool x 0 then 0 else - (x * np_log x).

Definition entropy (pk : list Q) : Q :=
  let total := Qsum pk in
  Qsum (map (fun p => entr (p / total)) pk).

Definition calculate_shannon_entropy (series : list Q) : Q :=
  entropy (positive_values (histogram_density 20 series)).

(** ** The other metrics *)

(** [s.diff().fillna(0).abs().mean()] *)
Definition mean_abs_diff (s : list Q) : float :=
  Qmean (map Qabs (fillna 0 (diff s))).

(** The mean of the positive differences, 0 when there is none. *)
Definition compute_brake_panic (s : list Q) : float :=
  let brake_diff := fillna 0 (diff s) in
  let increases := filter (fun d => negb (Qle_bool d 0)) brake_diff in
  match increases with
  | [] => Some 0
  | _ :: _ => Qmean increases
  end.

(** [s.std()]: the sample standard deviation (ddof = 1), NaN when the
    column has fewer than two values. *)
Definition Qvar (s : list Q) : float :=
  match s with
  | [] | [_] => None
  | _ =>
      match Qmean s with
      | Some mu => Some (Qsum (map (fun x => (x - mu) * (x - mu)) s) / (Qlen s - 1))
      | None => None
      end
  end.

Definition Qstd (s : list Q) : float := option_map np_sqrt (Qvar s).

(** ** compute_segment_metrics *)

Definition column (f : sample -> Q) (group : list seg_row) : list Q :=
  map (fun r => f (row r)) group.

Definition segment_metrics (segment_id : Z) (group : list seg_row) : metrics_row :=
  mkMetrics segment_id
    (Some (calculate_shannon_entropy (column Steering_Angle group)))
    (mean_abs_diff (column throttle group))
    (compute_brake_panic (column brake_pressure group))
    (Qstd (column accy group))
    (mean_abs_diff (column accx group))
    (Qmean (column Laptrigger_lapdist_dls group)).

Definition compute_segment_metrics (df : list seg_row) : list metrics_row :=
  flat_map (fun g =>
              match snd g with
              | [] => []
              | _ :: _ => [segment_metrics (fst g) (snd g)]
              end)
           (groupby segment_id df).

End Metrics.

(** * Lemmas *)

Section MetricFacts.
Context {M : MathLib} {L : MathLibLaws M}.

(** ** Jerk, panic and deviation *)

Lemma mean_abs_diff_Some (s : list Q) :
  s <> [] -> exists v, mean_abs_diff s = Some v /\ 0 <= v.
Proof.
  intros Hne. unfold mean_abs_diff.
  destruct (Qmean_Some (map Qabs (fillna 0 (diff s)))) as [v Hv].
  - intros E. apply map_eq_nil, fillna_diff_nil in E. contradiction.
  - exists v. split; [exact Hv |].
    pose proof (Qmean_nonneg (map Qabs (fillna 0 (diff s)))) as H.
    rewrite Hv in H. apply H, Forall_map_iff, Forall_forall.
    intros d _. apply Qabs_nonneg.
Qed.

Lemma mean_abs_diff_const (c : Q) (s : list Q) :
  s <> [] -> Forall (fun x => x == c) s -> feq (mean_abs_diff s) (Some 0).
Proof.
  intros Hne Hc. unfold mean_abs_diff. apply Qmean_zero.
  - intros E. apply map_eq_nil, fillna_diff_nil in E. contradiction.
  - apply Forall_map_iff. eapply Forall_impl; [|apply (fillna_diff_const c), Hc].
    simpl. intros d Hd. rewrite Hd. reflexivity.
Qed.

Lemma compute_brake_panic_Some (s : list Q) :
  exists v, compute_brake_panic s = Some v /\ 0 <= v.
Proof.
  unfold compute_brake_panic. cbv zeta.
  set (inc := filter _ _).
  assert (Hpos : Forall (fun d => 0 < d) inc).
  { apply Forall_forall. intros d Hd. apply filter_In in Hd as [_ Hd].
    apply negb_true_iff, Qle_bool_false in Hd. exact Hd. }
  destruct inc as [|d inc'] eqn:E; [exists 0; split; [reflexivity | lra] |].
  destruct (Qmean_Some (d :: inc')) as [v Hv]; [discriminate |].
  exists v. split; [exact Hv |].
  pose proof (Qmean_pos (d :: inc')) as H. rewrite Hv in H.
  apply Qlt_le_weak, H; [discriminate | exact Hpos].
Qed.

Lemma compute_brake_panic_decreasing (s : list Q) :
  Sorted (fun a b => b <= a) s -> compute_brake_panic s = Some 0.
Proof.
  intros Hs. unfold compute_brake_panic. cbv zeta.
  rewrite filter_nil; [reflexivity |].
  intros d Hd. apply negb_false_iff, Qle_bool_iff.
  eapply (Forall_elim (fun d => d <= 0)); [apply fillna_diff_decreasing, Hs | exact Hd].
Qed.

Lemma Qvar_nan_iff (s : list Q) : Qvar s = None <-> (length s < 2)%nat.
Proof.
  destruct s as [|x [|y t]]; simpl; split; intros H; auto; try lia; discriminate.
Qed.

Lemma Qstd_nan_iff (s : list Q) : Qstd s = None <-> (length s < 2)%nat.
Proof.
  rewrite <- Qvar_nan_iff. unfold Qstd.
  destruct (Qvar s); simpl; split; intros H; auto; discriminate.
Qed.

Lemma Qstd_nonneg (s : list Q) : fholds (fun v => 0 <= v) (Qstd s).
Proof. unfold Qstd. destruct (Qvar s); simpl; [apply np_sqrt_nonneg | exact I]. Qed.

(** ** The table of metrics *)

Lemma column_length (f : sample -> Q) (g : list seg_row) : length (column f g) = length g.
Proof. apply length_map. Qed.

Lemma compute_segment_metrics_keys (df : list seg_row) (ks : list Z) :
  (forall k, In k ks -> group_of segment_id k df <> []) ->
  flat_map (fun g => match snd g with
                     | [] => []
                     | _ :: _ => [segment_metrics (fst g) (snd g)]
                     end)
           (map (fun k => (k, group_of segment_id k df)) ks) =
  map (fun k => segment_metrics k (group_of segment_id k df)) ks.
Proof.
  induction ks as [|k ks IH]; intros H; simpl; [reflexivity |].
  rewrite IH by (intros; apply H; simpl; auto).
  destruct (group_of segment_id k df) eqn:E; [|reflexivity].
  exfalso. apply (H k); simpl; auto.
Qed.

(** The "skip empty segments" branch is never taken: every group that
    [groupby] yields has a row. *)
Lemma compute_segment_metrics_map (df : list seg_row) :
  compute_segment_metrics df =
  map (fun k => segment_metrics k (group_of segment_id k df))
      (unique_sorted (map segment_id df)).
Proof.
  unfold compute_segment_metrics, groupby.
  apply compute_segment_metrics_keys.
  intros k Hk. apply group_of_nonempty, unique_sorted_In, Hk.
Qed.

Lemma compute_segment_metrics_In (df : list seg_row) (m : metrics_row) :
  In m (compute_segment_metrics df) ->
  In (m_segment_id m) (map segment_id df) /\
  m = segment_metrics (m_segment_id m) (group_of segment_id (m_segment_id m) df).
Proof.
  rewrite compute_segment_metrics_map. intros H.
  apply in_map_iff in H as (k & <- & Hk). simpl.
  split; [apply unique_sorted_In, Hk | reflexivity].
Qed.

(** ** The histogram *)

Lemma outer_edges_spec (a : list Q) :
  a <> [] ->
  fst (outer_edges a) < snd (outer_edges a) /\
  Forall (fun x => fst (outer_edges a) <= x <= snd (outer_edges a)) a.
Proof.
  intros Hne. unfold outer_edges.
  destruct (Qmin_list_Some a Hne) as [mn Hmn], (Qmax_list_Some a Hne) as [mx Hmx].
  rewrite Hmn, Hmx.
  pose proof (Qmin_le_Qmax _ _ _ Hmn Hmx) as Hle.
  pose proof (Qmin_list_le _ _ Hmn) as Hlo. pose proof (Qmax_list_ge _ _ Hmx) as Hhi.
  rewrite Forall_forall in Hlo, Hhi.
  destruct (Qeq_bool mn mx) eqn:E; qbool; simpl;
    (split; [lra | apply Forall_forall; intros x Hx;
                   specialize (Hlo x Hx); specialize (Hhi x Hx); lra]).
Qed.

Lemma Qnat_nonneg (n : nat) : 0 <= Qnat n.
Proof. unfold Qnat. rewrite <- (Zle_Qle 0). lia. Qed.

Lemma Qnat_pos (n : nat) : (0 < n)%nat -> 0 < Qnat n.
Proof. apply inject_Z_nat_pos. Qed.

Lemma Qnat_plus (n m : nat) : Qnat (n + m) == Qnat n + Qnat m.
Proof. unfold Qnat. rewrite Nat2Z.inj_add, inject_Z_plus. reflexivity. Qed.

Lemma Qsum_Qnat (l : list nat) : Qsum (map Qnat l) == Qnat (list_sum l).
Proof.
  induction l as [|n l IH]; simpl; [reflexivity |].
  rewrite IH, Qnat_plus. reflexivity.
Qed.

Lemma bin_index_lt (bins : nat) (first_edge last_edge x : Q) :
  (1 <= bins)%nat -> first_edge < last_edge -> first_edge <= x <= last_edge ->
  (bin_index bins first_edge last_edge x < bins)%nat.
Proof.
  intros Hb Hfl [Hlo Hhi]. unfold bin_index. cbv zeta.
  set (t := (x - first_edge) * (inject_Z (Z.of_nat bins) / (last_edge - first_edge))).
  assert (Ht : t <= inject_Z (Z.of_nat bins)).
  { unfold t. pose proof (Qnat_nonneg bins) as Hn. unfold Qnat in Hn.
    setoid_replace (inject_Z (Z.of_nat bins)) with
      ((last_edge - first_edge) * (inject_Z (Z.of_nat bins) / (last_edge - first_edge))) at 2
      by (field; lra).
    apply Qmult_le_compat_r; [lra | apply Qdiv_nonneg; lra]. }
  assert (Hi : (Qfloor t <= Z.of_nat bins)%Z).
  { rewrite <- (Qfloor_Z (Z.of_nat bins)). apply Qfloor_resp_le, Ht. }
  destruct (Nat.eqb_spec (Z.to_nat (Qfloor t)) bins); lia.
Qed.

Lemma histogram_length (bins : nat) (a : list Q) : length (histogram bins a) = bins.
Proof.
  unfold histogram. destruct (outer_edges a). rewrite length_map, length_seq. reflexivity.
Qed.

(** Every value of the column is counted in exactly one bin. *)
Lemma histogram_total (bins : nat) (a : list Q) :
  (1 <= bins)%nat -> list_sum (histogram bins a) = length a.
Proof.
  intros Hb. destruct a as [|x0 a0] eqn:Ea.
  { unfold histogram. destruct (outer_edges []). apply list_sum_map_zero. reflexivity. }
  rewrite <- Ea. assert (Hne : a <> []) by (rewrite Ea; discriminate).
  destruct (outer_edges_spec a Hne) as [Hfl Hin].
  unfold histogram. destruct (outer_edges a) as [f l]. simpl in Hfl, Hin.
  apply (class_sizes Nat.eqb Nat.eqb_spec (bin_index bins f l)).
  - apply seq_NoDup.
  - intros r Hr. apply in_seq. split; [lia |]. simpl.
    apply bin_index_lt; [assumption | assumption |].
    eapply (Forall_elim (fun x => f <= x <= l)); eassumption.
Qed.

(** ** Entropy *)

#[export] Instance entr_Proper : Proper (Qeq ==> Qeq) entr.
Proof.
  intros x y E. unfold entr. rewrite (Qeqb_comp x y E 0 0 (Qeq_refl 0)).
  destruct (Qeq_bool y 0); [reflexivity | rewrite E; reflexivity].
Qed.

Lemma entr_nonneg (q : Q) : 0 <= q -> q <= 1 -> 0 <= entr q.
Proof.
  intros H0 H1. unfold entr. case_qtest; [lra |].
  assert (Hq : 0 < q) by (apply Qle_lteq in H0 as [?|E]; [assumption | symmetry in E; contradiction]).
  pose proof (np_log_nonpos q Hq H1) as Hl.
  assert (0 <= q * - np_log q) by (apply Qmult_le_0_compat; lra).
  setoid_replace (- (q * np_log q)) with (q * - np_log q) by ring. assumption.
Qed.

Lemma entr_1 : entr 1 == 0.
Proof. unfold entr. simpl. rewrite np_log_1. ring. Qed.

Lemma Qsum_ge_elem (l : list Q) (p : Q) :
  Forall (fun x => 0 <= x) l -> In p l -> p <= Qsum l.
Proof.
  induction 1 as [|x l Hx Hl IH]; [contradiction |].
  pose proof (Qsum_nonneg _ Hl). intros [->|Hin]; simpl; [lra |].
  specialize (IH Hin). lra.
Qed.

Lemma entropy_nonneg (pk : list Q) : Forall (fun p => 0 < p) pk -> 0 <= entropy pk.
Proof.
  intros Hp. unfold entropy. cbv zeta.
  assert (Hnn : Forall (fun x => 0 <= x) pk)
    by (eapply Forall_impl; [|exact Hp]; simpl; intros; lra).
  apply Qsum_nonneg, Forall_map_iff, Forall_forall. intros p Hin.
  pose proof (Forall_elim _ _ _ Hp Hin) as Hp0. simpl in Hp0.
  pose proof (Qsum_ge_elem _ _ Hnn Hin) as Hle.
  apply entr_nonneg; [apply Qdiv_nonneg | apply Qdiv_le_1]; lra.
Qed.

Lemma entropy_single (d : Q) : 0 < d -> entropy [d] == 0.
Proof.
  intros Hd. unfold entropy. simpl.
  assert (E : d / (d + 0) == 1) by (field; lra).
  rewrite E, entr_1. ring.
Qed.

Lemma positive_values_pos (counts : list float) :
  Forall (fun p => 0 < p) (positive_values counts).
Proof.
  unfold positive_values. apply Forall_forall. intros p Hp.
  apply filter_In in Hp as [_ Hp]. apply negb_true_iff, Qle_bool_false in Hp. exact Hp.
Qed.

(** The positive densities are the densities of the bins that are not
    empty. *)
Lemma positive_values_density (db total : Q) (n : list nat) :
  0 < db -> 0 < total ->
  positive_values (map (fun c => fdiv (fdiv (Some (Qnat c)) (Some db)) (Some total)) n) =
  map (fun c => Qnat c / db / total) (filter (fun c => negb (c =? 0)%nat) n).
Proof.
  intros Hdb Ht. unfold positive_values.
  induction n as [|c n IH]; [reflexivity |].
  cbn [map]. rewrite !fdiv_Some by lra. cbn [dropna filter]. rewrite IH.
  destruct c as [|c]; cbn [Nat.eqb negb].
  - destruct (Qle_bool (Qnat 0 / db / total) 0) eqn:E; [reflexivity |].
    apply Qle_bool_false in E. exfalso. revert E. unfold Qnat. simpl inject_Z.
    unfold Qdiv. intros E. ring_simplify in E. lra.
  - destruct (Qle_bool (Qnat (S c) / db / total) 0) eqn:E; [|reflexivity].
    qbool. exfalso. pose proof (Qnat_pos (S c) ltac:(lia)) as Hc.
    assert (0 < Qnat (S c) / db / total); [|lra].
    apply Qlt_shift_div_l; [assumption |]. ring_simplify.
    apply Qlt_shift_div_l; [assumption |]. lra.
Qed.

Lemma Qsum_filter_nonzero (n : list nat) :
  Qsum (map Qnat (filter (fun c => negb (c =? 0)%nat) n)) == Qsum (map Qnat n).
Proof.
  induction n as [|c n IH]; [reflexivity |].
  destruct c; cbn [filter Nat.eqb negb map Qsum fold_right]; fold (Qsum (map Qnat n)).
  - rewrite IH. unfold Qnat. simpl inject_Z. ring.
  - fold (Qsum (map Qnat (filter (fun c => negb (c =? 0)%nat) n))). rewrite IH. reflexivity.
Qed.

Lemma Qsum_scale (k : Q) (l : list Q) : Qsum (map (fun x => x * k) l) == Qsum l * k.
Proof. induction l as [|x l IH]; simpl; [ring | rewrite IH; ring]. Qed.

(** A constant column falls into bin 10 of the 20 bins of [x - 0.5, x + 0.5]. *)
Lemma histogram_constant (c : Q) (a : list Q) :
  a <> [] -> Forall (fun x => x == c) a ->
  histogram 20 a = map (fun k => if (k =? 10)%nat then length a else 0%nat) (seq 0 20).
Proof.
  intros Hne Hc. unfold histogram, outer_edges.
  destruct (Qmin_list_Some a Hne) as [mn Hmn], (Qmax_list_Some a Hne) as [mx Hmx].
  rewrite Hmn, Hmx.
  pose proof (Forall_elim _ _ _ Hc (Qmin_list_In _ _ Hmn)) as Emn.
  pose proof (Forall_elim _ _ _ Hc (Qmax_list_In _ _ Hmx)) as Emx. simpl in Emn, Emx.
  assert (E : Qeq_bool mn mx = true) by (apply Qeq_bool_iff; rewrite Emn, Emx; reflexivity).
  rewrite E. apply map_ext. intros k.
  assert (Hbin : forall x, In x a -> bin_index 20 (mn - (1 # 2)) (mx + (1 # 2)) x = 10%nat).
  { intros x Hx. pose proof (Forall_elim _ _ _ Hc Hx) as Ex. simpl in Ex.
    unfold bin_index. cbv zeta.
    assert (Et : (x - (mn - (1 # 2))) *
                 (inject_Z (Z.of_nat 20) / (mx + (1 # 2) - (mn - (1 # 2)))) == inject_Z 10).
    { rewrite Ex, Emn, Emx. vm_compute inject_Z. field. lra. }
    rewrite (Qfloor_comp _ _ Et), Qfloor_Z. reflexivity. }
  destruct (Nat.eqb_spec k 10) as [->|Hk].
  - rewrite filter_all_true; [reflexivity |]. intros x Hx. rewrite (Hbin x Hx). reflexivity.
  - rewrite filter_nil; [reflexivity |]. intros x Hx. rewrite (Hbin x Hx).
    apply Nat.eqb_neq. congruence.
Qed.

(** * Theorems *)

(** The metrics table has one row per segment id present in the input,
    in strictly ascending order of the id. *)
Theorem compute_segment_metrics_ids (df : list seg_row) :
  StronglySorted Z.lt (map m_segment_id (compute_segment_metrics df)) /\
  forall k, In k (map m_segment_id (compute_segment_metrics df)) <-> In k (map segment_id df).
Proof.
  rewrite compute_segment_metrics_map, map_map. simpl. rewrite map_id.
  split; [apply unique_sorted_sorted | intros k; apply unique_sorted_In].
Qed.

(** Only the table without rows has a metrics table without rows. *)
Lemma compute_segment_metrics_nil (df : list seg_row) :
  compute_segment_metrics df = [] -> df = [].
Proof.
  intros E. destruct df as [|r l]; [reflexivity |].
  destruct (compute_segment_metrics_ids (r :: l)) as [_ H].
  rewrite E in H. destruct (proj2 (H (segment_id r))). now left.
Qed.

(** A throttle that is constant over the lap gives a throttle_jerk of
    zero in every segment. *)
Theorem throttle_jerk_constant (c : Q) (df : list seg_row) :
  Forall (fun r => throttle (row r) == c) df ->
  Forall (fun m => feq (throttle_jerk m) (Some 0)) (compute_segment_metrics df).
Proof.
  intros Hc. apply Forall_forall. intros m Hm.
  apply compute_segment_metrics_In in Hm as [Hk ->]. simpl.
  apply (mean_abs_diff_const c).
  - intros E. apply map_eq_nil in E. revert E. apply group_of_nonempty, Hk.
  - apply Forall_map_iff, Forall_forall. intros r Hr.
    apply group_of_In in Hr as [Hr _]. eapply (Forall_elim _ _ _ Hc Hr).
Qed.

(** A segment in which the brake pressure never increases has a
    brake_panic of exactly zero. *)
Theorem brake_panic_decreasing (df : list seg_row) (m : metrics_row) :
  In m (compute_segment_metrics df) ->
  Sorted (fun a b => b <= a)
         (column brake_pressure (group_of segment_id (m_segment_id m) df)) ->
  brake_panic m = Some 0.
Proof.
  intros Hm Hs. apply compute_segment_metrics_In in Hm as [_ Hm].
  rewrite Hm. simpl. apply compute_brake_panic_decreasing, Hs.
Qed.

(** [brake_panic] is never NaN and never negative. *)
Theorem brake_panic_nonneg (df : list seg_row) :
  Forall (fun m => exists v, brake_panic m = Some v /\ 0 <= v) (compute_segment_metrics df).
Proof.
  apply Forall_forall. intros m Hm.
  apply compute_segment_metrics_In in Hm as [_ ->]. apply compute_brake_panic_Some.
Qed.

Lemma lat_instability_single (df : list seg_row) (m : metrics_row) :
  In m (compute_segment_metrics df) ->
  (lat_instability m = None <->
   length (group_of segment_id (m_segment_id m) df) = 1%nat).
Proof.
  intros Hm. apply compute_segment_metrics_In in Hm as [Hk Hm].
  rewrite Hm at 1. simpl. rewrite Qstd_nan_iff, column_length.
  pose proof (group_of_nonempty segment_id _ _ Hk) as Hne.
  destruct (group_of segment_id (m_segment_id m) df); [congruence | simpl; lia].
Qed.

(** C21: lat_instability is NaN exactly for the segments that hold a single
    sample (the sample standard deviation needs two). *)
Theorem lat_instability_nan_iff (df : list seg_row) (m : metrics_row) :
  In m (compute_segment_metrics df) ->
  (lat_instability m = None <->
   length (group_of segment_id (m_segment_id m) df) = 1%nat).
Proof. exact (lat_instability_single df m). Qed.

(** The steering entropy of a segment is never negative, and every
    metric other than lat_instability is a number (not NaN). *)
Theorem segment_metrics_finite (df : list seg_row) :
  Forall (fun m => (exists e, steering_entropy m = Some e /\ 0 <= e) /\
                   is_nan (throttle_jerk m) = false /\ is_nan (brake_panic m) = false /\
                   is_nan (long_jerk m) = false /\ is_nan (avg_dist m) = false)
         (compute_segment_metrics df).
Proof.
  apply Forall_forall. intros m Hm.
  apply compute_segment_metrics_In in Hm as [Hk ->]. simpl.
  pose proof (group_of_nonempty segment_id _ _ Hk) as Hne.
  assert (Hcol : forall f, column f (group_of segment_id (m_segment_id m) df) <> []).
  { intros f E. apply map_eq_nil in E. contradiction. }
  split; [eexists; split; [reflexivity | apply entropy_nonneg, positive_values_pos] |].
  destruct (mean_abs_diff_Some _ (Hcol throttle)) as (v1 & -> & _).
  destruct (mean_abs_diff_Some _ (Hcol accx)) as (v2 & -> & _).
  destruct (compute_brake_panic_Some
              (column brake_pressure (group_of segment_id (m_segment_id m) df)))
    as (v3 & -> & _).
  destruct (Qmean_Some _ (Hcol Laptrigger_lapdist_dls)) as (v4 & ->). auto.
Qed.

Lemma entropy_of_shares (a : list Q) :
  a <> [] ->
  calculate_shannon_entropy a ==
  Qsum (map (fun c => entr (Qnat c / Qnat (length a)))
            (filter (fun c => negb (c =? 0)%nat) (histogram 20 a))).
Proof.
  intros Hne. unfold calculate_shannon_entropy, histogram_density.
  destruct (outer_edges_spec a Hne) as [Hfl _].
  destruct (outer_edges a) as [f l]. simpl in Hfl.
  assert (Hlen : 0 < Qnat (length a)).
  { apply Qnat_pos. destruct a; [congruence | simpl; lia]. }
  assert (Htot : Qsum (map Qnat (histogram 20 a)) == Qnat (length a)).
  { rewrite Qsum_Qnat, histogram_total by lia. reflexivity. }
  set (n := histogram 20 a) in *. set (total := Qsum (map Qnat n)) in *.
  set (db := (l - f) / Qnat 20).
  assert (Hdb : 0 < db) by (apply Qlt_shift_div_l; [reflexivity | lra]).
  rewrite positive_values_density by lra.
  set (cs := filter (fun c => negb (c =? 0)%nat) n).
  unfold entropy. cbv zeta. rewrite map_map.
  assert (Hs : Qsum (map (fun c => Qnat c / db / total) cs) == / db).
  { rewrite (Qsum_Proper _ (map (fun x => x * (/ db * / total)) (map Qnat cs))).
    - rewrite Qsum_scale. unfold cs. rewrite Qsum_filter_nonzero. fold total.
      field. lra.
    - rewrite map_map. apply Forall2_map_Qeq. intros c _. field. lra. }
  apply Qsum_Proper, Forall2_map_Qeq. intros c _.
  apply entr_Proper. rewrite Hs, <- Htot. field. lra.
Qed.

(** The steering entropy does not depend on the bin width: it is the
    entropy of the shares of the samples in the occupied bins,
    [- sum (c_i / n) log (c_i / n)]; the density normalisation cancels. *)
Theorem entropy_density_invariant (a : list Q) :
  a <> [] ->
  calculate_shannon_entropy a ==
  Qsum (map (fun c => entr (Qnat c / Qnat (length a)))
            (filter (fun c => negb (c =? 0)%nat) (histogram 20 a))).
Proof. exact (entropy_of_shares a). Qed.

Lemma occupied_bins_constant (n : nat) :
  filter (fun c => negb (c =? 0)%nat)
         (map (fun k => if (k =? 10)%nat then S n else 0%nat) (seq 0 20)) = [S n].
Proof. reflexivity. Qed.

(** The entropy of a constant steering signal is zero: the single
    occupied bin has probability one and no empty bin reaches the
    logarithm. *)
Theorem steering_entropy_constant (c : Q) (a : list Q) :
  a <> [] -> Forall (fun x => x == c) a -> calculate_shannon_entropy a == 0.
Proof.
  intros Hne Hc. rewrite (entropy_of_shares a Hne).
  rewrite (histogram_constant c a Hne Hc).
  destruct (length a) as [|n] eqn:E; [destruct a; [congruence | discriminate] |].
  rewrite occupied_bins_constant. cbn [map Qsum fold_right].
  assert (E1 : Qnat (S n) / Qnat (S n) == 1).
  { apply Qdiv_self. pose proof (Qnat_pos (S n) ltac:(lia)). lra. }
  rewrite E1, entr_1. ring.
Qed.

End MetricFacts.

(** * Witnesses, with the rational implementation of [MathLib] *)

Definition seg_sample (k : Z) (steer thr brk : Q) : seg_row :=
  mkSegRow (mkSample 0 steer thr brk 0 0 0 0 0 0 0) k.

(** Two segments of two samples and one of a single sample; the throttle
    is constant at 50 and the brake pressure falls inside segment 0. *)
Definition segmented5 : list seg_row :=
  [ seg_sample 0 1 50 9; seg_sample 0 2 50 4; seg_sample 1 3 50 1;
    seg_sample 1 5 50 2; seg_sample 2 7 50 0 ].

Lemma throttle_jerk_constant_witness :
  Forall (fun m => feq (throttle_jerk m) (Some 0)) (compute_segment_metrics segmented5).
Proof. apply (throttle_jerk_constant 50). repeat constructor. Defined.

Lemma brake_panic_decreasing_witness :
  brake_panic (segment_metrics 0 (group_of segment_id 0 segmented5)) = Some 0.
Proof.
  apply (brake_panic_decreasing segmented5); [simpl; auto |].
  repeat constructor. simpl. lra.
Defined.

Lemma lat_instability_nan_iff_witness :
  lat_instability (segment_metrics 2 (group_of segment_id 2 segmented5)) = None <->
  length (group_of segment_id 2 segmented5) = 1%nat.
Proof. apply (lat_instability_nan_iff segmented5). simpl. auto. Defined.

Lemma entropy_density_invariant_witness :
  calculate_shannon_entropy [0; 1; 1; 3] ==
  Qsum (map (fun c => entr (Qnat c / Qnat (length [0; 1; 1; 3])))
            (filter (fun c => negb (c =? 0)%nat) (histogram 20 [0; 1; 1; 3]))).
Proof. apply entropy_density_invariant. discriminate. Defined.

Lemma steering_entropy_constant_witness :
  calculate_shannon_entropy [3; 6 # 2; 3] == 0.
Proof.
  apply (steering_entropy_constant 3); [discriminate | repeat constructor].
Defined.

Lemma segment_metrics_finite_witness :
  Forall (fun m => (exists e, steering_entropy m = Some e /\ 0 <= e) /\
                   is_nan (throttle_jerk m) = false /\ is_nan (brake_panic m) = false /\
                   is_nan (long_jerk m) = false /\ is_nan (avg_dist m) = false)
         (compute_segment_metrics segmented5).
Proof. apply (segment_metrics_finite (L := rational_math_laws)). Defined.
