(* ===== verification/Processor.v ===== *)
(** * Processor: src/src/processor.py

    [process_lap_data] keeps the raw rows of one vehicle and lap, pivots
    them into one row per timestamp, fills the gaps forward then
    backward, renames the channels, synthesises the missing ones as
    zero, normalises steering, throttle and brake, and integrates speed
    and steering angle into a heading, a position and a lap distance.

    Here the input is the list of chunks that the reader yields, each a
    list of parsed rows; [Reader] has the function on the text of the
    file, from the header test to the loop over the chunks.  A table is
    handled column by column, as the code does; the columns are put
    together into rows at the end.  A channel that the renaming gives
    the name of a column that is there already makes two columns of one
    name: for the throttle and the brake the function raises
    ([max_exceeds]); the accelerations are taken to be there under one
    name. *)

From Stdlib Require Import String QArith Qround Qminmax Qabs Lqa Lia ZArith Bool.
From Stdlib Require Import List Permutation Sorted SetoidList Morphisms Setoid.
From Stdlib Require Import DecimalString.
From S2P Require Import Prelude MathLib Series Frame.
Import ListNotations.
#[local] Open Scope pipeline_scope.
#[local] Open Scope string_scope.

(** ** Raw rows and the filter *)

(** The columns of the long-format stream that the function reads. *)
Record raw_row : Type := mkRaw {
  raw_timestamp : Z;
  raw_vehicle_id : string;
  raw_lap : Z;
  telemetry_name : string;
  telemetry_value : float
}.

(** [(chunk['vehicle_id'] == vehicle_id) & (chunk['lap'] == lap)] *)
Definition matches (vehicle_id : string) (lap : Z) (r : raw_row) : bool :=
  String.eqb (raw_vehicle_id r) vehicle_id && (raw_lap r =? lap)%Z.

Definition is_empty {A : Type} (l : list A) : bool :=
  match l with [] => true | _ :: _ => false end.

(** The filtered chunks that are not empty. *)
Definition filter_chunks (chunks : list (list raw_row)) (vehicle_id : string) (lap : Z)
  : list (list raw_row) :=
  filter (fun c => negb (is_empty c)) (map (filter (matches vehicle_id lap)) chunks).

Definition no_data_message (vehicle_id : string) (lap : Z) : string :=
  "No data found for " ++ vehicle_id ++ " Lap " ++ NilZero.string_of_int (Z.to_int lap).

Definition load_and_filter (chunks : list (list raw_row)) (vehicle_id : string) (lap : Z)
  : result (list raw_row) :=
  match filter_chunks chunks vehicle_id lap with
  | [] => Err (ValueError (no_data_message vehicle_id lap))
  | cs => Ok (concat cs)
  end.

(** ** Pivot *)

(** One row of the wide table: a timestamp and, for every channel name,
    the value of the cell (NaN when the channel has no sample there). *)
Record wide_row : Type := mkWide {
  w_timestamp : Z;
  cell : string -> float
}.

Definition has_value (r : raw_row) : bool := negb (is_nan (telemetry_value r)).

(** [aggfunc='first']: the first value that is not NaN among the rows of
    a timestamp and a channel. *)
Definition first_value (t : Z) (name : string) (df_raw : list raw_row) : float :=
  match filter (fun r => (raw_timestamp r =? t)%Z && String.eqb (telemetry_name r) name
                         && has_value r) df_raw with
  | r :: _ => telemetry_value r
  | [] => None
  end.

(** [pivot_table(index=timestamp.., columns=telemetry_name,
    values=telemetry_value, aggfunc='first')]: one row per timestamp that
    has a value, in ascending order. *)
Definition pivot_table (df_raw : list raw_row) : list wide_row :=
  map (fun t => mkWide t (fun name => first_value t name df_raw))
      (unique_sorted (map raw_timestamp (filter has_value df_raw))).

(** ** Renaming and the required columns *)

Definition rename_map : list (string * string) :=
  [("ath", "throttle"); ("pbrake_f", "brake_pressure"); ("accx_can", "accx");
   ("accy_can", "accy"); ("Steering_Angle", "Steering_Angle"); ("speed", "speed")].

(** The raw names that carry the standard name after the renaming: the
    renamed ones and the name itself. *)
Definition sources_of (std : string) : list string :=
  nodup string_dec
    (map fst (filter (fun p => String.eqb (snd p) std) rename_map) ++ [std]).

Definition column_exists (name : string) (df : list wide_row) : bool :=
  existsb (fun r => negb (is_nan (cell r name))) df.

Definition present_sources (std : string) (df : list wide_row) : list string :=
  filter (fun n => column_exists n df) (sources_of std).

(** The column after sort, fill and rename; a missing column is 0.0.
    Of two columns of one name [required_column] is the first. *)
Definition filled_column (name : string) (df : list wide_row) : list Q :=
  fillna 0 (bfill (ffill (map (fun r => cell r name) df))).

Definition required_column (std : string) (df : list wide_row) : list Q :=
  match present_sources std df with
  | [] => map (fun _ => 0) df
  | name :: _ => filled_column name df
  end.

(** [df[col].max() > bound] in an [if]: with two columns of that name the
    comparison is a Series and Python raises. *)
Definition max_exceeds (std : string) (df : list wide_row) (col : list Q) (bound : Q)
  : result bool :=
  match present_sources std df with
  | _ :: _ :: _ => Err (ValueError "The truth value of a Series is ambiguous")
  | _ => Ok (fgtb (Qmax_list col) (Some bound))
  end.

(** ** Unit normalisation *)

Definition normalize_steering (col : list Q) : list Q := map (fun x => x / 450) col.

Definition normalize_throttle (exceeds : bool) (col : list Q) : list Q :=
  if exceeds then map (fun x => x / 100) col else col.

Definition normalize_brake (exceeds : bool) (col : list Q) : list Q :=
  if exceeds
  then match Qmax_list col with
       | Some mx => map (fun x => x / mx) col
       | None => col
       end
  else col.

(** ** Dead reckoning *)

Definition wheelbase : Q := 257 # 100.
Definition steering_ratio : Q := 135 # 10.

(** [total_seconds()] of a difference of timestamps, which are in
    nanoseconds. *)
Definition seconds (ns : Q) : Q := ns / 1000000000.

(** [df['timestamp'].diff().dt.total_seconds().fillna(0)] *)
Definition time_deltas (ts : list Z) : list Q :=
  fillna 0 (map (option_map seconds) (diff (map inject_Z ts))).

Definition to_speed_ms (speed : list Q) : list Q :=
  if fgtb (Qmax_list speed) (Some 100) then map (fun v => v / (36 # 10)) speed else speed.

Section Reckoning.
Context {M : MathLib}.

Definition wheel_angles (steering : list Q) : list Q :=
  map (fun s => np_radians (s * 450 / steering_ratio)) steering.

Definition yaw_rates (speed_ms wheel_angle : list Q) : list Q :=
  map2 (fun v w => v / wheelbase * np_tan w) speed_ms wheel_angle.

Definition headings (yaw_rate dts : list Q) : list Q :=
  cumsum (map2 Qmult yaw_rate dts).

Definition positions_x (speed_ms heading dts : list Q) : list Q :=
  cumsum (map2 Qmult (map2 (fun v h => v * np_cos h) speed_ms heading) dts).

Definition positions_y (speed_ms heading dts : list Q) : list Q :=
  cumsum (map2 Qmult (map2 (fun v h => v * np_sin h) speed_ms heading) dts).

Definition lap_distances (speed_ms dts : list Q) : list Q :=
  cumsum (map2 Qmult speed_ms dts).

(** ** process_lap_data *)

(** The rows of the result, from its columns. *)
Definition table_of_columns (ts : list Z) (steering thr brk ax ay spd dts xs ys dist : list Q)
  : list sample :=
  map (fun i => mkSample (nth i ts 0%Z) (nth i steering 0) (nth i thr 0) (nth i brk 0)
                         (nth i ax 0) (nth i ay 0) (nth i spd 0) (nth i dts 0)
                         (nth i xs 0) (nth i ys 0) (nth i dist 0))
      (seq 0 (length ts)).

(** Step 5 and 6: time deltas, heading, position and lap distance from
    the normalised steering and the speed. *)
Definition dead_reckoning (ts : list Z) (steering thr brk ax ay spd : list Q) : list sample :=
  let dts := time_deltas ts in
  let speed_ms := to_speed_ms spd in
  let heading := headings (yaw_rates speed_ms (wheel_angles steering)) dts in
  table_of_columns ts steering thr brk ax ay spd dts
    (positions_x speed_ms heading dts) (positions_y speed_ms heading dts)
    (lap_distances speed_ms dts).

Definition ts_key (r : wide_row) : Q := inject_Z (w_timestamp r).

(** Steps 2 to 6 on the pivoted table. *)
Definition process_pivot (df_pivot : list wide_row) : result (list sample) :=
  let df_pivot := sort_values ts_key df_pivot in
  let steering := normalize_steering (required_column "Steering_Angle" df_pivot) in
  let thr := required_column "throttle" df_pivot in
  thr_big <- max_exceeds "throttle" df_pivot thr 1 ;;
  let thr := normalize_throttle thr_big thr in
  let brk := required_column "brake_pressure" df_pivot in
  brk_pos <- max_exceeds "brake_pressure" df_pivot brk 0 ;;
  let brk := normalize_brake brk_pos brk in
  Ok (dead_reckoning (map w_timestamp df_pivot) steering thr brk
        (required_column "accx" df_pivot) (required_column "accy" df_pivot)
        (required_column "speed" df_pivot)).

Definition process_lap_data (chunks : list (list raw_row)) (vehicle_id : string) (lap : Z)
  : result (list sample) :=
  df_raw <- load_and_filter chunks vehicle_id lap ;;
  process_pivot (pivot_table df_raw).

(** ** Specification: the integrator as a scan

    The state carried from one sample to the next, and the step that a
    sample of speed [v] (m/s), normalised steering [s] and time delta
    [h] makes. *)
Record pose : Type := mkPose {
  psi : Q;
  pos_x : Q;
  pos_y : Q;
  travelled : Q
}.

Definition pose0 : pose := mkPose 0 0 0 0.

Definition euler_step (p : pose) (u : Q * Q * Q) : pose :=
  let '(v, s, h) := u in
  let psi' := psi p + v / wheelbase * np_tan (np_radians (s * 450 / steering_ratio)) * h in
  mkPose psi' (pos_x p + v * np_cos psi' * h) (pos_y p + v * np_sin psi' * h)
         (travelled p + v * h).

Fixpoint euler_scan (p : pose) (us : list (Q * Q * Q)) : list pose :=
  match us with
  | [] => []
  | u :: t => let p' := euler_step p u in p' :: euler_scan p' t
  end.

(** The inputs of the scan: speed in m/s, normalised steering and time
    delta of every sample. *)
Definition controls (speed_ms steering dts : list Q) : list (Q * Q * Q) :=
  combine (combine speed_ms steering) dts.

Definition trajectory (ts : list Z) (steering spd : list Q) : list pose :=
  euler_scan pose0 (controls (to_speed_ms spd) steering (time_deltas ts)).

(** A pose on the x axis, heading along it. *)
Definition on_axis (p : pose) : Prop :=
  psi p == 0 /\ pos_y p == 0 /\ pos_x p == travelled p.

End Reckoning.

(** ** Specification of the columns of the result *)

Definition throttle_of (df : list wide_row) : list Q :=
  let c := required_column "throttle" df in
  normalize_throttle (fgtb (Qmax_list c) (Some 1)) c.

Definition brake_of (df : list wide_row) : list Q :=
  let c := required_column "brake_pressure" df in
  normalize_brake (fgtb (Qmax_list c) (Some 0)) c.

(** A channel that the table has under its raw and under its standard
    name, among the two whose maximum the function tests. *)
Definition ambiguous (df : list wide_row) : bool :=
  (2 <=? length (present_sources "throttle" df))%nat
  || (2 <=? length (present_sources "brake_pressure" df))%nat.

Definition steering_of (df : list wide_row) : list Q :=
  normalize_steering (required_column "Steering_Angle" df).

(** Every value that the raw rows give a channel satisfies [P]. *)
Definition channel_values (P : Q -> Prop) (std : string) (df_raw : list raw_row) : Prop :=
  forall r x, In r df_raw -> In (telemetry_name r) (sources_of std) ->
              telemetry_value r = Some x -> P x.

(** ** Specification of the fill: the nearest known value, earlier first *)

(** The value that [ffill] then [bfill] leave at index [i]: the last
    known value at or before [i], else the first known one after it. *)
Definition nearest_known (s : list float) (i : nat) : float :=
  orelse (first_known (rev (firstn (S i) s))) (first_known (skipn (S i) s)).

(** * Facts *)

(** ** The filter *)

Lemma concat_filter_nonempty {A : Type} (ls : list (list A)) :
  concat (filter (fun c => negb (is_empty c)) ls) = concat ls.
Proof.
  induction ls as [|[|a c] ls IH]; simpl; [reflexivity | exact IH | now rewrite IH].
Qed.

Lemma filter_chunks_concat (chunks : list (list raw_row)) (v : string) (l : Z) :
  concat (filter_chunks chunks v l) = filter (matches v l) (concat chunks).
Proof.
  unfold filter_chunks. rewrite concat_filter_nonempty. apply concat_filter_map.
Qed.

Lemma filter_chunks_nonempty (chunks : list (list raw_row)) (v : string) (l : Z) :
  Forall (fun c => c <> []) (filter_chunks chunks v l).
Proof.
  apply Forall_forall. intros c Hc. apply filter_In in Hc as [_ Hc].
  now destruct c.
Qed.

Lemma concat_nil_nonempty {A : Type} (ls : list (list A)) :
  Forall (fun c => c <> []) ls -> concat ls = [] -> ls = [].
Proof.
  intros H Hc. destruct ls as [|c ls]; [reflexivity |].
  inv H. simpl in Hc. apply app_eq_nil in Hc as [Hc _]. contradiction.
Qed.

Lemma matches_spec (v : string) (l : Z) (r : raw_row) :
  matches v l r = true <-> raw_vehicle_id r = v /\ raw_lap r = l.
Proof.
  unfold matches. rewrite andb_true_iff, String.eqb_eq, Z.eqb_eq. reflexivity.
Qed.

(** ** The pivot *)

Lemma pivot_timestamps (df_raw : list raw_row) :
  map w_timestamp (pivot_table df_raw)
  = unique_sorted (map raw_timestamp (filter has_value df_raw)).
Proof. unfold pivot_table. rewrite map_map. apply map_id. Qed.

Lemma pivot_cell (df_raw : list raw_row) (r : wide_row) (name : string) :
  In r (pivot_table df_raw) -> cell r name = first_value (w_timestamp r) name df_raw.
Proof.
  unfold pivot_table. intros H. apply in_map_iff in H as (t & <- & _). reflexivity.
Qed.

Lemma StronglySorted_lt_sorted_by {A : Type} (key : A -> Z) (l : list A) :
  StronglySorted Z.lt (map key l) -> sorted_by (fun a => inject_Z (key a)) l.
Proof.
  unfold sorted_by. induction l as [|a l IH]; intros H; [constructor |].
  simpl in H. inv H. constructor; [now apply IH |].
  rewrite Forall_map_iff in H3. eapply Forall_impl; [| exact H3].
  intros b Hb. simpl in Hb. rewrite <- Zle_Qle. lia.
Qed.

Lemma pivot_sorted (df_raw : list raw_row) :
  StronglySorted Z.lt (map w_timestamp (pivot_table df_raw)).
Proof. rewrite pivot_timestamps. apply unique_sorted_sorted. Qed.

Lemma first_value_In (t : Z) (name : string) (df_raw : list raw_row) (v : Q) :
  first_value t name df_raw = Some v ->
  exists r, In r df_raw /\ raw_timestamp r = t /\ telemetry_name r = name
            /\ telemetry_value r = Some v.
Proof.
  unfold first_value.
  destruct (filter _ df_raw) as [|r l] eqn:E; [discriminate |]. intros Hv.
  assert (Hr : In r (r :: l)) by now left.
  rewrite <- E in Hr. apply filter_In in Hr as [Hin Hr].
  rewrite !andb_true_iff, Z.eqb_eq, String.eqb_eq in Hr.
  exists r. tauto.
Qed.

Lemma first_value_first (t : Z) (name : string) (before after : list raw_row) (r : raw_row) :
  raw_timestamp r = t -> telemetry_name r = name -> known (telemetry_value r) ->
  Forall (fun r' => raw_timestamp r' = t -> telemetry_name r' = name ->
                    telemetry_value r' = None) before ->
  first_value t name (before ++ r :: after) = telemetry_value r.
Proof.
  intros Ht Hn Hv Hb. unfold first_value. rewrite filter_app.
  replace (filter _ before) with (@nil raw_row).
  - simpl. rewrite Ht, Hn, Z.eqb_refl, String.eqb_refl. unfold has_value.
    destruct (telemetry_value r) eqn:Ev; [simpl; now rewrite Ev | absurd_known].
  - symmetry. apply filter_nil. apply Forall_forall. eapply Forall_impl; [| exact Hb].
    intros r' Hr'. simpl in Hr'. unfold has_value.
    destruct (raw_timestamp r' =? t)%Z eqn:E1; [| reflexivity].
    destruct (String.eqb (telemetry_name r') name) eqn:E2; [| reflexivity].
    apply Z.eqb_eq in E1. apply String.eqb_eq in E2. now rewrite (Hr' E1 E2).
Qed.

(** ** Values and lengths of the columns *)

Lemma fillna_In (v x : Q) (s : list float) :
  In x (fillna v s) -> x = v \/ In (Some x) s.
Proof.
  unfold fillna. intros H. apply in_map_iff in H as ([y|] & <- & H); auto.
Qed.

Lemma filled_column_In (name : string) (df : list wide_row) (x : Q) :
  In x (filled_column name df) -> x = 0 \/ exists r, In r df /\ cell r name = Some x.
Proof.
  unfold filled_column, ffill. intros H.
  apply fillna_In in H as [H|H]; [now left |].
  apply bfill_In, ffill_from_In in H as [H|H]; [discriminate |].
  apply in_map_iff in H. right. destruct H as (r & H1 & H2). eauto.
Qed.

Lemma required_column_In (std : string) (df : list wide_row) (x : Q) :
  In x (required_column std df) ->
  x = 0 \/ exists r name, In r df /\ In name (sources_of std) /\ cell r name = Some x.
Proof.
  unfold required_column, present_sources.
  destruct (filter _ (sources_of std)) as [|name l] eqn:E.
  - intros H. apply in_map_iff in H as (? & <- & _). now left.
  - intros H. apply filled_column_In in H as [H|(r & H1 & H2)]; [now left | right].
    exists r, name. repeat split; auto.
    assert (Hn : In name (name :: l)) by now left.
    rewrite <- E in Hn. now apply filter_In in Hn.
Qed.

Lemma column_exists_sort (name : string) (df : list wide_row) :
  column_exists name (sort_values ts_key df) = column_exists name df.
Proof.
  unfold column_exists. apply eq_true_iff_eq. rewrite !existsb_exists.
  split; intros (r & Hr & Hv); exists r; (split; [| exact Hv]);
    [apply (proj1 (sort_values_In ts_key df r)) | apply (proj2 (sort_values_In ts_key df r))];
    exact Hr.
Qed.

Lemma filled_column_length (name : string) (df : list wide_row) :
  length (filled_column name df) = length df.
Proof.
  unfold filled_column, fillna, ffill.
  now rewrite length_map, bfill_length, ffill_from_length, length_map.
Qed.

Lemma required_column_length (std : string) (df : list wide_row) :
  length (required_column std df) = length df.
Proof.
  unfold required_column. destruct (present_sources std df).
  - apply length_map.
  - apply filled_column_length.
Qed.

Lemma normalize_steering_length (col : list Q) :
  length (normalize_steering col) = length col.
Proof. apply length_map. Qed.

Lemma normalize_throttle_length (b : bool) (col : list Q) :
  length (normalize_throttle b col) = length col.
Proof. destruct b; simpl; [apply length_map | reflexivity]. Qed.

Lemma normalize_brake_length (b : bool) (col : list Q) :
  length (normalize_brake b col) = length col.
Proof.
  unfold normalize_brake. destruct b, (Qmax_list col); simpl; auto using length_map.
Qed.

Lemma time_deltas_length (ts : list Z) : length (time_deltas ts) = length ts.
Proof.
  unfold time_deltas, fillna. rewrite !length_map.
  rewrite <- (length_map inject_Z ts). generalize (map inject_Z ts). intros l.
  destruct l; simpl; [reflexivity |]. now rewrite diff_from_length.
Qed.

Lemma to_speed_ms_length (spd : list Q) : length (to_speed_ms spd) = length spd.
Proof. unfold to_speed_ms. destruct (fgtb _ _); [apply length_map | reflexivity]. Qed.

Create Rewrite HintDb columns.
#[export] Hint Rewrite filled_column_length required_column_length normalize_steering_length
  normalize_throttle_length normalize_brake_length time_deltas_length to_speed_ms_length
  cumsum_length @length_map @sort_values_length : columns.

(** ** The integrator *)

Section ReckoningFacts.
Context {M : MathLib}.

Let u_speed (u : Q * Q * Q) : Q := fst (fst u).
Let u_steer (u : Q * Q * Q) : Q := snd (fst u).
Let u_dt (u : Q * Q * Q) : Q := snd u.

Lemma controls_columns (vs ss hs : list Q) :
  length ss = length vs -> length hs = length vs ->
  map u_speed (controls vs ss hs) = vs /\ map u_steer (controls vs ss hs) = ss
  /\ map u_dt (controls vs ss hs) = hs.
Proof.
  unfold controls, u_speed, u_steer, u_dt.
  revert ss hs; induction vs as [|v vs IH]; intros [|s ss] [|h hs]; simpl;
    try discriminate; auto.
  intros [= Hs] [= Hh]. destruct (IH ss hs Hs Hh) as (E1 & E2 & E3).
  now rewrite E1, E2, E3.
Qed.

Lemma scan_heading (p : pose) (us : list (Q * Q * Q)) :
  cumsum_from (psi p)
    (map2 Qmult (yaw_rates (map u_speed us) (wheel_angles (map u_steer us))) (map u_dt us))
  = map psi (euler_scan p us).
Proof.
  unfold yaw_rates, wheel_angles.
  revert p; induction us as [|[[v s] h] us IH]; intros p; [reflexivity |].
  cbn [map map2 cumsum_from euler_scan]. f_equal. apply (IH (euler_step p (v, s, h))).
Qed.

Lemma scan_x (p : pose) (us : list (Q * Q * Q)) :
  cumsum_from (pos_x p)
    (map2 Qmult (map2 (fun v h => v * np_cos h) (map u_speed us) (map psi (euler_scan p us)))
       (map u_dt us))
  = map pos_x (euler_scan p us).
Proof.
  revert p; induction us as [|[[v s] h] us IH]; intros p; [reflexivity |].
  cbn [map map2 cumsum_from euler_scan]. f_equal. apply (IH (euler_step p (v, s, h))).
Qed.

Lemma scan_y (p : pose) (us : list (Q * Q * Q)) :
  cumsum_from (pos_y p)
    (map2 Qmult (map2 (fun v h => v * np_sin h) (map u_speed us) (map psi (euler_scan p us)))
       (map u_dt us))
  = map pos_y (euler_scan p us).
Proof.
  revert p; induction us as [|[[v s] h] us IH]; intros p; [reflexivity |].
  cbn [map map2 cumsum_from euler_scan]. f_equal. apply (IH (euler_step p (v, s, h))).
Qed.

Lemma scan_distance (p : pose) (us : list (Q * Q * Q)) :
  cumsum_from (travelled p) (map2 Qmult (map u_speed us) (map u_dt us))
  = map travelled (euler_scan p us).
Proof.
  revert p; induction us as [|[[v s] h] us IH]; intros p; [reflexivity |].
  cbn [map map2 cumsum_from euler_scan]. f_equal. apply (IH (euler_step p (v, s, h))).
Qed.

(** A step of no duration leaves the position and the distance. *)
Lemma euler_step_still (p : pose) (v s : Q) :
  let p' := euler_step p (v, s, 0) in
  pos_x p' == pos_x p /\ pos_y p' == pos_y p /\ travelled p' == travelled p.
Proof. cbn [euler_step pos_x pos_y travelled]. cbv zeta. repeat split; ring. Qed.

Lemma euler_scan_length (p : pose) (us : list (Q * Q * Q)) :
  length (euler_scan p us) = length us.
Proof. revert p; induction us as [|u us IH]; intros; simpl; auto. Qed.

(** Rule induction on the scan: a property of poses that every step over
    an admissible control preserves holds along the whole trajectory. *)
Lemma euler_scan_invariant (P : pose -> Prop) (C : Q * Q * Q -> Prop) :
  (forall p u, P p -> C u -> P (euler_step p u)) ->
  forall p us, P p -> Forall C us -> Forall P (euler_scan p us).
Proof.
  intros Hstep p us; revert p; induction us as [|u us IH]; intros p Hp Hc; simpl;
    [constructor |].
  inv Hc. constructor; auto.
Qed.

End ReckoningFacts.

(** ** Time deltas *)

Lemma deltas_from_pos (t : Z) (l : list Z) :
  StronglySorted Z.lt (t :: l) ->
  Forall (fun d => 0 < d)
    (fillna 0 (map (option_map seconds) (diff_from (inject_Z t) (map inject_Z l)))).
Proof.
  revert t; induction l as [|x l IH]; intros t H; simpl; [constructor |].
  inv H. inv H2. inv H3. constructor; [| now apply IH; constructor].
  unfold seconds. apply Qlt_shift_div_l; [reflexivity |].
  rewrite Qmult_0_l. unfold Qminus. rewrite <- (Qplus_opp_r (inject_Z t)).
  apply Qplus_lt_l. rewrite <- Zlt_Qlt. assumption.
Qed.

Lemma time_deltas_cons (t : Z) (l : list Z) :
  time_deltas (t :: l)
  = 0 :: fillna 0 (map (option_map seconds) (diff_from (inject_Z t) (map inject_Z l))).
Proof. reflexivity. Qed.

Lemma time_deltas_nonneg (ts : list Z) :
  StronglySorted Z.lt ts -> Forall (fun d => 0 <= d) (time_deltas ts).
Proof.
  destruct ts as [|t l]; intros H; [constructor |]. rewrite time_deltas_cons.
  constructor; [apply Qle_refl |].
  eapply Forall_impl; [| now apply deltas_from_pos]. intros d; apply Qlt_le_weak.
Qed.

(** ** Rows of the result *)

Lemma map_seq_nth {A B : Type} (row : nat -> A) (f : A -> B) (c : list B) (d : B) (n : nat) :
  length c = n -> (forall i, f (row i) = nth i c d) -> map f (map row (seq 0 n)) = c.
Proof.
  intros <- H. rewrite map_map. rewrite (map_ext _ _ H). apply map_nth_seq.
Qed.

Section Columns.
Context {M : MathLib}.
Variables (ts : list Z) (steering thr brk ax ay spd dts xs ys dist : list Q).

Let table := table_of_columns ts steering thr brk ax ay spd dts xs ys dist.

Lemma table_timestamp : map timestamp table = ts.
Proof. now apply map_seq_nth with (d := 0%Z). Qed.

Lemma table_length : length table = length ts.
Proof. unfold table, table_of_columns. now rewrite length_map, length_seq. Qed.

Lemma table_steering : length steering = length ts -> map Steering_Angle table = steering.
Proof. intros H. now apply map_seq_nth with (d := 0). Qed.

Lemma table_throttle : length thr = length ts -> map throttle table = thr.
Proof. intros H. now apply map_seq_nth with (d := 0). Qed.

Lemma table_brake : length brk = length ts -> map brake_pressure table = brk.
Proof. intros H. now apply map_seq_nth with (d := 0). Qed.

Lemma table_speed : length spd = length ts -> map speed table = spd.
Proof. intros H. now apply map_seq_nth with (d := 0). Qed.

Lemma table_dt : length dts = length ts -> map dt table = dts.
Proof. intros H. now apply map_seq_nth with (d := 0). Qed.

Lemma table_X : length xs = length ts -> map X table = xs.
Proof. intros H. now apply map_seq_nth with (d := 0). Qed.

Lemma table_Y : length ys = length ts -> map Y table = ys.
Proof. intros H. now apply map_seq_nth with (d := 0). Qed.

Lemma table_dist : length dist = length ts -> map Laptrigger_lapdist_dls table = dist.
Proof. intros H. now apply map_seq_nth with (d := 0). Qed.

End Columns.

Lemma to_speed_ms_nonneg (spd : list Q) :
  Forall (fun x => 0 <= x) spd -> Forall (fun x => 0 <= x) (to_speed_ms spd).
Proof.
  intros H. unfold to_speed_ms. destruct (fgtb _ _); [| exact H].
  apply Forall_map_iff. eapply Forall_impl; [| exact H].
  intros x Hx. simpl in Hx. apply Qdiv_nonneg; [exact Hx | reflexivity].
Qed.

(** ** Dead reckoning: the columns it adds *)

(** Equalities between the lengths of columns built from the same table. *)
Ltac solve_lengths lem :=
  repeat first [ rewrite cumsum_length | rewrite map2_length | rewrite length_map
               | rewrite euler_scan_length | rewrite lem | rewrite time_deltas_length
               | rewrite to_speed_ms_length ];
  congruence.

Section DeadReckoningFacts.
Context {M : MathLib}.
Variables (ts : list Z) (steering thr brk ax ay spd : list Q).
Hypothesis Hsteering : length steering = length ts.
Hypothesis Hspd : length spd = length ts.

Let out := dead_reckoning ts steering thr brk ax ay spd.
Let us := controls (to_speed_ms spd) steering (time_deltas ts).

Lemma controls_of_columns :
  map (fun u => fst (fst u)) us = to_speed_ms spd
  /\ map (fun u => snd (fst u)) us = steering
  /\ map (fun u => snd u) us = time_deltas ts.
Proof.
  apply controls_columns; autorewrite with columns; congruence.
Qed.

Lemma controls_steering (P : Q -> Prop) :
  Forall P steering -> Forall (fun u => P (snd (fst u))) us.
Proof.
  destruct controls_of_columns as (_ & E & _). rewrite <- E at 1.
  apply Forall_map_iff.
Qed.

Lemma controls_length : length us = length ts.
Proof.
  destruct controls_of_columns as (_ & _ & E).
  rewrite <- (length_map (fun u => snd u)), E. apply time_deltas_length.
Qed.

Lemma headings_scan :
  headings (yaw_rates (to_speed_ms spd) (wheel_angles steering)) (time_deltas ts)
  = map psi (trajectory ts steering spd).
Proof.
  destruct controls_of_columns as (E1 & E2 & E3).
  unfold headings, cumsum, trajectory. fold us. rewrite <- E1, <- E2, <- E3.
  apply (scan_heading pose0).
Qed.

Lemma dead_reckoning_timestamp : map timestamp out = ts.
Proof. apply table_timestamp. Qed.

Lemma dead_reckoning_length : length out = length ts.
Proof. apply table_length. Qed.

Lemma dead_reckoning_dt : map dt out = time_deltas ts.
Proof. apply table_dt, time_deltas_length. Qed.

Lemma dead_reckoning_steering : map Steering_Angle out = steering.
Proof. now apply table_steering. Qed.

Lemma dead_reckoning_speed : map speed out = spd.
Proof. now apply table_speed. Qed.

Lemma dead_reckoning_throttle : length thr = length ts -> map throttle out = thr.
Proof. apply table_throttle. Qed.

Lemma dead_reckoning_brake : length brk = length ts -> map brake_pressure out = brk.
Proof. apply table_brake. Qed.

Lemma dead_reckoning_X : map X out = map pos_x (trajectory ts steering spd).
Proof.
  destruct controls_of_columns as (E1 & E2 & E3).
  unfold out, dead_reckoning. cbv zeta. rewrite headings_scan, table_X.
  - unfold positions_x, cumsum, trajectory. fold us. rewrite <- E1, <- E3.
    apply (scan_x pose0).
  - unfold positions_x, trajectory. fold us. solve_lengths controls_length.
Qed.

Lemma dead_reckoning_Y : map Y out = map pos_y (trajectory ts steering spd).
Proof.
  destruct controls_of_columns as (E1 & E2 & E3).
  unfold out, dead_reckoning. cbv zeta. rewrite headings_scan, table_Y.
  - unfold positions_y, cumsum, trajectory. fold us. rewrite <- E1, <- E3.
    apply (scan_y pose0).
  - unfold positions_y, trajectory. fold us. solve_lengths controls_length.
Qed.

Lemma dead_reckoning_lap_distance :
  map Laptrigger_lapdist_dls out = lap_distances (to_speed_ms spd) (time_deltas ts).
Proof.
  unfold out, dead_reckoning. cbv zeta. apply table_dist.
  unfold lap_distances. solve_lengths controls_length.
Qed.

Lemma dead_reckoning_dist :
  map Laptrigger_lapdist_dls out = map travelled (trajectory ts steering spd).
Proof.
  destruct controls_of_columns as (E1 & E2 & E3).
  rewrite dead_reckoning_lap_distance.
  unfold lap_distances, cumsum, trajectory. fold us. rewrite <- E1, <- E3.
  apply (scan_distance pose0).
Qed.

Lemma dead_reckoning_sorted :
  StronglySorted Z.lt ts -> Forall (fun v => 0 <= v) spd ->
  sorted_by Laptrigger_lapdist_dls out.
Proof.
  intros Hts Hv. apply sorted_by_map. rewrite dead_reckoning_lap_distance.
  apply cumsum_from_sorted.
  apply (map2_Forall (fun v => 0 <= v) (fun h => 0 <= h));
    auto using Qmult_le_0_compat, to_speed_ms_nonneg, time_deltas_nonneg.
Qed.

Lemma dead_reckoning_nonneg :
  StronglySorted Z.lt ts -> Forall (fun v => 0 <= v) spd ->
  Forall (fun r => 0 <= Laptrigger_lapdist_dls r) out.
Proof.
  intros Hts Hv. apply (Forall_map_iff Laptrigger_lapdist_dls (fun d => 0 <= d)).
  rewrite dead_reckoning_lap_distance. apply cumsum_from_ge.
  apply (map2_Forall (fun v => 0 <= v) (fun h => 0 <= h));
    auto using Qmult_le_0_compat, to_speed_ms_nonneg, time_deltas_nonneg.
Qed.

End DeadReckoningFacts.

(** ** Properties of the scan *)

Section ScanFacts.
Context {M : MathLib} {L : MathLibLaws M}.

Lemma euler_step_length (p : pose) (u : Q * Q * Q) :
  let p' := euler_step p u in
  (pos_x p' - pos_x p) * (pos_x p' - pos_x p) + (pos_y p' - pos_y p) * (pos_y p' - pos_y p)
  == (travelled p' - travelled p) * (travelled p' - travelled p).
Proof.
  destruct u as [[v s] h]. cbn [euler_step pos_x pos_y travelled]. cbv zeta.
  set (a := psi p + _). pose proof (np_cos_sin a) as Ha.
  set (c := np_cos a) in *. set (d := np_sin a) in *. clearbody c d.
  setoid_replace (pos_x p + v * c * h - pos_x p) with (v * h * c) by ring.
  setoid_replace (pos_y p + v * d * h - pos_y p) with (v * h * d) by ring.
  setoid_replace (travelled p + v * h - travelled p) with (v * h) by ring.
  transitivity (v * h * (v * h) * (c * c + d * d)); [ring |]. rewrite Ha. ring.
Qed.

(** With the wheel straight the heading stays where it is. *)
Lemma euler_step_straight (p : pose) (v s h : Q) :
  s == 0 -> psi (euler_step p (v, s, h)) == psi p.
Proof.
  intros Hs. cbn [euler_step psi]. cbv zeta. unfold np_radians.
  setoid_replace (s * 450 / steering_ratio * np_pi / 180) with 0
    by (rewrite Hs; unfold steering_ratio; field).
  rewrite np_tan_0. ring.
Qed.

Lemma euler_step_on_axis (p : pose) (u : Q * Q * Q) :
  on_axis p -> snd (fst u) == 0 -> on_axis (euler_step p u).
Proof.
  destruct u as [[v s] h]. intros (Hpsi & Hy & Hx) Hs. simpl in Hs.
  pose proof (euler_step_straight p v s h Hs) as Hstep. rewrite Hpsi in Hstep.
  unfold on_axis. split; [exact Hstep |].
  revert Hstep. cbn [euler_step psi pos_x pos_y travelled]. cbv zeta.
  set (a := psi p + _). intros Ha. rewrite Ha, np_cos_0, np_sin_0, Hy, Hx.
  split; ring.
Qed.

Lemma euler_step_forward (p : pose) (u : Q * Q * Q) :
  0 <= fst (fst u) -> 0 <= snd u -> travelled p <= travelled (euler_step p u).
Proof.
  destruct u as [[v s] h]. simpl. intros Hv Hh.
  pose proof (Qmult_le_0_compat _ _ Hv Hh). lra.
Qed.

End ScanFacts.

(** ** The whole function *)

Lemma load_and_filter_spec (chunks : list (list raw_row)) (v : string) (l : Z) :
  load_and_filter chunks v l
  = match filter (matches v l) (concat chunks) with
    | [] => Err (ValueError (no_data_message v l))
    | rows => Ok rows
    end.
Proof.
  unfold load_and_filter. rewrite <- filter_chunks_concat.
  pose proof (filter_chunks_nonempty chunks v l) as Hne.
  destruct (filter_chunks chunks v l) as [|c cs] eqn:E; [reflexivity |].
  destruct (concat (c :: cs)) eqn:Ec; [| reflexivity].
  now apply concat_nil_nonempty in Ec.
Qed.

Lemma sort_pivot (df_raw : list raw_row) :
  sort_values ts_key (pivot_table df_raw) = pivot_table df_raw.
Proof.
  apply sort_values_sorted_id, (StronglySorted_lt_sorted_by w_timestamp), pivot_sorted.
Qed.

Lemma max_exceeds_Ok (std : string) (df : list wide_row) (col : list Q) (bound : Q) (b : bool) :
  max_exceeds std df col bound = Ok b ->
  b = fgtb (Qmax_list col) (Some bound) /\ (length (present_sources std df) <= 1)%nat.
Proof.
  unfold max_exceeds. destruct (present_sources std df) as [|? [|? ?]]; intros [= <-];
    simpl; split; auto.
Qed.

Lemma max_exceeds_Err (std : string) (df : list wide_row) (col : list Q) (bound : Q) :
  (2 <= length (present_sources std df))%nat ->
  max_exceeds std df col bound = Err (ValueError "The truth value of a Series is ambiguous").
Proof.
  unfold max_exceeds. destruct (present_sources std df) as [|? [|? ?]]; simpl; intros H;
    [lia | lia | reflexivity].
Qed.

Lemma max_exceeds_cases (std : string) (df : list wide_row) (col : list Q) (bound : Q) :
  max_exceeds std df col bound
  = if (2 <=? length (present_sources std df))%nat
    then Err (ValueError "The truth value of a Series is ambiguous")
    else Ok (fgtb (Qmax_list col) (Some bound)).
Proof. unfold max_exceeds. now destruct (present_sources std df) as [|? [|? ?]]. Qed.

Section ProcessFacts.
Context {M : MathLib}.

Lemma process_pivot_Ok_inv (df : list wide_row) (out : list sample) :
  process_pivot df = Ok out ->
  let df' := sort_values ts_key df in
  out = dead_reckoning (map w_timestamp df') (steering_of df') (throttle_of df') (brake_of df')
          (required_column "accx" df') (required_column "accy" df')
          (required_column "speed" df')
  /\ (length (present_sources "throttle" df') <= 1)%nat
  /\ (length (present_sources "brake_pressure" df') <= 1)%nat.
Proof.
  unfold process_pivot. cbv zeta.
  destruct (max_exceeds "throttle" _ _ 1) as [b1|e] eqn:E1; [| discriminate].
  destruct (max_exceeds "brake_pressure" _ _ 0) as [b2|e] eqn:E2; [| discriminate].
  apply max_exceeds_Ok in E1 as [-> H1], E2 as [-> H2]. simpl. intros [= <-]. auto.
Qed.

Lemma process_pivot_raises (df : list wide_row) (e : pyerror) :
  process_pivot df = Err e
  <-> e = ValueError "The truth value of a Series is ambiguous"
      /\ ambiguous (sort_values ts_key df) = true.
Proof.
  unfold process_pivot, ambiguous. cbv zeta. rewrite !max_exceeds_cases.
  destruct (2 <=? length (present_sources "throttle" _))%nat; cbn [bind orb].
  - split; [intros [= <-]; auto | now intros [-> _]].
  - destruct (2 <=? length (present_sources "brake_pressure" _))%nat; cbn [bind].
    + split; [intros [= <-]; auto | now intros [-> _]].
    + split; [discriminate | now intros [_ ?]].
Qed.


Lemma process_lap_data_Ok_inv (chunks : list (list raw_row)) (v : string) (l : Z)
  (out : list sample) :
  process_lap_data chunks v l = Ok out ->
  let df_raw := filter (matches v l) (concat chunks) in
  df_raw <> [] /\ process_pivot (pivot_table df_raw) = Ok out.
Proof.
  unfold process_lap_data. rewrite load_and_filter_spec.
  destruct (filter (matches v l) (concat chunks)); simpl; [discriminate |].
  intros H. split; [discriminate | exact H].
Qed.

Lemma process_pivot_length (df : list wide_row) (out : list sample) :
  process_pivot df = Ok out -> length out = length df.
Proof.
  intros H. apply process_pivot_Ok_inv in H as [-> _].
  rewrite dead_reckoning_length, length_map. apply sort_values_length.
Qed.

End ProcessFacts.

(** ** Bounds of the normalised columns *)

Lemma normalize_throttle_bounds (col : list Q) :
  Forall (fun x => 0 <= x <= 100) col ->
  Forall (fun x => 0 <= x <= 1)
    (normalize_throttle (fgtb (Qmax_list col) (Some 1)) col).
Proof.
  intros H. destruct (Qmax_list col) as [mx|] eqn:E; simpl.
  - case_qtest; simpl.
    + apply Qmax_list_ge in E. rewrite Forall_forall in *.
      intros x Hx. specialize (H x Hx). specialize (E x Hx). lra.
    + apply Forall_map_iff. eapply Forall_impl; [| exact H].
      intros x Hx. simpl in Hx. split; [apply Qdiv_nonneg | apply Qdiv_le_1]; lra.
  - apply Qmax_list_None in E. subst. constructor.
Qed.

Lemma normalize_brake_bounds (col : list Q) :
  Forall (fun x => 0 <= x) col ->
  Forall (fun x => 0 <= x <= 1)
    (normalize_brake (fgtb (Qmax_list col) (Some 0)) col).
Proof.
  intros H. unfold normalize_brake. destruct (Qmax_list col) as [mx|] eqn:E; simpl.
  - pose proof (Qmax_list_ge _ _ E) as Hmx. rewrite Forall_forall in *.
    case_qtest; simpl.
    + intros x Hx. specialize (H x Hx). specialize (Hmx x Hx). lra.
    + intros y Hy. apply in_map_iff in Hy as (x & <- & Hx).
      specialize (H x Hx). specialize (Hmx x Hx).
      split; [apply Qdiv_nonneg | apply Qdiv_le_1]; lra.
  - apply Qmax_list_None in E. subst. constructor.
Qed.

Lemma normalize_brake_peak (col : list Q) (mx : Q) :
  Qmax_list col = Some mx -> 0 < mx ->
  Exists (fun x => x == 1) (normalize_brake (fgtb (Qmax_list col) (Some 0)) col).
Proof.
  intros E Hmx. unfold normalize_brake. rewrite E. simpl.
  destruct (Qle_bool mx 0) eqn:Eb; qbool; [lra |]. simpl.
  apply Exists_exists. exists (mx / mx). split.
  - apply (in_map (fun x => x / mx)), Qmax_list_In, E.
  - apply Qdiv_self. lra.
Qed.

(** ** From the raw rows to the columns *)

Lemma required_column_pivot (P : Q -> Prop) (std : string) (df_raw : list raw_row) :
  P 0 -> channel_values P std df_raw -> Forall P (required_column std (pivot_table df_raw)).
Proof.
  intros H0 H. apply Forall_forall. intros x Hx.
  apply required_column_In in Hx as [->|(r & name & Hr & Hn & Hc)]; [exact H0 |].
  rewrite (pivot_cell _ _ _ Hr) in Hc.
  apply first_value_In in Hc as (r' & Hin & _ & Hname & Hv).
  apply (H r' x Hin); [now rewrite Hname | exact Hv].
Qed.

(** ** Trajectories *)

Lemma euler_scan_consecutive {M : MathLib} (p : pose) (us : list (Q * Q * Q)) (i : nat)
  (p1 p2 : pose) :
  nth_error (euler_scan p us) i = Some p1 -> nth_error (euler_scan p us) (S i) = Some p2 ->
  exists u, In u us /\ p2 = euler_step p1 u.
Proof.
  revert p i; induction us as [|u us IH]; intros p i H1 H2; [destruct i; discriminate |].
  destruct i as [|i]; cbn [euler_scan nth_error] in H1, H2.
  - injection H1 as <-. destruct us as [|u' us]; [discriminate |].
    cbn [euler_scan nth_error] in H2. injection H2 as <-.
    exists u'. split; [right; now left | reflexivity].
  - destruct (IH _ _ H1 H2) as (u' & Hin & E). exists u'. split; [now right | exact E].
Qed.

Lemma nth_error_map_eq {A B C : Type} (f : A -> C) (g : B -> C) (l : list A) (s : list B)
  (i : nat) (a : A) (b : B) :
  map f l = map g s -> nth_error l i = Some a -> nth_error s i = Some b -> f a = g b.
Proof.
  intros E Ha Hb. apply (map_nth_error f) in Ha. apply (map_nth_error g) in Hb.
  rewrite E in Ha. congruence.
Qed.

Section TrajectoryFacts.
Context {M : MathLib}.
Variables (ts : list Z) (steering thr brk ax ay spd : list Q).
Hypothesis Hsteering : length steering = length ts.
Hypothesis Hspd : length spd = length ts.

Let out := dead_reckoning ts steering thr brk ax ay spd.
Let traj := trajectory ts steering spd.

Lemma trajectory_length : length traj = length out.
Proof.
  unfold traj, out, trajectory. rewrite euler_scan_length, dead_reckoning_length.
  now apply controls_length.
Qed.

(** The pose that a row of the result carries. *)
Lemma row_pose (i : nat) (r : sample) :
  nth_error out i = Some r ->
  exists p, nth_error traj i = Some p
            /\ X r = pos_x p /\ Y r = pos_y p /\ Laptrigger_lapdist_dls r = travelled p.
Proof.
  intros Hr. destruct (nth_error traj i) as [p|] eqn:Ep.
  - exists p. split; [reflexivity |].
    repeat split; eapply nth_error_map_eq; eauto;
      [apply dead_reckoning_X | apply dead_reckoning_Y | apply dead_reckoning_dist]; auto.
  - apply nth_error_None in Ep. rewrite trajectory_length in Ep.
    assert (nth_error out i <> None) by congruence. apply nth_error_Some in H. lia.
Qed.

Lemma trajectory_invariant (P : pose -> Prop) (C : Q * Q * Q -> Prop) :
  (forall p u, P p -> C u -> P (euler_step p u)) -> P pose0 ->
  Forall C (controls (to_speed_ms spd) steering (time_deltas ts)) ->
  Forall (fun r => exists p, P p /\ X r = pos_x p /\ Y r = pos_y p
                             /\ Laptrigger_lapdist_dls r = travelled p) out.
Proof.
  intros Hstep H0 Hc. pose proof (euler_scan_invariant P C Hstep pose0 _ H0 Hc) as Ht.
  fold (trajectory ts steering spd) in Ht. fold traj in Ht.
  apply Forall_forall. intros r Hr. apply In_nth_error in Hr as [i Hi].
  destruct (row_pose i r Hi) as (p & Hp & E). exists p. split; [| exact E].
  apply (Forall_elim P traj p Ht). eapply nth_error_In, Hp.
Qed.

(** The first control of a lap has a zero time delta. *)
Lemma trajectory_head (r : sample) (rest : list sample) :
  out = r :: rest ->
  exists v s us, traj = euler_scan pose0 ((v, s, 0) :: us).
Proof.
  intros E. pose proof (dead_reckoning_length ts steering thr brk ax ay spd) as Hl.
  fold out in Hl. rewrite E in Hl. unfold traj, trajectory, controls.
  destruct ts as [|t ts']; [discriminate |]. rewrite time_deltas_cons.
  pose proof (to_speed_ms_length spd) as Hv.
  destruct (to_speed_ms spd) as [|v vs]; [simpl in *; congruence |].
  destruct steering as [|s ss]; [discriminate |]. simpl. eauto.
Qed.

End TrajectoryFacts.

(** ** Theorems on [process_lap_data] *)

Lemma steering_of_length (df : list wide_row) :
  length (steering_of df) = length (map w_timestamp df).
Proof. unfold steering_of. now autorewrite with columns. Qed.

Lemma throttle_of_length (df : list wide_row) :
  length (throttle_of df) = length (map w_timestamp df).
Proof. unfold throttle_of. cbv zeta. now autorewrite with columns. Qed.

Lemma brake_of_length (df : list wide_row) :
  length (brake_of df) = length (map w_timestamp df).
Proof. unfold brake_of. cbv zeta. now autorewrite with columns. Qed.

Lemma speed_length (df : list wide_row) :
  length (required_column "speed" df) = length (map w_timestamp df).
Proof. now autorewrite with columns. Qed.

#[export] Hint Resolve steering_of_length throttle_of_length brake_of_length speed_length
  : frame.

Section ProcessTheorems.
Context {M : MathLib}.
Variables (chunks : list (list raw_row)) (vehicle_id : string) (lap : Z).
Variable out : list sample.
Hypothesis Hout : process_lap_data chunks vehicle_id lap = Ok out.

Let df_raw := filter (matches vehicle_id lap) (concat chunks).
Let df := pivot_table df_raw.

Lemma process_lap_data_columns :
  out = dead_reckoning (map w_timestamp df) (steering_of df) (throttle_of df) (brake_of df)
          (required_column "accx" df) (required_column "accy" df)
          (required_column "speed" df).
Proof.
  apply process_lap_data_Ok_inv in Hout as [_ H].
  apply process_pivot_Ok_inv in H as (H & _). rewrite sort_pivot in H. exact H.
Qed.

Lemma out_timestamp : map timestamp out = map w_timestamp df.
Proof. rewrite process_lap_data_columns. apply dead_reckoning_timestamp. Qed.

Lemma out_steering : map Steering_Angle out = steering_of df.
Proof. rewrite process_lap_data_columns. apply dead_reckoning_steering; auto with frame. Qed.

Lemma out_speed : map speed out = required_column "speed" df.
Proof. rewrite process_lap_data_columns. apply dead_reckoning_speed; auto with frame. Qed.

Lemma out_throttle : map throttle out = throttle_of df.
Proof. rewrite process_lap_data_columns. apply dead_reckoning_throttle; auto with frame. Qed.

Lemma out_brake : map brake_pressure out = brake_of df.
Proof. rewrite process_lap_data_columns. apply dead_reckoning_brake; auto with frame. Qed.

Lemma out_dt : map dt out = time_deltas (map w_timestamp df).
Proof. rewrite process_lap_data_columns. apply dead_reckoning_dt. Qed.

Lemma out_trajectory :
  trajectory (map timestamp out) (map Steering_Angle out) (map speed out)
  = trajectory (map w_timestamp df) (steering_of df) (required_column "speed" df).
Proof. now rewrite out_timestamp, out_steering, out_speed. Qed.

Let traj := trajectory (map w_timestamp df) (steering_of df) (required_column "speed" df).

Lemma out_row_pose (i : nat) (r : sample) :
  nth_error out i = Some r ->
  exists p, nth_error traj i = Some p
            /\ X r = pos_x p /\ Y r = pos_y p /\ Laptrigger_lapdist_dls r = travelled p.
Proof.
  rewrite process_lap_data_columns. apply row_pose; auto with frame.
Qed.

Lemma out_trajectory_head (r : sample) (rest : list sample) :
  out = r :: rest -> exists v s us, traj = euler_scan pose0 ((v, s, 0) :: us).
Proof.
  rewrite process_lap_data_columns. apply trajectory_head; auto with frame.
Qed.

Lemma out_invariant (P : pose -> Prop) (C : Q * Q * Q -> Prop) :
  (forall p u, P p -> C u -> P (euler_step p u)) -> P pose0 ->
  Forall C (controls (to_speed_ms (required_column "speed" df)) (steering_of df)
              (time_deltas (map w_timestamp df))) ->
  Forall (fun r => exists p, P p /\ X r = pos_x p /\ Y r = pos_y p
                             /\ Laptrigger_lapdist_dls r = travelled p) out.
Proof.
  rewrite process_lap_data_columns. apply trajectory_invariant; auto with frame.
Qed.

End ProcessTheorems.

(** The size of the chunks in which the file is read does not
    matter: two chunkings of the same rows give the same filtered table,
    or the same error. *)
Theorem load_and_filter_chunk_independent (chunks1 chunks2 : list (list raw_row))
  (vehicle_id : string) (lap : Z) :
  concat chunks1 = concat chunks2 ->
  load_and_filter chunks1 vehicle_id lap = load_and_filter chunks2 vehicle_id lap.
Proof. intros E. now rewrite !load_and_filter_spec, E. Qed.

(** When no row of the file is of the vehicle and the lap,
    [process_lap_data] raises the ValueError that names them. *)
Theorem process_lap_data_no_data {M : MathLib} (chunks : list (list raw_row))
  (vehicle_id : string) (lap : Z) :
  (forall r, In r (concat chunks) -> matches vehicle_id lap r = false) ->
  process_lap_data chunks vehicle_id lap
  = Err (ValueError (no_data_message vehicle_id lap)).
Proof.
  intros H. unfold process_lap_data. rewrite load_and_filter_spec.
  now rewrite (filter_nil _ _ H).
Qed.

(** C23: forward fill followed by backward fill puts at every index
    the last known value at or before it, and the first known value
    after it when there is none before. *)
Theorem fill_nearest_known (s : list float) (i : nat) :
  (i < length s)%nat -> nth_error (bfill (ffill s)) i = Some (nearest_known s i).
Proof.
  intros Hi. unfold ffill, nearest_known. rewrite fill_from_nth by exact Hi.
  now destruct (first_known (rev (firstn (S i) s))).
Qed.

(** A column that has one known value has no gap left after the
    forward and backward fill. *)
Theorem fill_leaves_no_gap (s : list float) :
  Exists known s -> Forall known (bfill (ffill s)).
Proof. intros H. apply bfill_ffill_from_known. now right. Qed.

(** The cell of a timestamp and a channel is the value of the
    first raw row of that timestamp and channel whose value is known. *)
Theorem pivot_first_occurrence (before after : list raw_row) (r : raw_row) (w : wide_row) :
  known (telemetry_value r) ->
  Forall (fun r' => raw_timestamp r' = raw_timestamp r ->
                    telemetry_name r' = telemetry_name r -> telemetry_value r' = None)
         before ->
  In w (pivot_table (before ++ r :: after)) -> w_timestamp w = raw_timestamp r ->
  cell w (telemetry_name r) = telemetry_value r.
Proof.
  intros Hv Hb Hw Ht. rewrite (pivot_cell _ _ _ Hw), Ht.
  now apply first_value_first.
Qed.

(** C35: the rows of the result are strictly ordered in time and no
    time delta is negative. *)
Theorem process_lap_data_time_ordered {M : MathLib} (chunks : list (list raw_row))
  (vehicle_id : string) (lap : Z) (out : list sample) :
  process_lap_data chunks vehicle_id lap = Ok out ->
  StronglySorted Z.lt (map timestamp out) /\ Forall (fun r => 0 <= dt r) out.
Proof.
  intros H. rewrite <- (Forall_map_iff dt (fun d => 0 <= d)).
  rewrite (out_timestamp _ _ _ _ H), (out_dt _ _ _ _ H).
  split; [| apply time_deltas_nonneg]; apply pivot_sorted.
Qed.

(** When every raw throttle value is between 0 and 100, the
    throttle of the result is between 0 and 1. *)
Theorem process_lap_data_throttle_bounds {M : MathLib} (chunks : list (list raw_row))
  (vehicle_id : string) (lap : Z) (out : list sample) :
  channel_values (fun x => 0 <= x <= 100) "throttle"
    (filter (matches vehicle_id lap) (concat chunks)) ->
  process_lap_data chunks vehicle_id lap = Ok out ->
  Forall (fun r => 0 <= throttle r <= 1) out.
Proof.
  intros Hc H. rewrite <- (Forall_map_iff throttle (fun x => 0 <= x <= 1)).
  rewrite (out_throttle _ _ _ _ H). apply normalize_throttle_bounds.
  apply required_column_pivot; [lra | exact Hc].
Qed.

(** When no raw brake pressure is negative, the brake pressure
    of the result is between 0 and 1. *)
Theorem process_lap_data_brake_bounds {M : MathLib} (chunks : list (list raw_row))
  (vehicle_id : string) (lap : Z) (out : list sample) :
  channel_values (fun x => 0 <= x) "brake_pressure"
    (filter (matches vehicle_id lap) (concat chunks)) ->
  process_lap_data chunks vehicle_id lap = Ok out ->
  Forall (fun r => 0 <= brake_pressure r <= 1) out.
Proof.
  intros Hc H. rewrite <- (Forall_map_iff brake_pressure (fun x => 0 <= x <= 1)).
  rewrite (out_brake _ _ _ _ H). apply normalize_brake_bounds.
  apply required_column_pivot; [lra | exact Hc].
Qed.

(** C36: when no raw speed is negative, the lap distance of the
    result never decreases from a row to the next. *)
Theorem process_lap_data_distance_monotone {M : MathLib} (chunks : list (list raw_row))
  (vehicle_id : string) (lap : Z) (out : list sample) :
  channel_values (fun x => 0 <= x) "speed"
    (filter (matches vehicle_id lap) (concat chunks)) ->
  process_lap_data chunks vehicle_id lap = Ok out ->
  sorted_by Laptrigger_lapdist_dls out.
Proof.
  intros Hc H. rewrite (process_lap_data_columns _ _ _ _ H).
  apply dead_reckoning_sorted; auto using pivot_sorted with frame.
  apply required_column_pivot; [lra | exact Hc].
Qed.

Lemma process_lap_data_distance_nonneg {M : MathLib} (chunks : list (list raw_row))
  (vehicle_id : string) (lap : Z) (out : list sample) :
  channel_values (fun x => 0 <= x) "speed"
    (filter (matches vehicle_id lap) (concat chunks)) ->
  process_lap_data chunks vehicle_id lap = Ok out ->
  Forall (fun r => 0 <= Laptrigger_lapdist_dls r) out.
Proof.
  intros Hc H. rewrite (process_lap_data_columns _ _ _ _ H).
  apply dead_reckoning_nonneg; auto using pivot_sorted with frame.
  apply required_column_pivot; [lra | exact Hc].
Qed.

(** C2: the position and the lap distance that the column-wise
    cumulative sums give are those of the scan that carries heading,
    position and distance from one sample to the next, run on the
    timestamps, the steering and the speed of the result. *)
Theorem process_lap_data_refines_scan {M : MathLib} (chunks : list (list raw_row))
  (vehicle_id : string) (lap : Z) (out : list sample) :
  process_lap_data chunks vehicle_id lap = Ok out ->
  let traj := trajectory (map timestamp out) (map Steering_Angle out) (map speed out) in
  map X out = map pos_x traj /\ map Y out = map pos_y traj
  /\ map Laptrigger_lapdist_dls out = map travelled traj.
Proof.
  intros H. cbv zeta. rewrite (out_trajectory _ _ _ _ H).
  rewrite (process_lap_data_columns _ _ _ _ H) at 1 2 3.
  auto using dead_reckoning_X, dead_reckoning_Y, dead_reckoning_dist with frame.
Qed.

(** The first row of the result is at the origin: its time
    delta, its position and its lap distance are zero. *)
Theorem process_lap_data_origin {M : MathLib} (chunks : list (list raw_row))
  (vehicle_id : string) (lap : Z) (r : sample) (rest : list sample) :
  process_lap_data chunks vehicle_id lap = Ok (r :: rest) ->
  dt r == 0 /\ X r == 0 /\ Y r == 0 /\ Laptrigger_lapdist_dls r == 0.
Proof.
  intros H. pose proof (out_dt _ _ _ _ H) as Hdt.
  destruct (out_trajectory_head _ _ _ _ H r rest eq_refl) as (v & s & us & Ht).
  destruct (out_row_pose _ _ _ _ H 0%nat r eq_refl) as (p & Hp & -> & -> & ->).
  rewrite Ht in Hp. injection Hp as <-.
  destruct (euler_step_still pose0 v s) as (Hx & Hy & Hd). split; [| auto].
  destruct (map w_timestamp _); [discriminate |].
  rewrite time_deltas_cons in Hdt. injection Hdt as -> _. reflexivity.
Qed.

(** C11: between two consecutive rows the squared displacement in x
    and y equals the squared increase of the lap distance: the lap
    distance is the length of the reconstructed path. *)
Theorem process_lap_data_step_length {M : MathLib} {L : MathLibLaws M}
  (chunks : list (list raw_row)) (vehicle_id : string) (lap : Z) (out : list sample)
  (i : nat) (r1 r2 : sample) :
  process_lap_data chunks vehicle_id lap = Ok out ->
  nth_error out i = Some r1 -> nth_error out (S i) = Some r2 ->
  (X r2 - X r1) * (X r2 - X r1) + (Y r2 - Y r1) * (Y r2 - Y r1)
  == (Laptrigger_lapdist_dls r2 - Laptrigger_lapdist_dls r1)
     * (Laptrigger_lapdist_dls r2 - Laptrigger_lapdist_dls r1).
Proof.
  intros H H1 H2.
  destruct (out_row_pose _ _ _ _ H _ _ H1) as (p1 & Hp1 & -> & -> & ->).
  destruct (out_row_pose _ _ _ _ H _ _ H2) as (p2 & Hp2 & -> & -> & ->).
  destruct (euler_scan_consecutive _ _ _ _ _ Hp1 Hp2) as (u & _ & ->).
  apply euler_step_length.
Qed.

(** When the steering angle is zero on the whole lap, the
    reconstructed path is the straight line along the x axis: y is zero
    and x is the lap distance on every row. *)
Theorem process_lap_data_straight {M : MathLib} {L : MathLibLaws M}
  (chunks : list (list raw_row)) (vehicle_id : string) (lap : Z) (out : list sample) :
  channel_values (fun x => x == 0) "Steering_Angle"
    (filter (matches vehicle_id lap) (concat chunks)) ->
  process_lap_data chunks vehicle_id lap = Ok out ->
  Forall (fun r => Y r == 0 /\ X r == Laptrigger_lapdist_dls r) out.
Proof.
  intros Hc H.
  eapply Forall_impl; [| apply (out_invariant _ _ _ _ H on_axis (fun u => snd (fst u) == 0))].
  - intros r (p & (_ & Hy & Hx) & -> & -> & ->). auto.
  - intros p u. apply euler_step_on_axis.
  - repeat split; reflexivity.
  - apply (controls_steering _ _ _ (steering_of_length _) (speed_length _)
             (fun s => s == 0)).
    apply Forall_map_iff. eapply Forall_impl;
      [| apply (required_column_pivot (fun x => x == 0)); [reflexivity | exact Hc]].
    intros x Hx. simpl in Hx. rewrite Hx. reflexivity.
Qed.

(** When the lap has values under both the raw name [ath] and
    the standard name [throttle], the renaming leaves two throttle
    columns and the test of their maximum raises a ValueError. *)
Theorem process_pivot_ambiguous_throttle {M : MathLib} (df : list wide_row) :
  column_exists "ath" df = true -> column_exists "throttle" df = true ->
  process_pivot df = Err (ValueError "The truth value of a Series is ambiguous").
Proof.
  intros H1 H2. unfold process_pivot. cbv zeta. rewrite max_exceeds_Err; [reflexivity |].
  unfold present_sources. change (sources_of "throttle") with ["ath"; "throttle"].
  simpl. rewrite !column_exists_sort, H1, H2. simpl. lia.
Qed.

(** * A lap of four timestamps

    Two chunks of raw rows: four timestamps one second apart for vehicle
    [car1] on lap 3, with throttle on a 0..100 scale under its raw name,
    a duplicate speed row, and rows of another vehicle and another lap. *)

Definition raw_at (t : Z) (name : string) (v : Q) : raw_row :=
  mkRaw (t * 1000000000) "car1" 3 name (Some v).

Definition lap_chunks : list (list raw_row) :=
  [ [ raw_at 0 "speed" 10; raw_at 0 "Steering_Angle" 0; raw_at 1 "ath" 50;
      raw_at 1 "speed" 20; mkRaw 0 "car2" 3 "speed" (Some 5) ];
    [ raw_at 2 "Steering_Angle" 45; raw_at 2 "pbrake_f" 4; raw_at 3 "speed" 30;
      raw_at 3 "pbrake_f" 8; mkRaw 0 "car1" 4 "speed" (Some 5); raw_at 3 "speed" 99 ] ].

(** The same lap driven with the wheel straight. *)
Definition straight_chunks : list (list raw_row) :=
  [ [ raw_at 0 "speed" 10; raw_at 0 "Steering_Angle" 0; raw_at 1 "speed" 20;
      raw_at 2 "speed" 20; raw_at 2 "Steering_Angle" 0 ] ].

Definition lap_out : list sample :=
  get_or [] (process_lap_data (M := rational_math) lap_chunks "car1" 3).

Definition straight_out : list sample :=
  get_or [] (process_lap_data (M := rational_math) straight_chunks "car1" 3).

Lemma lap_out_Ok : process_lap_data (M := rational_math) lap_chunks "car1" 3 = Ok lap_out.
Proof. apply is_ok_get_or. reflexivity. Qed.

Lemma straight_out_Ok :
  process_lap_data (M := rational_math) straight_chunks "car1" 3 = Ok straight_out.
Proof. apply is_ok_get_or. reflexivity. Qed.

Lemma channel_values_dec (P : Q -> Prop) (std : string) (df_raw : list raw_row) :
  Forall (fun r => forall x, In (telemetry_name r) (sources_of std) ->
                             telemetry_value r = Some x -> P x) df_raw ->
  channel_values P std df_raw.
Proof. intros H r x Hr. exact (Forall_elim _ _ r H Hr x). Qed.

(** Check a property of the values of a channel row by row. *)
Ltac check_channel :=
  apply channel_values_dec; simpl filter;
  repeat (apply Forall_cons;
          [simpl; intros x Hn [= <-]; try lra; intuition discriminate |]);
  apply Forall_nil.

Lemma load_and_filter_chunk_independent_witness :
  load_and_filter lap_chunks "car1" 3 = load_and_filter [concat lap_chunks] "car1" 3.
Proof. apply load_and_filter_chunk_independent. reflexivity. Defined.

Lemma process_lap_data_no_data_witness :
  process_lap_data (M := rational_math) lap_chunks "car9" 3
  = Err (ValueError "No data found for car9 Lap 3").
Proof.
  apply (process_lap_data_no_data lap_chunks "car9" 3).
  intros r Hr. simpl in Hr. repeat (destruct Hr as [<-|Hr]; [reflexivity |]). contradiction.
Defined.

Lemma fill_nearest_known_witness :
  nth_error (bfill (ffill [None; Some 1; None; None; Some 2; None])) 3 = Some (Some 1).
Proof. apply (fill_nearest_known [None; Some 1; None; None; Some 2; None] 3). simpl. lia. Defined.

Lemma fill_leaves_no_gap_witness :
  Forall known (bfill (ffill [None; Some 1; None; None; Some 2; None])).
Proof. apply fill_leaves_no_gap. right. left. discriminate. Defined.

Lemma pivot_first_occurrence_witness :
  cell (mkWide 3000000000 (fun name => first_value 3000000000 name (concat lap_chunks)))
       "speed" = Some 30.
Proof.
  apply (pivot_first_occurrence
           (firstn 7 (concat lap_chunks)) (skipn 8 (concat lap_chunks)) (raw_at 3 "speed" 30)).
  - discriminate.
  - repeat constructor; simpl; intros; try discriminate; congruence.
  - vm_compute. do 3 right. left. reflexivity.
  - reflexivity.
Defined.

Lemma process_lap_data_time_ordered_witness :
  StronglySorted Z.lt (map timestamp lap_out) /\ Forall (fun r => 0 <= dt r) lap_out.
Proof. apply (process_lap_data_time_ordered lap_chunks "car1" 3), lap_out_Ok. Defined.

Lemma process_lap_data_throttle_bounds_witness :
  Forall (fun r => 0 <= throttle r <= 1) lap_out.
Proof.
  apply (process_lap_data_throttle_bounds lap_chunks "car1" 3); [| apply lap_out_Ok].
  check_channel.
Defined.

Lemma process_lap_data_brake_bounds_witness :
  Forall (fun r => 0 <= brake_pressure r <= 1) lap_out.
Proof.
  apply (process_lap_data_brake_bounds lap_chunks "car1" 3); [| apply lap_out_Ok].
  check_channel.
Defined.

Lemma process_lap_data_distance_monotone_witness :
  sorted_by Laptrigger_lapdist_dls lap_out.
Proof.
  apply (process_lap_data_distance_monotone lap_chunks "car1" 3); [| apply lap_out_Ok].
  check_channel.
Defined.

Lemma process_lap_data_refines_scan_witness :
  let traj := trajectory (M := rational_math) (map timestamp lap_out)
                (map Steering_Angle lap_out) (map speed lap_out) in
  map X lap_out = map pos_x traj /\ map Y lap_out = map pos_y traj
  /\ map Laptrigger_lapdist_dls lap_out = map travelled traj.
Proof. apply (process_lap_data_refines_scan lap_chunks "car1" 3), lap_out_Ok. Defined.

Lemma process_lap_data_origin_witness :
  exists r rest, lap_out = r :: rest
    /\ dt r == 0 /\ X r == 0 /\ Y r == 0 /\ Laptrigger_lapdist_dls r == 0.
Proof.
  eexists. eexists. split; [reflexivity |].
  eapply (process_lap_data_origin (M := rational_math) lap_chunks "car1" 3).
  exact lap_out_Ok.
Defined.

Lemma process_lap_data_step_length_witness :
  exists r1 r2, nth_error lap_out 1 = Some r1 /\ nth_error lap_out 2 = Some r2
  /\ (X r2 - X r1) * (X r2 - X r1) + (Y r2 - Y r1) * (Y r2 - Y r1)
     == (Laptrigger_lapdist_dls r2 - Laptrigger_lapdist_dls r1)
        * (Laptrigger_lapdist_dls r2 - Laptrigger_lapdist_dls r1).
Proof.
  eexists. eexists. split; [reflexivity |]. split; [reflexivity |].
  apply (process_lap_data_step_length (L := rational_math_laws) lap_chunks "car1" 3
           lap_out 1); [apply lap_out_Ok | reflexivity | reflexivity].
Defined.

Lemma process_lap_data_straight_witness :
  Forall (fun r => Y r == 0 /\ X r == Laptrigger_lapdist_dls r) straight_out.
Proof.
  apply (process_lap_data_straight (L := rational_math_laws) straight_chunks "car1" 3);
    [| apply straight_out_Ok].
  check_channel.
Defined.

Lemma process_pivot_ambiguous_throttle_witness :
  process_pivot (M := rational_math)
    (pivot_table [raw_at 0 "ath" 50; raw_at 0 "throttle" (1 # 2); raw_at 1 "speed" 3])
  = Err (ValueError "The truth value of a Series is ambiguous").
Proof. apply process_pivot_ambiguous_throttle; reflexivity. Defined.
