(* ===== verification/Insights.v ===== *)
(** * Insights: src/src/insights.py

    [compute_insights] reduces the per-sample table to one row per
    section, names for every section the metric that weighs most in its
    load, and summarises the lap: the five most and the five least
    loaded sections, the mean and the maximum of the smoothed index, the
    most frequent cause among the sections at or above the 80th
    percentile, and the most and the least stressful section.

    The table that [app.py] passes has every column that the function
    looks for, so the tests [c in df.columns] and [norm_col in row] are
    true and are modelled as such. *)

From Stdlib Require Import String QArith Qround Qminmax Qabs Lqa Lia ZArith Bool.
From Stdlib Require Import List Permutation Sorted SetoidList Morphisms Setoid.
From S2P Require Import Prelude Series Frame.
Import ListNotations.
#[local] Open Scope pipeline_scope.
#[local] Open Scope string_scope.

(** ** The table of sections *)

(** A row of [df_segments] before the cause is added. *)
Record section_row : Type := mkSection {
  s_section_id : Z;
  s_CLI : float;
  s_CLI_smooth : float;
  s_steering_entropy : float;
  s_throttle_jerk : float;
  s_brake_panic : float;
  s_lat_instability : float;
  s_long_jerk : float
}.

(** [groupby('section_id')[cols].first()]: for every column the first
    value of the group that is not NaN. *)
Definition first_of_group (k : Z) (g : list final_row) : section_row :=
  mkSection k (first_known (map f_CLI g)) (first_known (map f_CLI_smooth g))
    (first_known (map f_steering_entropy g)) (first_known (map f_throttle_jerk g))
    (first_known (map f_brake_panic g)) (first_known (map f_lat_instability g))
    (first_known (map f_long_jerk g)).

Definition group_sections (df : list final_row) : list section_row :=
  map (fun kg => first_of_group (fst kg) (snd kg)) (groupby section_id df).

(** ** Normalisation for the comparison *)

Definition metric_list : list string :=
  ["steering_entropy"; "throttle_jerk"; "brake_panic"; "lat_instability"; "long_jerk"].

(** [df_norm[m]] *)
Definition metric_column (m : string) (s : section_row) : float :=
  if m =? "steering_entropy" then s_steering_entropy s
  else if m =? "throttle_jerk" then s_throttle_jerk s
  else if m =? "brake_panic" then s_brake_panic s
  else if m =? "lat_instability" then s_lat_instability s
  else if m =? "long_jerk" then s_long_jerk s
  else None.

(** The column [m_norm]: min-max scaled when the column has a range,
    else the constant 0. *)
Definition normalize_metric (col : list float) : list float :=
  let min_val := series_min col in
  let max_val := series_max col in
  if fgtb (fsub max_val min_val) (Some 0)
  then map (fun x => fdiv (fsub x min_val) (fsub max_val min_val)) col
  else map (fun _ => Some 0) col.

(** The [_norm] entries of a row of [df_norm], by column name. *)
Definition norm_row : Type := list (string * float).

Definition metric_norms (segs : list section_row) : list (string * list float) :=
  map (fun m => (m ++ "_norm", normalize_metric (map (metric_column m) segs))) metric_list.

Definition df_norm (segs : list section_row) : list norm_row :=
  map (fun i => map (fun c => (fst c, nth i (snd c) None)) (metric_norms segs))
      (seq 0 (length segs)).

(** ** Primary cause *)

Fixpoint dict_get {V : Type} (key : string) (d : list (string * V)) : option V :=
  match d with
  | [] => None
  | (k, v) :: d' => if k =? key then Some v else dict_get key d'
  end.

Definition weights : list (string * Q) :=
  [("steering_entropy", 4 # 10); ("throttle_jerk", 3 # 10); ("brake_panic", 2 # 10);
   ("lat_instability", 1 # 10); ("long_jerk", 0)].

(** [weights.get(m, default)] *)
Definition weights_get (m : string) (default : Q) : Q :=
  match dict_get m weights with
  | Some w => w
  | None => default
  end.

(** [row[norm_col] * w] *)
Definition weighted_val (m : string) (v : float) : float :=
  fmul v (Some (weights_get m (1 # 10))).

(** The loop of [get_primary_cause] over the metrics that remain, with
    the running [max_val] and [cause]. *)
Fixpoint cause_loop (ms : list string) (row : norm_row) (max_val : Q) (cause : string)
  : string :=
  match ms with
  | [] => cause
  | m :: ms' =>
      match dict_get (m ++ "_norm") row with
      | Some v =>
          match weighted_val m v with
          | Some wv =>
              if negb (Qle_bool wv max_val) then cause_loop ms' row wv m
              else cause_loop ms' row max_val cause
          | None => cause_loop ms' row max_val cause
          end
      | None => cause_loop ms' row max_val cause
      end
  end.

Definition get_primary_cause (row : norm_row) : string :=
  cause_loop metric_list row (-1) "Unknown".

(** A row of [df_segments] with its ['Primary Cause']. *)
Record section_insight : Type := mkInsight {
  section : section_row;
  Primary_Cause : string
}.

Definition with_causes (segs : list section_row) : list section_insight :=
  map2 (fun s row => mkInsight s (get_primary_cause row)) segs (df_norm segs).

(** ** Ranking and statistics *)

Definition cli_smooth (s : section_insight) : float := s_CLI_smooth (section s).

(** [sort_values(col, ascending=...)] on a float column: NaN last.
    Rows of equal value keep their order. *)
Definition sort_by_float {A : Type} (key : A -> float) (ascending : bool) (l : list A)
  : list A :=
  let value a := match key a with
                 | Some v => if ascending then v else - v
                 | None => 0
                 end in
  sort_values value (filter (fun a => negb (is_nan (key a))) l)
  ++ filter (fun a => is_nan (key a)) l.

Definition head {A : Type} (n : nat) (l : list A) : list A := firstn n l.

(** The value at fractional position [pos] of a sorted column, by
    linear interpolation between its two neighbours. *)
Definition interpolate (v : list Q) (pos : Q) : Q :=
  let lo := Z.to_nat (Qfloor pos) in
  let a := nth lo v 0 in
  let b := nth (Nat.min (S lo) (length v - 1)) v 0 in
  a + (b - a) * (pos - inject_Z (Qfloor pos)).

(** [s.quantile(q)]: the value at position [q * (n - 1)] of the sorted
    values that are not NaN; NaN when there is none. *)
Definition quantile (q : Q) (col : list float) : float :=
  let v := sort_values (fun x => x) (dropna col) in
  match v with
  | [] => None
  | _ :: _ => Some (interpolate v (q * inject_Z (Z.of_nat (length v - 1))))
  end.

Definition string_min (a b : string) : string := if String.leb a b then a else b.

Definition count (l : list string) (y : string) : nat := count_occ string_dec l y.

(** [s.mode()[0]] of a column that is not empty: the smallest of the
    most frequent values. *)
Definition mode0 (x : string) (t : list string) : string :=
  let l := x :: t in
  let best := fold_right Nat.max 0%nat (map (count l) l) in
  let modes := filter (fun y => (count l y =? best)%nat) l in
  fold_right string_min (hd x modes) modes.

Fixpoint find_index {A : Type} (f : A -> bool) (l : list A) : option nat :=
  match l with
  | [] => None
  | a :: t => if f a then Some 0%nat else option_map S (find_index f t)
  end.

(** [s.idxmax()] and [s.idxmin()]: the label of the first row that
    holds the extreme value, NaN skipped. *)
Definition idx_of (extreme : float) (col : list float) : option nat :=
  match extreme with
  | Some _ => find_index (fun x => feqb x extreme) col
  | None => None
  end.

Definition idxmax (col : list float) : option nat := idx_of (series_max col) col.
Definition idxmin (col : list float) : option nat := idx_of (series_min col) col.

(** [df_segments.loc[label]], with the failure of an empty column
    ([ValueError] from the arg-extreme) and of a column of NaN only (the
    label is NaN; [KeyError] from [.loc]). *)
Definition loc_extreme {A : Type} (rows : list A) (col : list float) (idx : option nat)
  (which : string) : result A :=
  match rows with
  | [] => Err (ValueError ("attempt to get " ++ which ++ " of an empty sequence"))
  | _ :: _ =>
      match idx with
      | Some i => match nth_error rows i with
                  | Some r => Ok r
                  | None => Err (KeyError "nan")
                  end
      | None => Err (KeyError "nan")
      end
  end.

(** ** compute_insights *)

Record insights : Type := mkInsights {
  top_5_high : list section_insight;
  top_5_low : list section_insight;
  avg_cli : float;
  max_cli : float;
  common_cause : string;
  max_stress_segment : section_insight;
  min_stress_segment : section_insight;
  df_segments : list section_insight
}.

Definition high_load (segs : list section_insight) : list section_insight :=
  let high_load_threshold := quantile (8 # 10) (map cli_smooth segs) in
  filter (fun s => fgeb (cli_smooth s) high_load_threshold) segs.

Definition most_common_cause (high_load_segments : list section_insight) : string :=
  match map Primary_Cause high_load_segments with
  | [] => "N/A"
  | c :: cs => mode0 c cs
  end.

Definition compute_insights (df : list final_row) : result insights :=
  let segs := with_causes (group_sections df) in
  let top_high := head 5 (sort_by_float cli_smooth false segs) in
  let top_low := head 5 (sort_by_float cli_smooth true segs) in
  let avg := series_mean (map cli_smooth segs) in
  let mx := series_max (map cli_smooth segs) in
  let cause := most_common_cause (high_load segs) in
  max_seg <- loc_extreme segs (map cli_smooth segs) (idxmax (map cli_smooth segs)) "argmax" ;;
  min_seg <- loc_extreme segs (map cli_smooth segs) (idxmin (map cli_smooth segs)) "argmin" ;;
  Ok (mkInsights top_high top_low avg mx cause max_seg min_seg segs).

(** ** Specification of the cause

    The weighted value that the loop compares for a metric, NaN when the
    row has no entry for it or the entry is NaN. *)
Definition wv_of (row : norm_row) (m : string) : float :=
  match dict_get (m ++ "_norm") row with
  | Some v => weighted_val m v
  | None => None
  end.

(** What the loop returns: the cause it started with when no metric
    exceeds the running maximum, else the first metric that holds the
    largest weighted value. *)
Definition loop_result (ms : list string) (row : norm_row) (mx : Q) (c r : string) : Prop :=
  (r = c /\ forall m w, In m ms -> wv_of row m = Some w -> w <= mx)
  \/ exists wv pre post,
       ms = (pre ++ r :: post)%list /\ wv_of row r = Some wv /\ mx < wv
       /\ (forall m w, In m pre -> wv_of row m = Some w -> w < wv)
       /\ (forall m w, In m post -> wv_of row m = Some w -> w <= wv).

(** The norm of metric [m] in row [i]. *)
Definition norm_at (segs : list section_row) (m : string) (i : nat) : float :=
  nth i (normalize_metric (map (metric_column m) segs)) None.

(** ** Specification of the ranking

    The order of the rows after [sort_values] on a float column: by
    value, NaN last. *)
Definition rank_le {A : Type} (key : A -> float) (ascending : bool) (a b : A) : Prop :=
  match key a, key b with
  | Some x, Some y => if ascending then x <= y else y <= x
  | _, None => True
  | None, Some _ => False
  end.

(** * Facts *)

(** ** The loop of the cause *)

Lemma cause_loop_cons (m : string) (ms : list string) (row : norm_row) (mx : Q) (c : string) :
  cause_loop (m :: ms) row mx c
  = match wv_of row m with
    | Some w => if negb (Qle_bool w mx) then cause_loop ms row w m
                else cause_loop ms row mx c
    | None => cause_loop ms row mx c
    end.
Proof. unfold wv_of. simpl. destruct (dict_get _ row); reflexivity. Qed.

Lemma loop_result_skip (m : string) (ms : list string) (row : norm_row) (mx : Q) (c r : string) :
  (forall w, wv_of row m = Some w -> w <= mx) ->
  loop_result ms row mx c r -> loop_result (m :: ms) row mx c r.
Proof.
  intros Hm [[-> H]|(wv & pre & post & -> & Hr & Hlt & Hpre & Hpost)].
  - left. split; [reflexivity |]. intros m' w [<-|Hin]; eauto.
  - right. exists wv, (m :: pre), post. repeat split; auto.
    intros m' w [<-|Hin] Hw; eauto. specialize (Hm w Hw). lra.
Qed.

Lemma loop_result_take (m : string) (ms : list string) (row : norm_row) (mx w : Q)
  (c r : string) :
  wv_of row m = Some w -> mx < w ->
  loop_result ms row w m r -> loop_result (m :: ms) row mx c r.
Proof.
  intros Hw Hlt [[-> H]|(wv & pre & post & -> & Hr & Hlt' & Hpre & Hpost)]; right.
  - exists w, [], ms. repeat split; auto. intros m' w' [].
  - exists wv, (m :: pre), post. repeat split; auto; [lra |].
    intros m' w' [<-|Hin] Hw'; eauto. rewrite Hw in Hw'. injection Hw' as <-. exact Hlt'.
Qed.

Lemma cause_loop_result (ms : list string) (row : norm_row) (mx : Q) (c : string) :
  loop_result ms row mx c (cause_loop ms row mx c).
Proof.
  revert mx c; induction ms as [|m ms IH]; intros mx c.
  - left. split; [reflexivity |]. intros m w [].
  - rewrite cause_loop_cons. destruct (wv_of row m) as [w|] eqn:Hw.
    + destruct (Qle_bool w mx) eqn:E; qbool; simpl.
      * apply loop_result_skip; [| apply IH]. intros w' Hw'. rewrite Hw in Hw'.
        now injection Hw' as <-.
      * eapply loop_result_take; [exact Hw | lra | apply IH].
    + apply loop_result_skip; [| apply IH]. intros w' Hw'. congruence.
Qed.

(** ** The normalised columns *)

Lemma normalize_metric_length (col : list float) :
  length (normalize_metric col) = length col.
Proof. unfold normalize_metric. destruct (fgtb _ _); apply length_map. Qed.

Lemma normalize_metric_unit (col : list float) :
  Forall (fholds in_unit) (normalize_metric col).
Proof.
  unfold normalize_metric.
  destruct (series_min col) as [mn|] eqn:Emn, (series_max col) as [mx|] eqn:Emx; simpl.
  2-4: apply Forall_map_iff, Forall_forall; intros; simpl; unfold in_unit; lra.
  case_qtest; simpl; apply Forall_map_iff, Forall_forall; intros [a|] Ha; simpl; auto;
    unfold in_unit; try lra.
  pose proof (series_min_le _ _ _ Emn Ha). pose proof (series_max_ge _ _ _ Emx Ha).
  destruct (Qeq_bool (mx - mn) 0) eqn:E; qbool; simpl; [lra |].
  split; [apply Qdiv_nonneg | apply Qdiv_le_1]; lra.
Qed.

(** When the column has no range every entry is 0, NaN included. *)
Lemma normalize_metric_constant (col : list float) (c : Q) :
  Forall (fholds (fun x => x == c)) col ->
  normalize_metric col = map (fun _ => Some 0) col.
Proof.
  intros H. unfold normalize_metric.
  destruct (series_min col) as [mn|] eqn:Emn, (series_max col) as [mx|] eqn:Emx;
    simpl; try reflexivity.
  apply series_min_In in Emn. apply series_max_In in Emx.
  rewrite Forall_forall in H. pose proof (H _ Emn) as H1. pose proof (H _ Emx) as H2.
  simpl in H1, H2. case_qtest; simpl; [reflexivity | lra].
Qed.

Lemma df_norm_length (segs : list section_row) : length (df_norm segs) = length segs.
Proof. unfold df_norm. now rewrite length_map, length_seq. Qed.

Lemma df_norm_row (segs : list section_row) (i : nat) (row : norm_row) (m : string) :
  nth_error (df_norm segs) i = Some row -> In m metric_list ->
  wv_of row m = weighted_val m (norm_at segs m i).
Proof.
  unfold df_norm. intros Hrow Hm.
  rewrite nth_error_map in Hrow.
  destruct (nth_error (seq 0 (length segs)) i) as [j|] eqn:Ej; [| discriminate].
  pose proof (nth_error_Some (seq 0 (length segs)) i) as Hlt.
  rewrite Ej in Hlt. assert (Hi : (i < length (seq 0 (length segs)))%nat)
    by (apply Hlt; discriminate).
  rewrite length_seq in Hi. rewrite nth_error_nth' with (d := 0%nat) in Ej
    by now rewrite length_seq.
  rewrite seq_nth in Ej by exact Hi. injection Ej as <-. injection Hrow as <-.
  simpl in Hm. decompose [or] Hm; subst; try contradiction; reflexivity.
Qed.

Lemma norm_at_unit (segs : list section_row) (m : string) (i : nat) :
  fholds in_unit (norm_at segs m i).
Proof.
  unfold norm_at. destruct (nth_error (normalize_metric (map (metric_column m) segs)) i)
    as [x|] eqn:E.
  - rewrite (nth_error_nth _ _ _ E).
    pose proof (normalize_metric_unit (map (metric_column m) segs)) as H.
    rewrite Forall_forall in H. apply H. eapply nth_error_In, E.
  - apply nth_error_None in E. rewrite nth_overflow by exact E. exact I.
Qed.

(** ** The cause of a row of the table *)

Lemma with_causes_nth (segs : list section_row) (i : nat) (s : section_insight) :
  nth_error (with_causes segs) i = Some s ->
  exists row, nth_error segs i = Some (section s) /\ nth_error (df_norm segs) i = Some row
              /\ Primary_Cause s = get_primary_cause row.
Proof.
  intros H. apply nth_error_map2 in H as (sec & row & H1 & H2 & ->). eauto.
Qed.

Lemma with_causes_sections (segs : list section_row) :
  map section (with_causes segs) = segs.
Proof.
  unfold with_causes. pose proof (df_norm_length segs) as Hl.
  revert Hl. generalize (df_norm segs). induction segs as [|s segs IH]; intros [|r rows];
    simpl; try discriminate; [reflexivity |].
  intros [= Hl]. now rewrite IH.
Qed.

Lemma weighted_val_nonneg (m : string) (v : float) :
  In m metric_list -> fholds in_unit v -> fholds (fun w => 0 <= w) (weighted_val m v).
Proof.
  intros Hm Hv. destruct v as [v|]; [| exact I]. simpl in Hv |- *. unfold in_unit in Hv.
  simpl in Hm. decompose [or] Hm; subst; try contradiction;
    unfold weights_get; simpl; apply Qmult_le_0_compat; lra.
Qed.

Lemma weighted_val_long_jerk (v : float) :
  fholds (fun w => w == 0) (weighted_val "long_jerk" v).
Proof. destruct v as [v|]; simpl; [| exact I]. unfold weights_get. simpl. ring. Qed.

Lemma weighted_val_None (m : string) (v : float) : weighted_val m v = None -> v = None.
Proof. destruct v; [discriminate | reflexivity]. Qed.

(** The weighted values of a row of [df_norm] are never negative. *)
Lemma df_norm_row_nonneg (segs : list section_row) (i : nat) (row : norm_row) (m : string)
  (w : Q) :
  nth_error (df_norm segs) i = Some row -> In m metric_list ->
  wv_of row m = Some w -> 0 <= w.
Proof.
  intros Hrow Hm Hw. rewrite (df_norm_row _ _ _ _ Hrow Hm) in Hw.
  pose proof (weighted_val_nonneg m _ Hm (norm_at_unit segs m i)) as H.
  now rewrite Hw in H.
Qed.

Lemma metric_list_split (pre post : list string) (r : string) :
  metric_list = (pre ++ r :: post)%list -> In r metric_list /\ incl pre metric_list.
Proof.
  intros E. rewrite E. split; [apply in_elt | apply incl_appl, incl_refl].
Qed.

Lemma before_long_jerk (pre post : list string) :
  metric_list = (pre ++ "long_jerk" :: post)%list ->
  pre = ["steering_entropy"; "throttle_jerk"; "brake_panic"; "lat_instability"].
Proof.
  unfold metric_list. intros E.
  do 5 (destruct pre as [|? pre]; [simpl in E; injection E; intros; subst;
                                   try discriminate; try reflexivity |]).
  apply (f_equal (@length string)) in E. rewrite length_app in E. simpl in E. lia.
Qed.

Lemma primary_cause_result (row : norm_row) :
  loop_result metric_list row (-1) "Unknown" (get_primary_cause row).
Proof. apply cause_loop_result. Qed.

(** C5: the primary cause of a row is the first metric, in the
    order of the list, that holds the largest weighted value: the
    metrics before it weigh strictly less and those after it weigh no
    more. *)
Theorem get_primary_cause_maximal (row : norm_row) (c : string) :
  get_primary_cause row = c -> c <> "Unknown" ->
  exists wv pre post,
    metric_list = (pre ++ c :: post)%list /\ wv_of row c = Some wv
    /\ (forall m w, In m pre -> wv_of row m = Some w -> w < wv)
    /\ (forall m w, In m post -> wv_of row m = Some w -> w <= wv).
Proof.
  intros <- Hc.
  destruct (primary_cause_result row)
    as [[E _]|(wv & pre & post & E & Hw & _ & Hpre & Hpost)]; [contradiction |].
  exists wv, pre, post. auto.
Qed.

(** In the table of sections the cause is "Unknown" exactly
    for the rows in which the five normalised metrics are all NaN. *)
Theorem primary_cause_unknown_iff (segs : list section_row) (i : nat) (s : section_insight) :
  nth_error (with_causes segs) i = Some s ->
  Primary_Cause s = "Unknown" <-> forall m, In m metric_list -> norm_at segs m i = None.
Proof.
  intros Hs. apply with_causes_nth in Hs as (row & _ & Hrow & ->).
  destruct (primary_cause_result row)
    as [[E H]|(wv & pre & post & E & Hw & Hlt & _)]; split; intros Hu.
  - intros m Hm. apply (weighted_val_None m). rewrite <- (df_norm_row _ _ _ _ Hrow Hm).
    destruct (wv_of row m) as [w|] eqn:Ew; [| reflexivity].
    pose proof (H m w Hm Ew). pose proof (df_norm_row_nonneg _ _ _ _ _ Hrow Hm Ew). lra.
  - exact E.
  - apply metric_list_split in E as [E _]. rewrite Hu in E. simpl in E.
    decompose [or] E; try discriminate; contradiction.
  - apply metric_list_split in E as [E _].
    rewrite (df_norm_row _ _ _ _ Hrow E), (Hu _ E) in Hw. discriminate.
Qed.

(** C30: the weight of long_jerk is zero, so it is the cause of a
    section only when the four other normalised metrics are NaN there;
    the default weight 0.1 of the lookup is never used. *)
Theorem primary_cause_long_jerk (segs : list section_row) (i : nat) (s : section_insight)
  (m : string) :
  nth_error (with_causes segs) i = Some s -> Primary_Cause s = "long_jerk" ->
  In m ["steering_entropy"; "throttle_jerk"; "brake_panic"; "lat_instability"] ->
  norm_at segs m i = None.
Proof.
  intros Hs Hc Hm. apply with_causes_nth in Hs as (row & _ & Hrow & E). rewrite E in Hc.
  destruct (primary_cause_result row) as [[Hu _]|(wv & pre & post & El & Hw & _ & Hpre & _)];
    [congruence |].
  rewrite Hc in El, Hw. apply before_long_jerk in El. subst pre.
  assert (Hin : In m metric_list) by (simpl in Hm |- *; tauto).
  apply (weighted_val_None m). rewrite <- (df_norm_row _ _ _ _ Hrow Hin).
  destruct (wv_of row m) as [w|] eqn:Ew; [| reflexivity].
  pose proof (Hpre m w Hm Ew) as Hlt.
  pose proof (df_norm_row_nonneg _ _ _ _ _ Hrow Hin Ew) as Hge.
  pose proof (weighted_val_long_jerk (norm_at segs "long_jerk" i)) as Hz.
  rewrite <- (df_norm_row _ _ _ "long_jerk" Hrow), Hw in Hz by (simpl; tauto).
  simpl in Hz. lra.
Qed.

(** ** Ranking *)

Section Ranking.
Context {A : Type}.
Variables (key : A -> float) (ascending : bool).

Lemma sort_by_float_perm (l : list A) : Permutation l (sort_by_float key ascending l).
Proof.
  unfold sort_by_float. etransitivity; [| apply Permutation_app_tail, sort_values_perm].
  induction l as [|a l IH]; simpl; [constructor |].
  destruct (is_nan (key a)); simpl; [| now constructor].
  now apply Permutation_cons_app.
Qed.

Lemma sort_by_float_In (l : list A) (a : A) : In a (sort_by_float key ascending l) <-> In a l.
Proof.
  split; apply Permutation_in; [apply Permutation_sym |]; apply sort_by_float_perm.
Qed.

Lemma sort_by_float_sorted (l : list A) :
  StronglySorted (rank_le key ascending) (sort_by_float key ascending l).
Proof.
  unfold sort_by_float. apply StronglySorted_app.
  - eapply StronglySorted_impl_In; [| apply sort_values_sorted].
    intros a b Ha Hb. apply (proj1 (sort_values_In _ _ _)), filter_In in Ha as [_ Ha].
    apply (proj1 (sort_values_In _ _ _)), filter_In in Hb as [_ Hb].
    unfold rank_le. destruct (key a), (key b); try discriminate.
    destruct ascending; simpl; lra.
  - induction l as [|a l IH]; simpl; [constructor |].
    destruct (is_nan (key a)) eqn:E; [| exact IH]. constructor; [exact IH |].
    apply Forall_forall. intros b Hb. apply filter_In in Hb as [_ Hb].
    unfold rank_le. destruct (key a), (key b); try discriminate; exact I.
  - intros a b _ Hb. apply filter_In in Hb as [_ Hb].
    unfold rank_le. destruct (key a), (key b); try discriminate; exact I.
Qed.

(** The rows that [head n] keeps rank before the rows that it leaves. *)
Lemma head_dominates (n : nat) (l : list A) (a b : A) :
  In a (head n (sort_by_float key ascending l)) -> In b l ->
  ~ In b (head n (sort_by_float key ascending l)) -> rank_le key ascending a b.
Proof.
  intros Ha Hb Hnb. apply (StronglySorted_firstn_skipn _ n _ (sort_by_float_sorted l));
    [exact Ha |].
  apply sort_by_float_In in Hb. rewrite <- (firstn_skipn n) in Hb.
  apply in_app_or in Hb as [Hb|Hb]; [contradiction | exact Hb].
Qed.

End Ranking.

(** ** Extremes *)

Lemma find_index_Some {A : Type} (f : A -> bool) (l : list A) (i : nat) :
  find_index f l = Some i -> exists a, nth_error l i = Some a /\ f a = true.
Proof.
  revert i; induction l as [|a l IH]; intros i; simpl; [discriminate |].
  destruct (f a) eqn:E.
  - intros [= <-]. exists a. auto.
  - destruct (find_index f l) as [j|]; [| discriminate]. intros [= <-]. now apply IH.
Qed.

Lemma find_index_In {A : Type} (f : A -> bool) (l : list A) (a : A) :
  In a l -> f a = true -> exists i, find_index f l = Some i.
Proof.
  induction l as [|b l IH]; simpl; [contradiction |]. intros Ha Hf.
  destruct (f b) eqn:E; [eauto |].
  destruct Ha as [->|Ha]; [congruence |]. destruct (IH Ha Hf) as [i ->]. simpl. eauto.
Qed.

Lemma feqb_refl (a : Q) : feqb (Some a) (Some a) = true.
Proof. simpl. apply Qeq_bool_iff. reflexivity. Qed.

(** The row that the label of an extreme value selects. *)
Lemma idx_of_row {A : Type} (rows : list A) (key : A -> float) (e : Q) (which : string) :
  In (Some e) (map key rows) ->
  exists r v, loc_extreme rows (map key rows) (idx_of (Some e) (map key rows)) which = Ok r
              /\ In r rows /\ key r = Some v /\ v == e.
Proof.
  intros He. unfold idx_of, loc_extreme.
  destruct (find_index_In (fun x => feqb x (Some e)) _ _ He (feqb_refl e)) as [i Hi].
  rewrite Hi. apply find_index_Some in Hi as (x & Hx & Hf).
  rewrite nth_error_map in Hx. destruct (nth_error rows i) as [r|] eqn:Er; [| discriminate].
  injection Hx as <-. pose proof (nth_error_In _ _ Er) as Hin.
  exists r. destruct (key r) as [v|] eqn:Ev; [| discriminate]. exists v.
  destruct rows; [contradiction |]. repeat split; [exact Hin | now apply Qeq_bool_iff].
Qed.

Lemma idx_of_nan {A : Type} (rows : list A) (col : list float) (which : string) :
  exists e, loc_extreme rows col (idx_of None col) which = Err e.
Proof. unfold loc_extreme. destruct rows; simpl; eauto. Qed.

(** On a table of sections that is not empty the lookup raises one
    error only. *)
Lemma loc_extreme_Err {A : Type} (rows : list A) (col : list float) (idx : option nat)
  (which : string) (e : pyerror) :
  rows <> [] -> loc_extreme rows col idx which = Err e -> e = KeyError "nan".
Proof.
  unfold loc_extreme. destruct rows; [congruence |]. intros _.
  destruct idx as [i |]; [destruct (nth_error _ i) |]; congruence.
Qed.

Lemma series_max_None (s : list float) : series_max s = None <-> Forall (fun x => x = None) s.
Proof.
  unfold series_max. split.
  - intros H. apply Qmax_list_None in H. apply Forall_forall. intros [a|] Ha; [| reflexivity].
    apply In_dropna in Ha. rewrite H in Ha. contradiction.
  - intros H. replace (dropna s) with (@nil Q); [reflexivity |].
    induction H as [|x s -> _ IH]; simpl; auto.
Qed.

(** ** Quantile and mode *)

Lemma interpolate_bounds (v : list Q) (pos mn mx : Q) :
  (forall i, (i < length v)%nat -> mn <= nth i v 0 <= mx) -> (0 < length v)%nat ->
  0 <= pos <= inject_Z (Z.of_nat (length v - 1)) ->
  mn <= interpolate v pos <= mx.
Proof.
  intros Hmem Hv Hpos. unfold interpolate. cbv zeta.
  assert (Hfl : (0 <= Qfloor pos <= Z.of_nat (length v - 1))%Z).
  { split; [apply Qfloor_nonneg, Hpos |].
    rewrite <- (Qfloor_Z (Z.of_nat (length v - 1))). apply Qfloor_resp_le, Hpos. }
  pose proof (Qfloor_le pos). pose proof (Qlt_floor pos) as Hlt.
  rewrite inject_Z_plus in Hlt. change (inject_Z 1) with 1 in Hlt.
  apply convex_bounds; [apply Hmem; lia | apply Hmem; lia | lra].
Qed.

Lemma quantile_bounds (q : Q) (col : list float) (t : Q) :
  0 <= q <= 1 -> quantile q col = Some t ->
  exists mn mx, series_min col = Some mn /\ series_max col = Some mx /\ mn <= t <= mx.
Proof.
  intros Hq. unfold quantile, series_min, series_max.
  pose proof (sort_values_In (fun x => x) (dropna col)) as Hin.
  pose proof (sort_values_length (fun x => x) (dropna col)) as Hlen.
  set (v := sort_values (fun x => x) (dropna col)) in *.
  destruct v as [|x0 v'] eqn:Ev; [discriminate |]. rewrite <- Ev in *.
  assert (Hv : (0 < length v)%nat) by (rewrite Ev; simpl; lia).
  assert (Hne : dropna col <> []) by (intros E; rewrite E in Hlen; simpl in Hlen; lia).
  destruct (Qmin_list_Some _ Hne) as [mn Hmn], (Qmax_list_Some _ Hne) as [mx Hmx].
  intros [= <-]. exists mn, mx. split; [exact Hmn | split; [exact Hmx |]].
  pose proof (Qmin_list_le _ _ Hmn) as Hlo. pose proof (Qmax_list_ge _ _ Hmx) as Hhi.
  rewrite Forall_forall in Hlo, Hhi.
  assert (Hn1 : 0 <= inject_Z (Z.of_nat (length v - 1))) by (rewrite <- (Zle_Qle 0); lia).
  apply interpolate_bounds; [| exact Hv | split; nra].
  intros i Hi. split; [apply Hlo | apply Hhi]; apply Hin, nth_In, Hi.
Qed.

Lemma string_min_sel (a b : string) : string_min a b = a \/ string_min a b = b.
Proof. unfold string_min. destruct (String.leb a b); auto. Qed.

Lemma mode0_spec (x : string) (t : list string) :
  In (mode0 x t) (x :: t)
  /\ forall y, In y (x :: t) -> (count (x :: t) y <= count (x :: t) (mode0 x t))%nat.
Proof.
  unfold mode0. cbv zeta. set (l := x :: t).
  set (best := fold_right Nat.max 0%nat (map (count l) l)).
  set (modes := filter (fun y => (count l y =? best)%nat) l).
  assert (Hbest : In best (map (count l) l)) by (apply fold_right_max_In; discriminate).
  apply in_map_iff in Hbest as (y0 & Hy0 & Hin0).
  assert (Hm0 : In y0 modes) by (apply filter_In; split; [exact Hin0 | now apply Nat.eqb_eq]).
  assert (Hsel : In (fold_right string_min (hd x modes) modes) modes).
  { destruct (fold_right_select string_min (hd x modes) modes string_min_sel) as [<-|H];
      [| exact H].
    destruct modes; [contradiction | now left]. }
  apply filter_In in Hsel as [Hsel Hc]. apply Nat.eqb_eq in Hc. split; [exact Hsel |].
  intros y Hy. rewrite Hc. apply fold_right_max_ge, in_map, Hy.
Qed.

(** ** compute_insights *)

Lemma compute_insights_Ok_inv (df : list final_row) (ins : insights) :
  compute_insights df = Ok ins ->
  let segs := with_causes (group_sections df) in
  let col := map cli_smooth segs in
  df_segments ins = segs
  /\ top_5_high ins = head 5 (sort_by_float cli_smooth false segs)
  /\ top_5_low ins = head 5 (sort_by_float cli_smooth true segs)
  /\ avg_cli ins = series_mean col /\ max_cli ins = series_max col
  /\ common_cause ins = most_common_cause (high_load segs)
  /\ loc_extreme segs col (idxmax col) "argmax" = Ok (max_stress_segment ins)
  /\ loc_extreme segs col (idxmin col) "argmin" = Ok (min_stress_segment ins).
Proof.
  unfold compute_insights. cbv zeta.
  destruct (loc_extreme _ _ (idxmax _) _) as [mx|] eqn:Emx; [| discriminate].
  destruct (loc_extreme _ _ (idxmin _) _) as [mn|] eqn:Emn; [| discriminate].
  simpl. intros [= <-]. simpl. auto 10.
Qed.

Lemma loc_extreme_Ok {A : Type} (rows : list A) (key : A -> float) (extreme : float)
  (which : string) (r : A) :
  loc_extreme rows (map key rows) (idx_of extreme (map key rows)) which = Ok r ->
  exists e v, extreme = Some e /\ In r rows /\ key r = Some v /\ v == e.
Proof.
  destruct extreme as [e|]; [| destruct (idx_of_nan rows (map key rows) which) as [x ->];
                              discriminate].
  intros H. unfold loc_extreme, idx_of in H. destruct rows as [|r0 rows]; [discriminate |].
  destruct (find_index _ _) as [i|] eqn:Ei; [| discriminate].
  apply find_index_Some in Ei as (x & Hx & Hf).
  destruct (nth_error (r0 :: rows) i) as [r'|] eqn:Er; [| discriminate].
  injection H as <-. rewrite nth_error_map, Er in Hx. injection Hx as <-.
  destruct (key r') as [v|] eqn:Ev; [| discriminate].
  exists e, v. repeat split; [eapply nth_error_In, Er | now apply Qeq_bool_iff].
Qed.

Lemma high_load_nonempty (segs : list section_insight) (s : section_insight) (v mx : Q) :
  In s segs -> cli_smooth s = Some v -> series_max (map cli_smooth segs) = Some mx ->
  v == mx -> In s (high_load segs).
Proof.
  intros Hs Hv Hmx E. unfold high_load. cbv zeta. apply filter_In. split; [exact Hs |].
  rewrite Hv. destruct (quantile _ _) as [t|] eqn:Et.
  - apply quantile_bounds in Et as (mn & mx' & _ & Hmx' & _ & Ht); [| lra].
    simpl. apply Qle_bool_iff. rewrite Hmx in Hmx'. injection Hmx' as <-. lra.
  - unfold quantile in Et. cbv zeta in Et.
    pose proof (sort_values_length (fun x => x) (dropna (map cli_smooth segs))) as Hl.
    destruct (sort_values _ _); [| discriminate]. unfold series_max in Hmx.
    destruct (dropna _); [discriminate | simpl in Hl; lia].
Qed.

(** The table of sections has one row per distinct section
    id, in ascending order of the id. *)
Theorem compute_insights_sections (df : list final_row) (ins : insights) :
  compute_insights df = Ok ins ->
  map (fun s => s_section_id (section s)) (df_segments ins)
  = unique_sorted (map section_id df).
Proof.
  intros H. apply compute_insights_Ok_inv in H as (-> & _).
  rewrite <- (map_map section s_section_id), with_causes_sections.
  unfold group_sections. rewrite map_map. simpl.
  rewrite <- (map_map fst (fun k => k)), map_id. apply groupby_keys.
Qed.

(** The rows of the top five by descending smoothed index rank
    before every row left out, and likewise for the five least loaded by
    ascending index; a NaN index ranks last in both. *)
Theorem compute_insights_top_5 (df : list final_row) (ins : insights) (a b : section_insight) :
  compute_insights df = Ok ins -> In b (df_segments ins) ->
  (In a (top_5_high ins) -> ~ In b (top_5_high ins) -> rank_le cli_smooth false a b)
  /\ (In a (top_5_low ins) -> ~ In b (top_5_low ins) -> rank_le cli_smooth true a b).
Proof.
  intros H Hb. apply compute_insights_Ok_inv in H as (Es & -> & -> & _).
  rewrite Es in Hb. split; intros Ha Hnb; eapply head_dominates; eauto.
Qed.

(** The most stressful section holds the maximum of the
    smoothed index: its index is the reported maximum and no section has
    a larger one. *)
Theorem compute_insights_max_stress (df : list final_row) (ins : insights) :
  compute_insights df = Ok ins ->
  exists v mx, cli_smooth (max_stress_segment ins) = Some v /\ max_cli ins = Some mx
    /\ v == mx /\ In (max_stress_segment ins) (df_segments ins)
    /\ forall s, In s (df_segments ins) -> fholds (fun x => x <= v) (cli_smooth s).
Proof.
  intros H. apply compute_insights_Ok_inv in H as (-> & _ & _ & _ & -> & _ & Hmx & _).
  apply loc_extreme_Ok in Hmx as (mx & v & Emx & Hin & Hv & E).
  exists v, mx. repeat split; auto.
  intros s Hs. destruct (cli_smooth s) as [x|] eqn:Ex; [| exact I]. simpl.
  rewrite E. apply (series_max_ge _ _ _ Emx). rewrite <- Ex. now apply in_map.
Qed.

Lemma compute_insights_Err_iff (df : list final_row) :
  (exists e, compute_insights df = Err e)
  <-> Forall (fun s => cli_smooth s = None) (with_causes (group_sections df)).
Proof.
  unfold compute_insights. cbv zeta. set (segs := with_causes (group_sections df)).
  rewrite <- (Forall_map_iff cli_smooth (fun x => x = None)), <- series_max_None.
  split.
  - destruct (series_max (map cli_smooth segs)) as [mx|] eqn:Emx; [| reflexivity].
    destruct (series_min_max_Some _ _ (series_max_In _ _ Emx)) as (mn & ? & Emn & _).
    destruct (idx_of_row segs cli_smooth mx "argmax" (series_max_In _ _ Emx))
      as (r1 & ? & E1 & _).
    destruct (idx_of_row segs cli_smooth mn "argmin" (series_min_In _ _ Emn))
      as (r2 & ? & E2 & _).
    unfold idxmax, idxmin. rewrite Emx, Emn, E1, E2. simpl. intros [e He]. discriminate.
  - intros Emx. unfold idxmax. rewrite Emx.
    destruct (idx_of_nan segs (map cli_smooth segs) "argmax") as [e ->]. simpl. eauto.
Qed.

Lemma group_sections_nonempty (df : list final_row) : df <> [] -> group_sections df <> [].
Proof.
  destruct df as [| r df]; [congruence |]. intros _ E.
  unfold group_sections, groupby in E. apply map_eq_nil, map_eq_nil in E.
  assert (H : In (section_id r) (unique_sorted (map section_id (r :: df))))
    by (apply unique_sorted_In; now left).
  now rewrite E in H.
Qed.

(** The one error of [compute_insights] on a table that is not empty:
    the label of the extreme is NaN. *)
Lemma compute_insights_Err_nan (df : list final_row) (e : pyerror) :
  df <> [] -> compute_insights df = Err e -> e = KeyError "nan".
Proof.
  intros Hne. unfold compute_insights. cbv zeta.
  assert (Hs : with_causes (group_sections df) <> []).
  { intros E. apply (group_sections_nonempty df Hne).
    now rewrite <- (with_causes_sections (group_sections df)), E. }
  destruct (loc_extreme _ _ (idxmax _) _) eqn:E1; cbn [bind];
    [| intros [= <-]; exact (loc_extreme_Err _ _ _ _ _ Hs E1)].
  destruct (loc_extreme _ _ (idxmin _) _) eqn:E2; cbn [bind]; [discriminate |].
  intros [= <-]. exact (loc_extreme_Err _ _ _ _ _ Hs E2).
Qed.

(** [compute_insights] fails exactly when no section has a
    smoothed index, an empty table included. *)
Theorem compute_insights_fails_iff (df : list final_row) :
  (exists e, compute_insights df = Err e)
  <-> Forall (fun s => cli_smooth s = None) (with_causes (group_sections df)).
Proof. exact (compute_insights_Err_iff df). Qed.

(** C38: whenever [compute_insights] returns, the common cause is
    the cause of a section at or above the 80th percentile, and no cause
    is more frequent among those sections; "N/A" is never reported. *)
Theorem compute_insights_common_cause (df : list final_row) (ins : insights) :
  compute_insights df = Ok ins ->
  let causes := map Primary_Cause (high_load (df_segments ins)) in
  In (common_cause ins) causes
  /\ forall c, In c causes -> (count causes c <= count causes (common_cause ins))%nat.
Proof.
  intros H. apply compute_insights_Ok_inv in H as (-> & _ & _ & _ & _ & -> & Hmx & _).
  apply loc_extreme_Ok in Hmx as (mx & v & Emx & Hin & Hv & E).
  pose proof (high_load_nonempty _ _ _ _ Hin Hv Emx E) as Hne.
  cbv zeta. unfold most_common_cause. apply (in_map Primary_Cause) in Hne.
  destruct (map Primary_Cause _) as [|c cs]; [contradiction |]. apply mode0_spec.
Qed.

(** * A lap of six sections *)

Definition sample0 : seg_row := mkSegRow (mkSample 0 0 0 0 0 0 0 0 0 0 0) 0.

Definition final_at (k : Z) (cli smooth se tj bp li lj : float) : final_row :=
  mkFinal sample0 k cli smooth se tj bp li lj.

(** Section 0 has two samples and no lateral instability. *)
Definition final6 : list final_row :=
  [ final_at 0 (Some (1 # 10)) (Some (2 # 10)) (Some 1) (Some (5 # 10)) (Some 0) None (Some 3);
    final_at 0 (Some (1 # 10)) (Some (2 # 10)) (Some 1) (Some (5 # 10)) (Some 0) None (Some 3);
    final_at 1 (Some (5 # 10)) (Some (4 # 10)) (Some 2) (Some (1 # 10)) (Some 0) (Some 1) (Some 1);
    final_at 2 (Some (3 # 10)) (Some (4 # 10)) (Some (15 # 10)) (Some (9 # 10)) (Some 0) (Some 2)
               (Some 9);
    final_at 3 (Some (3 # 10)) (Some (35 # 100)) (Some 1) (Some (1 # 10)) (Some 0) (Some 2)
               (Some 9);
    final_at 4 (Some (1 # 10)) (Some (1 # 10)) (Some 1) (Some (2 # 10)) (Some 0) (Some 1)
               (Some 2);
    final_at 5 (Some (7 # 10)) (Some (6 # 10)) (Some 2) (Some (8 # 10)) (Some 0) (Some 2)
               (Some 5) ].

(** Three sections of which the first has a value for long_jerk only. *)
Definition sections_long_jerk : list section_row :=
  [ mkSection 0 None None None None None None (Some 1);
    mkSection 1 None None (Some 1) (Some 1) (Some 1) (Some 1) (Some 2);
    mkSection 2 None None (Some 2) (Some 2) (Some 2) (Some 2) (Some 3) ].

Definition no_section : section_insight :=
  mkInsight (mkSection 0 None None None None None None None) "".

Definition insights6 : insights :=
  Eval vm_compute in
    match compute_insights final6 with
    | Ok ins => ins
    | Err _ => mkInsights [] [] None None "" no_section no_section []
    end.

Lemma insights6_Ok : compute_insights final6 = Ok insights6.
Proof. vm_compute. reflexivity. Qed.

Lemma get_primary_cause_maximal_witness :
  let row := nth 3 (df_norm (group_sections final6)) [] in
  exists wv pre post,
    metric_list = (pre ++ "lat_instability" :: post)%list
    /\ wv_of row "lat_instability" = Some wv
    /\ (forall m w, In m pre -> wv_of row m = Some w -> w < wv)
    /\ (forall m w, In m post -> wv_of row m = Some w -> w <= wv).
Proof.
  apply get_primary_cause_maximal; [vm_compute; reflexivity | discriminate].
Defined.

Lemma primary_cause_unknown_iff_witness :
  Primary_Cause (nth 0 (with_causes (group_sections final6)) no_section) = "Unknown"
  <-> forall m, In m metric_list -> norm_at (group_sections final6) m 0 = None.
Proof. apply primary_cause_unknown_iff. reflexivity. Defined.

Lemma primary_cause_long_jerk_witness :
  norm_at sections_long_jerk "throttle_jerk" 0 = None.
Proof.
  eapply (primary_cause_long_jerk sections_long_jerk 0);
    [reflexivity | vm_compute; reflexivity | simpl; tauto].
Defined.

Lemma compute_insights_sections_witness :
  map (fun s => s_section_id (section s)) (df_segments insights6)
  = unique_sorted (map section_id final6).
Proof. apply compute_insights_sections, insights6_Ok. Defined.

(** Section 5 is in both top fives of the six sections; section 4 is
    left out of the five most loaded and section 5 of the five least. *)
Lemma compute_insights_top_5_witness :
  rank_le cli_smooth false (nth 5 (df_segments insights6) no_section)
                           (nth 4 (df_segments insights6) no_section)
  /\ rank_le cli_smooth true (nth 4 (df_segments insights6) no_section)
                             (nth 5 (df_segments insights6) no_section).
Proof.
  split.
  - apply (compute_insights_top_5 final6 insights6 _ _ insights6_Ok);
      [simpl; tauto | simpl; tauto |].
    simpl. intros H. decompose [or] H; try discriminate; contradiction.
  - apply (compute_insights_top_5 final6 insights6 _ _ insights6_Ok);
      [simpl; tauto | simpl; tauto |].
    simpl. intros H. decompose [or] H; try discriminate; contradiction.
Defined.

Lemma compute_insights_max_stress_witness :
  exists v mx, cli_smooth (max_stress_segment insights6) = Some v
    /\ max_cli insights6 = Some mx /\ v == mx
    /\ In (max_stress_segment insights6) (df_segments insights6)
    /\ forall s, In s (df_segments insights6) -> fholds (fun x => x <= v) (cli_smooth s).
Proof. apply (compute_insights_max_stress final6), insights6_Ok. Defined.

Lemma compute_insights_common_cause_witness :
  let causes := map Primary_Cause (high_load (df_segments insights6)) in
  In (common_cause insights6) causes
  /\ forall c, In c causes -> (count causes c <= count causes (common_cause insights6))%nat.
Proof. apply (compute_insights_common_cause final6), insights6_Ok. Defined.
