(* ===== verification/TrackMap.v ===== *)
(** * TrackMap: src/src/track_map.py

    [plot_track_map] turns the positions of the merged table into the
    polyline that is drawn: it smooths both coordinates with a centred
    rolling mean, moves the path to the origin, rotates it by 30 degrees,
    scales each coordinate by its maximum and stretches the second one;
    it then places a label every tenth of the table and marks the three
    rows of largest smoothed index.

    The figure is modelled by what is drawn: the line segments with their
    colour values, the labels and the marks.  Colours, fonts and axes are
    not modelled. *)

From Stdlib Require Import String QArith Qround Qminmax Qabs Lqa Lia ZArith Bool.
From Stdlib Require Import List Permutation Sorted SetoidList Morphisms Setoid.
From S2P Require Import Prelude MathLib Series Frame.
Import ListNotations.
#[local] Open Scope pipeline_scope.
#[local] Open Scope string_scope.

(** ** Columns of the table *)

(** [process_lap_data] copies X and Y into these two columns. *)
Definition longitude (r : final_row) : Q := X (row (f_sample r)).
Definition latitude (r : final_row) : Q := Y (row (f_sample r)).

(** ** numpy reductions *)

Definition np_min (a : list Q) : result Q :=
  match Qmin_list a with
  | Some m => Ok m
  | None => Err (ValueError
                   "zero-size array to reduction operation minimum which has no identity")
  end.

Definition np_max (a : list Q) : result Q :=
  match Qmax_list a with
  | Some m => Ok m
  | None => Err (ValueError
                   "zero-size array to reduction operation maximum which has no identity")
  end.

(** [range(start, stop, step)] for a step that is not negative. *)
Definition python_range (start stop step : nat) : result (list nat) :=
  if (step =? 0)%nat then Err (ValueError "range() arg 3 must not be zero")
  else Ok (map (fun k => (start + k * step)%nat)
               (seq 0 ((stop - start + step - 1) / step))).

(** ** The coordinates of the path *)

Definition window_size : nat := 20.

(** [raw.rolling(window, center=True).mean().bfill().ffill().values] *)
Definition smooth (raw : list Q) : list float :=
  ffill (bfill (rolling_mean window_size window_size (map Some raw))).

(** The smoothed column when the table is longer than the window, the
    raw column otherwise. *)
Definition smoothed (n : nat) (raw : list Q) : list Q :=
  if (window_size <? n)%nat then fillna 0 (smooth raw) else raw.

(** [a - a.min()] *)
Definition shift_to_origin (a : list Q) : result (list Q) :=
  mn <- np_min a ;;
  Ok (map (fun v => v - mn) a).

(** [if a.max() != 0: a = a / a.max()] *)
Definition scale (a : list Q) : result (list Q) :=
  mx <- np_max a ;;
  Ok (if Qeq_bool mx 0 then a else map (fun v => v / mx) a).

Definition stretch (a : list Q) : list Q := map (fun v => v * (13 # 10)) a.

Section TrackMap.
Context {M : MathLib}.

Definition theta : Q := np_radians 30.

Definition rotate_x (x y : list Q) : list Q :=
  map2 (fun a b => a * np_cos theta - b * np_sin theta) x y.

Definition rotate_y (x y : list Q) : list Q :=
  map2 (fun a b => a * np_sin theta + b * np_cos theta) x y.

(** Lines 18 to 50: the two coordinate arrays that are drawn. *)
Definition coordinates (df : list final_row) : result (list Q * list Q) :=
  let x := smoothed (length df) (map longitude df) in
  let y := smoothed (length df) (map latitude df) in
  x <- shift_to_origin x ;;
  y <- shift_to_origin y ;;
  let x_rot := rotate_x x y in
  let y_rot := rotate_y x y in
  x_rot <- scale x_rot ;;
  y_rot <- scale y_rot ;;
  Ok (x_rot, stretch y_rot).

(** ** What is drawn *)

Definition point : Type := (Q * Q)%type.

(** [np.concatenate([points[:-1], points[1:]], axis=1)]: the segments
    between consecutive points. *)
Definition line_segments (points : list point) : list (point * point) :=
  combine (removelast points) (tl points).

(** The label of a section: its place and its text. *)
Record marker : Type := mkMarker {
  marker_at : point;
  marker_text : Z
}.

(** The labels at every tenth of the table. *)
Definition section_markers (df : list final_row) (x y : list Q) : result (list marker) :=
  idx <- python_range 0 (length df) (length df / 10) ;;
  Ok (flat_map (fun i => match nth_error df i with
                         | Some r => [mkMarker (nth i x 0, nth i y 0) (section_id r)]
                         | None => []
                         end) idx).

(** [s.nlargest(n)]: the labels and values of the [n] largest values that
    are not NaN, largest first, the earlier row first among equals. *)
Definition nlargest (n : nat) (s : list float) : list (nat * Q) :=
  firstn n
    (sort_values (fun p => - snd p)
       (flat_map (fun p => match snd p with
                           | Some v => [(fst p, v)]
                           | None => []
                           end)
                 (combine (seq 0 (length s)) s))).

(** The rows of a column that hold a number, with their labels:
    what [nlargest] sorts. *)
Definition numbered (s : list float) : list (nat * Q) :=
  flat_map (fun p => match snd p with
                     | Some v => [(fst p, v)]
                     | None => []
                     end)
           (combine (seq 0 (length s)) s).

(** The entry carries the value [m]. *)
Definition carries (m : Q) (p : nat * Q) : bool := Qeq_bool (snd p) m.

(** A mark on one of the three most loaded rows. *)
Record highlight : Type := mkHighlight {
  rank : nat;
  value : Q;
  mark_at : point
}.

Definition highlights (df : list final_row) (x y : list Q) : list highlight :=
  flat_map (fun rp => let '(rank, (idx, val)) := rp in
                      if (idx <? length x)%nat
                      then [mkHighlight rank val (nth idx x 0, nth idx y 0)]
                      else [])
           (combine (seq 1 3) (nlargest 3 (map f_CLI_smooth df))).

(** The mark of a row of [nlargest] with its rank. *)
Definition mark_of (x y : list Q) (rp : nat * (nat * Q)) : highlight :=
  mkHighlight (fst rp) (snd (snd rp)) (nth (fst (snd rp)) x 0, nth (fst (snd rp)) y 0).

Record figure : Type := mkFigure {
  segments : list (point * point);
  colours : list float;
  markers : list marker;
  marks : list highlight
}.

Definition plot_track_map (df : list final_row) : result figure :=
  xy <- coordinates df ;;
  let '(x, y) := xy in
  ms <- section_markers df x y ;;
  Ok (mkFigure (line_segments (combine x y)) (removelast (map f_CLI_smooth df)) ms
               (highlights df x y)).

End TrackMap.

(** * Facts *)

(** ** Smoothing *)

Lemma rolling_mean_full_window (raw : list Q) :
  (window_size <= length raw)%nat ->
  Exists known (rolling_mean window_size window_size (map Some raw)).
Proof.
  intros Hn. unfold window_size in *.
  assert (Hi : (10 < length (map Some raw))%nat) by (rewrite length_map; lia).
  pose proof (rolling_mean_nth 20 20 10 (map Some raw) Hi) as H.
  apply nth_error_In in H. apply Exists_exists. eexists. split; [exact H |].
  cbv zeta. rewrite window_map, dropna_map_Some.
  assert (Hw : length (window 20 10 raw) = 20%nat).
  { change (window 20 10 raw) with (firstn 20 raw). rewrite length_firstn. lia. }
  rewrite Hw. simpl. destruct (window 20 10 raw); [discriminate | apply known_Some].
Qed.

Lemma smooth_length (raw : list Q) : length (smooth raw) = length raw.
Proof.
  unfold smooth. now rewrite ffill_length, bfill_length, rolling_mean_length, length_map.
Qed.

Lemma smoothed_length (n : nat) (raw : list Q) : length (smoothed n raw) = length raw.
Proof.
  unfold smoothed, fillna. destruct (window_size <? n)%nat; [| reflexivity].
  now rewrite length_map, smooth_length.
Qed.

(** ** Reductions, shift and scale *)

Lemma np_min_Ok (a : list Q) : a <> [] -> exists m, np_min a = Ok m /\ Qmin_list a = Some m.
Proof. intros H. unfold np_min. destruct (Qmin_list_Some a H) as [m ->]. eauto. Qed.

Lemma np_max_Ok (a : list Q) : a <> [] -> exists m, np_max a = Ok m /\ Qmax_list a = Some m.
Proof. intros H. unfold np_max. destruct (Qmax_list_Some a H) as [m ->]. eauto. Qed.

Lemma shift_to_origin_Ok (a : list Q) :
  a <> [] ->
  exists s, shift_to_origin a = Ok s /\ length s = length a /\ Forall (fun v => 0 <= v) s.
Proof.
  intros H. unfold shift_to_origin. destruct (np_min_Ok a H) as (m & -> & Hm). simpl.
  eexists. split; [reflexivity |]. split; [apply length_map |].
  apply Forall_map_iff. eapply Forall_impl; [| apply (Qmin_list_le _ _ Hm)].
  intros v Hv. simpl in Hv. lra.
Qed.

Lemma scale_Ok (a : list Q) :
  a <> [] -> exists s, scale a = Ok s /\ length s = length a.
Proof.
  intros H. unfold scale. destruct (np_max_Ok a H) as (m & -> & _). simpl.
  eexists. split; [reflexivity |]. destruct (Qeq_bool m 0); [reflexivity | apply length_map].
Qed.

(** A column without negative values is scaled into the unit interval. *)
Lemma scale_unit (a s : list Q) :
  Forall (fun v => 0 <= v) a -> scale a = Ok s -> Forall (fun v => 0 <= v <= 1) s.
Proof.
  intros Ha. unfold scale, np_max. destruct (Qmax_list a) as [m|] eqn:Em; [| discriminate].
  simpl. intros [= <-]. pose proof (Qmax_list_ge _ _ Em) as Hm.
  rewrite Forall_forall in Ha, Hm. case_qtest; apply Forall_forall.
  - intros v Hv. specialize (Ha v Hv). specialize (Hm v Hv). lra.
  - intros w Hw. apply in_map_iff in Hw as (v & <- & Hv).
    pose proof (Ha _ (Qmax_list_In _ _ Em)) as H0.
    specialize (Ha v Hv). specialize (Hm v Hv).
    split; [apply Qdiv_nonneg | apply Qdiv_le_1]; lra.
Qed.

Lemma length_nonempty {A : Type} (l : list A) : (0 < length l)%nat -> l <> [].
Proof. destruct l; simpl; [lia | discriminate]. Qed.

(** ** Ranges *)

Lemma python_range_zero (start stop : nat) :
  python_range start stop 0 = Err (ValueError "range() arg 3 must not be zero").
Proof. reflexivity. Qed.

Lemma python_range_Ok (start stop step : nat) :
  (0 < step)%nat -> exists idx, python_range start stop step = Ok idx.
Proof. intros H. unfold python_range. destruct step; [lia | simpl; eauto]. Qed.

(** ** Rotation and the whole transform *)

(** ** The largest values of a column *)

Lemma nlargest_numbered (n : nat) (s : list float) :
  nlargest n s = firstn n (sort_values (fun p => - snd p) (numbered s)).
Proof. reflexivity. Qed.

Section Known.
Variable m : Q.

Lemma numbered_from (s : list float) (i : nat) :
  flat_map (fun p => match snd p with
                     | Some v => [(fst p, v)]
                     | None => []
                     end)
           (combine (seq i (length s)) s)
  = map (fun p => (i + fst p, snd p)%nat) (numbered s).
Proof.
  unfold numbered. revert i. induction s as [|x s IH]; intros i; [reflexivity |].
  cbn [length seq combine flat_map]. rewrite (IH (S i)), (IH 1%nat), map_app, map_map.
  f_equal.
  - destruct x; simpl; [now rewrite Nat.add_0_r | reflexivity].
  - apply map_ext. intros [j v]. simpl. f_equal. lia.
Qed.

Lemma numbered_cons (x : float) (s : list float) :
  numbered (x :: s)
  = (match x with Some v => [(0%nat, v)] | None => [] end
     ++ map (fun p => (S (fst p), snd p)) (numbered s))%list.
Proof.
  unfold numbered at 1. cbn [length seq combine flat_map snd fst]. now rewrite (numbered_from s 1).
Qed.

(** Every entry is a row of the column. *)
Lemma numbered_nth (s : list float) (p : nat * Q) :
  In p (numbered s) -> nth_error s (fst p) = Some (Some (snd p)).
Proof.
  revert p. induction s as [|x s IH]; intros p; [intros [] |].
  rewrite numbered_cons. intros H. apply in_app_or in H as [H|H].
  - destruct x; [destruct H as [<-|[]]; reflexivity | destruct H].
  - apply in_map_iff in H as (q & <- & Hq). exact (IH q Hq).
Qed.

(** The rows that hold [m] are as many as the entries that do. *)
Lemma numbered_count (s : list float) :
  length (filter (carries m) (numbered s)) = length (filter (fun x => feqb x (Some m)) s).
Proof.
  induction s as [|x s IH]; [reflexivity |].
  rewrite numbered_cons, filter_app, length_app. cbn [filter].
  assert (E : length (filter (carries m) (map (fun p => (S (fst p), snd p)) (numbered s)))
              = length (filter (carries m) (numbered s))).
  { generalize (numbered s). intros l. induction l as [|[j v] l IHl]; [reflexivity |].
    cbn [map filter fst snd]. change (carries m (S j, v)) with (carries m (j, v)).
    destruct (carries m (j, v)); cbn [length]; now rewrite IHl. }
  rewrite E, IH. destruct x as [v|]; cbn [feqb filter]; [| reflexivity].
  unfold carries. cbn [snd]. destruct (Qeq_bool v m); reflexivity.
Qed.

End Known.

(** Of a list in descending order with [n] entries that hold its
    largest value, the first [n] entries hold it. *)
Lemma sorted_top (m : Q) (n : nat) (l : list (nat * Q)) :
  sorted_by (fun p => - snd p) l -> Forall (fun p => snd p <= m) l ->
  (n <= length (filter (carries m) l))%nat ->
  length (firstn n l) = n /\ Forall (fun p => snd p == m) (firstn n l).
Proof.
  intros Hs Hle Hn. pose proof (filter_length_le (carries m) l) as Hl. split.
  - rewrite length_firstn. lia.
  - apply Forall_forall. intros p Hp. destruct (Qeq_dec (snd p) m) as [E|E]; [exact E |].
    exfalso. rewrite Forall_forall in Hle.
    assert (Hlt : snd p < m).
    { pose proof (Hle p (In_firstn _ _ _ Hp)). apply Qle_lteq in H as [H|H]; tauto. }
    assert (Hrest : filter (carries m) (skipn n l) = []).
    { apply filter_none. intros q Hq. unfold carries.
      pose proof (StronglySorted_firstn_skipn _ n l Hs p q Hp Hq) as H. simpl in H.
      destruct (Qeq_bool (snd q) m) eqn:B; [| reflexivity]. qbool. lra. }
    rewrite <- (firstn_skipn n l), filter_app, Hrest, app_nil_r in Hn.
    assert (Hf : carries m p = false).
    { unfold carries. destruct (Qeq_bool (snd p) m) eqn:B; [| reflexivity]. qbool. contradiction. }
    pose proof (filter_length_lt (carries m) _ p Hp Hf) as H.
    rewrite length_firstn in H. lia.
Qed.

(** [nlargest]: when [n] rows or more hold the largest value of the
    column, the [n] largest are rows that hold it. *)
Lemma nlargest_top (n : nat) (s : list float) (m : Q) :
  Forall (fholds (fun v => v <= m)) s ->
  (n <= length (filter (fun x => feqb x (Some m)) s))%nat ->
  length (nlargest n s) = n
  /\ Forall (fun p => snd p == m /\ nth_error s (fst p) = Some (Some (snd p))) (nlargest n s).
Proof.
  intros Hle Hn. rewrite nlargest_numbered. rewrite <- (numbered_count m) in Hn.
  assert (Hk : forall p, In p (sort_values (fun p => - snd p) (numbered s)) -> In p (numbered s))
    by (intros p; apply sort_values_In).
  destruct (sorted_top m n (sort_values (fun p => - snd p) (numbered s))) as [Hlen Hall].
  - apply sort_values_sorted.
  - apply Forall_forall. intros p Hp. apply Hk, numbered_nth in Hp.
    rewrite Forall_forall in Hle. exact (Hle _ (nth_error_In _ _ Hp)).
  - rewrite <- (Permutation_length
                  (Permutation_filter (carries m) _ _ (sort_values_perm (fun p => - snd p) (numbered s)))).
    exact Hn.
  - split; [exact Hlen |]. apply Forall_forall. intros p Hp. rewrite Forall_forall in Hall.
    split; [exact (Hall p Hp) | apply numbered_nth, Hk, (In_firstn n), Hp].
Qed.

Lemma nlargest_labels (n : nat) (s : list float) (p : nat * Q) :
  In p (nlargest n s) -> nth_error s (fst p) = Some (Some (snd p)).
Proof.
  rewrite nlargest_numbered. intros H. apply In_firstn, sort_values_In in H.
  now apply numbered_nth.
Qed.

Section TrackMapFacts.
Context {M : MathLib}.

Lemma rotate_x_length (x y : list Q) : length y = length x -> length (rotate_x x y) = length x.
Proof. apply map2_length. Qed.

Lemma rotate_y_length (x y : list Q) : length y = length x -> length (rotate_y x y) = length x.
Proof. apply map2_length. Qed.

(** The steps of [coordinates] on a table that is not empty. *)
Lemma coordinates_Ok_inv (df : list final_row) (xs ys : list Q) :
  coordinates df = Ok (xs, ys) ->
  exists x y y_rot,
    shift_to_origin (smoothed (length df) (map longitude df)) = Ok x
    /\ shift_to_origin (smoothed (length df) (map latitude df)) = Ok y
    /\ scale (rotate_x x y) = Ok xs /\ scale (rotate_y x y) = Ok y_rot
    /\ ys = stretch y_rot.
Proof.
  unfold coordinates. cbv zeta. intros H.
  apply bind_Ok in H as (x & Hx & H). apply bind_Ok in H as (y & Hy & H).
  apply bind_Ok in H as (xr & Hxr & H). apply bind_Ok in H as (yr & Hyr & [= <- <-]).
  exists x, y, yr. auto.
Qed.

Lemma coordinates_Ok (df : list final_row) :
  df <> [] ->
  exists xs ys, coordinates df = Ok (xs, ys)
                /\ length xs = length df /\ length ys = length df.
Proof.
  intros Hne. unfold coordinates. cbv zeta.
  assert (Hn : (0 < length df)%nat) by (destruct df; [congruence | simpl; lia]).
  destruct (shift_to_origin_Ok (smoothed (length df) (map longitude df)))
    as (x & -> & Hx & _); [apply length_nonempty; now rewrite smoothed_length, length_map |].
  destruct (shift_to_origin_Ok (smoothed (length df) (map latitude df)))
    as (y & -> & Hy & _); [apply length_nonempty; now rewrite smoothed_length, length_map |].
  rewrite smoothed_length, length_map in Hx, Hy. simpl.
  destruct (scale_Ok (rotate_x x y)) as (xs & -> & Hxs);
    [apply length_nonempty; rewrite rotate_x_length; lia |].
  destruct (scale_Ok (rotate_y x y)) as (ys & -> & Hys);
    [apply length_nonempty; rewrite rotate_y_length; lia |].
  rewrite rotate_x_length in Hxs by lia. rewrite rotate_y_length in Hys by lia. simpl.
  eexists. eexists. split; [reflexivity |]. unfold stretch. rewrite length_map. lia.
Qed.

Lemma highlights_length (df : list final_row) (x y : list Q) :
  (length (highlights df x y) <= 3)%nat.
Proof.
  unfold highlights.
  assert (H : (length (combine (seq 1 3) (nlargest 3 (map f_CLI_smooth df))) <= 3)%nat)
    by (rewrite length_combine, length_seq; lia).
  etransitivity; [| exact H]. clear H.
  generalize (combine (seq 1 3) (nlargest 3 (map f_CLI_smooth df))).
  intros l. induction l as [|[r [i v]] l IH]; simpl; [lia |].
  destruct (i <? length x)%nat; simpl; lia.
Qed.

(** The test [idx < len(x)] of the loop over the marks never fails:
    every row of [nlargest] is marked. *)
Lemma highlights_all (df : list final_row) (x y : list Q) :
  length x = length df ->
  highlights df x y
  = map (mark_of x y) (combine (seq 1 3) (nlargest 3 (map f_CLI_smooth df))).
Proof.
  intros Hx. unfold highlights.
  rewrite <- (flat_map_guard (fun rp => (fst (snd rp) <? length x)%nat) (mark_of x y)).
  - apply flat_map_ext. intros [r [i v]]. reflexivity.
  - intros [r [i v]] H. apply in_combine_r, nlargest_labels in H. cbn [fst snd] in *.
    apply Nat.ltb_lt. rewrite Hx, <- (length_map f_CLI_smooth). apply nth_error_Some.
    now rewrite H.
Qed.

Lemma plot_track_map_marks (df : list final_row) (fig : figure) :
  plot_track_map df = Ok fig ->
  exists x y, length x = length df /\ marks fig = highlights df x y.
Proof.
  unfold plot_track_map. intros H. apply bind_Ok in H as ([x y] & Hxy & H).
  apply bind_Ok in H as (ms & _ & [= <-]). exists x, y. split; [| reflexivity].
  destruct df as [|f df]; [discriminate Hxy |].
  destruct (coordinates_Ok (f :: df)) as (xs & ys & E & Hl & _); [discriminate |].
  rewrite E in Hxy. now injection Hxy as <- <-.
Qed.

Context {L : MathLibLaws M}.

Lemma theta_range : 0 <= theta <= np_pi / 2.
Proof.
  pose proof np_pi_pos as Hpi. unfold theta, np_radians.
  set (p := np_pi) in *. clearbody p.
  setoid_replace (30 * p / 180) with (p / 6) by field. split.
  - apply Qle_shift_div_l; [reflexivity | lra].
  - apply Qle_shift_div_r; [reflexivity |].
    setoid_replace (p / 2 * 6) with (3 * p) by field. lra.
Qed.

Lemma half_pi_bounds : 0 < np_pi / 2 <= np_pi.
Proof.
  pose proof np_pi_pos as Hpi. set (p := np_pi) in *. clearbody p. split.
  - apply Qlt_shift_div_l; [reflexivity | lra].
  - apply Qle_shift_div_r; [reflexivity | lra].
Qed.

Lemma cos_theta_nonneg : 0 <= np_cos theta.
Proof.
  pose proof theta_range as Ht. pose proof half_pi_bounds as Hp. apply np_cos_nonneg.
  set (h := np_pi / 2) in *. clearbody h. lra.
Qed.

Lemma sin_theta_nonneg : 0 <= np_sin theta.
Proof.
  pose proof theta_range as Ht. pose proof half_pi_bounds as Hp. apply np_sin_nonneg.
  set (h := np_pi / 2) in *. clearbody h. lra.
Qed.

(** The rotation keeps the distance between two points. *)
Lemma rotation_isometry (a b c d : Q) :
  let rx u v := u * np_cos theta - v * np_sin theta in
  let ry u v := u * np_sin theta + v * np_cos theta in
  (rx a b - rx c d) * (rx a b - rx c d) + (ry a b - ry c d) * (ry a b - ry c d)
  == (a - c) * (a - c) + (b - d) * (b - d).
Proof.
  cbv zeta. pose proof (np_cos_sin theta) as H.
  set (co := np_cos theta) in *. set (si := np_sin theta) in *. clearbody co si.
  transitivity (((a - c) * (a - c) + (b - d) * (b - d)) * (co * co + si * si)); [ring |].
  rewrite H. ring.
Qed.

Lemma rotate_y_nonneg (x y : list Q) :
  Forall (fun v => 0 <= v) x -> Forall (fun v => 0 <= v) y ->
  Forall (fun v => 0 <= v) (rotate_y x y).
Proof.
  pose proof cos_theta_nonneg. pose proof sin_theta_nonneg.
  apply map2_Forall. intros a b Ha Hb. nra.
Qed.

End TrackMapFacts.

(** On a table longer than the window the smoothing leaves no
    NaN: the window of 20 is full somewhere and the backward then forward
    fill holds its mean to both ends. *)
Theorem smooth_complete (raw : list Q) :
  (window_size < length raw)%nat -> Forall known (smooth raw).
Proof.
  intros H. apply ffill_bfill_known, rolling_mean_full_window. lia.
Qed.

(** The second coordinate of every point that is drawn lies
    between 0 and 1.3. *)
Theorem coordinates_y_range {M : MathLib} {L : MathLibLaws M} (df : list final_row)
  (xs ys : list Q) :
  coordinates df = Ok (xs, ys) -> Forall (fun v => 0 <= v <= 13 # 10) ys.
Proof.
  intros H. apply coordinates_Ok_inv in H as (x & y & yr & Hx & Hy & _ & Hyr & ->).
  assert (Hpos : forall a s, shift_to_origin a = Ok s -> Forall (fun v => 0 <= v) s).
  { intros a s Hs. destruct a as [|v a]; [discriminate |].
    destruct (shift_to_origin_Ok (v :: a)) as (s' & Hs' & _ & Hf); [discriminate |].
    congruence. }
  apply Forall_map_iff.
  eapply Forall_impl; [| apply (scale_unit _ _ (rotate_y_nonneg x y (Hpos _ _ Hx) (Hpos _ _ Hy)) Hyr)].
  intros v Hv. simpl in Hv. lra.
Qed.

(** C40: on a table of fewer than ten rows that is not empty the
    step of the label loop is zero and [plot_track_map] raises a
    ValueError. *)
Theorem plot_track_map_short_table {M : MathLib} (df : list final_row) :
  (0 < length df < 10)%nat ->
  plot_track_map df = Err (ValueError "range() arg 3 must not be zero").
Proof.
  intros [H0 H10]. unfold plot_track_map.
  destruct (coordinates_Ok df (length_nonempty df H0)) as (xs & ys & -> & _). simpl.
  unfold section_markers. rewrite Nat.div_small by exact H10. reflexivity.
Qed.

(** On a table of ten rows or more [plot_track_map] returns a
    figure: one line segment and one colour value per pair of consecutive
    rows, and at most three marks. *)
Theorem plot_track_map_total {M : MathLib} (df : list final_row) :
  (10 <= length df)%nat ->
  exists fig, plot_track_map df = Ok fig
              /\ length (segments fig) = (length df - 1)%nat
              /\ length (colours fig) = (length df - 1)%nat
              /\ (length (marks fig) <= 3)%nat.
Proof.
  intros Hn. unfold plot_track_map.
  destruct (coordinates_Ok df) as (xs & ys & -> & Hx & Hy); [apply length_nonempty; lia |].
  simpl. unfold section_markers.
  destruct (python_range_Ok 0 (length df) (length df / 10)) as [idx ->];
    [apply Nat.div_str_pos; lia |].
  simpl. eexists. split; [reflexivity |]. simpl.
  unfold line_segments, point.
  repeat rewrite ?length_combine, ?length_removelast, ?length_tl, ?length_map.
  repeat split; try lia. apply highlights_length.
Qed.

(** * Small tables *)

Definition at_point (x y : Q) (k : Z) (c : float) : final_row :=
  mkFinal (mkSegRow (mkSample 0 0 0 0 0 0 0 0 x y 0) k) k None c None None None None None.

(** Two points one above the other. *)
Definition track2 : list final_row := [at_point 0 0 0 (Some 0); at_point 0 1 0 (Some 1)].

(** Ten points on a line. *)
Definition track10 : list final_row :=
  map (fun i => at_point (inject_Z (Z.of_nat i)) 0 (Z.of_nat (i / 5)) (Some 0)) (seq 0 10).

(** The first coordinate is not confined to [0, 1]: the
    rotation makes it negative for a point above the origin, and the
    scaling by the maximum does not bring it back. *)
Theorem coordinates_x_negative :
  exists xs ys, coordinates (M := rational_math) track2 = Ok (xs, ys)
                /\ Exists (fun v => v < 0) xs.
Proof.
  eexists. eexists. split; [vm_compute; reflexivity |].
  right. left. reflexivity.
Qed.

Lemma smooth_complete_witness :
  Forall known (smooth (map (fun i => inject_Z (Z.of_nat i)) (seq 0 21))).
Proof. apply smooth_complete. simpl. unfold window_size. lia. Defined.

Lemma coordinates_y_range_witness :
  Forall (fun v => 0 <= v <= 13 # 10)
         (snd (get_or ([], []) (coordinates (M := rational_math) track2))).
Proof.
  apply (coordinates_y_range (L := rational_math_laws) track2
           (fst (get_or ([], []) (coordinates (M := rational_math) track2)))).
  rewrite <- surjective_pairing. apply is_ok_get_or. reflexivity.
Defined.

Lemma plot_track_map_short_table_witness :
  plot_track_map (M := rational_math) track2
  = Err (ValueError "range() arg 3 must not be zero").
Proof. apply plot_track_map_short_table. simpl. lia. Defined.

Lemma plot_track_map_total_witness :
  exists fig, plot_track_map (M := rational_math) track10 = Ok fig
              /\ length (segments fig) = (length track10 - 1)%nat
              /\ length (colours fig) = (length track10 - 1)%nat
              /\ (length (marks fig) <= 3)%nat.
Proof. apply plot_track_map_total. simpl. lia. Defined.
