(* ===== verification/Discovery.v ===== *)
(** * Discovery: src/src/load_data.py

    The dashboard fills its two selectors with [get_available_vehicles]
    and [get_available_laps]: both scan the telemetry file chunk by
    chunk, collect the distinct values in a set and return them sorted.
    [load_telemetry] is the legacy loader.

    Here a file is what the scan finds of it: no file, a failure of the
    reader, or the chunks of the two columns that the scans read;
    [Reader] has the scans on the text of the file.
    [scan_data_directory] looks for the
    four data files with [glob]; the directory is what [glob] answers
    for a pattern. *)

From Stdlib Require Import String Ascii QArith Lia ZArith Bool.
From Stdlib Require Import List Permutation Sorted.
From S2P Require Import Prelude.
Import ListNotations.
#[local] Open Scope pipeline_scope.
#[local] Open Scope string_scope.

(** ** The file as the scans see it *)

(** The two columns of [usecols]; an empty cell is NaN. *)
Record id_row : Type := mkIdRow {
  id_vehicle : option string;
  id_lap : option Z
}.

Inductive telemetry_file : Type :=
| NoFile                                   (* no path, or no file at the path *)
| Unreadable (e : pyerror)                 (* the reader raises *)
| Chunks (chunks : list (list id_row)).    (* what [pd.read_csv] yields *)

(** ** Sets and their sorted listing *)

Section Sets.
Context {A : Type}.
Variable eqb : A -> A -> bool.
Variable leb : A -> A -> bool.

Definition mem (x : A) (s : list A) : bool := existsb (eqb x) s.

(** [s.add(x)] on a set kept as a list without duplicates. *)
Definition set_add (s : list A) (x : A) : list A :=
  if mem x s then s else s ++ [x].

(** [s.update(xs)] *)
Definition set_update (s : list A) (xs : list A) : list A := fold_left set_add xs s.

Fixpoint insert_sorted (x : A) (l : list A) : list A :=
  match l with
  | [] => [x]
  | h :: t => if leb x h then x :: l else h :: insert_sorted x t
  end.

(** [sorted(list(s))] *)
Definition sorted (s : list A) : list A := fold_right insert_sorted [] s.

End Sets.

(** [series.dropna()] on a column of cells. *)
Definition dropna_cells {A : Type} (col : list (option A)) : list A :=
  flat_map (fun c => match c with Some a => [a] | None => [] end) col.

(** ** The two scans *)

(** The loop of [get_available_vehicles] over the chunks. *)
Definition scan_vehicles (chunks : list (list id_row)) : list string :=
  fold_left (fun unique_vehicles chunk =>
               set_update String.eqb unique_vehicles (dropna_cells (map id_vehicle chunk)))
            chunks [].

Definition get_available_vehicles (telemetry_file : telemetry_file) : list string :=
  match telemetry_file with
  | NoFile => []
  | Unreadable _ => []
  | Chunks chunks => sorted String.leb (scan_vehicles chunks)
  end.

(** [chunk['vehicle_id'] == vehicle_id]: false on an empty cell. *)
Definition is_vehicle (vehicle_id : string) (r : id_row) : bool :=
  match id_vehicle r with
  | Some v => String.eqb v vehicle_id
  | None => false
  end.

(** The loop of [get_available_laps] over the chunks. *)
Definition scan_laps (chunks : list (list id_row)) (vehicle_id : string) : list Z :=
  fold_left (fun unique_laps chunk =>
               set_update Z.eqb unique_laps
                 (dropna_cells (map id_lap (filter (is_vehicle vehicle_id) chunk))))
            chunks [].

Definition get_available_laps (telemetry_file : telemetry_file) (vehicle_id : string)
  : list Z :=
  match telemetry_file with
  | NoFile => []
  | Unreadable _ => []
  | Chunks chunks => sorted Z.leb (scan_laps chunks vehicle_id)
  end.

(** ** The legacy loader *)

Definition load_telemetry {T : Type} (file_path : string) (file : option T) : result T :=
  match file with
  | None => Err (FileNotFoundError ("File not found: " ++ file_path))
  | Some df => Ok df
  end.

(** ** The directory scan *)

(** [str.lower] and [str.upper] on the letters of ASCII. *)
Definition lower_char (c : ascii) : ascii :=
  let n := nat_of_ascii c in
  if ((65 <=? n) && (n <=? 90))%nat then ascii_of_nat (n + 32) else c.

Definition upper_char (c : ascii) : ascii :=
  let n := nat_of_ascii c in
  if ((97 <=? n) && (n <=? 122))%nat then ascii_of_nat (n - 32) else c.

Fixpoint map_string (f : ascii -> ascii) (s : string) : string :=
  match s with
  | EmptyString => EmptyString
  | String c s' => String (f c) (map_string f s')
  end.

Definition lower : string -> string := map_string lower_char.
Definition upper : string -> string := map_string upper_char.

Definition ends_with_slash (s : string) : bool :=
  match rev (list_ascii_of_string s) with
  | c :: _ => Ascii.eqb c "/"
  | [] => false
  end.

(** [os.path.join(a, b)] on POSIX. *)
Definition path_join (a b : string) : string :=
  if prefix "/" b then b
  else if String.eqb a "" then b
  else if ends_with_slash a then a ++ b
  else a ++ "/" ++ b.

(** The paths found, by the key of the file. *)
Record data_files : Type := mkFiles {
  telemetry : option string;
  analysis : option string;
  weather : option string;
  lap_time : option string
}.

Section Scan.

(** [glob.glob(pattern, recursive=r)]: the directory as the scan sees it. *)
Variable glob : string -> bool -> list string.

(** The body of the loop for one pattern: the pattern as written, in
    lower case and in upper case, in the directory first and below it
    only when that finds nothing; the first match is picked. *)
Definition find_file (data_dir pattern : string) : option string :=
  let matches := (glob (path_join data_dir pattern) false
                  ++ glob (path_join data_dir (lower pattern)) false
                  ++ glob (path_join data_dir (upper pattern)) false)%list in
  let matches :=
    match matches with
    | [] => (glob (path_join (path_join data_dir "**") pattern) true
             ++ glob (path_join (path_join data_dir "**") (lower pattern)) true
             ++ glob (path_join (path_join data_dir "**") (upper pattern)) true)%list
    | _ :: _ => matches
    end in
  hd_error matches.

Definition scan_data_directory (data_dir : string) : data_files :=
  mkFiles (find_file data_dir "*telemetry_data.csv")
          (find_file data_dir "*AnalysisEndurance*.CSV")
          (find_file data_dir "*Weather*.CSV")
          (find_file data_dir "*lap_time*.csv").

End Scan.

(** * Facts *)

(** ** Sets *)

Section SetFacts.
Context {A : Type}.
Variable eqb : A -> A -> bool.
Hypothesis eqb_spec : forall x y, reflect (x = y) (eqb x y).

Lemma mem_In (x : A) (s : list A) : mem eqb x s = true <-> In x s.
Proof.
  unfold mem. rewrite existsb_exists. split.
  - intros (y & Hy & E). now destruct (eqb_spec x y) as [->|].
  - intros H. exists x. split; [exact H |]. now destruct (eqb_spec x x).
Qed.

Lemma set_add_In (s : list A) (x y : A) : In y (set_add eqb s x) <-> In y s \/ y = x.
Proof.
  unfold set_add. destruct (mem eqb x s) eqn:E.
  - apply mem_In in E. split; [auto | intros [H| ->]; auto].
  - rewrite in_app_iff. simpl. intuition congruence.
Qed.

Lemma set_add_NoDup (s : list A) (x : A) : NoDup s -> NoDup (set_add eqb s x).
Proof.
  intros H. unfold set_add. destruct (mem eqb x s) eqn:E; [exact H |].
  apply NoDup_app; [exact H | repeat constructor; auto |].
  intros y Hy [<-|[]]. apply mem_In in Hy. congruence.
Qed.

Lemma set_update_In (s xs : list A) (y : A) :
  In y (set_update eqb s xs) <-> In y s \/ In y xs.
Proof.
  unfold set_update. revert s; induction xs as [|x xs IH]; intros s; simpl; [tauto |].
  rewrite IH, set_add_In. intuition congruence.
Qed.

Lemma set_update_NoDup (s xs : list A) : NoDup s -> NoDup (set_update eqb s xs).
Proof.
  unfold set_update. revert s; induction xs as [|x xs IH]; intros s H; simpl; [exact H |].
  apply IH, set_add_NoDup, H.
Qed.

Lemma set_update_app (s xs ys : list A) :
  set_update eqb s (xs ++ ys) = set_update eqb (set_update eqb s xs) ys.
Proof. apply fold_left_app. Qed.

(** A scan chunk by chunk is a scan of the whole column. *)
Lemma scan_chunks {B : Type} (values : list B -> list A) (chunks : list (list B)) (s : list A) :
  (forall c d : list B, values (c ++ d)%list = (values c ++ values d)%list) ->
  values [] = [] ->
  fold_left (fun acc chunk => set_update eqb acc (values chunk)) chunks s
  = set_update eqb s (values (concat chunks)).
Proof.
  intros Happ Hnil. revert s; induction chunks as [|c chunks IH]; intros s; simpl.
  - now rewrite Hnil.
  - now rewrite IH, Happ, set_update_app.
Qed.

End SetFacts.

(** ** Sorting *)

Section SortedFacts.
Context {A : Type}.
Variable leb : A -> A -> bool.
Hypothesis leb_total : forall x y, leb x y = true \/ leb y x = true.

Lemma insert_sorted_perm (x : A) (l : list A) : Permutation (x :: l) (insert_sorted leb x l).
Proof.
  induction l as [|h t IH]; simpl; [reflexivity |].
  destruct (leb x h); [reflexivity |].
  etransitivity; [apply perm_swap | now constructor].
Qed.

Lemma sorted_perm (s : list A) : Permutation s (sorted leb s).
Proof.
  induction s as [|x s IH]; simpl; [constructor |].
  etransitivity; [| apply insert_sorted_perm]. now constructor.
Qed.

Lemma insert_sorted_Sorted (x : A) (l : list A) :
  Sorted (fun a b => leb a b = true) l ->
  Sorted (fun a b => leb a b = true) (insert_sorted leb x l).
Proof.
  induction 1 as [|h t Ht IH Hh]; simpl; [repeat constructor |].
  destruct (leb x h) eqn:E; [repeat constructor; auto |].
  constructor; [exact IH |].
  destruct t as [|h' t]; simpl.
  - constructor. destruct (leb_total x h); congruence.
  - destruct (leb x h'); constructor; [destruct (leb_total x h); congruence |].
    now inversion Hh.
Qed.

Lemma sorted_Sorted (s : list A) : Sorted (fun a b => leb a b = true) (sorted leb s).
Proof.
  induction s as [|x s IH]; simpl; [constructor | now apply insert_sorted_Sorted].
Qed.

Lemma sorted_In (s : list A) (x : A) : In x (sorted leb s) <-> In x s.
Proof.
  split; apply Permutation_in; [apply Permutation_sym |]; apply sorted_perm.
Qed.

Lemma sorted_NoDup (s : list A) : NoDup s -> NoDup (sorted leb s).
Proof. apply Permutation_NoDup, sorted_perm. Qed.

End SortedFacts.

(** ** The scans *)

Lemma dropna_cells_In {A : Type} (col : list (option A)) (a : A) :
  In a (dropna_cells col) <-> In (Some a) col.
Proof.
  unfold dropna_cells. rewrite in_flat_map. split.
  - intros ([b|] & Hc & Hb); simpl in Hb; [| contradiction].
    destruct Hb as [<-|[]]. exact Hc.
  - intros H. exists (Some a). split; [exact H | now left].
Qed.

Lemma dropna_cells_app {A : Type} (c d : list (option A)) :
  dropna_cells (c ++ d) = (dropna_cells c ++ dropna_cells d)%list.
Proof. apply flat_map_app. Qed.

Lemma scan_vehicles_concat (chunks : list (list id_row)) :
  scan_vehicles chunks
  = set_update String.eqb [] (dropna_cells (map id_vehicle (concat chunks))).
Proof.
  unfold scan_vehicles.
  apply (scan_chunks String.eqb (fun chunk => dropna_cells (map id_vehicle chunk)));
    [| reflexivity].
  intros c d. now rewrite map_app, dropna_cells_app.
Qed.

Lemma scan_laps_concat (chunks : list (list id_row)) (v : string) :
  scan_laps chunks v
  = set_update Z.eqb []
      (dropna_cells (map id_lap (filter (is_vehicle v) (concat chunks)))).
Proof.
  unfold scan_laps.
  apply (scan_chunks Z.eqb
           (fun chunk => dropna_cells (map id_lap (filter (is_vehicle v) chunk))));
    [| reflexivity].
  intros c d. now rewrite filter_app, map_app, dropna_cells_app.
Qed.

Lemma is_vehicle_spec (v : string) (r : id_row) :
  is_vehicle v r = true <-> id_vehicle r = Some v.
Proof.
  unfold is_vehicle. destruct (id_vehicle r) as [w|]; [| split; discriminate].
  rewrite String.eqb_eq. split; [now intros -> | now intros [= ->]].
Qed.

Lemma Zleb_total (x y : Z) : (x <=? y)%Z = true \/ (y <=? x)%Z = true.
Proof. rewrite !Z.leb_le. lia. Qed.

Lemma Sorted_leb_NoDup_lt (l : list Z) :
  Sorted (fun a b => (a <=? b)%Z = true) l -> NoDup l -> StronglySorted Z.lt l.
Proof.
  intros Hs Hnd. apply Sorted_StronglySorted in Hs;
    [| intros a b c; rewrite !Z.leb_le; lia].
  induction Hs as [|a l Hs IH Ha]; [constructor |].
  inversion Hnd as [|? ? Hna Hnd']; subst. constructor; [now apply IH |].
  rewrite Forall_forall in *. intros b Hb. specialize (Ha b Hb). apply Z.leb_le in Ha.
  assert (a <> b) by (intros ->; contradiction). lia.
Qed.

Lemma get_available_laps_In (chunks : list (list id_row)) (v : string) (l : Z) :
  In l (get_available_laps (Chunks chunks) v)
  <-> exists r, In r (concat chunks) /\ id_vehicle r = Some v /\ id_lap r = Some l.
Proof.
  simpl. rewrite scan_laps_concat.
  rewrite (sorted_In Z.leb), (set_update_In Z.eqb Z.eqb_spec), dropna_cells_In, in_map_iff.
  simpl. split.
  - intros [[]|(r & Hl & Hr)]. apply filter_In in Hr as [Hr Hv].
    exists r. rewrite <- is_vehicle_spec. auto.
  - intros (r & Hr & Hv & Hl). right. exists r. split; [exact Hl |].
    apply filter_In. rewrite is_vehicle_spec. auto.
Qed.

(** The list of vehicles is sorted, has no duplicate and
    holds exactly the vehicle ids that occur in the column. *)
Theorem get_available_vehicles_spec (chunks : list (list id_row)) :
  let vehicles := get_available_vehicles (Chunks chunks) in
  Sorted (fun a b => String.leb a b = true) vehicles /\ NoDup vehicles
  /\ forall v, In v vehicles <-> In (Some v) (map id_vehicle (concat chunks)).
Proof.
  cbv zeta. simpl. split; [apply sorted_Sorted, String.leb_total |].
  rewrite scan_vehicles_concat. split.
  - apply sorted_NoDup, (set_update_NoDup String.eqb String.eqb_spec). constructor.
  - intros v. rewrite sorted_In, (set_update_In String.eqb String.eqb_spec), dropna_cells_In.
    simpl. tauto.
Qed.

(** The list of laps of a vehicle is strictly ascending and
    holds exactly the laps of the rows of that vehicle. *)
Theorem get_available_laps_spec (chunks : list (list id_row)) (vehicle_id : string) :
  let laps := get_available_laps (Chunks chunks) vehicle_id in
  StronglySorted Z.lt laps
  /\ forall l, In l laps <-> exists r, In r (concat chunks)
                                       /\ id_vehicle r = Some vehicle_id /\ id_lap r = Some l.
Proof.
  cbv zeta. simpl. rewrite scan_laps_concat. split.
  - apply Sorted_leb_NoDup_lt; [apply sorted_Sorted, Zleb_total |].
    apply sorted_NoDup, (set_update_NoDup Z.eqb Z.eqb_spec). constructor.
  - intros l. rewrite <- scan_laps_concat. apply get_available_laps_In.
Qed.

(** The size of the chunks does not change the lists: two
    chunkings of the same rows give the same vehicles and the same laps. *)
Theorem discovery_chunk_independent (chunks1 chunks2 : list (list id_row))
  (vehicle_id : string) :
  concat chunks1 = concat chunks2 ->
  get_available_vehicles (Chunks chunks1) = get_available_vehicles (Chunks chunks2)
  /\ get_available_laps (Chunks chunks1) vehicle_id
     = get_available_laps (Chunks chunks2) vehicle_id.
Proof.
  intros E. simpl. now rewrite !scan_vehicles_concat, !scan_laps_concat, E.
Qed.

(** ** The directory scan *)

Section ScanFacts.
Variable glob : string -> bool -> list string.

(** The six queries that the scan makes for a pattern. *)
Definition queries (data_dir pattern : string) : list (string * bool) :=
  [(path_join data_dir pattern, false);
   (path_join data_dir (lower pattern), false);
   (path_join data_dir (upper pattern), false);
   (path_join (path_join data_dir "**") pattern, true);
   (path_join (path_join data_dir "**") (lower pattern), true);
   (path_join (path_join data_dir "**") (upper pattern), true)].

Definition answers (data_dir pattern : string) : list string :=
  flat_map (fun q => glob (fst q) (snd q)) (queries data_dir pattern).

Definition top_answers (data_dir pattern : string) : list string :=
  (glob (path_join data_dir pattern) false
   ++ glob (path_join data_dir (lower pattern)) false
   ++ glob (path_join data_dir (upper pattern)) false)%list.

Lemma answers_split (data_dir pattern : string) :
  exists below, answers data_dir pattern = (top_answers data_dir pattern ++ below)%list
                /\ find_file glob data_dir pattern
                   = match top_answers data_dir pattern with
                     | [] => hd_error below
                     | m :: _ => Some m
                     end.
Proof.
  eexists. unfold answers, queries, top_answers, find_file. simpl flat_map.
  rewrite app_nil_r, <- !app_assoc. split; [reflexivity |].
  now destruct (glob (path_join data_dir pattern) false ++ _ ++ _)%list.
Qed.

Lemma find_file_hd (data_dir pattern : string) :
  find_file glob data_dir pattern = hd_error (answers data_dir pattern).
Proof.
  destruct (answers_split data_dir pattern) as (below & -> & ->).
  now destruct (top_answers data_dir pattern).
Qed.

Lemma find_file_In (data_dir pattern p : string) :
  find_file glob data_dir pattern = Some p -> In p (answers data_dir pattern).
Proof.
  rewrite find_file_hd. destruct (answers data_dir pattern); [discriminate |].
  intros [= ->]. now left.
Qed.

Lemma find_file_None (data_dir pattern : string) :
  find_file glob data_dir pattern = None <-> answers data_dir pattern = [].
Proof. rewrite find_file_hd. destruct (answers data_dir pattern); simpl; split; congruence. Qed.

(** The scan reports a telemetry file exactly when one of its six
    queries (the pattern as written, in lower case and in upper case, in
    the directory and below it) has an answer; the file reported is an
    answer of one of them. *)
Theorem scan_data_directory_telemetry (data_dir : string) :
  (telemetry (scan_data_directory glob data_dir) = None
   <-> answers data_dir "*telemetry_data.csv" = [])
  /\ (forall p, telemetry (scan_data_directory glob data_dir) = Some p ->
                In p (answers data_dir "*telemetry_data.csv")).
Proof. split; [apply find_file_None | intros p; apply find_file_In]. Qed.

(** A match in the directory itself wins over every match below it:
    the recursive queries are made only when the three others are
    empty. *)
Theorem scan_data_directory_prefers_top (data_dir p : string) (rest : list string) :
  glob (path_join data_dir "*telemetry_data.csv") false = p :: rest ->
  telemetry (scan_data_directory glob data_dir) = Some p.
Proof. intros H. simpl. unfold find_file. now rewrite H. Qed.

End ScanFacts.

(** A directory whose telemetry file has a name in mixed case: only the
    exact pattern of its name would find it. *)
Definition mixed_case_dir (pattern : string) (recursive : bool) : list string :=
  if String.eqb pattern "data/*Telemetry_Data.csv" then ["data/R1_Telemetry_Data.csv"] else [].

Definition race_dir (pattern : string) (recursive : bool) : list string :=
  if String.eqb pattern "data/*telemetry_data.csv" then ["data/R1_telemetry_data.csv"]
  else if String.eqb pattern "data/**/*telemetry_data.csv"
       then ["data/Race 2/R2_telemetry_data.csv"] else [].

(** The search is not case insensitive: a telemetry file whose name
    is in mixed case is not found. *)
Theorem scan_data_directory_mixed_case :
  telemetry (scan_data_directory mixed_case_dir "data") = None.
Proof. reflexivity. Qed.

Lemma scan_data_directory_prefers_top_witness :
  telemetry (scan_data_directory race_dir "data") = Some "data/R1_telemetry_data.csv".
Proof.
  apply (scan_data_directory_prefers_top race_dir "data" "data/R1_telemetry_data.csv" []).
  reflexivity.
Defined.

(** * A file of two chunks *)

Definition ids (v : string) (l : Z) : id_row := mkIdRow (Some v) (Some l).

Definition file2 : list (list id_row) :=
  [ [ids "car2" 3; ids "car1" 2; mkIdRow None (Some 9%Z); ids "car1" 1];
    [ids "car1" 2; mkIdRow (Some "car1") None; ids "car2" 1] ].

Lemma discovery_chunk_independent_witness :
  get_available_vehicles (Chunks file2) = get_available_vehicles (Chunks [concat file2])
  /\ get_available_laps (Chunks file2) "car1"
     = get_available_laps (Chunks [concat file2]) "car1".
Proof. apply discovery_chunk_independent. reflexivity. Defined.
