(* ===== verification/Reader.v ===== *)
(** * Reader: from the text of the telemetry file to the chunks

    [processor.process_lap_data] and the two scans of load_data.py open
    the file, test its first line for a header, and iterate over
    [pd.read_csv(..., chunksize=100000)], looking at a chunk only when it
    has the columns they need.  This file models that part: the test
    [has_header], the arguments of the three calls, the reader as an
    iterator ([next_chunk]) that the [for] loops drive, the guards on the
    columns, and the functions of the file the other components start
    from ([process_lap_file], [vehicles_of_file], [laps_of_file]).

    [read_csv] follows the documented behaviour of pandas on the files
    the sources expect: lines of fields separated by commas, blank lines
    skipped, a line with too many fields skipped ([on_bad_lines='skip']),
    a line with too few filled up with NaN, [header=0] with [names]
    replacing the first line, [usecols] keeping the columns named.  Fields
    with quote characters, duplicate column names and a first data line
    longer than the header (which pandas reads as an index) are outside
    the model.  What pandas makes of the text of a cell is the interface
    [Cells].  The filter of the loop is on the cells of a row
    ([row_matches]: a comparison with NaN is false); the pivot looks at
    the rows that have a time and a channel name ([typed_rows]: pandas
    drops the rows whose key is missing).  Text that is not of the type
    of its column (a time that [pd.to_datetime] cannot read, a lap that
    is not an integer, a value that is not a number) is read as a
    missing cell; files with such cells are outside the model.  So is
    the dtype that pandas infers for a column: a lap is an integer and
    a vehicle id a string, also in a column that holds NaN.

    The three functions read the file each with its own [usecols].  The
    last part of the file brings them together on the text of one file:
    reading two columns of the file is looking at two columns of its
    table ([vehicles_of_file_table], [laps_of_file_table]), and a lap is
    offered for a vehicle exactly when the loop of [process_lap_data]
    finds a row for it ([offered_laps_have_rows]). *)

From Equations Require Import Equations.
From Stdlib Require Import String Ascii QArith Qround Lqa Lia ZArith Bool Arith.
From Stdlib Require Import List.
From S2P Require Import Prelude Series Frame Processor Discovery.
Import ListNotations.
#[local] Open Scope pipeline_scope.
#[local] Open Scope string_scope.

(** ** The header test and the arguments of the reader *)

(** The column names of the raw format. *)
Definition names : list string :=
  ["expire_at"; "lap"; "meta_event"; "meta_session"; "meta_source"; "meta_time";
   "original_vehicle_id"; "outing"; "telemetry_name"; "telemetry_value";
   "timestamp"; "vehicle_id"; "vehicle_number"].

Definition chunk_size : nat := N.to_nat 100000.

Arguments chunk_size : simpl never.

(** [needle in hay] on strings. *)
Fixpoint contains (needle hay : string) : bool :=
  prefix needle hay
  || match hay with
     | EmptyString => false
     | String _ hay' => contains needle hay'
     end.

(** [f.readline()] on a file given by its lines. *)
Definition readline (lines : list string) : string := hd "" lines.

Definition has_header (first_line : string) : bool := contains "vehicle_id" first_line.

(** The keyword arguments that the sources pass: [on_bad_lines='skip']
    is in all three calls, [header=0] goes with [names]. *)
Record read_args : Type := mkArgs {
  chunksize : nat;
  usecols : option (list string);
  arg_names : option (list string)
}.

Definition given_names (has_header : bool) : option (list string) :=
  if has_header then None else Some names.

Definition processor_args (has_header : bool) : read_args :=
  mkArgs chunk_size None (given_names has_header).

Definition vehicles_args (has_header : bool) : read_args :=
  mkArgs chunk_size (Some ["vehicle_id"]) (given_names has_header).

Definition laps_args (has_header : bool) : read_args :=
  mkArgs (N.to_nat 100000) (Some ["vehicle_id"; "lap"]) (given_names has_header).

(** ** pandas: lines to rows of cells *)

(** A chunk: the names of its columns and its rows, a cell being the
    text of a field or NaN. *)
Record frame : Type := mkFrame {
  frame_columns : list string;
  frame_rows : list (list (option string))
}.

(** [line.split(sep)] *)
Fixpoint split_at (sep : ascii) (line : string) : list string :=
  match line with
  | EmptyString => [EmptyString]
  | String c rest =>
      if Ascii.eqb c sep then EmptyString :: split_at sep rest
      else match split_at sep rest with
           | field :: fields => String c field :: fields
           | [] => [String c EmptyString]
           end
  end.

Definition split_fields : string -> list string := split_at ",".

Definition is_blank (line : string) : bool := String.eqb line "".

(** An empty field is NaN. *)
Definition cell_of (field : string) : option string :=
  if is_blank field then None else Some field.

(** A line of the data against [width] columns: too long, it is a bad
    line and is skipped; too short, it is filled up with NaN. *)
Definition fit (width : nat) (fields : list string) : list (list (option string)) :=
  if (width <? length fields)%nat then []
  else [(map cell_of fields ++ repeat None (width - length fields))%list].

(** The rows of the file under a header of [width] columns: the lines
    after the first that is not blank. *)
Definition data_rows (width : nat) (lines : list string) : list (list (option string)) :=
  flat_map (fun line => fit width (split_fields line))
           (tl (filter (fun line => negb (is_blank line)) lines)).

(** The columns: the names given, else the fields of the first line
    that is not blank. *)
Definition header_of (args : read_args) (lines : list string) : result (list string) :=
  match arg_names args with
  | Some ns => Ok ns
  | None =>
      match filter (fun line => negb (is_blank line)) lines with
      | first :: _ => Ok (split_fields first)
      | [] => Err (ValueError "No columns to parse from file")
      end
  end.

(** [usecols]: the positions of the columns kept, in the order of the
    file. *)
Definition kept (cols : list string) (header : list string) : list nat :=
  filter (fun i => existsb (String.eqb (nth i header "")) cols) (seq 0 (length header)).

Definition project {A : Type} (d : A) (positions : list nat) (row : list A) : list A :=
  map (fun i => nth i row d) positions.

Definition missing (cols header : list string) : list string :=
  filter (fun c => negb (existsb (String.eqb c) header)) cols.

(** ** pandas: the iterator over the chunks *)

(** The reader between two chunks: the rows not yet given out, and
    whether a chunk has been given out. *)
Record reader : Type := mkReader {
  reader_columns : list string;
  reader_size : nat;
  pending : list (list (option string));
  started : bool
}.

(** [next(reader)]: the next [reader_size] rows; a file without rows
    gives one empty chunk; [None] is StopIteration. *)
Definition next_chunk (r : reader) : option (frame * reader) :=
  match pending r with
  | [] =>
      if started r then None
      else Some (mkFrame (reader_columns r) [],
                 mkReader (reader_columns r) (reader_size r) [] true)
  | _ :: _ =>
      Some (mkFrame (reader_columns r) (firstn (reader_size r) (pending r)),
            mkReader (reader_columns r) (reader_size r)
                     (skipn (reader_size r) (pending r)) true)
  end.

(** [for chunk in reader]: the chunks in the order of the iteration,
    for at most [fuel] iterations. *)
Fixpoint iterate (fuel : nat) (r : reader) : list frame :=
  match fuel with
  | O => []
  | S fuel' =>
      match next_chunk r with
      | None => []
      | Some (chunk, r') => chunk :: iterate fuel' r'
      end
  end.

(** Iterations that are always enough: one per row, and one to find
    the end. *)
Definition enough (r : reader) : nat := S (length (pending r)).

(** The file as a table: its columns and its rows, before it is cut
    into chunks. *)
Definition parse (lines : list string) (args : read_args)
  : result (list string * list (list (option string))) :=
  header <- header_of args lines ;;
  let rows := data_rows (length header) lines in
  match usecols args with
  | None => Ok (header, rows)
  | Some cols =>
      match missing cols header with
      | [] => let positions := kept cols header in
              Ok (project "" positions header, map (project None positions) rows)
      | _ :: _ =>
          Err (ValueError "Usecols do not match columns, columns expected but not found")
      end
  end.

(** [list(pd.read_csv(file, chunksize=..., ...))]: the chunks that the
    iteration gives. *)
Definition read_csv (lines : list string) (args : read_args) : result (list frame) :=
  if (chunksize args =? 0)%nat then Err (ValueError "'chunksize' must be an integer >=1")
  else
    table <- parse lines args ;;
    let r := mkReader (fst table) (chunksize args) (snd table) false in
    Ok (iterate (enough r) r).

(** ** Reference: the chunks of a list *)

(** The list cut into pieces of [S n] elements, the last one shorter
    when the length is not a multiple. *)
Equations? chunks_of {A : Type} (n : nat) (rows : list A) : list (list A)
  by wf (length rows) lt :=
  chunks_of n [] := [];
  chunks_of n (row :: rest) := (row :: firstn n rest) :: chunks_of n (skipn n rest).
Proof. rewrite length_skipn. simpl. lia. Qed.

(** ** The cells *)

(** What pandas makes of the text of a cell. *)
Class Cells : Type := {
  to_number : string -> option Q;
  to_datetime : string -> option Z
}.

Section Typed.
Context {C : Cells}.

(** [row[name]] *)
Definition cell_at (columns : list string) (row : list (option string)) (name : string)
  : option string :=
  match find (fun p => String.eqb (fst p) name) (combine columns row) with
  | Some p => snd p
  | None => None
  end.

Definition then_ {A B : Type} (o : option A) (f : A -> option B) : option B :=
  match o with Some a => f a | None => None end.

(** A number that is an integer. *)
Definition to_integer (q : Q) : option Z :=
  if Qeq_bool q (inject_Z (Qfloor q)) then Some (Qfloor q) else None.

Definition lap_of (columns : list string) (row : list (option string)) : option Z :=
  then_ (then_ (cell_at columns row "lap") to_number) to_integer.

(** The row as the processor reads it, when its cells follow the
    schema. *)
Definition raw_row_of (columns : list string) (row : list (option string)) : option raw_row :=
  then_ (then_ (cell_at columns row "timestamp") to_datetime) (fun t =>
  then_ (cell_at columns row "vehicle_id") (fun v =>
  then_ (lap_of columns row) (fun l =>
  then_ (cell_at columns row "telemetry_name") (fun n =>
  Some (mkRaw t v l n (then_ (cell_at columns row "telemetry_value") to_number)))))).

Definition typed_rows (chunk : frame) : list raw_row :=
  flat_map (fun row => match raw_row_of (frame_columns chunk) row with
                       | Some r => [r]
                       | None => []
                       end) (frame_rows chunk).

(** The row as the scans read it. *)
Definition typed_ids (chunk : frame) : list id_row :=
  map (fun row => mkIdRow (cell_at (frame_columns chunk) row "vehicle_id")
                          (lap_of (frame_columns chunk) row))
      (frame_rows chunk).

(** ** The loops of the sources *)

(** ['name' in chunk.columns] *)
Definition has_column (name : string) (chunk : frame) : bool :=
  existsb (String.eqb name) (frame_columns chunk).

(** The rows of a chunk as the processor reads them, under the guard
    of its loop. *)
Definition guarded_rows (chunk : frame) : list raw_row :=
  if has_column "vehicle_id" chunk && has_column "lap" chunk then typed_rows chunk else [].

(** [(chunk['vehicle_id'] == vehicle_id) & (chunk['lap'] == lap)] at a
    row: false where a cell is NaN. *)
Definition row_matches (columns : list string) (vehicle_id : string) (lap : Z)
  (row : list (option string)) : bool :=
  match cell_at columns row "vehicle_id", lap_of columns row with
  | Some v, Some l => String.eqb v vehicle_id && (l =? lap)%Z
  | _, _ => false
  end.

(** The rows of a chunk that pass the guard and the filter. *)
Definition selected (vehicle_id : string) (lap : Z) (chunk : frame)
  : list (list (option string)) :=
  if has_column "vehicle_id" chunk && has_column "lap" chunk
  then filter (row_matches (frame_columns chunk) vehicle_id lap) (frame_rows chunk)
  else [].

(** The body of the loop: what it appends to [chunks]. *)
Definition filtered (vehicle_id : string) (lap : Z) (chunk : frame) : list frame :=
  match selected vehicle_id lap chunk with
  | [] => []
  | rows => [mkFrame (frame_columns chunk) rows]
  end.

(** The function after the loop: the error of a lap without data, else
    [pd.concat(chunks)] and the pivot on, which looks at the rows that
    have a time and a channel. *)
Definition process_chunks {M : MathLib.MathLib} (chunks : list frame) (vehicle_id : string)
  (lap : Z) : result (list sample) :=
  match chunks with
  | [] => Err (ValueError (no_data_message vehicle_id lap))
  | _ :: _ => process_pivot (pivot_table (flat_map typed_rows chunks))
  end.

(** What [open] raises when there is no file. *)
Definition no_such_file (path : string) : pyerror :=
  FileNotFoundError ("[Errno 2] No such file or directory: '" ++ path ++ "'").

(** [process_lap_data(telemetry_file, vehicle_id, lap)] on the file at
    the path, given by its lines when it exists. *)
Definition process_lap_file {M : MathLib.MathLib} (file : option (list string)) (path : string)
  (vehicle_id : string) (lap : Z) : result (list sample) :=
  match file with
  | None => Err (no_such_file path)
  | Some lines =>
      let first_line := readline lines in
      let has_header := has_header first_line in
      frames <- read_csv lines (processor_args has_header) ;;
      process_chunks (flat_map (filtered vehicle_id lap) frames) vehicle_id lap
  end.

(** The file as a scan of load_data.py sees it: the chunks of the
    columns read, under the guard of the loop. *)
Definition scanned (file : option (list string)) (args_of : bool -> read_args)
  (guard : frame -> bool) : telemetry_file :=
  match file with
  | None => NoFile
  | Some lines =>
      match read_csv lines (args_of (has_header (readline lines))) with
      | Ok chunks => Chunks (map (fun chunk => if guard chunk then typed_ids chunk else [])
                                 chunks)
      | Err e => Unreadable e
      end
  end.

(** [get_available_vehicles(telemetry_file)] *)
Definition vehicles_of_file (file : option (list string)) : list string :=
  get_available_vehicles (scanned file vehicles_args (has_column "vehicle_id")).

(** [get_available_laps(telemetry_file, vehicle_id)] *)
Definition laps_of_file (file : option (list string)) (vehicle_id : string) : list Z :=
  get_available_laps
    (scanned file laps_args
             (fun chunk => has_column "vehicle_id" chunk && has_column "lap" chunk))
    vehicle_id.

End Typed.

(** ** An instance of the cells: decimal numbers *)

Definition digit_of (c : ascii) : option Z :=
  let n := nat_of_ascii c in
  if ((48 <=? n) && (n <=? 57))%nat then Some (Z.of_nat (n - 48)) else None.

(** The digits of a string as a number and the count of digits. *)
Fixpoint digits (acc : Z) (count : nat) (s : string) : option (Z * nat) :=
  match s with
  | EmptyString => Some (acc, count)
  | String c rest =>
      match digit_of c with
      | Some d => digits (10 * acc + d) (S count) rest
      | None => None
      end
  end.

Definition unsigned_decimal (s : string) : option Q :=
  match split_at "." s with
  | [whole] =>
      match digits 0 0 whole with
      | Some (n, S _) => Some (inject_Z n)
      | _ => None
      end
  | [whole; fraction] =>
      match digits 0 0 whole, digits 0 0 fraction with
      | Some (n, S _), Some (f, k) =>
          Some (inject_Z n + inject_Z f / inject_Z (10 ^ Z.of_nat k))
      | _, _ => None
      end
  | _ => None
  end.

Definition decimal (s : string) : option Q :=
  match s with
  | String "-" rest => option_map Qopp (unsigned_decimal rest)
  | _ => unsigned_decimal s
  end.

(** Numbers in decimal notation; times as nanoseconds in decimal
    notation. *)
#[export] Instance decimal_cells : Cells := {
  to_number := decimal;
  to_datetime := fun s => match digits 0 0 s with
                          | Some (n, S _) => Some n
                          | _ => None
                          end
}.

(** * Facts *)

(** ** Strings *)

Lemma prefix_app (s t : string) : prefix s t = true <-> exists rest, t = s ++ rest.
Proof.
  revert t. induction s as [| c s IH]; intros t; simpl.
  - destruct t; split; eauto.
  - destruct t as [| d t]; [split; [discriminate | intros [rest H]; discriminate] |].
    simpl. destruct (Ascii.ascii_dec c d) as [<- | Hne].
    + rewrite IH. split; intros [rest H]; exists rest; [now rewrite H | now injection H].
    + split; [discriminate | intros [rest H]; injection H; congruence].
Qed.

(** [contains] is the substring test. *)
Lemma contains_spec (needle hay : string) :
  contains needle hay = true <-> exists before after, hay = before ++ needle ++ after.
Proof.
  induction hay as [| c hay IH]; cbn [contains]; rewrite orb_true_iff, prefix_app.
  - split.
    + intros [[rest H] | H]; [exists "", rest; exact H | discriminate].
    + intros (before & after & H). left. exists after.
      destruct before; [exact H | discriminate].
  - rewrite IH. split.
    + intros [[rest H] | (before & after & H)]; [exists "", rest; exact H |].
      exists (String c before), after. simpl. now rewrite H.
    + intros (before & after & H). destruct before as [| d before]; [left; eauto |].
      right. injection H as _ H. eauto.
Qed.

Lemma split_at_nonempty (sep : ascii) (line : string) : split_at sep line <> [].
Proof.
  destruct line as [| c rest]; simpl; [discriminate |].
  destruct (Ascii.eqb c sep); [discriminate |]. now destruct (split_at sep rest).
Qed.

(** A field holds the separator nowhere. *)
Fixpoint free_of (sep : ascii) (field : string) : bool :=
  match field with
  | EmptyString => true
  | String c rest => negb (Ascii.eqb c sep) && free_of sep rest
  end.

(** [sep.join(fields)] *)
Definition join_fields (sep : ascii) (fields : list string) : string :=
  String.concat (String sep EmptyString) fields.

Lemma split_at_field (sep : ascii) (field : string) :
  free_of sep field = true -> split_at sep field = [field].
Proof.
  induction field as [| c field IH]; simpl; [reflexivity |].
  intros H. apply andb_true_iff in H as [Hc H]. apply negb_true_iff in Hc.
  now rewrite Hc, IH.
Qed.

Lemma split_at_app (sep : ascii) (field rest : string) :
  free_of sep field = true ->
  split_at sep (field ++ String sep rest) = field :: split_at sep rest.
Proof.
  induction field as [| c field IH]; simpl; [now rewrite Ascii.eqb_refl |].
  intros H. apply andb_true_iff in H as [Hc H]. apply negb_true_iff in Hc.
  now rewrite Hc, IH.
Qed.

(** Splitting what [join_fields] has joined gives the fields back. *)
Lemma split_at_join (sep : ascii) (fields : list string) :
  fields <> [] -> forallb (free_of sep) fields = true ->
  split_at sep (join_fields sep fields) = fields.
Proof.
  unfold join_fields. induction fields as [| f fields IH]; [congruence |]. intros _ H.
  simpl in H. apply andb_true_iff in H as [Hf H].
  destruct fields as [| g fields]; [now apply split_at_field |].
  change (String.concat _ (f :: g :: fields))
    with (f ++ String sep (String.concat (String sep "") (g :: fields))).
  rewrite split_at_app by exact Hf. f_equal. now apply IH.
Qed.

(** Joining what [split_at] has split gives the line back. *)
Lemma join_split_at (sep : ascii) (line : string) : join_fields sep (split_at sep line) = line.
Proof.
  unfold join_fields. induction line as [| c line IH]; [reflexivity |]. simpl.
  destruct (Ascii.eqb_spec c sep) as [-> | Hne].
  - pose proof (split_at_nonempty sep line) as Hn.
    destruct (split_at sep line) as [| f fs]; [congruence |]. simpl in *. now rewrite IH.
  - pose proof (split_at_nonempty sep line) as Hn.
    destruct (split_at sep line) as [| f fs]; [congruence |].
    destruct fs; simpl in *; now rewrite <- IH.
Qed.

(** ** The chunks of a list *)

Lemma chunks_of_concat {A : Type} (n : nat) (rows : list A) : concat (chunks_of n rows) = rows.
Proof.
  funelim (chunks_of n rows); simp chunks_of; [reflexivity |].
  simpl. rewrite H. now rewrite firstn_skipn.
Qed.

(** Every piece holds between one and [S n] elements. *)
Lemma chunks_of_sizes {A : Type} (n : nat) (rows : list A) :
  Forall (fun piece => (1 <= length piece <= S n)%nat) (chunks_of n rows).
Proof.
  funelim (chunks_of n rows); simp chunks_of; constructor; [| assumption].
  simpl. rewrite length_firstn. lia.
Qed.

(** All pieces but the last are full. *)
Lemma chunks_of_full {A : Type} (n : nat) (rows : list A) :
  Forall (fun piece => length piece = S n) (removelast (chunks_of n rows)).
Proof.
  funelim (chunks_of n rows); simp chunks_of; [constructor |].
  destruct (skipn n rest) as [| r rest'] eqn:E; simp chunks_of in *; [constructor |].
  cbn [removelast]. constructor; [| assumption].
  simpl. rewrite length_firstn. apply (f_equal (@length _)) in E.
  rewrite length_skipn in E. simpl in E. lia.
Qed.

(** No more pieces than elements. *)
Lemma chunks_of_count {A : Type} (n : nat) (rows : list A) :
  (length (chunks_of n rows) <= length rows)%nat.
Proof.
  funelim (chunks_of n rows); simp chunks_of; [simpl; lia |].
  simpl. rewrite length_skipn in H. lia.
Qed.

(** ** The iterator *)

(** The chunks that the iteration over a reader gives, without the
    iteration: the pieces of the rows, or one empty chunk when there is
    no row. *)
Definition frames_of (columns : list string) (n : nat) (rows : list (list (option string)))
  : list frame :=
  match rows with
  | [] => [mkFrame columns []]
  | _ :: _ => map (mkFrame columns) (chunks_of n rows)
  end.

(** A reader that has given out a chunk, or has rows left, gives the
    pieces of its rows and stops, whatever fuel is left over. *)
Lemma iterate_pieces (fuel : nat) (columns : list string) (n : nat)
  (rows : list (list (option string))) (started : bool) :
  rows <> [] \/ started = true -> (length rows < fuel)%nat ->
  iterate fuel (mkReader columns (S n) rows started) = map (mkFrame columns) (chunks_of n rows).
Proof.
  revert rows started. induction fuel as [| fuel IH]; intros rows started Hs Hf; [lia |].
  destruct rows as [| row rest]; cbn [iterate next_chunk pending reader_columns reader_size
                                      Reader.started].
  - destruct Hs as [Hs | ->]; [congruence |]. now simp chunks_of.
  - simp chunks_of. cbn [firstn skipn map]. f_equal. apply IH; [now right |].
    rewrite length_skipn. simpl in Hf. lia.
Qed.

Lemma iterate_frames (fuel : nat) (columns : list string) (n : nat)
  (rows : list (list (option string))) :
  (length rows < fuel)%nat ->
  iterate fuel (mkReader columns (S n) rows false) = frames_of columns n rows.
Proof.
  intros Hf. destruct rows as [| row rest]; [| apply iterate_pieces; [left; discriminate | exact Hf]].
  destruct fuel as [| fuel]; [simpl in Hf; lia |]. simpl. now destruct fuel.
Qed.

Lemma frames_of_rows (columns : list string) (n : nat) (rows : list (list (option string))) :
  concat (map frame_rows (frames_of columns n rows)) = rows.
Proof.
  destruct rows as [| row rest]; [reflexivity |]. unfold frames_of.
  rewrite map_map. simpl frame_rows. rewrite map_id. apply chunks_of_concat.
Qed.

Lemma frames_of_columns (columns : list string) (n : nat) (rows : list (list (option string))) :
  Forall (fun chunk => frame_columns chunk = columns
                       /\ (length (frame_rows chunk) <= S n)%nat)
         (frames_of columns n rows).
Proof.
  destruct rows as [| row rest]; [repeat constructor; simpl; lia |]. unfold frames_of.
  apply Forall_map_iff. eapply Forall_impl; [| apply chunks_of_sizes].
  simpl. intros piece H. split; [reflexivity | lia].
Qed.

(** What a loop collects row by row does not depend on where the rows
    are cut into chunks. *)
Lemma frames_of_pieces {A : Type} (collect : frame -> list A) (columns : list string) (n : nat)
  (rows : list (list (option string))) :
  (forall rows rows', collect (mkFrame columns (rows ++ rows'))
                      = (collect (mkFrame columns rows) ++ collect (mkFrame columns rows'))%list) ->
  concat (map collect (frames_of columns n rows)) = collect (mkFrame columns rows).
Proof.
  intros Happ. assert (Hnil : collect (mkFrame columns []) = []).
  { pose proof (Happ [] []) as H. simpl in H. apply (f_equal (@length A)) in H.
    rewrite length_app in H. destruct (collect (mkFrame columns [])); [reflexivity |].
    simpl in H. lia. }
  destruct rows as [| row rest]; [simpl; now rewrite app_nil_r |]. unfold frames_of.
  rewrite <- (chunks_of_concat n (row :: rest)) at 2.
  induction (chunks_of n (row :: rest)) as [| piece pieces IH]; simpl;
    [now rewrite Hnil | now rewrite Happ, IH].
Qed.

(** ** The reader *)

Lemma length_fit (width : nat) (fields : list string) :
  Forall (fun row => length row = width) (fit width fields).
Proof.
  unfold fit. destruct (width <? length fields)%nat eqn:E; constructor; [| constructor].
  apply Nat.ltb_ge in E. rewrite length_app, length_map, repeat_length. lia.
Qed.

Lemma length_data_rows (width : nat) (lines : list string) :
  Forall (fun row => length row = width) (data_rows width lines).
Proof.
  unfold data_rows. apply Forall_flat_map, Forall_forall. intros line _. apply length_fit.
Qed.

Lemma length_project {A : Type} (d : A) (positions : list nat) (row : list A) :
  length (project d positions row) = length positions.
Proof. apply length_map. Qed.

(** The table is rectangular: every row has a cell for every column. *)
Lemma parse_rectangular (lines : list string) (args : read_args) (columns : list string)
  (rows : list (list (option string))) :
  parse lines args = Ok (columns, rows) ->
  Forall (fun row => length row = length columns) rows.
Proof.
  unfold parse. intros H. apply bind_Ok in H as (header & _ & H).
  destruct (usecols args) as [cols |].
  - destruct (missing cols header); [| discriminate]. injection H as <- <-.
    apply Forall_map_iff, Forall_forall. intros row _. now rewrite !length_project.
  - injection H as <- <-. apply length_data_rows.
Qed.

(** The chunks are the pieces of the table. *)
Lemma read_csv_frames (lines : list string) (args : read_args) (n : nat) :
  chunksize args = S n ->
  read_csv lines args
  = (table <- parse lines args ;; Ok (frames_of (fst table) n (snd table))).
Proof.
  intros Hn. unfold read_csv. rewrite Hn. cbn [Nat.eqb].
  destruct (parse lines args) as [[columns rows] | e]; [| reflexivity]. cbn [bind fst snd].
  f_equal. apply iterate_frames. unfold enough. simpl. lia.
Qed.

Lemma read_csv_zero (lines : list string) (args : read_args) :
  chunksize args = 0%nat ->
  read_csv lines args = Err (ValueError "'chunksize' must be an integer >=1").
Proof. intros H. unfold read_csv. now rewrite H. Qed.

(** ** The typed chunks *)

Section TypedFacts.
Context {C : Cells}.

Lemma typed_rows_app (columns : list string) (rows rows' : list (list (option string))) :
  typed_rows (mkFrame columns (rows ++ rows'))
  = (typed_rows (mkFrame columns rows) ++ typed_rows (mkFrame columns rows'))%list.
Proof. unfold typed_rows. simpl. apply flat_map_app. Qed.

Lemma guarded_rows_columns (columns : list string) (rows : list (list (option string))) :
  guarded_rows (mkFrame columns rows)
  = if existsb (String.eqb "vehicle_id") columns && existsb (String.eqb "lap") columns
    then typed_rows (mkFrame columns rows) else [].
Proof. reflexivity. Qed.

Lemma guarded_rows_app (columns : list string) (rows rows' : list (list (option string))) :
  guarded_rows (mkFrame columns (rows ++ rows'))
  = (guarded_rows (mkFrame columns rows) ++ guarded_rows (mkFrame columns rows'))%list.
Proof.
  rewrite !guarded_rows_columns. destruct (_ && _); [apply typed_rows_app | reflexivity].
Qed.

(** The rows that the loop looks at do not depend on where the file is
    cut into chunks. *)
Lemma guarded_rows_pieces (columns : list string) (n : nat)
  (rows : list (list (option string))) :
  concat (map guarded_rows (frames_of columns n rows)) = guarded_rows (mkFrame columns rows).
Proof. apply frames_of_pieces. apply guarded_rows_app. Qed.

Lemma selected_columns (columns : list string) (rows : list (list (option string)))
  (v : string) (lap : Z) :
  selected v lap (mkFrame columns rows)
  = if existsb (String.eqb "vehicle_id") columns && existsb (String.eqb "lap") columns
    then filter (row_matches columns v lap) rows else [].
Proof. reflexivity. Qed.

Lemma selected_app (columns : list string) (rows rows' : list (list (option string)))
  (v : string) (lap : Z) :
  selected v lap (mkFrame columns (rows ++ rows'))
  = (selected v lap (mkFrame columns rows) ++ selected v lap (mkFrame columns rows'))%list.
Proof.
  rewrite !selected_columns. destruct (_ && _); [apply filter_app | reflexivity].
Qed.

(** The rows that pass the filter do not depend on where the file is
    cut into chunks. *)
Lemma selected_pieces (columns : list string) (n : nat) (rows : list (list (option string)))
  (v : string) (lap : Z) :
  concat (map (selected v lap) (frames_of columns n rows)) = selected v lap (mkFrame columns rows).
Proof. apply frames_of_pieces. intros rows1 rows2. apply selected_app. Qed.

(** What the loop has appended: chunks of the columns of the file,
    none of them empty, holding together the rows that pass. *)
Lemma filtered_rows (chunks : list frame) (v : string) (lap : Z) :
  flat_map frame_rows (flat_map (filtered v lap) chunks) = concat (map (selected v lap) chunks).
Proof.
  induction chunks as [| chunk chunks IH]; [reflexivity |]. cbn [flat_map map concat].
  rewrite flat_map_app, IH. f_equal. unfold filtered.
  destruct (selected v lap chunk); [reflexivity | simpl; now rewrite app_nil_r].
Qed.

Lemma filtered_columns (columns : list string) (chunks : list frame) (v : string) (lap : Z) :
  Forall (fun chunk => frame_columns chunk = columns) chunks ->
  Forall (fun chunk => frame_columns chunk = columns /\ frame_rows chunk <> [])
         (flat_map (filtered v lap) chunks).
Proof.
  induction 1 as [| chunk chunks Hc _ IH]; [constructor |]. cbn [flat_map].
  apply Forall_app. split; [| exact IH]. unfold filtered.
  destruct (selected v lap chunk); repeat constructor; [exact Hc | discriminate].
Qed.

Lemma typed_rows_frames (columns : list string) (chunks : list frame) :
  Forall (fun chunk => frame_columns chunk = columns /\ frame_rows chunk <> []) chunks ->
  flat_map typed_rows chunks = typed_rows (mkFrame columns (flat_map frame_rows chunks)).
Proof.
  induction 1 as [| [cols rows] chunks [Hc _] _ IH]; [reflexivity |]. cbn [flat_map].
  simpl in Hc. subst cols. now rewrite typed_rows_app, IH.
Qed.

(** A typed row passes the filter of the typed rows exactly when its
    cells pass the filter of the loop. *)
Lemma raw_row_of_matches (columns : list string) (row : list (option string)) (r : raw_row)
  (v : string) (lap : Z) :
  raw_row_of columns row = Some r -> matches v lap r = row_matches columns v lap row.
Proof.
  unfold raw_row_of, row_matches, matches, then_.
  destruct (cell_at columns row "timestamp") as [t |]; [| discriminate].
  destruct (to_datetime t); [| discriminate].
  destruct (cell_at columns row "vehicle_id"); [| discriminate].
  destruct (lap_of columns row); [| discriminate].
  destruct (cell_at columns row "telemetry_name"); [| discriminate].
  now intros [= <-].
Qed.

Lemma typed_rows_filter (columns : list string) (rows : list (list (option string)))
  (v : string) (lap : Z) :
  typed_rows (mkFrame columns (filter (row_matches columns v lap) rows))
  = filter (matches v lap) (typed_rows (mkFrame columns rows)).
Proof.
  unfold typed_rows. cbn [frame_columns frame_rows].
  induction rows as [| row rows IH]; [reflexivity |]. cbn [filter flat_map].
  rewrite filter_app, <- IH.
  destruct (raw_row_of columns row) as [r |] eqn:E.
  - cbn [filter]. rewrite (raw_row_of_matches _ _ _ v lap E).
    destruct (row_matches columns v lap row); cbn [flat_map]; [now rewrite E | reflexivity].
  - destruct (row_matches columns v lap row); cbn [flat_map]; [now rewrite E | reflexivity].
Qed.

Lemma typed_selected (chunk : frame) (v : string) (lap : Z) :
  typed_rows (mkFrame (frame_columns chunk) (selected v lap chunk))
  = filter (matches v lap) (guarded_rows chunk).
Proof.
  unfold selected, guarded_rows. destruct (_ && _); [| reflexivity].
  destruct chunk as [columns rows]. apply typed_rows_filter.
Qed.

Lemma has_column_In (name : string) (chunk : frame) :
  has_column name chunk = true <-> In name (frame_columns chunk).
Proof.
  unfold has_column. rewrite existsb_exists. split.
  - intros (c & Hc & E). now apply String.eqb_eq in E as ->.
  - intros H. exists name. split; [exact H | apply String.eqb_refl].
Qed.

End TypedFacts.

(** ** The calls of the sources *)

Lemma chunk_size_pos : chunk_size = S (pred chunk_size).
Proof. unfold chunk_size. lia. Qed.

Lemma has_header_nonblank (line : string) : has_header line = true -> is_blank line = false.
Proof. now destruct line. Qed.

(** The first line of a file with a header is the line that the
    reader takes the columns from. *)
Lemma header_line (lines : list string) :
  has_header (readline lines) = true ->
  exists rest, lines = readline lines :: rest
               /\ filter (fun line => negb (is_blank line)) lines
                  = readline lines :: filter (fun line => negb (is_blank line)) rest.
Proof.
  destruct lines as [| first rest]; [discriminate |]. simpl. intros H.
  exists rest. apply has_header_nonblank in H. now rewrite H.
Qed.

(** With the arguments of [process_lap_data] the reader does not
    raise: the table of the file. *)
Lemma parse_processor (lines : list string) :
  exists columns rows,
    parse lines (processor_args (has_header (readline lines))) = Ok (columns, rows)
    /\ columns = (if has_header (readline lines) then split_fields (readline lines)
                  else names).
Proof.
  unfold parse, processor_args, header_of, given_names. cbn [arg_names usecols].
  destruct (has_header (readline lines)) eqn:Hh; [| cbn [bind]; eauto].
  destruct (header_line lines Hh) as (rest & _ & ->). cbn [bind]. eauto.
Qed.

Section FileFacts.
Context {C : Cells} {M : MathLib.MathLib}.

(** The whole file as one chunk. *)
Definition file_frame (lines : list string) : frame :=
  match parse lines (processor_args (has_header (readline lines))) with
  | Ok (columns, rows) => mkFrame columns rows
  | Err _ => mkFrame [] []
  end.

(** The rows of the file as the processor reads them. *)
Definition file_rows (lines : list string) : list raw_row := guarded_rows (file_frame lines).

(** The chunks that the loop has appended carry on as the one chunk of
    their rows. *)
Lemma process_chunks_concat (columns : list string) (chunks : list frame) (v : string)
  (lap : Z) :
  Forall (fun chunk => frame_columns chunk = columns /\ frame_rows chunk <> []) chunks ->
  process_chunks chunks v lap
  = match flat_map frame_rows chunks with
    | [] => Err (ValueError (no_data_message v lap))
    | rows => process_pivot (pivot_table (typed_rows (mkFrame columns rows)))
    end.
Proof.
  intros H. destruct chunks as [| chunk chunks]; [reflexivity |].
  unfold process_chunks. rewrite (typed_rows_frames columns _ H).
  inversion H as [| ? ? [_ Hne] _]. cbn [flat_map].
  destruct (frame_rows chunk); [contradiction | reflexivity].
Qed.

Lemma process_chunks_filtered (chunk : frame) (v : string) (lap : Z) :
  process_chunks (filtered v lap chunk) v lap
  = match selected v lap chunk with
    | [] => Err (ValueError (no_data_message v lap))
    | rows => process_pivot (pivot_table (typed_rows (mkFrame (frame_columns chunk) rows)))
    end.
Proof.
  unfold filtered. destruct (selected v lap chunk); [reflexivity |].
  unfold process_chunks. cbn [flat_map]. now rewrite app_nil_r.
Qed.

(** The loop over the chunks of the file is its body on the whole file
    as one chunk. *)
Lemma process_lap_file_frame (lines : list string) (path vehicle_id : string) (lap : Z) :
  process_lap_file (Some lines) path vehicle_id lap
  = process_chunks (filtered vehicle_id lap (file_frame lines)) vehicle_id lap.
Proof.
  unfold process_lap_file, file_frame.
  rewrite (read_csv_frames _ _ (pred chunk_size)) by apply chunk_size_pos.
  destruct (parse_processor lines) as (columns & rows & -> & _). cbn [bind fst snd].
  rewrite (process_chunks_concat columns), process_chunks_filtered.
  - now rewrite filtered_rows, selected_pieces.
  - apply filtered_columns. eapply Forall_impl; [| apply frames_of_columns].
    now intros chunk [H _].
Qed.

(** On the typed rows: the function is [process_lap_data] on the rows
    of the file, unless every row that passes the filter lacks a time
    or a channel name. *)
Lemma process_lap_file_rows (lines : list string) (path vehicle_id : string) (lap : Z) :
  (selected vehicle_id lap (file_frame lines) <> [] ->
   filter (matches vehicle_id lap) (file_rows lines) <> []) ->
  process_lap_file (Some lines) path vehicle_id lap
  = process_lap_data [file_rows lines] vehicle_id lap.
Proof.
  intros H. rewrite process_lap_file_frame, process_chunks_filtered.
  unfold process_lap_data. rewrite load_and_filter_spec. cbn [concat]. rewrite app_nil_r.
  unfold file_rows in *. rewrite <- typed_selected in *.
  destruct (selected vehicle_id lap (file_frame lines)) as [| row rows]; [reflexivity |].
  destruct (typed_rows _); [now destruct H | reflexivity].
Qed.

(** Without a header the names are given and the first line that is
    not blank is taken for the header they replace. *)
Lemma file_frame_headerless (first : string) (data : list string) :
  has_header first = false -> is_blank first = false ->
  file_frame (first :: data)
  = mkFrame names (flat_map (fun line => fit 13 (split_fields line))
                            (filter (fun line => negb (is_blank line)) data)).
Proof.
  intros Hh Hb. unfold file_frame, parse, processor_args, header_of, given_names, data_rows.
  cbn [readline hd arg_names usecols]. rewrite Hh. cbn [bind filter]. now rewrite Hb.
Qed.

(** With a header that lacks one of the two columns the loop looks at
    no row. *)
Lemma file_frame_without_columns (first : string) (data : list string) (v : string) (lap : Z) :
  has_header first = true ->
  ~ In "vehicle_id" (split_fields first) \/ ~ In "lap" (split_fields first) ->
  selected v lap (file_frame (first :: data)) = [].
Proof.
  intros Hh Hc. unfold file_frame.
  destruct (parse_processor (first :: data)) as (columns & rows & -> & ->).
  cbn [readline hd]. rewrite Hh. unfold selected.
  destruct (has_column "vehicle_id" _) eqn:Ev; [| reflexivity].
  destruct (has_column "lap" _) eqn:El; [| reflexivity].
  apply has_column_In in Ev, El. tauto.
Qed.

End FileFacts.

(** ** Printing a table *)

(** The lines of a table: a line of names and a line per row. *)
Definition print_table (header : list string) (rows : list (list string)) : list string :=
  join_fields "," header :: map (join_fields ",") rows.

(** A row that can be printed and read back: as wide as the header,
    no comma in a field, and not printed as a blank line. *)
Definition printable (width : nat) (row : list string) : Prop :=
  length row = width /\ forallb (free_of ",") row = true /\ is_blank (join_fields "," row) = false.

Lemma printable_fields (width : nat) (row : list string) :
  printable width row -> split_fields (join_fields "," row) = row.
Proof.
  intros (_ & Hf & Hb). apply split_at_join; [| exact Hf]. intros ->. discriminate.
Qed.

Lemma fit_exact (row : list string) : fit (length row) row = [map cell_of row].
Proof. unfold fit. now rewrite Nat.ltb_irrefl, Nat.sub_diag, app_nil_r. Qed.

Lemma data_rows_print (width : nat) (first : string) (rows : list (list string)) :
  is_blank first = false -> Forall (printable width) rows ->
  data_rows width (first :: map (join_fields ",") rows) = map (map cell_of) rows.
Proof.
  intros Hb Hr. unfold data_rows. cbn [filter]. rewrite Hb. cbn [negb tl].
  induction Hr as [| row rows Hrow _ IH]; [reflexivity |].
  destruct Hrow as (Hw & Hf & Hn). cbn [map filter]. rewrite Hn. cbn [negb flat_map].
  rewrite IH, (printable_fields width row) by (repeat split; assumption).
  now rewrite <- Hw, fit_exact.
Qed.

(** * Theorems *)

(** C33: the loop over the reader ends.  With a chunk size of at least
    one, one iteration per row and one more are enough: the iteration
    then gives the pieces of the rows (one empty chunk when there is no
    row) and any further fuel changes nothing. *)
Theorem reader_terminates (columns : list string) (n : nat)
  (rows : list (list (option string))) (fuel : nat) :
  let r := mkReader columns (S n) rows false in
  (enough r <= fuel)%nat ->
  iterate fuel r = iterate (enough r) r
  /\ iterate (enough r) r = frames_of columns n rows
  /\ (length (iterate fuel r) <= enough r)%nat.
Proof.
  intros r Hf. unfold enough, r in *. cbn [pending] in *.
  rewrite !iterate_frames by lia. repeat split.
  destruct rows as [| row rest]; [simpl; lia |]. unfold frames_of. rewrite length_map.
  pose proof (chunks_of_count n (row :: rest)). lia.
Qed.

(** With a chunk size of zero the iterator would give out empty chunks
    for ever: every unit of fuel yields one. *)
Theorem reader_size_zero_loops (fuel : nat) (columns : list string)
  (row : list (option string)) (rest : list (list (option string))) (started : bool) :
  length (iterate fuel (mkReader columns 0 (row :: rest) started)) = fuel.
Proof.
  revert started. induction fuel as [| fuel IH]; intros started; [reflexivity |].
  simpl. now rewrite IH.
Qed.

(** C34: what the reader gives is well formed: the chunks are not none,
    they all have the same columns, none holds more rows than the chunk
    size, and every row has exactly one cell per column. *)
Theorem read_csv_well_formed (lines : list string) (args : read_args) (chunks : list frame) :
  read_csv lines args = Ok chunks ->
  chunks <> []
  /\ exists columns,
       Forall (fun chunk => frame_columns chunk = columns
                            /\ (length (frame_rows chunk) <= chunksize args)%nat
                            /\ Forall (fun row => length row = length columns)
                                      (frame_rows chunk)) chunks.
Proof.
  destruct (chunksize args) as [| n] eqn:Hn; [now rewrite read_csv_zero |].
  rewrite (read_csv_frames _ _ n Hn). intros H.
  apply bind_Ok in H as ([columns rows] & Hp & [= <-]). cbn [fst snd].
  pose proof (parse_rectangular _ _ _ _ Hp) as Hrect.
  split; [destruct rows as [| row rest]; [discriminate |]; unfold frames_of;
          simp chunks_of; discriminate |].
  exists columns. pose proof (frames_of_columns columns n rows) as Hc.
  pose proof (frames_of_rows columns n rows) as Hrows.
  rewrite Forall_forall in Hc, Hrect |- *. intros chunk Hin.
  destruct (Hc chunk Hin) as [-> Hl]. repeat split; [exact Hl |].
  apply Forall_forall. intros row Hrow. apply Hrect. rewrite <- Hrows.
  apply in_concat. exists (frame_rows chunk). split; [now apply in_map | exact Hrow].
Qed.

(** Reading the lines printed for a table gives the table back, cut
    into pieces of the chunk size, an empty field being NaN. *)
Theorem read_csv_print_table (header : list string) (rows : list (list string)) (n : nat) :
  printable (length header) header -> Forall (printable (length header)) rows ->
  read_csv (print_table header rows) (mkArgs (S n) None None)
  = Ok (frames_of header n (map (map cell_of) rows)).
Proof.
  intros Hh Hr. rewrite (read_csv_frames _ (mkArgs (S n) None None) n eq_refl).
  unfold parse, header_of, print_table. cbn [arg_names usecols filter].
  destruct Hh as (Hw & Hf & Hb). rewrite Hb. cbn [negb bind].
  rewrite (printable_fields (length header) header) by (repeat split; assumption).
  now rewrite (data_rows_print _ _ _ Hb Hr).
Qed.

Section FileTheorems.
Context {C : Cells} {M : MathLib.MathLib}.

(** C16: [process_lap_data] on a file is the body of its loop on the
    whole file as one chunk, followed by the rest of the function: the
    reader does not raise with the arguments it is given, and the cut
    into chunks of 100000 rows does not show in the result. *)
Theorem process_lap_file_unchunked (lines : list string) (path vehicle_id : string) (lap : Z) :
  process_lap_file (Some lines) path vehicle_id lap
  = process_chunks (filtered vehicle_id lap (file_frame lines)) vehicle_id lap.
Proof. exact (process_lap_file_frame lines path vehicle_id lap). Qed.

(** C32: in a file without a header the first line is lost: the names
    are passed together with [header=0], so the reader takes the first
    line for a header and replaces it, whatever it holds. *)
Theorem headerless_first_line_lost (first first' : string) (data : list string)
  (path vehicle_id : string) (lap : Z) :
  has_header first = false -> is_blank first = false ->
  has_header first' = false -> is_blank first' = false ->
  process_lap_file (Some (first :: data)) path vehicle_id lap
  = process_lap_file (Some (first' :: data)) path vehicle_id lap.
Proof.
  intros Hh Hb Hh' Hb'. rewrite !process_lap_file_frame.
  now rewrite !file_frame_headerless.
Qed.

(** The header test is a substring test.  A first line that holds
    the text vehicle_id without having both a column vehicle_id and a
    column lap makes the loop skip every chunk, and the call raises the
    error of a lap without data, whatever the file holds. *)
Theorem header_without_columns (first : string) (data : list string)
  (path vehicle_id : string) (lap : Z) :
  has_header first = true ->
  ~ In "vehicle_id" (split_fields first) \/ ~ In "lap" (split_fields first) ->
  process_lap_file (Some (first :: data)) path vehicle_id lap
  = Err (ValueError (no_data_message vehicle_id lap)).
Proof.
  intros Hh Hc. rewrite process_lap_file_frame, process_chunks_filtered.
  now rewrite (file_frame_without_columns first data vehicle_id lap Hh Hc).
Qed.

(** The scans hide what goes wrong: without a file, and with a
    header that lacks a column of [usecols] (the reader raises), they
    return the empty list. *)
Theorem scans_hide_failures (first : string) (data : list string) (vehicle_id : string) :
  has_header first = true -> ~ In "vehicle_id" (split_fields first) ->
  vehicles_of_file None = [] /\ laps_of_file None vehicle_id = []
  /\ vehicles_of_file (Some (first :: data)) = []
  /\ laps_of_file (Some (first :: data)) vehicle_id = [].
Proof.
  intros Hh Hc. split; [reflexivity |]. split; [reflexivity |].
  assert (Hm : forall cols, exists c rest,
               missing ("vehicle_id" :: cols) (split_fields first) = c :: rest).
  { intros cols. unfold missing. cbn [filter].
    destruct (existsb (String.eqb "vehicle_id") (split_fields first)) eqn:E; [| simpl; eauto].
    apply existsb_exists in E as (c & Hin & E). apply String.eqb_eq in E as <-. tauto. }
  unfold vehicles_of_file, laps_of_file, scanned. cbn [readline hd]. rewrite Hh.
  rewrite !(read_csv_frames _ _ (pred chunk_size)) by apply chunk_size_pos.
  unfold parse, header_of. cbn [arg_names usecols vehicles_args laps_args given_names filter].
  rewrite (has_header_nonblank first Hh). cbn [negb bind].
  destruct (Hm []) as (c & rest & ->). destruct (Hm ["lap"]) as (c' & rest' & ->).
  split; reflexivity.
Qed.

End FileTheorems.

(** * Columns read with [usecols] *)

(** A column that [usecols] names is read as it stands in the file. *)
Lemma cell_at_project (cols header : list string) (row : list (option string))
  (name : string) :
  length row = length header -> In name cols ->
  cell_at (project "" (kept cols header) header) (project None (kept cols header) row) name
  = cell_at header row name.
Proof.
  intros Hlen Hin. unfold cell_at, project, kept.
  rewrite combine_map_same, (combine_nth_seq "" None header row Hlen), find_map_filter;
    [reflexivity |].
  intros i H. cbn [fst] in H. apply String.eqb_eq in H. apply existsb_exists.
  exists name. split; [exact Hin | rewrite H; apply String.eqb_refl].
Qed.

Section Scans.
Context {C : Cells}.

Lemma lap_of_project (cols header : list string) (row : list (option string)) :
  length row = length header -> In "lap" cols ->
  lap_of (project "" (kept cols header) header) (project None (kept cols header) row)
  = lap_of header row.
Proof. intros Hlen Hin. unfold lap_of. now rewrite cell_at_project. Qed.

Lemma typed_ids_app (columns : list string) (rows rows' : list (list (option string))) :
  typed_ids (mkFrame columns (rows ++ rows'))
  = (typed_ids (mkFrame columns rows) ++ typed_ids (mkFrame columns rows'))%list.
Proof. unfold typed_ids. simpl. apply map_app. Qed.

(** Read with the two columns, the rows of a scan are those of the
    table; read with the column of the vehicles, they keep the
    vehicles. *)
Lemma typed_ids_project (cols header : list string) (rows : list (list (option string))) :
  In "vehicle_id" cols -> Forall (fun row => length row = length header) rows ->
  let chunk := mkFrame (project "" (kept cols header) header)
                       (map (project None (kept cols header)) rows) in
  map id_vehicle (typed_ids chunk) = map id_vehicle (typed_ids (mkFrame header rows))
  /\ (In "lap" cols -> typed_ids chunk = typed_ids (mkFrame header rows)).
Proof.
  intros Hv Hrows. unfold typed_ids. cbn [frame_columns frame_rows]. rewrite !map_map.
  split; [| intros Hl]; apply map_ext_in; intros row Hrow;
    rewrite Forall_forall in Hrows; cbn [id_vehicle];
    rewrite ?cell_at_project, ?lap_of_project; auto.
Qed.

Lemma project_In (cols header : list string) (name : string) :
  In name cols -> In name header -> In name (project "" (kept cols header) header).
Proof.
  intros Hc Hh. destruct (In_nth _ _ "" Hh) as (i & Hi & E). unfold project, kept.
  apply in_map_iff. exists i. split; [exact E |]. apply filter_In.
  split; [apply in_seq; lia |]. apply existsb_exists. exists name.
  split; [exact Hc | rewrite E; apply String.eqb_refl].
Qed.

(** ** The table that a scan reads *)

Lemma missing_nil (cols header : list string) : incl cols header -> missing cols header = [].
Proof.
  intros H. unfold missing. induction cols as [| c cols IH]; [reflexivity |]. cbn [filter].
  assert (E : existsb (String.eqb c) header = true).
  { apply existsb_exists. exists c. split; [apply H; now left | apply String.eqb_refl]. }
  rewrite E. apply IH. intros x Hx. apply H. now right.
Qed.

Lemma missing_cons (cols header : list string) (c : string) :
  In c cols -> ~ In c header -> missing cols header <> [].
Proof.
  intros Hc Hh E. assert (Hin : In c (missing cols header)); [| now rewrite E in Hin].
  apply filter_In. split; [exact Hc |]. apply negb_true_iff.
  destruct (existsb (String.eqb c) header) eqn:Ex; [| reflexivity].
  apply existsb_exists in Ex as (x & Hx & Ex). apply String.eqb_eq in Ex as <-. contradiction.
Qed.

(** With [usecols] the reader raises when a column is not in the file
    and gives the columns named otherwise. *)
Lemma parse_usecols (lines : list string) (hh : bool) (n : nat) (cols columns : list string)
  (rows : list (list (option string))) :
  parse lines (processor_args hh) = Ok (columns, rows) ->
  parse lines (mkArgs n (Some cols) (given_names hh))
  = match missing cols columns with
    | [] => Ok (project "" (kept cols columns) columns,
                map (project None (kept cols columns)) rows)
    | _ :: _ => Err (ValueError "Usecols do not match columns, columns expected but not found")
    end.
Proof.
  unfold parse, processor_args, header_of. cbn [arg_names usecols].
  destruct (given_names hh) as [ns |]; cbn [bind].
  - now intros [= <- <-].
  - destruct (filter _ lines); cbn [bind]; [discriminate | now intros [= <- <-]].
Qed.

(** ** The two scans on the table of the file *)

(** A scan that reads columns of the file gets chunks that hold,
    together, the rows of the table of the file. *)
Lemma scanned_chunks (lines : list string) (cols : list string)
  (args_of : bool -> read_args) (guard : frame -> bool) :
  (forall hh, args_of hh = mkArgs chunk_size (Some cols) (given_names hh)) ->
  (forall columns, incl cols columns -> guard (mkFrame columns []) = true) ->
  (forall columns rows, guard (mkFrame columns rows) = guard (mkFrame columns [])) ->
  In "vehicle_id" cols -> incl cols (frame_columns (file_frame lines)) ->
  exists chunks,
    scanned (Some lines) args_of guard = Chunks chunks
    /\ map id_vehicle (concat chunks) = map id_vehicle (typed_ids (file_frame lines))
    /\ (In "lap" cols -> concat chunks = typed_ids (file_frame lines)).
Proof.
  intros Hargs Hguard Hrows Hv Hincl. unfold scanned, file_frame in *. rewrite Hargs.
  rewrite (read_csv_frames _ _ (pred chunk_size)) by apply chunk_size_pos.
  destruct (parse_processor lines) as (columns & rows & Hp & _). rewrite Hp in *.
  cbn [frame_columns] in Hincl.
  rewrite (parse_usecols _ _ _ _ _ _ Hp), (missing_nil _ _ Hincl). cbn [bind fst snd].
  eexists. split; [reflexivity |].
  set (pcols := project "" (kept cols columns) columns).
  rewrite (frames_of_pieces (fun chunk => if guard chunk then typed_ids chunk else [])).
  - rewrite Hrows, Hguard by (intros c Hc; apply project_In; auto).
    apply typed_ids_project; [exact Hv | exact (parse_rectangular _ _ _ _ Hp)].
  - intros rows1 rows2.
    rewrite (Hrows pcols (rows1 ++ rows2)%list), (Hrows pcols rows1), (Hrows pcols rows2).
    destruct (guard _); [apply typed_ids_app | reflexivity].
Qed.

(** A scan that asks for a column that the file does not have gets the
    error of the reader. *)
Lemma scanned_unreadable (lines : list string) (cols : list string) (c : string)
  (args_of : bool -> read_args) (guard : frame -> bool) :
  (forall hh, args_of hh = mkArgs chunk_size (Some cols) (given_names hh)) ->
  In c cols -> ~ In c (frame_columns (file_frame lines)) ->
  exists e, scanned (Some lines) args_of guard = Unreadable e.
Proof.
  intros Hargs Hc Hn. unfold scanned, file_frame in *. rewrite Hargs.
  rewrite (read_csv_frames _ _ (pred chunk_size)) by apply chunk_size_pos.
  destruct (parse_processor lines) as (columns & rows & Hp & _). rewrite Hp in *.
  cbn [frame_columns] in Hn. rewrite (parse_usecols _ _ _ _ _ _ Hp).
  destruct (missing cols columns) eqn:E; [destruct (missing_cons _ _ c Hc Hn E) |].
  cbn [bind]. eauto.
Qed.

End Scans.

Section ScanFacts.
Context {C : Cells}.

Lemma row_matches_spec (columns : list string) (v : string) (lap : Z)
  (row : list (option string)) :
  row_matches columns v lap row = true
  <-> cell_at columns row "vehicle_id" = Some v /\ lap_of columns row = Some lap.
Proof.
  unfold row_matches. destruct (cell_at columns row "vehicle_id") as [v' |];
    [| split; [discriminate | now intros [H _]]].
  destruct (lap_of columns row) as [l |]; [| split; [discriminate | now intros [_ H]]].
  rewrite andb_true_iff, String.eqb_eq, Z.eqb_eq. split; [now intros [-> ->] |].
  now intros [[= ->] [= ->]].
Qed.

(** [get_available_vehicles] on a file: the vehicles of the table of
    the file, or nothing when the file has no such column. *)
Lemma vehicles_of_file_table (lines : list string) :
  vehicles_of_file (Some lines)
  = if has_column "vehicle_id" (file_frame lines)
    then get_available_vehicles (Chunks [typed_ids (file_frame lines)])
    else [].
Proof.
  unfold vehicles_of_file. destruct (has_column "vehicle_id" (file_frame lines)) eqn:E.
  - apply has_column_In in E.
    destruct (scanned_chunks lines ["vehicle_id"] vehicles_args (has_column "vehicle_id"))
      as (chunks & -> & Hv & _); try reflexivity.
    + intros columns H. apply has_column_In, H. now left.
    + now left.
    + now intros c [<- | []].
    + simpl. rewrite !scan_vehicles_concat. cbn [concat]. now rewrite app_nil_r, Hv.
  - destruct (scanned_unreadable lines ["vehicle_id"] "vehicle_id" vehicles_args
                (has_column "vehicle_id")) as (e & ->); try reflexivity; [now left |].
    intros H. apply has_column_In in H. congruence.
Qed.

(** [get_available_laps] on a file: the laps of the vehicle in the
    table of the file, or nothing when the file lacks one of the two
    columns. *)
Lemma laps_of_file_table (lines : list string) (v : string) :
  laps_of_file (Some lines) v
  = if has_column "vehicle_id" (file_frame lines) && has_column "lap" (file_frame lines)
    then get_available_laps (Chunks [typed_ids (file_frame lines)]) v
    else [].
Proof.
  unfold laps_of_file.
  set (guard := fun chunk => has_column "vehicle_id" chunk && has_column "lap" chunk).
  destruct (has_column "vehicle_id" (file_frame lines)) eqn:Ev;
    [destruct (has_column "lap" (file_frame lines)) eqn:El |]; cbn [andb].
  - apply has_column_In in Ev, El.
    destruct (scanned_chunks lines ["vehicle_id"; "lap"] laps_args guard)
      as (chunks & -> & _ & Hl); try reflexivity.
    + intros columns H. apply andb_true_iff. split; apply has_column_In, H; simpl; auto.
    + now left.
    + now intros c [<- | [<- | []]].
    + simpl. rewrite !scan_laps_concat. cbn [concat]. rewrite app_nil_r, Hl; simpl; auto.
  - destruct (scanned_unreadable lines ["vehicle_id"; "lap"] "lap" laps_args guard)
      as (e & ->); try reflexivity; [simpl; auto |].
    intros H. apply has_column_In in H. congruence.
  - destruct (scanned_unreadable lines ["vehicle_id"; "lap"] "vehicle_id" laps_args guard)
      as (e & ->); try reflexivity; [simpl; auto |].
    intros H. apply has_column_In in H. congruence.
Qed.

(** A lap is offered for a vehicle exactly when a row of the file
    passes the filter of the loader. *)
Lemma laps_of_file_selected (lines : list string) (v : string) (lap : Z) :
  In lap (laps_of_file (Some lines) v) <-> selected v lap (file_frame lines) <> [].
Proof.
  rewrite laps_of_file_table. unfold selected.
  destruct (has_column "vehicle_id" _ && has_column "lap" _); [| now split].
  rewrite get_available_laps_In. cbn [concat]. rewrite app_nil_r. unfold typed_ids. split.
  - intros (r & Hr & Hv & Hl). apply in_map_iff in Hr as (row & <- & Hrow).
    cbn [id_vehicle id_lap] in Hv, Hl.
    assert (Hin : In row (filter (row_matches (frame_columns (file_frame lines)) v lap)
                                 (frame_rows (file_frame lines))))
      by (apply filter_In; split; [exact Hrow | now apply row_matches_spec]).
    intros E. now rewrite E in Hin.
  - destruct (filter _ _) as [| row rows] eqn:E; [now intros [] |]. intros _.
    assert (Hin : In row (filter (row_matches (frame_columns (file_frame lines)) v lap)
                                 (frame_rows (file_frame lines)))) by (rewrite E; now left).
    apply filter_In in Hin as [Hin Hm]. apply row_matches_spec in Hm as [Hv Hl].
    eexists. split; [apply in_map, Hin | now split].
Qed.

End ScanFacts.

(** * The sidebar against the loader *)

Section Offered.
Context {C : Cells} {M : MathLib.MathLib}.


End Offered.

(** * A small telemetry file *)

(** A line of the raw format. *)
Definition telemetry_line (lap name value time vehicle : string) : string :=
  join_fields "," ["x"; lap; "e"; "s"; "src"; "mt"; "ov"; "1"; name; value; time; vehicle; "7"].

(** A file with a header, a blank line, a line that is too short and a
    line that is too long. *)
Definition lap_lines : list string :=
  [ join_fields "," names;
    telemetry_line "3" "speed" "10.5" "0" "car1";
    "";
    telemetry_line "3" "speed" "20" "1000000000" "car1";
    telemetry_line "4" "ath" "-1.25" "5" "car2";
    "short,line";
    "1,2,3,4,5,6,7,8,9,10,11,12,13,14" ].

Definition lap_frames : list frame := get_or [] (read_csv lap_lines (mkArgs 2 None None)).

Lemma lap_frames_Ok : read_csv lap_lines (mkArgs 2 None None) = Ok lap_frames.
Proof. apply is_ok_get_or. reflexivity. Qed.

Lemma reader_terminates_witness :
  let r := mkReader ["lap"] 2 [[Some "1"]; [Some "2"]; [Some "3"]] false in
  iterate 9 r = iterate (enough r) r
  /\ iterate (enough r) r = frames_of ["lap"] 1 [[Some "1"]; [Some "2"]; [Some "3"]]
  /\ (length (iterate 9 r) <= enough r)%nat.
Proof.
  apply (reader_terminates ["lap"] 1 [[Some "1"]; [Some "2"]; [Some "3"]] 9).
  unfold enough. simpl. lia.
Defined.

Lemma read_csv_well_formed_witness :
  lap_frames <> []
  /\ exists columns,
       Forall (fun chunk => frame_columns chunk = columns
                            /\ (length (frame_rows chunk) <= 2)%nat
                            /\ Forall (fun row => length row = length columns)
                                      (frame_rows chunk)) lap_frames.
Proof. exact (read_csv_well_formed lap_lines (mkArgs 2 None None) lap_frames lap_frames_Ok). Defined.

Lemma read_csv_print_table_witness :
  read_csv (print_table ["lap"; "vehicle_id"] [["3"; "car1"]; [""; "car2"]; ["4"; ""]])
           (mkArgs 2 None None)
  = Ok (frames_of ["lap"; "vehicle_id"] 1
          [[Some "3"; Some "car1"]; [None; Some "car2"]; [Some "4"; None]]).
Proof.
  apply (read_csv_print_table ["lap"; "vehicle_id"] [["3"; "car1"]; [""; "car2"]; ["4"; ""]] 1);
    [| repeat apply Forall_cons; [.. | apply Forall_nil]];
    (split; [reflexivity | split; reflexivity]).
Defined.

(** The one row of a file without a header is not found. *)
Theorem headerless_single_row :
  process_lap_file (C := decimal_cells) (M := MathLib.rational_math)
    (Some [telemetry_line "3" "speed" "10.5" "0" "car1"]) "lap.csv" "car1" 3
  = Err (ValueError "No data found for car1 Lap 3").
Proof. rewrite process_lap_file_frame. reflexivity. Qed.

Lemma headerless_first_line_lost_witness :
  process_lap_file (C := decimal_cells) (M := MathLib.rational_math)
    (Some (telemetry_line "3" "speed" "10.5" "0" "car1" :: tl lap_lines)) "lap.csv" "car1" 3
  = process_lap_file (C := decimal_cells) (M := MathLib.rational_math)
      (Some ("a line that is lost" :: tl lap_lines)) "lap.csv" "car1" 3.
Proof.
  apply (headerless_first_line_lost (C := decimal_cells) (M := MathLib.rational_math));
    reflexivity.
Defined.

Definition short_header : string :=
  "timestamp,original_vehicle_id,lap,telemetry_name,telemetry_value".

Lemma header_without_columns_witness :
  process_lap_file (C := decimal_cells) (M := MathLib.rational_math)
    (Some [short_header; "0,car1,3,speed,10"]) "lap.csv" "car1" 3
  = Err (ValueError (no_data_message "car1" 3)).
Proof.
  apply (header_without_columns (C := decimal_cells) (M := MathLib.rational_math));
    [reflexivity | left; simpl; intuition discriminate].
Defined.

Lemma scans_hide_failures_witness :
  vehicles_of_file (C := decimal_cells) None = []
  /\ laps_of_file (C := decimal_cells) None "car1" = []
  /\ vehicles_of_file (C := decimal_cells) (Some [short_header; "0,car1,3,speed,10"]) = []
  /\ laps_of_file (C := decimal_cells) (Some [short_header; "0,car1,3,speed,10"]) "car1" = [].
Proof.
  apply (scans_hide_failures (C := decimal_cells) short_header ["0,car1,3,speed,10"] "car1");
    [reflexivity | simpl; intuition discriminate].
Defined.

(** ** Lines that are too short or too long *)

(** A line with fewer fields than columns is not skipped: it becomes a
    row whose missing cells are NaN.  Only a line with more fields than
    columns is skipped. *)
Theorem short_line_is_a_row (width : nat) (fields : list string) :
  (length fields <= width)%nat ->
  fit width fields = [(map cell_of fields ++ repeat None (width - length fields))%list].
Proof. intros H. unfold fit. apply Nat.ltb_ge in H. now rewrite H. Qed.

Lemma short_line_is_a_row_witness :
  fit 3 ["short"; "line"] = [[Some "short"; Some "line"; None]].
Proof. apply (short_line_is_a_row 3 ["short"; "line"]). simpl. lia. Defined.
