(* ===== verification/Pipeline.v ===== *)
(** * Pipeline: the analysis run of src/app.py

    The run loads the lap, segments it, computes the metrics of every
    segment and their fused index, copies the per-segment columns back
    onto every sample with a left merge, and hands the merged table to the
    insights and to the summary line of the dashboard.

    Here the run is the function from the loaded table and the number
    of segments to the merged table and the insights; the page around
    it, with its widgets, its session state and its caches, is in
    [Dashboard].  [analysis_outcome] lists the ways in which the run
    ends, with the condition on the table that leads to each. *)

From Stdlib Require Import String QArith Qround Qminmax Qabs Lqa Lia ZArith Bool.
From Stdlib Require Import List Permutation Sorted SetoidList Morphisms Setoid.
From S2P Require Import Prelude MathLib Series Frame Segmenter CliModel Metrics.
From S2P Require Import Processor Insights Discovery.
Import ListNotations.
#[local] Open Scope pipeline_scope.
#[local] Open Scope string_scope.

(** ** The left merge *)

(** A sample of the segmented table with the columns of its metrics
    row, or with NaN in their place when there is none. *)
Definition join (r : seg_row) (m : option cli_row) : final_row :=
  match m with
  | Some c =>
      mkFinal r (segment_id r) (CLI c) (CLI_smooth c) (steering_entropy (metrics c))
              (throttle_jerk (metrics c)) (brake_panic (metrics c))
              (lat_instability (metrics c)) (long_jerk (metrics c))
  | None => mkFinal r (segment_id r) None None None None None None None
  end.

Definition matching (r : seg_row) (metrics_df : list cli_row) : list cli_row :=
  filter (fun c => (m_segment_id (metrics c) =? segment_id r)%Z) metrics_df.

(** [pd.merge(df_segmented, metrics_df[metric_cols], on='segment_id',
    how='left')] followed by [section_id = segment_id]: the rows of the
    left table in their order, each once per matching metrics row. *)
Definition merge_left (df_segmented : list seg_row) (metrics_df : list cli_row)
  : list final_row :=
  flat_map (fun r => match matching r metrics_df with
                     | [] => [join r None]
                     | ms => map (fun c => join r (Some c)) ms
                     end) df_segmented.

(** ** The run *)

Section Run.
Context {M : MathLib}.

(** What the run keeps in the session: the merged table and the
    metrics table. *)
Record session : Type := mkSession {
  final_df : list final_row;
  metrics_df : list cli_row
}.

(** The body of the run after the load. *)
Definition analyse (df : list sample) (num_segments : Z) : result session :=
  df_segmented <- segment_lap df num_segments ;;
  let metrics_df := compute_segment_metrics df_segmented in
  metrics_df <- compute_cli metrics_df ;;
  Ok (mkSession (merge_left df_segmented metrics_df) metrics_df).

(** The session that the run stores for a segmented table that has
    rows. *)
Definition session_of (df_segmented : list seg_row) : session :=
  let metrics_df := cli_table (compute_segment_metrics df_segmented) in
  mkSession (merge_left df_segmented metrics_df) metrics_df.

(** The three ways in which the body of the run ends. *)
Inductive analysis_outcome (df : list sample) (n : Z) : result session -> Prop :=
| outcome_no_rows :
    df = [] -> analysis_outcome df n (Err (KeyError "steering_entropy"))
| outcome_no_length :
    df <> [] -> zero_length df = true -> analysis_outcome df n (Err IntCastingNaNError)
| outcome_session (df_segmented : list seg_row) :
    df <> [] -> zero_length df = false -> segment_lap df n = Ok df_segmented ->
    length df_segmented = length df ->
    analysis_outcome df n (Ok (session_of df_segmented)).

(** [load_data.load_session]: the module defines no such function, so
    the attribute lookup fails. *)
Definition load_session : result (list sample) :=
  Err (AttributeError "module 'src.load_data' has no attribute 'load_session'").

(** The run with a loader. *)
Definition run_with (load : result (list sample)) (num_segments : Z) : result session :=
  df <- load ;;
  analyse df num_segments.

(** The run as the dashboard has it. *)
Definition run (num_segments : Z) : result session := run_with load_session num_segments.

(** The run with [processor.process_lap_data] as the loader. *)
Definition process (chunks : list (list raw_row)) (vehicle_id : string) (lap : Z)
  (num_segments : Z) : result session :=
  run_with (process_lap_data chunks vehicle_id lap) num_segments.

(** ** The summary line *)

(** A cell of a row: an integer, a float or a text. *)
Inductive cell_value : Type :=
| IntCell (z : Z)
| FloatCell (x : float)
| StrCell (s : string).

(** A row of the table of sections as the series that [.loc] returns:
    its values by column name. *)
Definition section_cells (s : section_insight) : list (string * cell_value) :=
  [("section_id", IntCell (s_section_id (section s)));
   ("CLI", FloatCell (s_CLI (section s)));
   ("CLI_smooth", FloatCell (s_CLI_smooth (section s)));
   ("steering_entropy", FloatCell (s_steering_entropy (section s)));
   ("throttle_jerk", FloatCell (s_throttle_jerk (section s)));
   ("brake_panic", FloatCell (s_brake_panic (section s)));
   ("lat_instability", FloatCell (s_lat_instability (section s)));
   ("long_jerk", FloatCell (s_long_jerk (section s)));
   ("Primary Cause", StrCell (Primary_Cause s))].

(** [row[col]] *)
Definition section_get (s : section_insight) (col : string) : result cell_value :=
  match dict_get col (section_cells s) with
  | Some v => Ok v
  | None => Err (KeyError col)
  end.

(** [results.get('segment_col', 'segment_id')]: the insights have no
    such key, so the default is used. *)
Definition segment_col : string := "segment_id".

(** The value shown as "Max Stress Segment". *)
Definition max_seg_val (results : insights) : result cell_value :=
  section_get (max_stress_segment results) segment_col.

(** The part of the page that follows a run that left a table that is
    not empty. *)
Definition summary (s : session) : result (option cell_value) :=
  match final_df s with
  | [] => Ok None
  | _ :: _ =>
      results <- compute_insights (final_df s) ;;
      v <- max_seg_val results ;;
      Ok (Some v)
  end.

End Run.

(** ** The file as the selectors see it *)

(** The two columns of a raw row that the discovery reads. *)
Definition id_columns (r : raw_row) : id_row :=
  mkIdRow (Some (raw_vehicle_id r)) (Some (raw_lap r)).

Definition id_chunks (chunks : list (list raw_row)) : telemetry_file :=
  Chunks (map (map id_columns) chunks).

(** ** Specification of the merged table *)

(** The row of the table of sections that a metrics row gives. *)
Definition section_of (c : cli_row) : section_row :=
  mkSection (m_segment_id (metrics c)) (CLI c) (CLI_smooth c) (steering_entropy (metrics c))
            (throttle_jerk (metrics c)) (brake_panic (metrics c))
            (lat_instability (metrics c)) (long_jerk (metrics c)).

Definition cli_key (c : cli_row) : Z := m_segment_id (metrics c).

(** A sample and the row that the merge makes of it. *)
Definition joined (metrics_df : list cli_row) (r : seg_row) (f : final_row) : Prop :=
  exists c, In c metrics_df /\ cli_key c = segment_id r /\ f = join r (Some c).

(** * Facts *)

(** ** The left merge *)

Lemma filter_unique {A : Type} (key : A -> Z) (l : list A) (c : A) :
  NoDup (map key l) -> In c l -> filter (fun x => (key x =? key c)%Z) l = [c].
Proof.
  induction l as [|a l IH]; simpl; [contradiction |]. intros Hnd Hc.
  inversion Hnd as [|? ? Hna Hnd']; subst. destruct Hc as [->|Hc].
  - rewrite Z.eqb_refl. f_equal. apply filter_nil. intros x Hx.
    apply Z.eqb_neq. intros E. apply Hna. rewrite <- E. now apply in_map.
  - destruct (key a =? key c)%Z eqn:E; [| now apply IH].
    apply Z.eqb_eq in E. exfalso. apply Hna. rewrite E. now apply in_map.
Qed.

Lemma matching_unique (r : seg_row) (metrics_df : list cli_row) (c : cli_row) :
  NoDup (map cli_key metrics_df) -> In c metrics_df -> cli_key c = segment_id r ->
  matching r metrics_df = [c].
Proof.
  intros Hnd Hc E. unfold matching. rewrite <- E.
  apply (filter_unique cli_key); assumption.
Qed.

(** With one metrics row for every segment id of the left table, the
    merge gives one row per sample, in order, with the columns of the
    sample's segment. *)
Lemma merge_left_total (df_segmented : list seg_row) (metrics_df : list cli_row) :
  NoDup (map cli_key metrics_df) ->
  (forall r, In r df_segmented -> In (segment_id r) (map cli_key metrics_df)) ->
  Forall2 (joined metrics_df) df_segmented (merge_left df_segmented metrics_df).
Proof.
  intros Hnd Hall. unfold merge_left.
  induction df_segmented as [|r df IH]; [constructor |]. simpl.
  destruct (proj1 (in_map_iff _ _ _) (Hall r (or_introl eq_refl))) as (c & Hk & Hin).
  rewrite (matching_unique r metrics_df c Hnd Hin Hk). simpl. constructor.
  - exists c. auto.
  - apply IH. intros r' Hr'. apply Hall. now right.
Qed.

Lemma joined_sample (metrics_df : list cli_row) (l : list seg_row) (fs : list final_row) :
  Forall2 (joined metrics_df) l fs ->
  map f_sample fs = l /\ map section_id fs = map segment_id l.
Proof.
  induction 1 as [|r f l fs (c & _ & _ & ->) _ [IH1 IH2]]; [split; reflexivity |].
  simpl. now rewrite IH1, IH2.
Qed.



(** ** The run *)

Section RunFacts.
Context {M : MathLib}.

Lemma compute_cli_keys (df : list metrics_row) :
  map cli_key (cli_table df) = map m_segment_id df.
Proof.
  unfold cli_key. rewrite <- (map_map metrics m_segment_id). f_equal.
  rewrite compute_cli_unfold. unfold compute_cli_spec. rewrite map_map. simpl.
  change (fun x => fst x) with (@fst metrics_row float).
  apply map_fst_combine. now rewrite rolling_mean_length, length_map.
Qed.

Lemma metrics_keys (df_segmented : list seg_row) :
  map cli_key (cli_table (compute_segment_metrics df_segmented))
  = unique_sorted (map segment_id df_segmented).
Proof.
  rewrite compute_cli_keys, compute_segment_metrics_map, map_map. simpl. apply map_id.
Qed.

Lemma analyse_Ok_inv (df : list sample) (n : Z) (s : session) :
  analyse df n = Ok s ->
  exists df_segmented,
    segment_lap df n = Ok df_segmented
    /\ metrics_df s = cli_table (compute_segment_metrics df_segmented)
    /\ final_df s = merge_left df_segmented (metrics_df s).
Proof.
  unfold analyse. intros H. apply bind_Ok in H as (seg & Hseg & H).
  apply bind_Ok in H as (m & [_ ->]%compute_cli_Ok & [= <-]). eauto.
Qed.

Lemma analyse_joined (df : list sample) (n : Z) (s : session) (df_segmented : list seg_row) :
  analyse df n = Ok s -> segment_lap df n = Ok df_segmented ->
  Forall2 (joined (metrics_df s)) df_segmented (final_df s).
Proof.
  intros H Hseg. apply analyse_Ok_inv in H as (seg & Hseg' & Hm & ->).
  rewrite Hseg in Hseg'. injection Hseg' as <-. rewrite Hm.
  apply merge_left_total; rewrite metrics_keys.
  - apply StronglySorted_lt_NoDup, unique_sorted_sorted.
  - intros r Hr. apply unique_sorted_In, in_map, Hr.
Qed.

(** Every sample of the merged table carries scores that are NaN or in
    [0, 1]. *)
Lemma analyse_scores_in_unit (df : list sample) (n : Z) (s : session) :
  analyse df n = Ok s ->
  Forall (fun f => fholds in_unit (f_CLI f) /\ fholds in_unit (f_CLI_smooth f)) (final_df s).
Proof.
  intros Ha. destruct (analyse_Ok_inv df n s Ha) as (seg & Hseg & Hm & _).
  pose proof (analyse_joined df n s seg Ha Hseg) as Hj. rewrite Hm in Hj.
  pose proof (compute_cli_unit (compute_segment_metrics seg)) as Hu.
  destruct (compute_cli_smooth_column (compute_segment_metrics seg)) as [_ Hs].
  rewrite Forall_forall in Hu, Hs.
  induction Hj as [| r f l fs (c & Hc & _ & ->) _ IH]; constructor; [| exact IH].
  simpl. split; [apply (Hu c Hc) | apply (Hs c Hc)].
Qed.

End RunFacts.

(** ** How the run ends *)

Lemma analysis_ends {M : MathLib} (df : list sample) (n : Z) :
  analysis_outcome df n (analyse df n).
Proof.
  destruct df as [|r df]; [now constructor |].
  unfold analyse. destruct (segment_lap (r :: df) n) as [seg|e] eqn:Hseg; cbn [bind].
  - pose proof (segment_lap_length _ _ _ Hseg) as Hlen.
    destruct (compute_segment_metrics seg) as [|m ms] eqn:Hm.
    + apply compute_segment_metrics_nil in Hm. subst seg. discriminate.
    + cbn [compute_cli bind]. rewrite <- Hm.
      apply (outcome_session _ _ seg); try easy.
      destruct (zero_length (r :: df)) eqn:Z; [| reflexivity].
      assert (H : segment_lap (r :: df) n = Err IntCastingNaNError)
        by (now apply segment_lap_raises).
      congruence.
  - apply segment_lap_raises in Hseg as [-> Hz]. now constructor.
Qed.

(** C12: the body of the run ends in one of three ways, and the table it
    is given decides which: a table without rows raises the KeyError of
    the first column that [compute_cli] reads (the metrics table of no
    segments has no columns), a table whose largest lap distance is zero
    raises in the integer cast of the segmenter, and every other table
    is analysed, whatever the number of segments asked for. *)
Theorem analyse_outcome {M : MathLib} (df : list sample) (n : Z) :
  analysis_outcome df n (analyse df n).
Proof. exact (analysis_ends df n). Qed.

(** A stored analysis has a row for every sample of a table that has
    rows. *)
Lemma analyse_Ok_rows {M : MathLib} (df : list sample) (n : Z) (s : session) :
  analyse df n = Ok s -> df <> [] /\ final_df s <> [].
Proof.
  intros Ha. destruct (analyse_Ok_inv df n s Ha) as (seg & Hseg & Hm & _).
  pose proof (analyse_joined df n s seg Ha Hseg) as Hj.
  apply Forall2_length in Hj. rewrite (segment_lap_length _ _ _ Hseg) in Hj.
  assert (Hne : df <> []).
  { intros ->. discriminate Ha. }
  split; [exact Hne |]. intros E. rewrite E in Hj. destruct df; [now apply Hne | discriminate].
Qed.

(** ** The table of sections of the merged table *)

Lemma NoDup_key_inj {A : Type} (key : A -> Z) (l : list A) (a b : A) :
  NoDup (map key l) -> In a l -> In b l -> key a = key b -> a = b.
Proof.
  induction l as [|x l IH]; simpl; [contradiction |]. intros Hnd Ha Hb E.
  inversion Hnd as [|? ? Hnx Hnd']; subst.
  destruct Ha as [->|Ha], Hb as [->|Hb]; auto.
  - exfalso. apply Hnx. rewrite E. now apply in_map.
  - exfalso. apply Hnx. rewrite <- E. now apply in_map.
Qed.

Lemma joined_group (metrics_df : list cli_row) (l : list seg_row) (fs : list final_row)
  (c : cli_row) :
  NoDup (map cli_key metrics_df) -> In c metrics_df ->
  Forall2 (joined metrics_df) l fs ->
  group_of section_id (cli_key c) fs
  = map (fun r => join r (Some c)) (group_of segment_id (cli_key c) l).
Proof.
  intros Hnd Hc. unfold group_of.
  induction 1 as [|r f l fs (c' & Hc' & Hk & ->) _ IH]; [reflexivity |]. simpl.
  destruct (segment_id r =? cli_key c)%Z eqn:E; [| exact IH].
  apply Z.eqb_eq in E. rewrite <- Hk in E.
  rewrite (NoDup_key_inj cli_key metrics_df c' c Hnd Hc' Hc E), IH. reflexivity.
Qed.

Lemma first_of_joined_group (c : cli_row) (g : list seg_row) :
  g <> [] -> first_of_group (cli_key c) (map (fun r => join r (Some c)) g) = section_of c.
Proof.
  intros Hg. unfold first_of_group, section_of. rewrite !map_map. simpl.
  rewrite !map_const_repeat, !first_known_const; [reflexivity | ..];
    destruct g; simpl; try lia; congruence.
Qed.

(** The merged table has one row per sample of the segmented
    table, in its order, and every row carries the index and the metrics
    of the row of the metrics table that has its segment id: the left
    merge leaves no NaN behind. *)
Theorem analyse_merges_every_sample {M : MathLib} (df : list sample) (n : Z) (s : session)
  (df_segmented : list seg_row) :
  analyse df n = Ok s -> segment_lap df n = Ok df_segmented ->
  map f_sample (final_df s) = df_segmented
  /\ Forall (fun f => section_id f = segment_id (f_sample f)
                      /\ exists c, In c (metrics_df s)
                                   /\ cli_key c = section_id f
                                   /\ f = join (f_sample f) (Some c)) (final_df s).
Proof.
  intros H Hseg. pose proof (analyse_joined df n s df_segmented H Hseg) as HJ.
  split; [apply (joined_sample _ _ _ HJ) |].
  clear H Hseg. induction HJ as [|r f l fs (c & Hc & Hk & ->) _ IH]; constructor; auto.
  simpl. split; [reflexivity |]. exists c. auto.
Qed.

Lemma sections_are_metrics {M : MathLib} (df : list sample) (n : Z) (s : session) :
  analyse df n = Ok s ->
  group_sections (final_df s) = map section_of (metrics_df s).
Proof.
  intros H. destruct (analyse_Ok_inv df n s H) as (seg & Hseg & Hm & Hf).
  pose proof (analyse_joined df n s seg H Hseg) as HJ.
  destruct (joined_sample _ _ _ HJ) as [_ Hids].
  assert (Hkeys : map cli_key (metrics_df s) = unique_sorted (map segment_id seg))
    by (rewrite Hm; apply metrics_keys).
  assert (Hnd : NoDup (map cli_key (metrics_df s)))
    by (rewrite Hkeys; apply StronglySorted_lt_NoDup, unique_sorted_sorted).
  unfold group_sections, groupby. rewrite map_map, Hids, <- Hkeys, map_map. simpl.
  apply map_ext_in. intros c Hc.
  rewrite (joined_group _ _ _ c Hnd Hc HJ). apply first_of_joined_group.
  apply group_of_nonempty, unique_sorted_In. rewrite <- Hkeys. now apply in_map.
Qed.

(** C4: grouping the merged table by section gives back the
    metrics table: the table of sections of the insights has the rows of
    the metrics table, in order, with their index and metrics. *)
Theorem analyse_sections_are_metrics {M : MathLib} (df : list sample) (n : Z) (s : session) :
  analyse df n = Ok s ->
  group_sections (final_df s) = map section_of (metrics_df s).
Proof. exact (sections_are_metrics df n s). Qed.

(** The summary line never shows the most stressful segment:
    it reads the column [segment_id] of a row of the table of sections,
    which has [section_id] in its place, so that after every run that
    leaves a table the lookup raises a KeyError. *)
Theorem summary_key_error (s : session) (results : insights) :
  final_df s <> [] -> compute_insights (final_df s) = Ok results ->
  summary s = Err (KeyError "segment_id").
Proof.
  intros Hne Hok. unfold summary. destruct (final_df s); [congruence |].
  rewrite Hok. reflexivity.
Qed.

(** When no raw speed is negative, segmenting keeps the
    samples of the processor in their order in time: the merged table has
    the rows of [process_lap_data], one for one. *)
Theorem process_keeps_time_order {M : MathLib} (chunks : list (list raw_row))
  (vehicle_id : string) (lap : Z) (num_segments : Z) (out : list sample) (s : session) :
  channel_values (fun x => 0 <= x) "speed"
    (filter (matches vehicle_id lap) (concat chunks)) ->
  process_lap_data chunks vehicle_id lap = Ok out ->
  process chunks vehicle_id lap num_segments = Ok s ->
  map (fun f => row (f_sample f)) (final_df s) = out.
Proof.
  intros Hc Hout H. unfold process, run_with in H. rewrite Hout in H. simpl in H.
  destruct (analyse_Ok_inv out num_segments s H) as (seg & Hseg & _).
  destruct (joined_sample _ _ _ (analyse_joined out num_segments s seg H Hseg)) as [E _].
  rewrite <- (map_map f_sample row), E.
  unfold segment_lap in Hseg. apply bind_Ok in Hseg as (ids & Hids & [= <-]).
  apply mapM_length in Hids. rewrite assign_segment_id_rows by now rewrite length_map.
  apply sort_values_sorted_id. rewrite (process_lap_data_columns _ _ _ _ Hout).
  apply dead_reckoning_sorted; auto using pivot_sorted with frame.
  apply required_column_pivot; [lra | exact Hc].
Qed.

Lemma cli_nan_single {M : MathLib} {L : MathLibLaws M} (df : list sample) (n : Z) (s : session) :
  analyse df n = Ok s ->
  exists df_segmented,
    segment_lap df n = Ok df_segmented
    /\ Forall (fun c => CLI c = None
                        <-> length (group_of segment_id (cli_key c) df_segmented) = 1%nat)
              (metrics_df s).
Proof.
  intros Ha. destruct (analyse_Ok_inv df n s Ha) as (seg & Hseg & -> & _).
  exists seg. split; [exact Hseg |]. apply Forall_forall. intros c Hc.
  pose proof (compute_cli_In _ _ Hc) as ([r sm] & -> & Hr & _). cbn [fst] in Hr.
  unfold cli_key. cbn [metrics CLI cli_row_of fst].
  rewrite <- (lat_instability_single seg r Hr). split.
  - intros Hnan. destruct (lat_instability r) eqn:El; [| reflexivity].
    pose proof (segment_metrics_finite seg) as Hf. rewrite Forall_forall in Hf.
    destruct (Hf r Hr) as ((e & He & _) & Ht & Hb & _).
    assert (Hfin : finite_metrics r) by (unfold finite_metrics; now rewrite He, El).
    pose proof (cli_of_Some _ r Hr Hfin) as Hn. now rewrite Hnan in Hn.
  - intros Hlat. apply (compute_cli_nan_lat _ _ Hc). exact Hlat.
Qed.

(** C37: the score of a section is NaN exactly when the section holds
    a single sample: the standard deviation of the lateral acceleration
    is NaN there, every other metric of every section is a number, and
    the normalisation and the weighted sum keep both facts. *)
Theorem analyse_cli_nan_iff {M : MathLib} {L : MathLibLaws M} (df : list sample) (n : Z) (s : session) :
  analyse df n = Ok s ->
  exists df_segmented,
    segment_lap df n = Ok df_segmented
    /\ Forall (fun c => CLI c = None
                        <-> length (group_of segment_id (cli_key c) df_segmented) = 1%nat)
              (metrics_df s).
Proof. exact (cli_nan_single df n s). Qed.

Lemma analyse_length {M : MathLib} (df : list sample) (n : Z) (s : session) :
  analyse df n = Ok s -> length (final_df s) = length df.
Proof.
  intros Ha. destruct (analyse_Ok_inv df n s Ha) as (seg & Hseg & _).
  rewrite <- (Forall2_length (analyse_joined df n s seg Ha Hseg)).
  destruct (segment_lap_rows df n seg Hseg) as [Hp _].
  now rewrite (Permutation_length Hp), length_map.
Qed.

(** The sections of the insights of an analysis are the rows of its
    metrics table. *)
Lemma insights_sections {M : MathLib} (df : list sample) (n : Z) (s : session)
  (results : insights) :
  analyse df n = Ok s -> compute_insights (final_df s) = Ok results ->
  map section (df_segments results) = map section_of (metrics_df s).
Proof.
  intros Ha Hr. destruct (compute_insights_Ok_inv _ _ Hr) as [-> _].
  rewrite with_causes_sections. exact (sections_are_metrics df n s Ha).
Qed.

(** The most stressful section of an analysis is a section of the lap;
    it holds the largest smoothed score, a number of [0, 1]. *)
Lemma max_stress_of_analysis {M : MathLib} (df : list sample) (n : Z) (s : session)
  (results : insights) :
  analyse df n = Ok s -> compute_insights (final_df s) = Ok results ->
  exists c v,
    In c (metrics_df s) /\ section (max_stress_segment results) = section_of c
    /\ max_cli results = Some v /\ 0 <= v <= 1
    /\ Forall (fun c' => fholds (fun x => x <= v) (CLI_smooth c')) (metrics_df s).
Proof.
  intros Ha Hr. pose proof (insights_sections df n s results Ha Hr) as Hsec.
  destruct (compute_insights_max_stress _ _ Hr) as (v & mx & Hv & Hmx & Hvm & Hin & Hall).
  apply (in_map section) in Hin. rewrite Hsec in Hin. apply in_map_iff in Hin as (c & Ec & Hc).
  assert (Hu : 0 <= mx <= 1).
  { destruct (analyse_Ok_inv df n s Ha) as (seg & _ & Hm & _).
    destruct (compute_cli_smooth_column (compute_segment_metrics seg)) as [_ Hu].
    rewrite <- Hm, Forall_forall in Hu. specialize (Hu c Hc).
    unfold cli_smooth in Hv. rewrite <- Ec in Hv. cbn [section_of s_CLI_smooth] in Hv.
    rewrite Hv in Hu. unfold fholds, in_unit in Hu. now rewrite <- Hvm. }
  exists c, mx. repeat split; auto; try apply Hu.
  apply Forall_forall. intros c' Hc'. apply (in_map section_of) in Hc'.
  rewrite <- Hsec in Hc'. apply in_map_iff in Hc' as (s' & Es & Hs').
  specialize (Hall s' Hs'). unfold cli_smooth in Hall. rewrite Es in Hall.
  cbn [section_of s_CLI_smooth] in Hall.
  destruct (CLI_smooth c'); [simpl in *; now rewrite <- Hvm | exact I].
Qed.

Lemma insights_alone {M : MathLib} {L : MathLibLaws M} (df : list sample) (n : Z)
  (s : session) :
  analyse df n = Ok s ->
  exists df_segmented,
    segment_lap df n = Ok df_segmented
    /\ ((exists e, compute_insights (final_df s) = Err e)
        <-> Forall (fun r => segment_count (segment_id r) df_segmented = 1%nat) df_segmented).
Proof.
  intros Ha. destruct (cli_nan_single df n s Ha) as (seg & Hseg & Hnan).
  exists seg. split; [exact Hseg |].
  rewrite compute_insights_Err_iff, (sections_are_metrics df n s Ha).
  rewrite <- (Forall_map_iff cli_smooth (fun x => x = None)). unfold cli_smooth.
  rewrite <- (map_map section s_CLI_smooth), with_causes_sections, map_map.
  cbn [section_of s_CLI_smooth].
  destruct (analyse_Ok_inv df n s Ha) as (seg' & Hseg' & Hm & _).
  rewrite Hseg in Hseg'. injection Hseg' as <-.
  pose proof (metrics_keys seg) as Hkeys. rewrite <- Hm in Hkeys.
  rewrite Hm at 1. rewrite (proj1 (compute_cli_smooth_column _)), rolling_mean_all_nan by lia.
  rewrite <- Hm, (Forall_map_iff CLI (fun x => x = None)).
  rewrite Forall_forall in Hnan. rewrite !Forall_forall. unfold segment_count. split; intros H.
  - intros r Hr. assert (Hk : In (segment_id r) (map cli_key (metrics_df s)))
      by (rewrite Hkeys; apply unique_sorted_In, in_map, Hr).
    apply in_map_iff in Hk as (c & <- & Hc). apply (Hnan c Hc), H, Hc.
  - intros c Hc. assert (Hk : In (cli_key c) (map segment_id seg))
      by (apply unique_sorted_In; rewrite <- Hkeys; apply in_map, Hc).
    apply in_map_iff in Hk as (r & E & Hr). apply (Hnan c Hc). rewrite <- E. apply H, Hr.
Qed.

(** The insights of an analysis fail exactly when no two samples of
    the lap share a segment: every score is NaN then, the smoothed
    scores too, and the lookup of the most stressful section finds no
    index. *)
Theorem insights_fail_iff_alone {M : MathLib} {L : MathLibLaws M} (df : list sample) (n : Z)
  (s : session) :
  analyse df n = Ok s ->
  exists df_segmented,
    segment_lap df n = Ok df_segmented
    /\ ((exists e, compute_insights (final_df s) = Err e)
        <-> Forall (fun r => segment_count (segment_id r) df_segmented = 1%nat) df_segmented).
Proof. exact (insights_alone df n s). Qed.

(** The laps that the selector offers for a vehicle are
    exactly the laps that the loader finds rows for: choosing one of
    them never raises "No data found", and no other lap loads. *)
Theorem offered_laps_load (chunks : list (list raw_row)) (vehicle_id : string) (lap : Z) :
  In lap (get_available_laps (id_chunks chunks) vehicle_id)
  <-> exists rows, load_and_filter chunks vehicle_id lap = Ok rows.
Proof.
  unfold id_chunks. rewrite get_available_laps_In, load_and_filter_spec, <- concat_map.
  split.
  - intros (r & Hr & Hv & Hl). apply in_map_iff in Hr as (raw & <- & Hraw).
    simpl in Hv, Hl. injection Hv as Hv. injection Hl as Hl.
    assert (Hin : In raw (filter (matches vehicle_id lap) (concat chunks)))
      by (apply filter_In; split; [exact Hraw | now apply matches_spec]).
    destruct (filter _ (concat chunks)); [contradiction | eauto].
  - intros (rows & H).
    destruct (filter (matches vehicle_id lap) (concat chunks)) as [|raw l] eqn:E;
      [discriminate |].
    assert (Hin : In raw (filter (matches vehicle_id lap) (concat chunks)))
      by (rewrite E; now left).
    apply filter_In in Hin as [Hin Hm]. apply matches_spec in Hm as [Hv Hl].
    exists (id_columns raw). split; [now apply in_map | simpl; now rewrite Hv, Hl].
Qed.

(** * The lap of four samples, segmented in three *)

Definition session4 : session :=
  get_or (mkSession [] []) (analyse (M := rational_math) lap4 3).

Lemma session4_Ok : analyse (M := rational_math) lap4 3 = Ok session4.
Proof. apply is_ok_get_or. reflexivity. Qed.

Definition lap_session : session :=
  get_or (mkSession [] []) (process (M := rational_math) lap_chunks "car1" 3 2).

Lemma lap_session_Ok : process (M := rational_math) lap_chunks "car1" 3 2 = Ok lap_session.
Proof. apply is_ok_get_or. reflexivity. Qed.

Lemma analyse_merges_every_sample_witness :
  map f_sample (final_df session4) = map (tag 3 3) (sort_values Laptrigger_lapdist_dls lap4)
  /\ Forall (fun f => section_id f = segment_id (f_sample f)
                      /\ exists c, In c (metrics_df session4)
                                   /\ cli_key c = section_id f
                                   /\ f = join (f_sample f) (Some c)) (final_df session4).
Proof.
  apply (analyse_merges_every_sample (M := rational_math) lap4 3);
    [apply session4_Ok | reflexivity].
Defined.

Lemma analyse_sections_are_metrics_witness :
  group_sections (final_df session4) = map section_of (metrics_df session4).
Proof. apply (analyse_sections_are_metrics (M := rational_math) lap4 3), session4_Ok. Defined.

Lemma summary_key_error_witness : summary session4 = Err (KeyError "segment_id").
Proof.
  apply (summary_key_error session4
           (get_or (mkInsights [] [] None None "" no_section no_section [])
                   (compute_insights (final_df session4)))).
  - intros E. apply (f_equal (@length final_row)) in E. discriminate E.
  - apply is_ok_get_or. reflexivity.
Defined.

Lemma process_keeps_time_order_witness :
  map (fun f => row (f_sample f)) (final_df lap_session) = lap_out.
Proof.
  apply (process_keeps_time_order (M := rational_math) lap_chunks "car1" 3 2);
    [check_channel | apply lap_out_Ok | apply lap_session_Ok].
Defined.

Lemma analyse_cli_nan_iff_witness :
  exists df_segmented,
    segment_lap lap4 3 = Ok df_segmented
    /\ Forall (fun c => CLI c = None
                        <-> length (group_of segment_id (cli_key c) df_segmented) = 1%nat)
              (metrics_df session4).
Proof. exact (analyse_cli_nan_iff (M := rational_math) lap4 3 session4 session4_Ok). Defined.

Lemma insights_fail_iff_alone_witness :
  exists df_segmented,
    segment_lap lap4 3 = Ok df_segmented
    /\ ((exists e, compute_insights (final_df session4) = Err e)
        <-> Forall (fun r => segment_count (segment_id r) df_segmented = 1%nat) df_segmented).
Proof. exact (insights_fail_iff_alone (M := rational_math) lap4 3 session4 session4_Ok). Defined.
