(* ===== verification/Report.v ===== *)
(** * Report: what the page reports of the sections of an analysis

    Two parts of the page name sections of the lap.  The table of the
    insights gives every section a primary cause:
    [insights.compute_insights] normalises the metrics of the sections
    again, with a test of its own for a column without range, and names
    the metric of largest weighted value.  [cli_model.compute_cli] has
    normalised the same columns before and added them up, with the same
    weights, into the index.  The first part of this file relates the
    two: on the sections whose index is a number the two normalisations
    agree, so that the primary cause of a section is the largest term of
    its index.

    The track map marks "the top 3 high load segments":
    [track_map.plot_track_map] takes the three largest values of the
    column [CLI_smooth] of the table of samples.  Every sample carries
    the score of its section, so the three rows are three samples of the
    most loaded section.  The second part shows it. *)

From Stdlib Require Import String QArith Qround Qminmax Qabs Lqa Lia ZArith Bool.
From Stdlib Require Import List Permutation Sorted SetoidList Morphisms Setoid.
From S2P Require Import Prelude MathLib Series Frame Segmenter CliModel Metrics.
From S2P Require Import Processor Insights TrackMap Pipeline.
Import ListNotations.
#[local] Open Scope pipeline_scope.
#[local] Open Scope string_scope.

(** * Specification *)

(** The metrics that the index adds up, in the order of the loop of
    [get_primary_cause]. *)
Definition cli_metrics : list string :=
  ["steering_entropy"; "throttle_jerk"; "brake_panic"; "lat_instability"].

(** The column of a metric in the metrics table. *)
Definition metric_of (m : string) (r : metrics_row) : float :=
  if m =? "steering_entropy" then steering_entropy r
  else if m =? "throttle_jerk" then throttle_jerk r
  else if m =? "brake_panic" then brake_panic r
  else if m =? "lat_instability" then lat_instability r
  else if m =? "long_jerk" then long_jerk r
  else None.

(** The normalised column of a metric in the fused table. *)
Definition norm_in (m : string) (c : cli_row) : float :=
  if m =? "steering_entropy" then norm_steering c
  else if m =? "throttle_jerk" then norm_throttle c
  else if m =? "brake_panic" then norm_brake c
  else if m =? "lat_instability" then norm_lat c
  else None.

Definition weight_in (m : string) : Q :=
  if m =? "steering_entropy" then w_steering
  else if m =? "throttle_jerk" then w_throttle
  else if m =? "brake_panic" then w_brake
  else w_lat.

(** The term of a metric in the index of a row. *)
Definition term (m : string) (c : cli_row) : float :=
  fmul (Some (weight_in m)) (norm_in m c).

(** [m] is the first of the metrics that holds the largest term of the
    index of [c], and [t] is that term. *)
Definition largest_term (c : cli_row) (m : string) (t : Q) : Prop :=
  exists pre post,
    cli_metrics = (pre ++ m :: post)%list /\ feq (term m c) (Some t)
    /\ (forall m', In m' pre -> fholds (fun t' => t' < t) (term m' c))
    /\ (forall m', In m' post -> fholds (fun t' => t' <= t) (term m' c)).

(** The samples of the section [k] in the table of samples. *)
Definition samples_of (k : Z) (df : list final_row) : list final_row :=
  filter (fun f => (section_id f =? k)%Z) df.

(** [c] is the row of the most loaded section of the analysis and [m]
    its smoothed index: every other section has a smaller one, or
    none. *)
Definition most_loaded (s : session) (c : cli_row) (m : Q) : Prop :=
  In c (metrics_df s) /\ CLI_smooth c = Some m
  /\ forall c', In c' (metrics_df s) -> cli_key c' <> cli_key c ->
                 fholds (fun v => v < m) (CLI_smooth c').

(** * Fixtures *)

(** ** A lap of two sections

    Six samples a unit of distance apart, cut into two sections of three:
    the driver opens the throttle in the first and brakes in the
    second. *)
Definition driven (d thr brk : Q) : sample := mkSample 0 0 thr brk 0 0 0 0 d 0 d.

Definition lap_two : list sample :=
  [driven 0 0 0; driven 1 (1 # 2) 0; driven 2 1 0;
   driven 3 1 0; driven 4 1 (1 # 2); driven 5 1 1].

(** ** A lap of three sections

    Twelve samples a unit of distance apart, cut into three sections of
    four: the driver holds the throttle in the first, moves it a little
    in the second and works it in the third. *)
Definition lap_three : list sample :=
  [driven 0 (1 # 2) 0; driven 1 (1 # 2) 0; driven 2 (1 # 2) 0; driven 3 (1 # 2) 0;
   driven 4 (1 # 2) 0; driven 5 (6 # 10) 0; driven 6 (1 # 2) 0; driven 7 (6 # 10) 0;
   driven 8 0 0; driven 9 1 0; driven 10 0 0; driven 11 1 0].

(** * The two normalisations *)

(** On a cell that holds a number the normalisation of the insights
    gives what the normalisation of the index gives. *)
Lemma normalize_metric_agrees (col : list float) (i : nat) (x : Q) :
  nth_error col i = Some (Some x) ->
  feq (nth i (normalize_metric col) None) (nth i (normalize_series col) None).
Proof.
  intros Hi. pose proof (nth_error_In _ _ Hi) as Hin.
  destruct (series_min_max_Some col x Hin) as (mn & mx & Hmn & Hmx).
  pose proof (series_min_le col mn x Hmn Hin) as Hlo.
  pose proof (series_max_ge col mx x Hmx Hin) as Hhi.
  unfold normalize_metric, normalize_series. cbv zeta. rewrite Hmn, Hmx.
  destruct (Qeq_dec (mx - mn) 0) as [E|E].
  - assert (G : fgtb (fsub (Some mx) (Some mn)) (Some 0) = false).
    { simpl. apply negb_false_iff, Qle_bool_iff. rewrite E. apply Qle_refl. }
    rewrite G. rewrite (nth_error_nth _ _ _ (map_nth_error _ _ _ Hi)).
    rewrite (nth_error_nth _ _ _ (map_nth_error _ _ _ Hi)).
    rewrite (normalize_value_const mn mx x E). simpl. ring.
  - assert (G : fgtb (fsub (Some mx) (Some mn)) (Some 0) = true).
    { simpl. apply negb_true_iff. destruct (Qle_bool (mx - mn) 0) eqn:B; [| reflexivity].
      qbool. exfalso. apply E. lra. }
    rewrite G. rewrite (nth_error_nth _ _ _ (map_nth_error _ _ _ Hi)).
    rewrite (nth_error_nth _ _ _ (map_nth_error _ _ _ Hi)).
    rewrite (normalize_value_scaled mn mx x E). simpl.
    destruct (Qeq_bool (mx - mn) 0) eqn:B; qbool; [contradiction | simpl; reflexivity].
Qed.

(** They differ on the cells without a number of a column without
    range: the insights put 0 there, the index NaN. *)
Example normalisations_differ :
  normalize_metric [None; Some 2; Some 2] = [Some 0; Some 0; Some 0]
  /\ normalize_series [None; Some 2; Some 2] = [None; Some (2 * 0); Some (2 * 0)].
Proof. split; reflexivity. Qed.

(** * The rows of an analysis *)

Lemma metric_column_section (m : string) (c : cli_row) :
  metric_column m (section_of c) = metric_of m (metrics c).
Proof. reflexivity. Qed.

(** The row [i] of the fused table is made of the row [i] of the
    metrics table. *)
Lemma cli_table_nth (df : list metrics_row) (i : nat) (c : cli_row) :
  nth_error (cli_table df) i = Some c ->
  nth_error df i = Some (metrics c)
  /\ forall g, nth i (normalize_series (map g df)) None = norm_of df g (metrics c).
Proof.
  intros Hc. pose proof (map_nth_error metrics _ _ Hc) as Hr.
  rewrite compute_cli_rows in Hr. split; [exact Hr |]. intros g.
  rewrite normalize_series_map. now apply nth_error_nth, map_nth_error.
Qed.

Lemma cli_table_norm (df : list metrics_row) (c : cli_row) (m : string) :
  In c (cli_table df) -> In m cli_metrics ->
  norm_in m c = norm_of df (metric_of m) (metrics c).
Proof.
  intros Hc Hm. apply compute_cli_In in Hc as (p & -> & _).
  simpl in Hm. decompose [or] Hm; subst; try contradiction; reflexivity.
Qed.

Lemma norm_of_number (df : list metrics_row) (g : metrics_row -> float) (r : metrics_row) :
  norm_of df g r <> None -> exists x, g r = Some x.
Proof.
  unfold norm_of. destruct (g r) as [x|]; [eauto |].
  rewrite normalize_value_nan. congruence.
Qed.

(** What the loop of [get_primary_cause] compares for a metric of the
    index is the term of the metric in the index, on every row of an
    analysis where the term is a number. *)
Lemma weighted_val_term (df : list metrics_row) (i : nat) (c : cli_row) (m : string) :
  nth_error (cli_table df) i = Some c -> In m cli_metrics -> term m c <> None ->
  feq (weighted_val m (norm_at (map section_of (cli_table df)) m i)) (term m c).
Proof.
  intros Hc Hm Ht. destruct (cli_table_nth df i c Hc) as [Hr Hn].
  pose proof (cli_table_norm df c m (nth_error_In _ _ Hc) Hm) as En.
  assert (exists x, metric_of m (metrics c) = Some x) as [x Hx].
  { apply (norm_of_number df). rewrite <- En. unfold term in Ht.
    destruct (norm_in m c); [discriminate | contradiction]. }
  unfold norm_at. rewrite map_map.
  rewrite (map_ext _ _ (metric_column_section m)), <- (map_map metrics (metric_of m)).
  rewrite compute_cli_rows.
  assert (Hcol : nth_error (map (metric_of m) df) i = Some (Some x))
    by (rewrite <- Hx; now apply map_nth_error).
  pose proof (normalize_metric_agrees _ i x Hcol) as A.
  rewrite (Hn (metric_of m)), <- En in A. unfold term, weighted_val.
  destruct (nth i (normalize_metric (map (metric_of m) df)) None) as [u|],
           (norm_in m c) as [v|]; simpl in A |- *; try contradiction; [| exact I].
  simpl in Hm. decompose [or] Hm; subst; try contradiction;
    unfold weights_get, weight_in, flift2, feq;
    cbn [dict_get weights String.eqb Ascii.eqb Bool.eqb fst snd];
    unfold w_steering, w_throttle, w_brake, w_lat; rewrite A; ring.
Qed.

(** ** The terms of an index that is a number *)

(** The index is the sum of its four terms. *)
Lemma cli_sum_of_terms (df : list metrics_row) (c : cli_row) :
  In c (cli_table df) ->
  CLI c = fadd (fadd (fadd (term "steering_entropy" c) (term "throttle_jerk" c))
                     (term "brake_panic" c))
               (term "lat_instability" c).
Proof.
  intros Hc. pose proof (compute_cli_formula df) as H. rewrite Forall_forall in H.
  exact (H c Hc).
Qed.

(** When the index is a number, so is each of its terms, and none is
    negative. *)
Lemma terms_numbers (df : list metrics_row) (c : cli_row) (m : string) :
  In c (cli_table df) -> CLI c <> None -> In m cli_metrics ->
  exists t, term m c = Some t /\ 0 <= t.
Proof.
  intros Hc Hn Hm. rewrite (cli_sum_of_terms df c Hc) in Hn.
  pose proof (compute_cli_unit df) as U. rewrite Forall_forall in U.
  destruct (U c Hc) as (_ & Us & Ut & Ub & Ul). unfold term in *.
  simpl in Hm. decompose [or] Hm; subst; try contradiction;
    cbn [norm_in weight_in String.eqb Ascii.eqb Bool.eqb] in *;
    destruct (norm_steering c), (norm_throttle c), (norm_brake c), (norm_lat c);
    try (exfalso; apply Hn; reflexivity); cbn [fmul flift2]; eexists; (split; [reflexivity |]);
    unfold in_unit, fholds, w_steering, w_throttle, w_brake, w_lat in *;
    apply Qmult_le_0_compat; lra.
Qed.

Section Row.
Variables (df : list metrics_row) (i : nat) (c : cli_row) (row : norm_row).
Hypothesis Hc : nth_error (cli_table df) i = Some c.
Hypothesis Hrow : nth_error (df_norm (map section_of (cli_table df))) i = Some row.
Hypothesis Hn : CLI c <> None.

(** What the loop compares, for a metric of the index. *)
Lemma wv_of_term (m : string) :
  In m cli_metrics -> exists w t, wv_of row m = Some w /\ term m c = Some t /\ w == t /\ 0 <= t.
Proof.
  intros Hm. destruct (terms_numbers df c m (nth_error_In _ _ Hc) Hn Hm) as (t & Et & Ht).
  assert (Hin : In m metric_list) by (simpl in Hm |- *; tauto).
  rewrite (df_norm_row _ _ _ _ Hrow Hin).
  assert (Hnn : term m c <> None) by (rewrite Et; discriminate).
  pose proof (weighted_val_term df i c m Hc Hm Hnn) as A. rewrite Et in A.
  destruct (weighted_val m _) as [w|]; [| contradiction]. exists w, t. auto.
Qed.

(** The loop does not end on "Unknown" or on long_jerk. *)
Lemma cause_in_index (wv : Q) (pre post : list string) (r : string) :
  metric_list = (pre ++ r :: post)%list -> wv_of row r = Some wv ->
  (forall m w, In m pre -> wv_of row m = Some w -> w < wv) ->
  exists post', cli_metrics = (pre ++ r :: post')%list /\ post = (post' ++ ["long_jerk"])%list.
Proof.
  intros E Hw Hpre. unfold metric_list, cli_metrics in *.
  do 4 (destruct pre as [|? pre]; [simpl in E; injection E; intros; subst; eexists;
                                   split; reflexivity |]).
  destruct pre as [|? pre].
  - simpl in E. injection E; intros; subst. exfalso.
    destruct (wv_of_term "steering_entropy") as (w & t & Ew & _ & Ewt & Ht); [simpl; tauto |].
    pose proof (Hpre _ _ (or_introl eq_refl) Ew) as Hlt.
    assert (Hl : In "long_jerk" metric_list) by (simpl; tauto).
    pose proof (df_norm_row _ _ _ _ Hrow Hl) as El. rewrite Hw in El.
    pose proof (weighted_val_long_jerk
                  (norm_at (map section_of (cli_table df)) "long_jerk" i)) as Z.
    rewrite <- El in Z. simpl in Z. lra.
  - apply (f_equal (@length string)) in E. rewrite length_app in E. simpl in E. lia.
Qed.

(** The cause is the first metric of largest term. *)
Lemma cause_largest_term :
  exists t, largest_term c (get_primary_cause row) t /\ 0 <= t.
Proof.
  destruct (primary_cause_result row)
    as [[_ H]|(wv & pre & post & E & Hw & _ & Hpre & Hpost)].
  - exfalso. destruct (wv_of_term "steering_entropy") as (w & t & Ew & _ & Ewt & Ht);
      [simpl; tauto |].
    pose proof (H _ _ (or_introl eq_refl) Ew). lra.
  - destruct (cause_in_index wv pre post _ E Hw Hpre) as (post' & Ec & ->).
    assert (Hr : In (get_primary_cause row) cli_metrics) by (rewrite Ec; apply in_elt).
    destruct (wv_of_term _ Hr) as (w & t & Ew & Et & Ewt & Ht).
    rewrite Ew in Hw. injection Hw as <-.
    exists t. split; [| exact Ht]. exists pre, post'. repeat split.
    + exact Ec.
    + rewrite Et. simpl. reflexivity.
    + intros m' Hm'. assert (Hi : In m' cli_metrics) by (rewrite Ec; apply in_or_app; now left).
      destruct (wv_of_term _ Hi) as (w' & t' & Ew' & -> & Ewt' & _). simpl.
      pose proof (Hpre _ _ Hm' Ew'). lra.
    + intros m' Hm'.
      assert (Hi : In m' cli_metrics) by (rewrite Ec; apply in_or_app; right; now right).
      destruct (wv_of_term _ Hi) as (w' & t' & Ew' & -> & Ewt' & _). simpl.
      assert (Hp : In m' (post' ++ ["long_jerk"])%list) by (apply in_or_app; now left).
      pose proof (Hpost _ _ Hp Ew'). lra.
Qed.

End Row.

(** * The causes of an analysis *)

Section Analysis.
Context {M : MathLib}.
Variables (df : list sample) (n : Z) (s : session) (results : insights).
Hypothesis Ha : analyse df n = Ok s.
Hypothesis Hr : compute_insights (final_df s) = Ok results.

(** The rows of the table of sections with their causes. *)
Lemma causes_of_analysis (i : nat) (c : cli_row) (si : section_insight) :
  nth_error (metrics_df s) i = Some c -> nth_error (df_segments results) i = Some si ->
  exists metrics row,
    nth_error (cli_table metrics) i = Some c
    /\ nth_error (df_norm (map section_of (cli_table metrics))) i = Some row
    /\ Primary_Cause si = get_primary_cause row.
Proof.
  intros Hc Hs. destruct (compute_insights_Ok_inv _ _ Hr) as [E _]. rewrite E in Hs.
  rewrite (sections_are_metrics df n s Ha) in Hs.
  destruct (analyse_Ok_inv df n s Ha) as (seg & _ & Em & _). rewrite Em in Hc, Hs.
  apply with_causes_nth in Hs as (row & _ & Hrow & Hp). eauto.
Qed.

(** The primary cause of a section whose index is a number is the first
    of the four metrics of the index that holds its largest term. *)
Lemma cause_of_section (i : nat) (c : cli_row) (si : section_insight) :
  nth_error (metrics_df s) i = Some c -> nth_error (df_segments results) i = Some si ->
  CLI c <> None ->
  exists t, largest_term c (Primary_Cause si) t /\ 0 <= t.
Proof.
  intros Hc Hs Hn. destruct (causes_of_analysis i c si Hc Hs) as (m & row & Hm & Hrow & ->).
  exact (cause_largest_term m i c row Hm Hrow Hn).
Qed.

End Analysis.

(** The largest term is at least a quarter of the index. *)
Lemma largest_term_share (df : list metrics_row) (c : cli_row) (m : string) (t : Q) :
  In c (cli_table df) -> largest_term c m t -> fholds (fun cli => cli <= 4 * t) (CLI c).
Proof.
  intros Hc (pre & post & E & Et & Hpre & Hpost).
  assert (H : forall m', In m' cli_metrics -> fholds (fun t' => t' <= t) (term m' c)).
  { intros m' Hm'. rewrite E in Hm'. apply in_app_or in Hm' as [Hm'|[<-|Hm']].
    - pose proof (Hpre m' Hm') as P. destruct (term m' c); simpl in *; [lra | exact I].
    - destruct (term m c); simpl in *; [lra | exact I].
    - exact (Hpost m' Hm'). }
  rewrite (cli_sum_of_terms df c Hc).
  pose proof (H "steering_entropy") as H1. pose proof (H "throttle_jerk") as H2.
  pose proof (H "brake_panic") as H3. pose proof (H "lat_instability") as H4.
  destruct (term "steering_entropy" c), (term "throttle_jerk" c), (term "brake_panic" c),
           (term "lat_instability" c); simpl in *; try exact I.
  assert (q <= t) by tauto. assert (q0 <= t) by tauto. assert (q1 <= t) by tauto.
  assert (q2 <= t) by tauto. lra.
Qed.

(** C14: in an analysis, the primary cause that the insights name for a
    section whose index is a number is the first of the four metrics of
    the index, in the order steering entropy, throttle jerk, brake
    panic, lateral instability, that holds the largest term of that
    index (weight times normalised metric, as [compute_cli] adds them
    up); the term is not negative and at least a quarter of the index.
    The second normalisation of [compute_insights] and the weight that
    it gives to [long_jerk] do not show. *)
Theorem primary_cause_largest_term {M : MathLib} (df : list sample) (n : Z) (s : session)
  (results : insights) (i : nat) (c : cli_row) (si : section_insight) :
  analyse df n = Ok s -> compute_insights (final_df s) = Ok results ->
  nth_error (metrics_df s) i = Some c -> nth_error (df_segments results) i = Some si ->
  CLI c <> None ->
  exists t, largest_term c (Primary_Cause si) t /\ 0 <= t
            /\ fholds (fun cli => cli <= 4 * t) (CLI c).
Proof.
  intros Ha Hr Hc Hs Hn. destruct (cause_of_section df n s results Ha Hr i c si Hc Hs Hn)
    as (t & Ht & H0).
  exists t. repeat split; [exact Ht | exact H0 |].
  destruct (analyse_Ok_inv df n s Ha) as (seg & _ & Em & _). rewrite Em in Hc.
  exact (largest_term_share _ c _ t (nth_error_In _ _ Hc) Ht).
Qed.

(** * The marks of the track map *)

Section Marks.
Context {M : MathLib}.
Variables (df : list sample) (n : Z) (s : session).
Hypothesis Ha : analyse df n = Ok s.

(** Every sample carries the smoothed score of the one row of the
    metrics table that has its section number. *)
Lemma sample_scores (f : final_row) :
  In f (final_df s) ->
  exists c, In c (metrics_df s) /\ cli_key c = section_id f
            /\ f_CLI_smooth f = CLI_smooth c.
Proof.
  destruct (analyse_Ok_inv df n s Ha) as (seg & Hseg & _).
  pose proof (analyse_joined df n s seg Ha Hseg) as HJ. clear Hseg. intros Hf.
  induction HJ as [|r f' l fs (c & Hc & Hk & ->) _ IH]; [destruct Hf |].
  destruct Hf as [<-|Hf]; [exists c; auto | exact (IH Hf)].
Qed.

Lemma metrics_keys_NoDup : NoDup (map cli_key (metrics_df s)).
Proof.
  destruct (analyse_Ok_inv df n s Ha) as (seg & _ & -> & _). rewrite metrics_keys.
  apply StronglySorted_lt_NoDup, unique_sorted_sorted.
Qed.

Variables (c : cli_row) (m : Q).
Hypothesis Hc : In c (metrics_df s).
Hypothesis Hm : CLI_smooth c = Some m.
Hypothesis Hmax : forall c', In c' (metrics_df s) -> cli_key c' <> cli_key c ->
                             fholds (fun v => v < m) (CLI_smooth c').

(** The score of a sample, by its section. *)
Lemma score_by_section (f : final_row) :
  In f (final_df s) ->
  if (section_id f =? cli_key c)%Z then f_CLI_smooth f = Some m
  else fholds (fun v => v < m) (f_CLI_smooth f).
Proof.
  intros Hf. destruct (sample_scores f Hf) as (c' & Hc' & Hk & ->).
  destruct (section_id f =? cli_key c)%Z eqn:E.
  - apply Z.eqb_eq in E.
    rewrite (NoDup_key_inj cli_key _ c' c metrics_keys_NoDup Hc' Hc); [exact Hm | congruence].
  - apply Z.eqb_neq in E. apply Hmax; [exact Hc' | congruence].
Qed.

Lemma scores_bounded : Forall (fholds (fun v => v <= m)) (map f_CLI_smooth (final_df s)).
Proof.
  apply Forall_map_iff, Forall_forall. intros f Hf. pose proof (score_by_section f Hf) as H.
  destruct (section_id f =? cli_key c)%Z; [rewrite H; simpl; lra |].
  destruct (f_CLI_smooth f); simpl in *; [lra | exact I].
Qed.

Lemma section_rows_hold :
  (length (filter (fun f => section_id f =? cli_key c)%Z (final_df s))
   <= length (filter (fun x => feqb x (Some m)) (map f_CLI_smooth (final_df s))))%nat.
Proof.
  rewrite filter_map_swap, length_map. apply filter_length_mono. intros f Hf E.
  pose proof (score_by_section f Hf) as H. rewrite E in H. rewrite H. simpl.
  apply Qeq_bool_iff. reflexivity.
Qed.

Hypothesis Hcount :
  (3 <= length (filter (fun f => section_id f =? cli_key c)%Z (final_df s)))%nat.

(** The rows that [nlargest(3)] returns. *)
Lemma marked_rows :
  length (nlargest 3 (map f_CLI_smooth (final_df s))) = 3%nat
  /\ Forall (fun p => snd p == m
                      /\ exists f, nth_error (final_df s) (fst p) = Some f
                                   /\ section_id f = cli_key c)
            (nlargest 3 (map f_CLI_smooth (final_df s))).
Proof.
  destruct (nlargest_top 3 _ m scores_bounded) as [Hlen Hall].
  - pose proof section_rows_hold. lia.
  - split; [exact Hlen |]. eapply Forall_impl; [| exact Hall]. intros [i v] [Hv Hi].
    split; [exact Hv |]. cbn [fst snd] in *. rewrite nth_error_map in Hi.
    destruct (nth_error (final_df s) i) as [f|] eqn:Ef; [| discriminate].
    injection Hi as Hi. exists f. split; [reflexivity |].
    pose proof (score_by_section f (nth_error_In _ _ Ef)) as H.
    destruct (section_id f =? cli_key c)%Z eqn:E; [now apply Z.eqb_eq |].
    rewrite Hi in H. simpl in H. lra.
Qed.

End Marks.


(** C13: the three marks "High Load #1" to "#3" of the track map are
    three samples of one section.  In an analysis whose most loaded
    section (the one of largest smoothed index, larger than that of
    every other section) holds three samples or more, the three rows
    that [nlargest(3)] returns are rows of that section, and the figure
    has three marks, ranked 1 to 3, that all show the smoothed index of
    that section. *)
Theorem marks_in_one_section {M : MathLib} (df : list sample) (n : Z) (s : session)
  (c : cli_row) (m : Q) (fig : figure) :
  analyse df n = Ok s -> most_loaded s c m ->
  (3 <= length (samples_of (cli_key c) (final_df s)))%nat ->
  plot_track_map (final_df s) = Ok fig ->
  Forall (fun p => exists f, nth_error (final_df s) (fst p) = Some f
                             /\ section_id f = cli_key c)
         (nlargest 3 (map f_CLI_smooth (final_df s)))
  /\ map rank (marks fig) = [1; 2; 3]%nat
  /\ Forall (fun h => value h == m) (marks fig).
Proof.
  intros Ha (Hc & Hm & Hmax) Hcount Hfig.
  destruct (marked_rows df n s Ha c m Hc Hm Hmax Hcount) as [Hlen Hall].
  destruct (plot_track_map_marks _ _ Hfig) as (x & y & Hx & ->).
  rewrite (highlights_all _ x y Hx). rewrite !map_map. cbn [rank value mark_of].
  repeat split.
  - eapply Forall_impl; [| exact Hall]. now intros p [_ H].
  - rewrite <- (map_map fst (fun r => r)), map_fst_combine, map_id; [reflexivity |].
    now rewrite Hlen.
  - apply Forall_map_iff, Forall_forall. intros [r p] Hin. apply in_combine_r in Hin.
    rewrite Forall_forall in Hall. exact (proj1 (Hall p Hin)).
Qed.

(** * The fixtures analysed *)

Definition two_sections : session :=
  get_or (mkSession [] []) (analyse (M := rational_math) lap_two 2).

Lemma two_sections_Ok : analyse (M := rational_math) lap_two 2 = Ok two_sections.
Proof. apply is_ok_get_or. reflexivity. Qed.

Definition two_insights : insights :=
  get_or (mkInsights [] [] None None "" no_section no_section [])
         (compute_insights (final_df two_sections)).

Lemma two_insights_Ok : compute_insights (final_df two_sections) = Ok two_insights.
Proof. apply is_ok_get_or. reflexivity. Qed.

Lemma primary_cause_largest_term_witness :
  exists c si,
    nth_error (metrics_df two_sections) 1 = Some c
    /\ nth_error (df_segments two_insights) 1 = Some si
    /\ exists t, largest_term c (Primary_Cause si) t /\ 0 <= t
                 /\ fholds (fun cli => cli <= 4 * t) (CLI c).
Proof.
  eexists. eexists. split; [vm_compute; reflexivity |]. split; [vm_compute; reflexivity |].
  apply (primary_cause_largest_term (M := rational_math) lap_two 2 two_sections two_insights 1);
    [exact two_sections_Ok | exact two_insights_Ok | vm_compute; reflexivity
    | vm_compute; reflexivity | discriminate].
Defined.

(** The indices of the two sections and the causes named. *)
Example causes_of_two_sections :
  Forall2 feq (map CLI (metrics_df two_sections)) [Some (3 # 10); Some (2 # 10)]
  /\ map Primary_Cause (df_segments two_insights) = ["throttle_jerk"; "brake_panic"].
Proof. split; [vm_compute; repeat constructor | vm_compute; reflexivity]. Qed.

Definition three_sections : session :=
  get_or (mkSession [] []) (analyse (M := rational_math) lap_three 3).

Lemma three_sections_Ok : analyse (M := rational_math) lap_three 3 = Ok three_sections.
Proof. apply is_ok_get_or. reflexivity. Qed.

Definition figure_three : figure :=
  get_or (mkFigure [] [] [] []) (plot_track_map (M := rational_math) (final_df three_sections)).

Lemma figure_three_Ok :
  plot_track_map (M := rational_math) (final_df three_sections) = Ok figure_three.
Proof. apply is_ok_get_or. reflexivity. Qed.

Lemma marks_in_one_section_witness :
  exists c m,
    In c (metrics_df three_sections) /\ CLI_smooth c = Some m
    /\ Forall (fun p => exists f, nth_error (final_df three_sections) (fst p) = Some f
                                  /\ section_id f = cli_key c)
              (nlargest 3 (map f_CLI_smooth (final_df three_sections)))
    /\ map rank (marks figure_three) = [1; 2; 3]%nat
    /\ Forall (fun h => value h == m) (marks figure_three).
Proof.
  eexists. eexists.
  split; [vm_compute; right; right; left; reflexivity |].
  split; [vm_compute; reflexivity |].
  apply (marks_in_one_section (M := rational_math) lap_three 3 three_sections).
  - exact three_sections_Ok.
  - unfold most_loaded.
    split; [vm_compute; right; right; left; reflexivity |].
    split; [vm_compute; reflexivity |].
    intros c' Hin Hk. vm_compute in Hin. destruct Hin as [<-|[<-|[<-|[]]]];
      [vm_compute; reflexivity | vm_compute; reflexivity | exfalso; apply Hk; reflexivity].
  - unfold samples_of. vm_compute. lia.
  - exact figure_three_Ok.
Defined.

(** The three sections, their smoothed indices, the rows marked and the
    marks: three samples of section 2, each with the index of the
    section. *)
Example marks_of_three_sections :
  map cli_key (metrics_df three_sections) = [0; 1; 2]%Z
  /\ Forall2 feq (map CLI_smooth (metrics_df three_sections))
                 [Some (3 # 200); Some (11 # 100); Some (33 # 200)]
  /\ map fst (nlargest 3 (map f_CLI_smooth (final_df three_sections))) = [8; 9; 10]%nat
  /\ map section_id (final_df three_sections) = [0; 0; 0; 0; 1; 1; 1; 1; 2; 2; 2; 2]%Z
  /\ map rank (marks figure_three) = [1; 2; 3]%nat.
Proof.
  repeat split; try (vm_compute; reflexivity). vm_compute. repeat constructor.
Qed.
