(* ===== verification/Units.v ===== *)
(** * Units: the index against the unit of the speed

    [process_lap_data] guesses the unit of the speed column from its
    largest value (src/src/processor.py lines 117 to 120): above 100 the
    column is taken to be in km/h and divided by 3.6, else it is taken
    to be in m/s.  A slow lap recorded in km/h is therefore integrated
    as if it were in m/s, and its lap distance comes out 3.6 times too
    long.  This file shows what the guess can and cannot change.

    The lap distance is linear in the speed, the segmenter uses the
    distance only through its quotient by the largest distance, and the
    metrics of a segment read the steering, the throttle, the brake and
    the two accelerations.  So, in exact arithmetic:

    - two tables that differ by a positive factor in the lap distance
      are cut into the same segments ([segment_lap_Proper]), have the
      same metrics up to the mean distance of a segment
      ([compute_segment_metrics_Proper]), the same scores
      ([cli_table_Proper]) and the same insights ([analyse_Proper],
      [compute_insights_scaled]);
    - multiplying every speed of a file by a positive factor changes
      the lap distance by a positive factor, whichever branch the test
      of the maximum takes on either file ([to_speed_ms_scaled],
      [process_lap_data_speed]);
    - hence the sections, the scores and the insights of a lap do not
      depend on the unit of its speed ([speed_unit_immaterial]).  The
      path drawn does: the heading is not linear in the speed.

    The stages are morphisms of the relations [rescaled], [seg_rescaled],
    [same_metrics], [same_scores] and [same_final]; they are stated as
    [Proper] instances and composed. *)

From Stdlib Require Import String QArith Qround Qminmax Qabs Lqa Lia ZArith Bool.
From Stdlib Require Import List Permutation Sorted SetoidList Morphisms Setoid.
From S2P Require Import Prelude MathLib Series Frame Segmenter CliModel Metrics.
From S2P Require Import Processor Insights Pipeline.
Import ListNotations.
#[local] Open Scope pipeline_scope.
#[local] Open Scope string_scope.

#[local] Abbreviation dist := Laptrigger_lapdist_dls.

(** * The relations *)

(** A number and its multiple by [c]. *)
Definition scaled (c a b : Q) : Prop := b == c * a.

(** A possibly-NaN number and its multiple, NaN with NaN. *)
Definition fscaled (c : Q) (x x' : float) : Prop :=
  match x, x' with
  | Some a, Some a' => scaled c a a'
  | None, None => True
  | _, _ => False
  end.

(** A segment length and its multiple, an infinity with itself. *)
Definition xscaled (c : Q) (len len' : xfloat) : Prop :=
  match len, len' with
  | Finite l, Finite l' => scaled c l l'
  | PosInf, PosInf | NegInf, NegInf | NotANumber, NotANumber => True
  | _, _ => False
  end.

(** Two samples with the same signals whose lap distances differ by
    the factor [c]. *)
Definition rescaled (c : Q) (r r' : sample) : Prop :=
  Steering_Angle r' = Steering_Angle r /\ throttle r' = throttle r
  /\ brake_pressure r' = brake_pressure r /\ accx r' = accx r /\ accy r' = accy r
  /\ scaled c (dist r) (dist r').

Definition seg_rescaled (c : Q) (s s' : seg_row) : Prop :=
  rescaled c (row s) (row s') /\ segment_id s' = segment_id s.

(** Two metrics rows that differ in the mean distance only. *)
Definition same_metrics (c : Q) (m m' : metrics_row) : Prop :=
  m_segment_id m' = m_segment_id m /\ steering_entropy m' = steering_entropy m
  /\ throttle_jerk m' = throttle_jerk m /\ brake_panic m' = brake_panic m
  /\ lat_instability m' = lat_instability m /\ long_jerk m' = long_jerk m
  /\ fscaled c (avg_dist m) (avg_dist m').

Definition same_scores (c : Q) (r r' : cli_row) : Prop :=
  same_metrics c (metrics r) (metrics r') /\ norm_steering r' = norm_steering r
  /\ norm_throttle r' = norm_throttle r /\ norm_brake r' = norm_brake r
  /\ norm_lat r' = norm_lat r /\ CLI r' = CLI r /\ CLI_smooth r' = CLI_smooth r.

Definition same_final (c : Q) (f f' : final_row) : Prop :=
  seg_rescaled c (f_sample f) (f_sample f') /\ section_id f' = section_id f
  /\ f_CLI f' = f_CLI f /\ f_CLI_smooth f' = f_CLI_smooth f
  /\ f_steering_entropy f' = f_steering_entropy f /\ f_throttle_jerk f' = f_throttle_jerk f
  /\ f_brake_panic f' = f_brake_panic f /\ f_lat_instability f' = f_lat_instability f
  /\ f_long_jerk f' = f_long_jerk f.

(** The tables of a run that differ in the unit of the distance. *)
Definition same_session {M : MathLib} (c : Q) (s s' : session) : Prop :=
  Forall2 (same_final c) (final_df s) (final_df s')
  /\ Forall2 (same_scores c) (metrics_df s) (metrics_df s').

(** What the page reads of a run: the insights, and for every sample
    its section and its two scores. *)
Definition insights_of {M : MathLib} (run : result session) : result insights :=
  s <- run ;; compute_insights (final_df s).

Definition scores_of {M : MathLib} (run : result session) : result (list (Z * float * float)) :=
  rmap (fun s => map (fun f => (section_id f, f_CLI f, f_CLI_smooth f)) (final_df s)) run.

(** A raw row with its value multiplied by [k] when its channel is the
    speed, and a cell of the wide table likewise. *)
Definition speed_in (k : Q) (r : raw_row) : raw_row :=
  if String.eqb (telemetry_name r) "speed"
  then mkRaw (raw_timestamp r) (raw_vehicle_id r) (raw_lap r) (telemetry_name r)
             (option_map (Qmult k) (telemetry_value r))
  else r.

Definition cell_in (k : Q) (name : string) (x : float) : float :=
  if String.eqb name "speed" then option_map (Qmult k) x else x.

Definition wide_scaled (k : Q) (r r' : wide_row) : Prop :=
  w_timestamp r' = w_timestamp r /\ forall name, cell r' name = cell_in k name (cell r name).

(** * A positive factor on the lap distance *)

Section Scale.
Variable c : Q.
Hypothesis c_pos : 0 < c.
Context {M : MathLib}.

(** ** Numbers *)

Lemma scaled_le (a b a' b' : Q) :
  scaled c a a' -> scaled c b b' -> Qle_bool a' b' = Qle_bool a b.
Proof.
  unfold scaled. intros Ea Eb. destruct (Qle_bool a b) eqn:E.
  - apply Qle_bool_iff. apply Qle_bool_iff in E. rewrite Ea, Eb. now apply Qmult_le_l.
  - apply Qle_bool_false. apply Qle_bool_false in E. rewrite Ea, Eb. now apply Qmult_lt_l.
Qed.

Lemma scaled_zero (a a' : Q) : scaled c a a' -> Qeq_bool a' 0 = Qeq_bool a 0.
Proof.
  unfold scaled. intros Ea. destruct (Qeq_bool a 0) eqn:E.
  - apply Qeq_bool_iff. apply Qeq_bool_iff in E. rewrite Ea, E. ring.
  - destruct (Qeq_bool a' 0) eqn:E'; [| reflexivity]. qbool. exfalso. apply E.
    rewrite Ea in E'. apply Qmult_integral in E' as [E' | E']; [lra | exact E'].
Qed.

Lemma scaled_0 : scaled c 0 0.
Proof. unfold scaled. ring. Qed.

Lemma div_zero_scaled (a a' : Q) : scaled c a a' -> div_zero a' = div_zero a.
Proof.
  intros Ea. unfold div_zero.
  now rewrite (scaled_zero a a' Ea), (scaled_le 0 a 0 a' scaled_0 Ea).
Qed.

Lemma div_by_int_scaled (m m' : Q) (n : Z) :
  scaled c m m' -> xscaled c (div_by_int (Some m) n) (div_by_int (Some m') n).
Proof.
  intros E. unfold div_by_int. destruct (n =? 0)%Z eqn:En.
  - rewrite (div_zero_scaled m m' E). unfold div_zero.
    now destruct (Qeq_bool m 0), (Qle_bool 0 m).
  - cbn [xscaled]. unfold scaled in *. rewrite E. apply Z.eqb_neq in En.
    field. intros H. now apply En, (inject_Z_injective n 0).
Qed.

(** The floor division sees the quotient only. *)
Lemma floordiv_scaled (d d' : Q) (len len' : xfloat) :
  scaled c d d' -> xscaled c len len' ->
  astype_int (floordiv d' len') = astype_int (floordiv d len).
Proof.
  intros Ed H. destruct len as [l | | |], len' as [l' | | |]; try contradiction;
    cbn [xscaled floordiv] in *.
  - rewrite (scaled_zero l l' H). destruct (Qeq_bool l 0) eqn:E0.
    + now rewrite (div_zero_scaled d d' Ed).
    + qbool. unfold astype_int, scaled in *. do 3 f_equal. apply Qfloor_comp.
      rewrite Ed, H. field. split; [exact E0 | lra].
  - now rewrite (scaled_le 0 d 0 d' scaled_0 Ed).
  - now rewrite (scaled_le d 0 d' 0 Ed scaled_0).
  - reflexivity.
Qed.

(** ** Columns *)

Lemma Qmax_list_scaled (l l' : list Q) (m : Q) :
  Forall2 (scaled c) l l' -> Qmax_list l = Some m ->
  exists m', Qmax_list l' = Some m' /\ scaled c m m'.
Proof.
  intros H Hm. unfold scaled in *.
  pose proof (Qmax_list_In _ _ Hm) as Hi. pose proof (Qmax_list_ge _ _ Hm) as Hg.
  assert (Hin : exists b, In b l' /\ b == c * m).
  { clear Hg Hm. induction H as [| a b l l' Hab _ IH]; [destruct Hi |].
    destruct Hi as [-> | Hi]; [exists b; simpl; auto |].
    destruct (IH Hi) as (b' & ? & ?). exists b'. simpl. auto. }
  destruct Hin as (b & Hb & Eb).
  destruct (Qmax_list_char l' b Hb) as (m' & -> & E).
  - clear Hi Hm Hb. induction H as [| a a' l l' Ha _ IH]; constructor.
    + inversion Hg; subst. rewrite Ha, Eb. apply Qmult_le_l; assumption.
    + apply IH. now inversion Hg.
  - exists m'. split; [reflexivity |]. now rewrite E.
Qed.

Lemma Qsum_scaled (l l' : list Q) : Forall2 (scaled c) l l' -> scaled c (Qsum l) (Qsum l').
Proof.
  unfold scaled. intros H.
  induction H as [| a b l l' Hab _ IH]; simpl; [ring | rewrite Hab, IH; ring].
Qed.

Lemma Qmean_scaled (l l' : list Q) : Forall2 (scaled c) l l' -> fscaled c (Qmean l) (Qmean l').
Proof.
  intros H. pose proof (Qsum_scaled l l' H) as Hs. pose proof (Forall2_length H) as Hl.
  unfold Qmean, Qlen. destruct H as [| a b l l' Hab H]; [exact I |].
  cbn [fscaled]. unfold scaled in *. rewrite Hs, <- Hl. field.
  pose proof (Qlen_pos (a :: l) ltac:(discriminate)). unfold Qlen in *. lra.
Qed.

Lemma cumsum_from_scaled (acc acc' : Q) (l l' : list Q) :
  scaled c acc acc' -> Forall2 (scaled c) l l' ->
  Forall2 (scaled c) (cumsum_from acc l) (cumsum_from acc' l').
Proof.
  intros Ha H. revert acc acc' Ha. unfold scaled in *.
  induction H as [| x y l l' Hxy _ IH]; intros acc acc' Ha; simpl; constructor.
  - rewrite Ha, Hxy. ring.
  - apply IH. rewrite Ha, Hxy. ring.
Qed.

Lemma map2_scaled (v v' dts : list Q) :
  Forall2 (scaled c) v v' -> Forall2 (scaled c) (map2 Qmult v dts) (map2 Qmult v' dts).
Proof.
  intros H. revert dts. unfold scaled in *.
  induction H as [| x y l l' Hxy _ IH]; intros [| h dts]; simpl; constructor; auto.
  rewrite Hxy. ring.
Qed.

(** The lap distance is linear in the speed. *)
Lemma lap_distances_scaled (v v' dts : list Q) :
  Forall2 (scaled c) v v' -> Forall2 (scaled c) (lap_distances v dts) (lap_distances v' dts).
Proof. intros H. apply cumsum_from_scaled; [apply scaled_0 | now apply map2_scaled]. Qed.

(** ** The segmenter *)

Lemma rescaled_order (a a' b b' : sample) :
  rescaled c a a' -> rescaled c b b' ->
  Qle_bool (dist a) (dist b) = Qle_bool (dist a') (dist b').
Proof.
  intros (_ & _ & _ & _ & _ & Ea) (_ & _ & _ & _ & _ & Eb). symmetry. now apply scaled_le.
Qed.

Lemma rescaled_dist (l l' : list sample) :
  Forall2 (rescaled c) l l' -> Forall2 (scaled c) (map dist l) (map dist l').
Proof. apply Forall2_map. now intros a b (_ & _ & _ & _ & _ & E). Qed.

#[local] Instance sort_values_Proper :
  Proper (Forall2 (rescaled c) ==> Forall2 (rescaled c)) (sort_values dist).
Proof. intros l l'. apply sort_values_Forall2, rescaled_order. Qed.

Lemma segment_length_scaled (l l' : list sample) (n : Z) :
  Forall2 (rescaled c) l l' -> xscaled c (segment_length l n) (segment_length l' n).
Proof.
  intros H. unfold segment_length.
  destruct (Qmax_list (map dist l)) as [m |] eqn:Hm.
  - destruct (Qmax_list_scaled _ _ m (rescaled_dist l l' H) Hm) as (m' & -> & E).
    now apply div_by_int_scaled.
  - apply Qmax_list_None, map_eq_nil in Hm. subst l. inversion H. exact I.
Qed.

Lemma assign_segment_id_scaled (l l' : list sample) (ids : list Z) :
  Forall2 (rescaled c) l l' ->
  Forall2 (seg_rescaled c) (assign_segment_id l ids) (assign_segment_id l' ids).
Proof.
  intros H. revert ids. unfold assign_segment_id.
  induction H as [| a b l l' Hab _ IH]; intros [| i ids]; simpl; constructor;
    [now split | apply IH].
Qed.

(** The segmenter gives the rows of a lap the same segments whatever
    the unit of the lap distance, and raises on the same laps. *)
#[local] Instance segment_lap_Proper :
  Proper (Forall2 (rescaled c) ==> eq ==> result_rel (Forall2 (seg_rescaled c))) segment_lap.
Proof.
  intros df df' H n ? <-. apply sort_values_Proper in H.
  unfold segment_lap, raw_segment_ids.
  pose proof (segment_length_scaled _ _ n H) as Hlen.
  rewrite (mapM_Forall2 (rescaled c) _
             (fun r => astype_int (floordiv (dist r) (segment_length (sort_values dist df') n)))
             _ _ ) with (2 := H).
  - destruct (mapM _ (sort_values dist df')) as [ids | e]; simpl; [| reflexivity].
    now apply assign_segment_id_scaled.
  - intros a b (_ & _ & _ & _ & _ & E). symmetry. now apply floordiv_scaled.
Qed.

(** ** The metrics *)

Lemma column_scaled (f : sample -> Q) (g g' : list seg_row) :
  (forall r r', rescaled c r r' -> f r' = f r) ->
  Forall2 (seg_rescaled c) g g' -> column f g' = column f g.
Proof.
  intros Hf H. unfold column. symmetry.
  apply (Forall2_map_eq (seg_rescaled c)) with (2 := H).
  intros a b [Hr _]. symmetry. now apply Hf.
Qed.

Lemma segment_metrics_scaled (k : Z) (g g' : list seg_row) :
  Forall2 (seg_rescaled c) g g' ->
  same_metrics c (segment_metrics k g) (segment_metrics k g').
Proof.
  intros H. unfold segment_metrics, same_metrics. cbn.
  rewrite !(column_scaled _ g g') with (2 := H)
    by (now intros r r' (? & ? & ? & ? & ? & ?)).
  repeat split; try reflexivity.
  apply Qmean_scaled. unfold column. apply Forall2_map with (2 := H).
  now intros a b [(_ & _ & _ & _ & _ & E) _].
Qed.

Lemma group_of_scaled (k : Z) (df df' : list seg_row) :
  Forall2 (seg_rescaled c) df df' ->
  Forall2 (seg_rescaled c) (group_of segment_id k df) (group_of segment_id k df').
Proof. apply Forall2_filter. now intros a b [_ ->]. Qed.

Lemma segment_ids_scaled (df df' : list seg_row) :
  Forall2 (seg_rescaled c) df df' -> map segment_id df' = map segment_id df.
Proof.
  intros H. symmetry. apply (Forall2_map_eq (seg_rescaled c)) with (2 := H).
  now intros a b [_ ->].
Qed.

#[local] Instance compute_segment_metrics_Proper :
  Proper (Forall2 (seg_rescaled c) ==> Forall2 (same_metrics c)) compute_segment_metrics.
Proof.
  intros df df' H. rewrite !compute_segment_metrics_map, (segment_ids_scaled df df' H).
  induction (unique_sorted (map segment_id df)) as [| k ks IH]; simpl; constructor; auto.
  now apply segment_metrics_scaled, group_of_scaled.
Qed.

(** ** The scores *)

Lemma metric_column_scaled (g : metrics_row -> float) (df df' : list metrics_row) :
  (forall m m', same_metrics c m m' -> g m' = g m) ->
  Forall2 (same_metrics c) df df' -> map g df' = map g df.
Proof.
  intros Hg H. symmetry. apply (Forall2_map_eq (same_metrics c)) with (2 := H).
  intros a b Hab. symmetry. now apply Hg.
Qed.

Lemma norm_of_scaled (g : metrics_row -> float) (df df' : list metrics_row)
  (m m' : metrics_row) :
  (forall m m', same_metrics c m m' -> g m' = g m) ->
  Forall2 (same_metrics c) df df' -> same_metrics c m m' ->
  norm_of df' g m' = norm_of df g m.
Proof.
  intros Hg H Hm. unfold norm_of.
  now rewrite (metric_column_scaled g df df' Hg H), (Hg m m' Hm).
Qed.

Lemma cli_of_scaled (df df' : list metrics_row) (m m' : metrics_row) :
  Forall2 (same_metrics c) df df' -> same_metrics c m m' -> cli_of df' m' = cli_of df m.
Proof.
  intros H Hm. unfold cli_of.
  rewrite !(norm_of_scaled _ df df' m m') with (2 := H) (3 := Hm); [reflexivity | ..];
    now intros a b (? & ? & ? & ? & ? & ? & ?).
Qed.

#[local] Instance cli_table_Proper :
  Proper (Forall2 (same_metrics c) ==> Forall2 (same_scores c)) cli_table.
Proof.
  intros df df' H. rewrite !compute_cli_unfold. unfold compute_cli_spec.
  assert (E : map (cli_of df') df' = map (cli_of df) df).
  { symmetry. apply (Forall2_map_eq (same_metrics c)) with (2 := H).
    intros a b Hab. symmetry. now apply cli_of_scaled. }
  rewrite E. apply Forall2_map with (2 := Forall2_combine_l _ _ _ _ H).
  intros [m s] [m' s'] [Hm Hs]. cbn [fst snd] in *. subst s'.
  unfold same_scores, cli_row_of. cbn.
  rewrite (cli_of_scaled df df' m m' H Hm).
  rewrite !(norm_of_scaled _ df df' m m') with (2 := H) (3 := Hm);
    [split; [exact Hm | now repeat split] | ..];
    now intros a b (? & ? & ? & ? & ? & ? & ?).
Qed.

#[local] Instance compute_cli_Proper :
  Proper (Forall2 (same_metrics c) ==> result_rel (Forall2 (same_scores c))) compute_cli.
Proof.
  intros df df' H. pose proof (cli_table_Proper df df' H) as Ht.
  destruct H; simpl; [reflexivity | exact Ht].
Qed.

(** ** The merge and the run *)

Lemma join_scaled (r r' : seg_row) (m m' : cli_row) :
  seg_rescaled c r r' -> same_scores c m m' ->
  same_final c (join r (Some m)) (join r' (Some m')).
Proof.
  intros Hr ((_ & E1 & E2 & E3 & E4 & E5 & _) & _ & _ & _ & _ & E6 & E7).
  unfold same_final. cbn. destruct Hr as [Hr Hid]. repeat split; auto; apply Hr.
Qed.

#[local] Instance merge_left_Proper :
  Proper (Forall2 (seg_rescaled c) ==> Forall2 (same_scores c) ==> Forall2 (same_final c))
         merge_left.
Proof.
  intros seg seg' Hs ms ms' Hm. unfold merge_left. apply Forall2_flat_map with (2 := Hs).
  intros r r' Hr.
  assert (Hf : Forall2 (same_scores c) (matching r ms) (matching r' ms')).
  { unfold matching. apply Forall2_filter with (2 := Hm).
    intros a b ((-> & _) & _). now destruct Hr as [_ ->]. }
  destruct Hf as [| a b l l' Hab Hl].
  - repeat constructor; try reflexivity; apply Hr.
  - apply (Forall2_map (same_scores c) (same_final c)
             (fun x => join r (Some x)) (fun x => join r' (Some x)) (a :: l) (b :: l')).
    + intros x y. now apply join_scaled.
    + now constructor.
Qed.

(** The run on two tables that differ in the unit of the lap distance
    only. *)
#[local] Instance analyse_Proper :
  Proper (Forall2 (rescaled c) ==> eq ==> result_rel (same_session c)) analyse.
Proof.
  intros df df' H n ? <-. unfold analyse.
  pose proof (segment_lap_Proper df df' H n n eq_refl) as Hseg.
  destruct (segment_lap df n) as [seg | e], (segment_lap df' n) as [seg' | e'];
    try contradiction; [| exact Hseg]. cbn [bind result_rel] in *.
  pose proof (compute_cli_Proper _ _ (compute_segment_metrics_Proper seg seg' Hseg)) as Hc.
  destruct (compute_cli (compute_segment_metrics seg)) as [ms | e],
           (compute_cli (compute_segment_metrics seg')) as [ms' | e'];
    try contradiction; [| exact Hc]. cbn [bind result_rel] in *.
  split; [now apply merge_left_Proper | exact Hc].
Qed.

(** ** The insights *)

(** The table of sections reads the section number and the scores
    only. *)
Lemma group_sections_scaled (df df' : list final_row) :
  Forall2 (same_final c) df df' -> group_sections df' = group_sections df.
Proof.
  intros H. unfold group_sections, groupby.
  assert (E : map section_id df' = map section_id df).
  { symmetry. apply (Forall2_map_eq (same_final c)) with (2 := H).
    now intros a b (_ & -> & _). }
  rewrite E, !map_map. apply map_ext. intros k. cbn [fst snd].
  assert (Hg : Forall2 (same_final c) (group_of section_id k df) (group_of section_id k df')).
  { apply Forall2_filter with (2 := H). now intros a b (_ & -> & _). }
  unfold first_of_group. f_equal; f_equal; symmetry;
    apply (Forall2_map_eq (same_final c)) with (2 := Hg);
    now intros a b (_ & _ & ? & ? & ? & ? & ? & ? & ?).
Qed.

Lemma compute_insights_scaled (df df' : list final_row) :
  Forall2 (same_final c) df df' -> compute_insights df' = compute_insights df.
Proof. intros H. unfold compute_insights. now rewrite (group_sections_scaled df df' H). Qed.

(** What the page reads of the run on two tables that differ in the
    unit of the lap distance only. *)
Lemma run_scaled (out out' : list sample) (n : Z) :
  Forall2 (rescaled c) out out' ->
  scores_of (analyse out' n) = scores_of (analyse out n)
  /\ insights_of (analyse out' n) = insights_of (analyse out n).
Proof.
  intros H. pose proof (analyse_Proper out out' H n n eq_refl) as Ha.
  unfold scores_of, insights_of.
  destruct (analyse out n) as [s | e], (analyse out' n) as [s' | e']; try contradiction;
    cbn [result_rel rmap bind] in *; [| now subst].
  destruct Ha as [Hf _]. split; [| now apply compute_insights_scaled].
  f_equal. symmetry. apply (Forall2_map_eq (same_final c)) with (2 := Hf).
  now intros a b (_ & -> & -> & -> & _).
Qed.

End Scale.

(** * A positive factor on the speed *)

Section Speed.
Context {M : MathLib}.
Variable k : Q.
Hypothesis k_pos : 0 < k.

(** ** The conversion and the reconstruction *)

(** The conversion to metres per second of a column and of its
    multiple differ by a positive factor, whichever unit the test of
    the maximum finds in each. *)
Lemma to_speed_ms_scaled (spd spd' : list Q) :
  Forall2 (scaled k) spd spd' ->
  exists c, 0 < c /\ Forall2 (scaled c) (to_speed_ms spd) (to_speed_ms spd').
Proof.
  intros H. unfold to_speed_ms.
  destruct (fgtb (Qmax_list spd) (Some 100)), (fgtb (Qmax_list spd') (Some 100)).
  - exists k. split; [assumption |]. apply Forall2_map with (2 := H).
    unfold scaled. intros a b ->. field.
  - exists (k * (36 # 10)). split; [lra |]. rewrite <- (map_id spd').
    apply Forall2_map with (2 := H). unfold scaled. intros a b ->. field.
  - exists (k / (36 # 10)). split; [apply Qlt_shift_div_l; lra |].
    rewrite <- (map_id spd) at 1.
    apply Forall2_map with (2 := H). unfold scaled. intros a b ->. field.
  - exists k. now split.
Qed.

(** Steps 5 and 6 on two tables that differ in the unit of the speed
    only. *)
Lemma dead_reckoning_scaled (ts : list Z) (steering thr brk ax ay spd spd' : list Q) :
  Forall2 (scaled k) spd spd' ->
  exists c, 0 < c
    /\ Forall2 (rescaled c) (dead_reckoning ts steering thr brk ax ay spd)
                            (dead_reckoning ts steering thr brk ax ay spd').
Proof.
  intros H. destruct (to_speed_ms_scaled spd spd' H) as (c & Hc & Hv).
  exists c. split; [assumption |]. unfold dead_reckoning, table_of_columns.
  apply Forall2_map_same. intros i. unfold rescaled. cbn.
  repeat split; try reflexivity.
  apply (Forall2_nth (scaled c)); [now apply lap_distances_scaled | apply scaled_0].
Qed.

(** ** The raw rows and the pivot *)

Lemma speed_in_value (r : raw_row) :
  telemetry_value (speed_in k r) = cell_in k (telemetry_name r) (telemetry_value r).
Proof. unfold speed_in, cell_in. now destruct (String.eqb _ _). Qed.

Lemma speed_in_keys (r : raw_row) :
  raw_timestamp (speed_in k r) = raw_timestamp r
  /\ raw_vehicle_id (speed_in k r) = raw_vehicle_id r
  /\ raw_lap (speed_in k r) = raw_lap r /\ telemetry_name (speed_in k r) = telemetry_name r
  /\ has_value (speed_in k r) = has_value r.
Proof.
  unfold speed_in, has_value. destruct (String.eqb _ _); cbn; repeat split.
  now destruct (telemetry_value r).
Qed.

Lemma filter_speed_in (p : raw_row -> bool) (df : list raw_row) :
  (forall r, p (speed_in k r) = p r) ->
  filter p (map (speed_in k) df) = map (speed_in k) (filter p df).
Proof. intros H. rewrite filter_map_swap. f_equal. now apply filter_ext. Qed.

Lemma filter_matches_speed (v : string) (lap : Z) (df : list raw_row) :
  filter (matches v lap) (map (speed_in k) df) = map (speed_in k) (filter (matches v lap) df).
Proof.
  apply filter_speed_in. intros r. unfold matches.
  now destruct (speed_in_keys r) as (_ & -> & -> & _).
Qed.

Lemma first_value_speed (t : Z) (name : string) (df : list raw_row) :
  first_value t name (map (speed_in k) df) = cell_in k name (first_value t name df).
Proof.
  unfold first_value. rewrite filter_speed_in.
  - destruct (filter _ df) as [| r rest] eqn:E; cbn [map].
    + unfold cell_in. now destruct (String.eqb _ _).
    + rewrite speed_in_value. f_equal.
      assert (Hin : In r (filter (fun r => (raw_timestamp r =? t)%Z
                                            && String.eqb (telemetry_name r) name
                                            && has_value r) df))
        by (rewrite E; now left).
      apply filter_In in Hin as [_ Hp]. apply andb_prop in Hp as [Hp _].
      apply andb_prop in Hp as [_ Hp]. now apply String.eqb_eq.
  - intros r. destruct (speed_in_keys r) as (-> & _ & _ & -> & ->). reflexivity.
Qed.

Lemma pivot_table_speed (df : list raw_row) :
  Forall2 (wide_scaled k) (pivot_table df) (pivot_table (map (speed_in k) df)).
Proof.
  unfold pivot_table.
  rewrite filter_speed_in by (intros r; apply speed_in_keys).
  rewrite map_map.
  rewrite (map_ext (fun r => raw_timestamp (speed_in k r)) raw_timestamp)
    by (intros r; apply speed_in_keys).
  apply Forall2_map_same. intros t. split; [reflexivity |].
  intros name. apply first_value_speed.
Qed.

(** ** The columns of the wide table *)

Section Tables.
Variables df df' : list wide_row.
Hypothesis tables : Forall2 (wide_scaled k) df df'.

Lemma cells_speed (name : string) :
  map (fun r => cell r name) df' = map (cell_in k name) (map (fun r => cell r name) df).
Proof.
  rewrite map_map. symmetry. apply (Forall2_map_eq (wide_scaled k)) with (2 := tables).
  intros a b [_ H]. symmetry. apply H.
Qed.

Lemma timestamps_speed : map w_timestamp df' = map w_timestamp df.
Proof.
  symmetry. apply (Forall2_map_eq (wide_scaled k)) with (2 := tables). now intros a b [-> _].
Qed.

Lemma column_exists_speed (name : string) : column_exists name df' = column_exists name df.
Proof.
  unfold column_exists. symmetry. apply (Forall2_existsb (wide_scaled k)) with (2 := tables).
  intros a b [_ H]. rewrite H. unfold cell_in.
  destruct (String.eqb name "speed"); [| reflexivity]. now destruct (cell a name).
Qed.

Lemma present_sources_speed (std : string) :
  present_sources std df' = present_sources std df.
Proof. unfold present_sources. apply filter_ext. intros n. apply column_exists_speed. Qed.

Lemma filled_column_other (name : string) :
  String.eqb name "speed" = false -> filled_column name df' = filled_column name df.
Proof.
  intros E. unfold filled_column. rewrite cells_speed. unfold cell_in. rewrite E.
  now rewrite map_id.
Qed.

Lemma filled_column_speed :
  Forall2 (scaled k) (filled_column "speed" df) (filled_column "speed" df').
Proof.
  unfold filled_column. rewrite cells_speed. unfold cell_in. cbn [String.eqb Ascii.eqb Bool.eqb].
  unfold ffill. change (@None Q) with (option_map (Qmult k) None) at 2.
  rewrite ffill_from_map, bfill_map. unfold fillna. rewrite map_map.
  apply Forall2_map_same. intros [a |]; unfold scaled; simpl; ring.
Qed.

(** A column that is not renamed from the speed is the same in both
    tables. *)
Lemma required_column_other (std : string) :
  forallb (fun n => negb (String.eqb n "speed")) (sources_of std) = true ->
  required_column std df' = required_column std df.
Proof.
  intros H. unfold required_column. rewrite present_sources_speed.
  destruct (present_sources std df) as [| name rest] eqn:E.
  - rewrite !map_const_repeat. f_equal. symmetry. exact (Forall2_length tables).
  - apply filled_column_other.
    assert (Hin : In name (sources_of std)).
    { assert (Hp : In name (present_sources std df)) by (rewrite E; now left).
      unfold present_sources in Hp. now apply filter_In in Hp. }
    rewrite forallb_forall in H. apply H in Hin. now destruct (String.eqb name "speed").
Qed.

Lemma required_column_speed :
  Forall2 (scaled k) (required_column "speed" df) (required_column "speed" df').
Proof.
  unfold required_column. rewrite present_sources_speed.
  destruct (present_sources "speed" df) as [| name rest] eqn:E.
  - apply (Forall2_map (wide_scaled k)) with (2 := tables). intros a b _. unfold scaled. ring.
  - assert (Hin : In name (present_sources "speed" df)) by (rewrite E; now left).
    unfold present_sources in Hin. apply filter_In in Hin as [Hin _].
    destruct Hin as [<- | []]. apply filled_column_speed.
Qed.

End Tables.

Lemma sort_values_speed (df df' : list wide_row) :
  Forall2 (wide_scaled k) df df' ->
  Forall2 (wide_scaled k) (sort_values ts_key df) (sort_values ts_key df').
Proof.
  apply sort_values_Forall2. intros a a' b b' [Ea _] [Eb _]. unfold ts_key. now rewrite Ea, Eb.
Qed.

(** ** The processor *)

(** Two tables of samples that differ in the unit of the lap distance
    only, by some positive factor. *)
Definition same_lap (out out' : list sample) : Prop :=
  exists c, 0 < c /\ Forall2 (rescaled c) out out'.

(** Steps 2 to 6 on two tables that differ in the unit of the speed
    only: the same error, or the same lap. *)
Lemma process_pivot_speed (df df' : list wide_row) :
  Forall2 (wide_scaled k) df df' ->
  result_rel same_lap (process_pivot df) (process_pivot df').
Proof.
  intros H. apply sort_values_speed in H. unfold process_pivot. cbv zeta.
  rewrite (timestamps_speed _ _ H).
  rewrite !(required_column_other _ _ H) by reflexivity.
  unfold max_exceeds. rewrite !(present_sources_speed _ _ H).
  destruct (present_sources "throttle" _) as [| ? [| ? ?]]; cbn [bind result_rel];
    try reflexivity;
    (destruct (present_sources "brake_pressure" _) as [| ? [| ? ?]]; cbn [bind result_rel];
     try reflexivity; apply dead_reckoning_scaled, required_column_speed, H).
Qed.

Lemma process_lap_data_speed (chunks : list (list raw_row)) (v : string) (lap : Z) :
  result_rel same_lap (process_lap_data chunks v lap)
             (process_lap_data (map (map (speed_in k)) chunks) v lap).
Proof.
  unfold process_lap_data. rewrite !load_and_filter_spec, <- concat_map, filter_matches_speed.
  destruct (filter (matches v lap) (concat chunks)) as [| r rows]; [reflexivity |].
  cbn [map bind]. apply process_pivot_speed, (pivot_table_speed (r :: rows)).
Qed.

(** C6: the unit of the speed does not matter to the index.  Multiply
    every speed of the file by a positive factor: the run raises the
    same error if it raised one, and otherwise every sample lies in the
    same section with the same scores and the insights are the same,
    whichever unit the test of the maximum speed takes either file to
    be in. *)
Theorem speed_unit_immaterial (chunks : list (list raw_row)) (vehicle_id : string) (lap n : Z) :
  scores_of (process (map (map (speed_in k)) chunks) vehicle_id lap n)
  = scores_of (process chunks vehicle_id lap n)
  /\ insights_of (process (map (map (speed_in k)) chunks) vehicle_id lap n)
     = insights_of (process chunks vehicle_id lap n).
Proof.
  unfold process, run_with. pose proof (process_lap_data_speed chunks vehicle_id lap) as H.
  destruct (process_lap_data chunks vehicle_id lap) as [out | e],
           (process_lap_data (map (map (speed_in k)) chunks) vehicle_id lap) as [out' | e'];
    try contradiction; cbn [result_rel bind] in *.
  - destruct H as (c & Hc & H). now apply (run_scaled c Hc out out' n).
  - now subst.
Qed.

End Speed.

(** * The race file in two units *)

(** The lap of the race file with its speeds in km/h (the factor 3.6):
    the largest speed is 108, above the threshold, where the file as
    recorded has 30, below it. *)
Lemma speed_unit_immaterial_witness :
  scores_of (process (M := rational_math) (map (map (speed_in (36 # 10))) lap_chunks) "car1" 3 2)
  = scores_of (process (M := rational_math) lap_chunks "car1" 3 2)
  /\ insights_of (process (M := rational_math) (map (map (speed_in (36 # 10))) lap_chunks)
                    "car1" 3 2)
     = insights_of (process (M := rational_math) lap_chunks "car1" 3 2).
Proof.
  exact (speed_unit_immaterial (M := rational_math) (36 # 10) eq_refl lap_chunks "car1" 3 2).
Defined.

(** The speed column of that lap after the fill: the test of the
    maximum takes the two files to be in different units, and the
    conversion gives the same speeds in m/s. *)
Example race_units_detected :
  fgtb (Qmax_list [10; 20; 20; 30]) (Some 100) = false
  /\ fgtb (Qmax_list (map (Qmult (36 # 10)) [10; 20; 20; 30])) (Some 100) = true
  /\ Forall2 Qeq (to_speed_ms (map (Qmult (36 # 10)) [10; 20; 20; 30]))
                 (to_speed_ms [10; 20; 20; 30]).
Proof. repeat split; repeat constructor. Qed.
