(* ===== verification/Origin.v ===== *)
(** * Origin: the index against the origin of the time

    The race files give the time of a sample as a time of the day;
    other files count from the start of the session.
    [process_lap_data] uses the column [timestamp] in three places: as
    the key of the pivot (src/src/processor.py lines 57 to 62), as the
    key of the sort (line 65) and through its differences (line 106).
    None of them sees a shift of every time by the same amount:

    - the pivot of the shifted rows has the rows of the pivot, shifted
      ([pivot_table_later]), and they sort alike ([sort_values_later]);
    - the time deltas are the same ([time_deltas_shift]), and with them
      the heading, the path and the lap distance
      ([dead_reckoning_later]);
    - so the samples are the same but for their time
      ([process_lap_data_later]), and the sections, the scores and the
      insights are the same ([time_origin_immaterial]), by the
      morphisms of [Units] at the factor 1. *)

From Stdlib Require Import String QArith Qround Qminmax Qabs Lqa Lia ZArith Bool.
From Stdlib Require Import List Permutation Sorted SetoidList Morphisms Setoid.
From S2P Require Import Prelude MathLib Series Frame Segmenter CliModel Metrics.
From S2P Require Import Processor Insights Pipeline Units.
Import ListNotations.
#[local] Open Scope pipeline_scope.
#[local] Open Scope string_scope.

(** * The relations *)

(** A raw row [c] nanoseconds later. *)
Definition later (c : Z) (r : raw_row) : raw_row :=
  mkRaw (raw_timestamp r + c) (raw_vehicle_id r) (raw_lap r) (telemetry_name r)
        (telemetry_value r).

(** Two rows of the wide table with the same cells, the second [c]
    nanoseconds later. *)
Definition wide_later (c : Z) (r r' : wide_row) : Prop :=
  w_timestamp r' = (w_timestamp r + c)%Z /\ forall name, cell r' name = cell r name.

(** Two samples that differ in their time only, by [c] nanoseconds. *)
Definition retimed (c : Z) (r r' : sample) : Prop :=
  r' = mkSample (timestamp r + c) (Steering_Angle r) (throttle r) (brake_pressure r)
                (accx r) (accy r) (speed r) (dt r) (X r) (Y r) (Laptrigger_lapdist_dls r).

Section Shift.
Variable c : Z.

(** ** The raw rows and the pivot *)

Lemma filter_later (p : raw_row -> bool) (df : list raw_row) :
  (forall r, p (later c r) = p r) ->
  filter p (map (later c) df) = map (later c) (filter p df).
Proof. intros H. rewrite filter_map_swap. f_equal. now apply filter_ext. Qed.

Lemma insert_key_shift (k : Z) (ks : list Z) :
  insert_key (k + c) (map (fun t => t + c)%Z ks) = map (fun t => t + c)%Z (insert_key k ks).
Proof.
  induction ks as [|h ks IH]; [reflexivity |]. cbn [map insert_key].
  replace (k + c <? h + c)%Z with (k <? h)%Z by (apply Bool.eq_true_iff_eq; rewrite !Z.ltb_lt; lia).
  replace (k + c =? h + c)%Z with (k =? h)%Z by (apply Bool.eq_true_iff_eq; rewrite !Z.eqb_eq; lia).
  destruct (k <? h)%Z; [reflexivity |]. destruct (k =? h)%Z; [reflexivity |].
  cbn [map]. now rewrite IH.
Qed.

Lemma unique_sorted_shift (l : list Z) :
  unique_sorted (map (fun t => t + c)%Z l) = map (fun t => t + c)%Z (unique_sorted l).
Proof.
  induction l as [|t l IH]; [reflexivity |]. cbn [map unique_sorted fold_right].
  fold (unique_sorted (map (fun t => (t + c)%Z) l)). fold (unique_sorted l).
  now rewrite IH, insert_key_shift.
Qed.

Lemma first_value_later (t : Z) (name : string) (df : list raw_row) :
  first_value (t + c) name (map (later c) df) = first_value t name df.
Proof.
  unfold first_value. rewrite filter_map_swap.
  rewrite (filter_ext _ (fun r => (raw_timestamp r =? t)%Z && String.eqb (telemetry_name r) name
                                  && has_value r)).
  - now destruct (filter _ df).
  - intros r. cbn [later raw_timestamp telemetry_name]. unfold has_value.
    cbn [telemetry_value later].
    f_equal. f_equal. apply Bool.eq_true_iff_eq. rewrite !Z.eqb_eq. lia.
Qed.

Lemma pivot_table_later (df : list raw_row) :
  Forall2 (wide_later c) (pivot_table df) (pivot_table (map (later c) df)).
Proof.
  unfold pivot_table. rewrite filter_later by reflexivity.
  rewrite map_map. cbn [later raw_timestamp].
  rewrite <- (map_map raw_timestamp (fun t => t + c)%Z), unique_sorted_shift, map_map.
  apply Forall2_map_same. intros t. split; [reflexivity |].
  intros name. apply first_value_later.
Qed.

(** ** The columns of the wide table *)

Section Tables.
Variables df df' : list wide_row.
Hypothesis tables : Forall2 (wide_later c) df df'.

Lemma cells_later (name : string) :
  map (fun r => cell r name) df' = map (fun r => cell r name) df.
Proof.
  symmetry. apply (Forall2_map_eq (wide_later c)) with (2 := tables).
  intros a b [_ H]. symmetry. apply H.
Qed.

Lemma timestamps_later : map w_timestamp df' = map (fun t => t + c)%Z (map w_timestamp df).
Proof.
  rewrite map_map. symmetry. apply (Forall2_map_eq (wide_later c)) with (2 := tables).
  now intros a b [-> _].
Qed.

Lemma column_exists_later (name : string) : column_exists name df' = column_exists name df.
Proof.
  unfold column_exists. symmetry. apply (Forall2_existsb (wide_later c)) with (2 := tables).
  intros a b [_ H]. now rewrite H.
Qed.

Lemma present_sources_later (std : string) : present_sources std df' = present_sources std df.
Proof. unfold present_sources. apply filter_ext. intros n. apply column_exists_later. Qed.

Lemma required_column_later (std : string) : required_column std df' = required_column std df.
Proof.
  unfold required_column, filled_column. rewrite present_sources_later.
  destruct (present_sources std df); [| now rewrite cells_later].
  symmetry. apply (Forall2_map_eq (wide_later c)) with (2 := tables). reflexivity.
Qed.

Lemma max_exceeds_later (std : string) (col : list Q) (bound : Q) :
  max_exceeds std df' col bound = max_exceeds std df col bound.
Proof. unfold max_exceeds. now rewrite present_sources_later. Qed.

End Tables.

Lemma sort_values_later (df df' : list wide_row) :
  Forall2 (wide_later c) df df' ->
  Forall2 (wide_later c) (sort_values ts_key df) (sort_values ts_key df').
Proof.
  apply sort_values_Forall2. intros a a' b b' [Ea _] [Eb _]. unfold ts_key.
  rewrite Ea, Eb. apply Bool.eq_true_iff_eq. rewrite !Qle_bool_iff. unfold Qle. simpl. lia.
Qed.

(** ** The time deltas *)

Lemma diff_from_shift (p : Z) (ts : list Z) :
  diff_from (inject_Z (p + c)) (map inject_Z (map (fun t => t + c)%Z ts))
  = diff_from (inject_Z p) (map inject_Z ts).
Proof.
  revert p. induction ts as [|t ts IH]; intros p; [reflexivity |].
  cbn [map diff_from]. rewrite IH. f_equal. f_equal.
  unfold Qminus, Qplus, Qopp, inject_Z. cbn [Qnum Qden]. f_equal. lia.
Qed.

(** The time between the samples does not depend on the origin. *)
Lemma time_deltas_shift (ts : list Z) :
  time_deltas (map (fun t => t + c)%Z ts) = time_deltas ts.
Proof.
  unfold time_deltas. destruct ts as [|t ts]; [reflexivity |].
  cbn [map diff]. now rewrite diff_from_shift.
Qed.

Lemma dead_reckoning_later {M : MathLib} (ts : list Z) (steering thr brk ax ay spd : list Q) :
  Forall2 (retimed c) (dead_reckoning ts steering thr brk ax ay spd)
          (dead_reckoning (map (fun t => t + c)%Z ts) steering thr brk ax ay spd).
Proof.
  unfold dead_reckoning. cbv zeta. rewrite time_deltas_shift.
  unfold table_of_columns. rewrite length_map.
  apply Forall2_map_in. intros i Hi. apply in_seq in Hi. unfold retimed. cbn.
  f_equal. rewrite (nth_indep _ 0%Z (0 + c)%Z) by (rewrite length_map; lia).
  apply (map_nth (fun t => (t + c)%Z)).
Qed.

(** ** The processor *)

Lemma process_pivot_later {M : MathLib} (df df' : list wide_row) :
  Forall2 (wide_later c) df df' ->
  result_rel (Forall2 (retimed c)) (process_pivot df) (process_pivot df').
Proof.
  intros H. apply sort_values_later in H. unfold process_pivot. cbv zeta.
  rewrite (timestamps_later _ _ H), !(required_column_later _ _ H), !(max_exceeds_later _ _ H).
  destruct (max_exceeds "throttle" _ _ 1) as [thr|e]; cbn [bind result_rel]; [| reflexivity].
  destruct (max_exceeds "brake_pressure" _ _ 0) as [brk|e]; cbn [bind result_rel];
    [| reflexivity].
  apply dead_reckoning_later.
Qed.

Lemma process_lap_data_later {M : MathLib} (chunks : list (list raw_row)) (v : string)
  (lap : Z) :
  result_rel (Forall2 (retimed c)) (process_lap_data chunks v lap)
             (process_lap_data (map (map (later c)) chunks) v lap).
Proof.
  unfold process_lap_data. rewrite !load_and_filter_spec, <- concat_map.
  rewrite filter_later by reflexivity.
  destruct (filter (matches v lap) (concat chunks)) as [| r rows]; [reflexivity |].
  cbn [map bind]. apply process_pivot_later, (pivot_table_later (r :: rows)).
Qed.

Lemma retimed_rescaled (r r' : sample) : retimed c r r' -> rescaled 1 r r'.
Proof. intros ->. unfold rescaled, scaled. cbn. repeat split; try reflexivity. ring. Qed.

End Shift.

(** C15: the origin of the time does not matter.  Move every time of
    the file by the same number of nanoseconds: the run raises the same
    error if it raised one; otherwise the samples are the same but for
    their time, every sample lies in the same section with the same
    scores, and the insights are the same.  [process_lap_data] reads the
    times through their order and their differences only. *)
Theorem time_origin_immaterial {M : MathLib} (c : Z) (chunks : list (list raw_row))
  (vehicle_id : string) (lap n : Z) :
  result_rel (Forall2 (retimed c)) (process_lap_data chunks vehicle_id lap)
             (process_lap_data (map (map (later c)) chunks) vehicle_id lap)
  /\ scores_of (process (map (map (later c)) chunks) vehicle_id lap n)
     = scores_of (process chunks vehicle_id lap n)
  /\ insights_of (process (map (map (later c)) chunks) vehicle_id lap n)
     = insights_of (process chunks vehicle_id lap n).
Proof.
  pose proof (process_lap_data_later c chunks vehicle_id lap) as H.
  split; [exact H |]. unfold process, run_with.
  destruct (process_lap_data chunks vehicle_id lap) as [out | e],
           (process_lap_data (map (map (later c)) chunks) vehicle_id lap) as [out' | e'];
    try contradiction; cbn [result_rel bind] in *; [| now subst].
  apply (run_scaled 1); [reflexivity |].
  eapply Forall2_impl; [| exact H]. apply retimed_rescaled.
Qed.
