(* ===== verification/Dashboard.v ===== *)
(** * Dashboard: the page of src/app.py as a state machine

    Streamlit runs the script of the page from top to bottom after every
    interaction of the user.  What survives from one run to the next is
    [st.session_state] (the tables of the last analysis and the
    configuration they were computed for) and the two caches of
    [st.cache_data].  One run is the function [script]: it reads the
    directory and the widgets, decides whether the analysis has to run
    again, and shows the page, a message, or the traceback of an
    exception.  The reruns of a session are the steps of the relation
    [step]; [reachable] are the states a session can be in.

    The file system is a [world]: what [glob] answers and the raw rows
    of the file at a path.  The user is a [widgets] record per run.  The
    loader is a parameter: [as_written] is the call of
    [load_data.load_session] that the page makes, [with_processor] is
    [processor.process_lap_data] in its place; [Files] relates the world
    to the text of the files.  [eventually] states what a session can
    always be brought to, [later] relates a state to the states that
    follow it, and [retained] is what a cache keeps from one to the
    other.  Titles, captions, colours and number formats are not
    modelled. *)

From Stdlib Require Import String QArith Qround Qminmax Qabs Lqa Lia ZArith Bool.
From Stdlib Require Import List Permutation Sorted SetoidList Morphisms Setoid Relations.
From S2P Require Import Prelude MathLib Series Frame Segmenter Metrics CliModel.
From S2P Require Import Processor Insights TrackMap Discovery Pipeline.
Import ListNotations.
#[local] Open Scope pipeline_scope.
#[local] Open Scope string_scope.

(** ** The widgets *)

(** [st.sidebar.selectbox(label, options)]: the option that the user
    picked, the first option when nothing is picked. *)
Definition selectbox {A : Type} (options : list A) (first : A) (choice : nat) : A :=
  nth choice options first.

Arguments selectbox {A} options first choice : simpl never.

(** [st.sidebar.slider(label, min_value, max_value, value, step)]: the
    value at the position of the handle. *)
Definition slider (min_value max_value step : Z) (position : nat) : Z :=
  Z.min max_value (min_value + step * Z.of_nat position).

(** What the user has set when the script runs. *)
Record widgets : Type := mkWidgets {
  vehicle_choice : nat;
  lap_choice : nat;
  segments_position : nat;
  run_requested : bool
}.

(** ** The file system *)

Record world : Type := mkWorld {
  w_glob : string -> bool -> list string;
  w_rows : string -> option (list (list raw_row))
}.

Definition DATA_DIR : string := "data".

(** The file at a path as the two scans of load_data.py see it. *)
Definition file_at (w : world) (path : string) : telemetry_file :=
  match w_rows w path with
  | Some chunks => id_chunks chunks
  | None => NoFile
  end.

(** ** What a session keeps *)

Record config : Type := mkConfig {
  cfg_vehicle_id : string;
  cfg_lap : Z;
  cfg_segments : Z;
  cfg_telemetry : string
}.

Definition config_eqb (a b : config) : bool :=
  String.eqb (cfg_vehicle_id a) (cfg_vehicle_id b) && (cfg_lap a =? cfg_lap b)%Z
  && (cfg_segments a =? cfg_segments b)%Z && String.eqb (cfg_telemetry a) (cfg_telemetry b).

(** [st.session_state]: the three keys that the page writes. *)
Record store : Type := mkStore {
  ss_final_df : option (list final_row);
  ss_metrics_df : option (list cli_row);
  ss_last_config : option config
}.

Definition empty_store : store := mkStore None None None.

(** The memo tables of [st.cache_data], by the arguments of the call. *)
Record caches : Type := mkCaches {
  vehicles_cache : list (string * list string);
  laps_cache : list (string * string * list Z)
}.

Record state : Type := mkState {
  session_state : store;
  cache : caches
}.

Definition initial : state := mkState empty_store (mkCaches [] []).

(** A function under [st.cache_data]: the stored result when the
    arguments have been seen, the call and its record otherwise. *)
Definition cached {K V : Type} (eqb : K -> K -> bool) (f : K -> V) (key : K)
  (memo : list (K * V)) : V * list (K * V) :=
  match find (fun kv => eqb (fst kv) key) memo with
  | Some kv => (snd kv, memo)
  | None => (f key, (key, f key) :: memo)
  end.

Definition cached_vehicles (w : world) (path : string) (c : caches) : list string * caches :=
  let '(v, memo) := cached String.eqb (fun p => get_available_vehicles (file_at w p)) path
                           (vehicles_cache c) in
  (v, mkCaches memo (laps_cache c)).

Definition key_eqb (a b : string * string) : bool :=
  String.eqb (fst a) (fst b) && String.eqb (snd a) (snd b).

Definition cached_laps (w : world) (path vehicle : string) (c : caches) : list Z * caches :=
  let '(l, memo) := cached key_eqb (fun k => get_available_laps (file_at w (fst k)) (snd k))
                           (path, vehicle) (laps_cache c) in
  (l, mkCaches (vehicles_cache c) memo).

(** ** What a run shows *)

(** The text of an exception, [str(e)]. *)
Definition str (e : pyerror) : string :=
  match e with
  | ValueError msg => msg
  | IntCastingNaNError => "Cannot convert non-finite values (NA or inf) to integer"
  | FileNotFoundError msg => msg
  | AttributeError msg => msg
  | KeyError key => "'" ++ key ++ "'"
  | TypeError msg => msg
  end.

(** A row of one of the two tables of sections. *)
Record tab_row : Type := mkTabRow {
  tab_segment : cell_value;
  tab_cli : float;
  tab_cause : option string
}.

Record page : Type := mkPage {
  shown_max_cli : float;
  shown_avg_cli : float;
  shown_max_segment : option Z;
  primary_stressor : string;
  fig_map : figure;
  fig_line : list (Z * float);
  high_tab : option (list tab_row);
  low_tab : option (list tab_row)
}.

Inductive outcome : Type :=
| Stopped (message : string)      (* a message, then [st.stop()] *)
| Raised (e : pyerror)            (* an exception leaves the script *)
| Shown (p : page)                (* the summary, the figures and the tables *)
| Hint.                           (* the invitation to run an analysis *)

(** ** The sidebar: lines 38 to 78 *)

Definition no_telemetry : string :=
  "No telemetry detected. Add the official GR Cup CSVs to the data/ folder and rerun.".

Definition sidebar (w : world) (u : widgets) (c : caches) : caches * (string + config) :=
  let data_files := scan_data_directory (w_glob w) DATA_DIR in
  match telemetry data_files with
  | None | Some EmptyString => (c, inl no_telemetry)
  | Some path =>
      let '(vehicles, c) := cached_vehicles w path c in
      match vehicles with
      | [] => (c, inl "No vehicles found in telemetry.")
      | v0 :: _ =>
          let vehicle_id := selectbox vehicles v0 (vehicle_choice u) in
          let '(laps, c) := cached_laps w path vehicle_id c in
          match laps with
          | [] => (c, inl "No laps found for this vehicle.")
          | l0 :: _ =>
              let lap_number := selectbox laps l0 (lap_choice u) in
              let num_segments := slider 40 80 5 (segments_position u) in
              (c, inr (mkConfig vehicle_id lap_number num_segments path))
          end
      end
  end.

(** ** The analysis: lines 80 to 107 *)

Definition is_some {A : Type} (o : option A) : bool :=
  match o with Some _ => true | None => false end.

Definition same_config (last : option config) (current : config) : bool :=
  match last with
  | Some c => config_eqb c current
  | None => false
  end.

Definition should_run (u : widgets) (ss : store) (current_config : config) : bool :=
  run_requested u || negb (is_some (ss_final_df ss))
  || negb (same_config (ss_last_config ss) current_config).

(** A loader: the samples of a lap of a vehicle in the file at a path. *)
Definition loader : Type := world -> string -> string -> Z -> result (list sample).

(** The call that the page makes. *)
Definition as_written : loader := fun _ _ _ _ => load_session.

Section Page.
Context {M : MathLib}.

(** [processor.process_lap_data] on the file at the path. *)
Definition with_processor : loader := fun w path vehicle_id lap =>
  match w_rows w path with
  | Some chunks => process_lap_data chunks vehicle_id lap
  | None => Err (FileNotFoundError ("[Errno 2] No such file or directory: '" ++ path ++ "'"))
  end.

(** The body of [if should_run]: the store after it and, when the run
    does not reach the page, what is shown instead. *)
Definition run_analysis (load : loader) (w : world) (current_config : config) (ss : store)
  : store * option outcome :=
  match load w (cfg_telemetry current_config) (cfg_vehicle_id current_config)
             (cfg_lap current_config) with
  | Err e => (ss, Some (Stopped ("Error processing data: " ++ str e)))
  | Ok df =>
      match analyse df (cfg_segments current_config) with
      | Err e => (ss, Some (Raised e))
      | Ok s => (mkStore (Some (final_df s)) (Some (metrics_df s)) (Some current_config), None)
      end
  end.

(** ** The page: lines 109 to 169 *)

(** [int(v)] *)
Definition int_of_cell (v : cell_value) : result Z :=
  match v with
  | IntCell z => Ok z
  | FloatCell (Some q) => Ok (if Qle_bool 0 q then Qfloor q else Qceiling q)
  | FloatCell None => Err (ValueError "cannot convert float NaN to integer")
  | StrCell s => Err (ValueError ("invalid literal for int() with base 10: '" ++ s ++ "'"))
  end.

(** Line 122: the number of the section, or a dash. *)
Definition max_stress_label (max_seg_val : cell_value) : result (option Z) :=
  match max_seg_val with
  | StrCell "-" => Ok None
  | v => z <- int_of_cell v ;; Ok (Some z)
  end.

(** The table of a tab: the columns chosen from the rows, or the note
    that there are none. *)
Definition tab (col : string) (with_cause : bool) (rows : list section_insight)
  : result (option (list tab_row)) :=
  match rows with
  | [] => Ok None
  | _ :: _ =>
      t <- mapM (fun s => v <- section_get s col ;;
                          Ok (mkTabRow v (s_CLI_smooth (section s))
                                (if with_cause then Some (Primary_Cause s) else None)))
                rows ;;
      Ok (Some t)
  end.

(** The page for a table that is not empty, with [col] as the name of
    the column of section numbers. *)
Definition page_of (col : string) (final_df : list final_row)
  (stored_metrics : option (list cli_row)) : result page :=
  metrics_df <- match stored_metrics with
                | Some m => Ok m
                | None => Err (KeyError "metrics_df")
                end ;;
  results <- compute_insights final_df ;;
  max_seg_val <- section_get (max_stress_segment results) col ;;
  label <- max_stress_label max_seg_val ;;
  fig <- plot_track_map final_df ;;
  high <- tab col true (top_5_high results) ;;
  low <- tab col false (top_5_low results) ;;
  Ok (mkPage (max_cli results) (avg_cli results) label (common_cause results) fig
             (map (fun c => (m_segment_id (metrics c), CLI_smooth c)) metrics_df)
             high low).

Definition display_with (col : string) (ss : store) : outcome :=
  match ss_final_df ss with
  | Some (r :: final_df) =>
      match page_of col (r :: final_df) (ss_metrics_df ss) with
      | Ok p => Shown p
      | Err e => Raised e
      end
  | Some [] | None => Hint
  end.

(** The page as written: the column is looked up under [segment_col]. *)
Definition display (ss : store) : outcome := display_with segment_col ss.

(** ** One run of the script *)

Definition script_with (col : string) (load : loader) (w : world) (u : widgets) (st : state)
  : state * outcome :=
  let '(c, selection) := sidebar w u (cache st) in
  match selection with
  | inl message => (mkState (session_state st) c, Stopped message)
  | inr current_config =>
      let ss := session_state st in
      if should_run u ss current_config
      then match run_analysis load w current_config ss with
           | (ss', Some o) => (mkState ss' c, o)
           | (ss', None) => (mkState ss' c, display_with col ss')
           end
      else (mkState ss c, display_with col ss)
  end.

Definition script : loader -> world -> widgets -> state -> state * outcome :=
  script_with segment_col.

(** ** Sessions *)

(** A rerun in a world that [W] admits. *)
Inductive step (col : string) (load : loader) (W : world -> Prop) : state -> state -> Prop :=
| step_rerun (w : world) (u : widgets) (st : state) :
    W w -> step col load W st (fst (script_with col load w u st)).

Inductive reachable (col : string) (load : loader) (W : world -> Prop) : state -> Prop :=
| reach_initial : reachable col load W initial
| reach_step (st st' : state) :
    reachable col load W st -> step col load W st st' -> reachable col load W st'.

End Page.

(** * Facts *)

(** ** Widgets and configurations *)

Lemma selectbox_In {A : Type} (first : A) (rest : list A) (choice : nat) :
  In (selectbox (first :: rest) first choice) (first :: rest).
Proof.
  unfold selectbox. destruct (Nat.lt_ge_cases choice (length (first :: rest))).
  - now apply nth_In.
  - rewrite nth_overflow by assumption. now left.
Qed.

(** The values of the slider of the page. *)
Definition on_slider (n : Z) : Prop := (40 <= n <= 80 /\ n mod 5 = 0)%Z.

Lemma slider_range (position : nat) : on_slider (slider 40 80 5 position).
Proof.
  unfold slider, on_slider. destruct (Z.min_spec 80 (40 + 5 * Z.of_nat position)) as [[? ->]|[? ->]].
  - split; [lia | reflexivity].
  - split; [lia |]. rewrite (Z.mul_comm 5), Z.mod_add by lia. reflexivity.
Qed.

Lemma config_eqb_spec (a b : config) : reflect (a = b) (config_eqb a b).
Proof.
  unfold config_eqb. destruct a as [v l n t], b as [v' l' n' t']. simpl.
  destruct (String.eqb_spec v v'), (Z.eqb_spec l l'), (Z.eqb_spec n n'), (String.eqb_spec t t');
    simpl; constructor; congruence.
Qed.

Lemma config_eqb_refl (a : config) : config_eqb a a = true.
Proof. now destruct (config_eqb_spec a a). Qed.

Lemma key_eqb_spec (a b : string * string) : reflect (a = b) (key_eqb a b).
Proof.
  unfold key_eqb. destruct a as [p v], b as [p' v']. simpl.
  destruct (String.eqb_spec p p'), (String.eqb_spec v v'); simpl; constructor; congruence.
Qed.

(** ** The caches *)

Section Cached.
Context {K V : Type}.
Variable eqb : K -> K -> bool.
Hypothesis eqb_spec : forall a b, reflect (a = b) (eqb a b).
Variable f : K -> V.

(** A memo table holds results of [f] only. *)
Definition memo_of (memo : list (K * V)) : Prop :=
  Forall (fun kv => snd kv = f (fst kv)) memo.

Lemma cached_value (key : K) (memo : list (K * V)) :
  memo_of memo -> fst (cached eqb f key memo) = f key.
Proof.
  intros H. unfold cached. destruct (find _ memo) as [kv|] eqn:E; [| reflexivity].
  apply find_some in E as [Hin E]. destruct (eqb_spec (fst kv) key) as [<-|]; [| discriminate].
  unfold memo_of in H. rewrite Forall_forall in H. exact (H kv Hin).
Qed.

Lemma cached_memo_of (key : K) (memo : list (K * V)) :
  memo_of memo -> memo_of (snd (cached eqb f key memo)).
Proof.
  intros H. unfold cached. destruct (find _ memo); simpl; [exact H |].
  now constructor.
Qed.

(** Once a key is in the table a call with it leaves the table as it is. *)
Lemma cached_again (key : K) (memo : list (K * V)) :
  snd (cached eqb f key (snd (cached eqb f key memo))) = snd (cached eqb f key memo).
Proof.
  unfold cached at 2 3. destruct (find _ memo) as [kv|] eqn:E; simpl.
  - unfold cached. now rewrite E.
  - unfold cached. simpl. now destruct (eqb_spec key key).
Qed.

End Cached.

(** ** Entries are kept *)

Section Kept.
Context {K V : Type}.
Variable eqb : K -> K -> bool.
Hypothesis eqb_spec : forall a b, reflect (a = b) (eqb a b).

(** The entry of a key in a memo table. *)
Definition entry (key : K) (memo : list (K * V)) : option V :=
  option_map snd (find (fun kv => eqb (fst kv) key) memo).

(** A call never replaces an entry: the table answers a key that it
    holds as before, whatever function is cached now. *)
Lemma cached_keeps (f : K -> V) (key key' : K) (memo : list (K * V)) (v : V) :
  entry key' memo = Some v -> entry key' (snd (cached eqb f key memo)) = Some v.
Proof.
  unfold entry, cached. intros H.
  destruct (find (fun kv => eqb (fst kv) key) memo) as [kv |] eqn:E; [exact H |].
  cbn [snd find fst]. destruct (eqb_spec key key') as [-> | _]; [| exact H].
  rewrite E in H. discriminate.
Qed.

(** A call with a key that the table holds answers from the table. *)
Lemma cached_entry (f : K -> V) (key : K) (memo : list (K * V)) (v : V) :
  entry key memo = Some v -> cached eqb f key memo = (v, memo).
Proof.
  unfold entry, cached. destruct (find _ memo) as [kv |]; [| discriminate].
  now intros [= <-].
Qed.

End Kept.

(** What the caches answer for a path, and for a vehicle of a path. *)
Definition vehicles_entry (path : string) (c : caches) : option (list string) :=
  entry String.eqb path (vehicles_cache c).

Definition laps_entry (path vehicle : string) (c : caches) : option (list Z) :=
  entry key_eqb (path, vehicle) (laps_cache c).

(** The caches hold what the scans find in the world. *)
Definition caches_coherent (w : world) (c : caches) : Prop :=
  memo_of (fun p => get_available_vehicles (file_at w p)) (vehicles_cache c)
  /\ memo_of (fun k => get_available_laps (file_at w (fst k)) (snd k)) (laps_cache c).

Lemma cached_vehicles_coherent (w : world) (path : string) (c : caches) :
  caches_coherent w c ->
  fst (cached_vehicles w path c) = get_available_vehicles (file_at w path)
  /\ caches_coherent w (snd (cached_vehicles w path c)).
Proof.
  intros [Hv Hl]. unfold cached_vehicles.
  pose proof (cached_value String.eqb String.eqb_spec _ path _ Hv) as E.
  pose proof (cached_memo_of String.eqb _ path _ Hv) as E'.
  destruct (cached String.eqb _ path (vehicles_cache c)) as [v memo]. now repeat split.
Qed.

Lemma cached_laps_coherent (w : world) (path vehicle : string) (c : caches) :
  caches_coherent w c ->
  fst (cached_laps w path vehicle c) = get_available_laps (file_at w path) vehicle
  /\ caches_coherent w (snd (cached_laps w path vehicle c)).
Proof.
  intros [Hv Hl]. unfold cached_laps.
  pose proof (cached_value key_eqb key_eqb_spec _ (path, vehicle) _ Hl) as E.
  pose proof (cached_memo_of key_eqb _ (path, vehicle) _ Hl) as E'.
  destruct (cached key_eqb _ (path, vehicle) (laps_cache c)) as [l memo]. now repeat split.
Qed.

(** ** The sidebar *)

(** The selection without the caches: what the sidebar computes from
    the world and the widgets. *)
Definition select (w : world) (u : widgets) : string + config :=
  match telemetry (scan_data_directory (w_glob w) DATA_DIR) with
  | None | Some EmptyString => inl no_telemetry
  | Some path =>
      match get_available_vehicles (file_at w path) with
      | [] => inl "No vehicles found in telemetry."
      | v0 :: vs =>
          let vehicle_id := selectbox (v0 :: vs) v0 (vehicle_choice u) in
          match get_available_laps (file_at w path) vehicle_id with
          | [] => inl "No laps found for this vehicle."
          | l0 :: ls =>
              inr (mkConfig vehicle_id (selectbox (l0 :: ls) l0 (lap_choice u))
                            (slider 40 80 5 (segments_position u)) path)
          end
      end
  end.

Lemma sidebar_select (w : world) (u : widgets) (c : caches) :
  caches_coherent w c ->
  snd (sidebar w u c) = select w u /\ caches_coherent w (fst (sidebar w u c)).
Proof.
  intros Hc. unfold sidebar, select.
  destruct (telemetry _) as [[| a path] |]; [now split | | now split].
  destruct (cached_vehicles_coherent w (String a path) c Hc) as [Ev Hc1].
  destruct (cached_vehicles w (String a path) c) as [vehicles c1]. cbn [fst snd] in Ev, Hc1.
  rewrite <- Ev. destruct vehicles as [| v0 vs]; [now split |].
  destruct (cached_laps_coherent w (String a path) (selectbox (v0 :: vs) v0 (vehicle_choice u))
              c1 Hc1) as [El Hc2].
  destruct (cached_laps w (String a path) _ c1) as [laps c2]. cbn [fst snd] in El, Hc2.
  rewrite <- El. destruct laps; now split.
Qed.

(** What a selection is: a vehicle of the file, a lap of the vehicle, a
    value of the slider. *)
Definition offered (w : world) (cfg : config) : Prop :=
  telemetry (scan_data_directory (w_glob w) DATA_DIR) = Some (cfg_telemetry cfg)
  /\ In (cfg_vehicle_id cfg) (get_available_vehicles (file_at w (cfg_telemetry cfg)))
  /\ In (cfg_lap cfg) (get_available_laps (file_at w (cfg_telemetry cfg)) (cfg_vehicle_id cfg))
  /\ on_slider (cfg_segments cfg).

Lemma select_offered (w : world) (u : widgets) (cfg : config) :
  select w u = inr cfg -> offered w cfg.
Proof.
  unfold select, offered.
  destruct (telemetry _) as [[| a path] |]; [discriminate | | discriminate].
  destruct (get_available_vehicles _) as [| v0 vs] eqn:Ev; [discriminate |].
  destruct (get_available_laps _ _) as [| l0 ls] eqn:El; [discriminate |].
  intros [= <-]. cbn [cfg_telemetry cfg_vehicle_id cfg_lap cfg_segments]. rewrite Ev, El.
  auto using selectbox_In, slider_range.
Qed.

(** ** One run *)

Section RunFacts.
Context {M : MathLib}.
Variables (col : string) (load : loader).

(** The store holds the analysis of a configuration. *)
Definition analysed (w : world) (cfg : config) (ss : store) : Prop :=
  exists df s,
    load w (cfg_telemetry cfg) (cfg_vehicle_id cfg) (cfg_lap cfg) = Ok df
    /\ analyse df (cfg_segments cfg) = Ok s
    /\ ss = mkStore (Some (final_df s)) (Some (metrics_df s)) (Some cfg).

(** The three ways of the analysis: the loader fails and the page
    stops, a later stage raises, or the store is written. *)
Lemma run_analysis_cases (w : world) (cfg : config) (ss : store) :
  (exists o, run_analysis load w cfg ss = (ss, Some o) /\ forall p, o <> Shown p)
  \/ (exists ss', run_analysis load w cfg ss = (ss', None) /\ analysed w cfg ss').
Proof.
  unfold run_analysis, analysed.
  destruct (load w _ _ _) as [df | e] eqn:El;
    [| left; eexists; split; [reflexivity | discriminate]].
  destruct (analyse df _) as [s | e] eqn:Ea;
    [| left; eexists; split; [reflexivity | discriminate]].
  right. eexists. split; [reflexivity |]. exists df, s. auto.
Qed.

(** What a run does to the state: the caches are those of the sidebar;
    the store is kept, or it holds the analysis of the selection. *)
Lemma script_with_state (w : world) (u : widgets) (st : state) :
  cache (fst (script_with col load w u st)) = fst (sidebar w u (cache st))
  /\ (session_state (fst (script_with col load w u st)) = session_state st
      \/ exists cfg, snd (sidebar w u (cache st)) = inr cfg
                     /\ analysed w cfg (session_state (fst (script_with col load w u st)))).
Proof.
  unfold script_with. destruct (sidebar w u (cache st)) as [c [message | cfg]]; [now auto |].
  destruct (should_run u (session_state st) cfg); [| now auto].
  destruct (run_analysis_cases w cfg (session_state st)) as [(o & -> & _) | (ss' & -> & H)];
    simpl; eauto.
Qed.

End RunFacts.

(** ** Invariants of a session *)

(** The three keys of the store are written together. *)
Definition complete (ss : store) : Prop :=
  ss = empty_store
  \/ exists final_df metrics_df cfg, ss = mkStore (Some final_df) (Some metrics_df) (Some cfg).

(** The store is empty or holds the analysis of a selection of the
    world. *)
Definition coherent {M : MathLib} (load : loader) (w : world) (ss : store) : Prop :=
  ss = empty_store \/ exists cfg, offered w cfg /\ analysed load w cfg ss.

Section SessionFacts.
Context {M : MathLib}.
Variables (col : string) (load : loader).

Lemma analysed_complete (w : world) (cfg : config) (ss : store) :
  analysed load w cfg ss -> complete ss.
Proof. intros (df & s & _ & _ & ->). right. eauto. Qed.

Lemma reachable_complete (W : world -> Prop) (st : state) :
  reachable col load W st -> complete (session_state st).
Proof.
  induction 1 as [| st st' _ IH Hs]; [now left |].
  destruct Hs as [w u st _].
  destruct (script_with_state col load w u st) as [_ [-> | (cfg & _ & H)]];
    eauto using analysed_complete.
Qed.

Lemma reachable_caches (w : world) (st : state) :
  reachable col load (eq w) st -> caches_coherent w (cache st).
Proof.
  induction 1 as [| st st' _ IH Hs]; [split; constructor |].
  destruct Hs as [w' u st <-].
  destruct (script_with_state col load w u st) as [-> _].
  now apply sidebar_select.
Qed.

Lemma reachable_coherent (w : world) (st : state) :
  reachable col load (eq w) st -> coherent load w (session_state st).
Proof.
  induction 1 as [| st st' Hr IH Hs]; [now left |].
  destruct Hs as [w' u st <-].
  destruct (script_with_state col load w u st) as [_ [-> | (cfg & E & H)]]; [exact IH |].
  right. exists cfg. split; [| exact H].
  apply (select_offered w u). rewrite <- E. symmetry.
  now apply sidebar_select, (reachable_caches w).
Qed.

End SessionFacts.

(** ** Caches in a world that changes *)

Section Stale.
Context {M : MathLib}.
Variables (col : string) (load : loader).

(** The states that a session reaches from a state. *)
Definition later (W : world -> Prop) : state -> state -> Prop :=
  clos_refl_trans state (step col load W).

(** What the caches hold stays in them. *)
Definition retained (c c' : caches) : Prop :=
  (forall path v, vehicles_entry path c = Some v -> vehicles_entry path c' = Some v)
  /\ (forall path vehicle l, laps_entry path vehicle c = Some l ->
                             laps_entry path vehicle c' = Some l).

Lemma sidebar_keeps (w : world) (u : widgets) (c : caches) : retained c (fst (sidebar w u c)).
Proof.
  unfold retained, sidebar, cached_vehicles, cached_laps, vehicles_entry, laps_entry.
  destruct (telemetry _) as [[| a path0] |]; [now split | | now split].
  destruct (cached String.eqb _ _ (vehicles_cache c)) as [vehicles memo] eqn:Ev.
  assert (Hv : forall path v, entry String.eqb path (vehicles_cache c) = Some v ->
                              entry String.eqb path memo = Some v).
  { intros path v H.
    apply (cached_keeps String.eqb String.eqb_spec
             (fun p => get_available_vehicles (file_at w p)) (String a path0)) in H.
    now rewrite Ev in H. }
  destruct vehicles as [| v0 vs]; [now split |]. cbn [vehicles_cache laps_cache].
  destruct (cached key_eqb _ _ (laps_cache c)) as [laps memo'] eqn:El.
  assert (Hl : forall path vehicle l, entry key_eqb (path, vehicle) (laps_cache c) = Some l ->
                                      entry key_eqb (path, vehicle) memo' = Some l).
  { intros path vehicle l H.
    apply (cached_keeps key_eqb key_eqb_spec
             (fun k => get_available_laps (file_at w (fst k)) (snd k))
             (String a path0, selectbox (v0 :: vs) v0 (vehicle_choice u))) in H.
    now rewrite El in H. }
  destruct laps; split; cbn [fst vehicles_cache laps_cache]; auto.
Qed.

Lemma later_keeps (W : world -> Prop) (st st' : state) :
  later W st st' -> retained (cache st) (cache st').
Proof.
  induction 1 as [st st' [w u st0 _] | st | st st1 st2 _ [H1 H1'] _ [H2 H2']].
  - destruct (script_with_state col load w u st0) as [-> _]. apply sidebar_keeps.
  - now split.
  - split; auto.
Qed.

End Stale.

(** The store is empty or holds the tables of an analysis: in any
    worlds, with any loader. *)
Definition stored {M : MathLib} (ss : store) : Prop :=
  ss = empty_store
  \/ exists df n s cfg, analyse df n = Ok s
                        /\ ss = mkStore (Some (final_df s)) (Some (metrics_df s)) (Some cfg).

Lemma reachable_stored {M : MathLib} (col : string) (load : loader) (W : world -> Prop)
  (st : state) :
  reachable col load W st -> stored (session_state st).
Proof.
  induction 1 as [| st st' _ IH Hs]; [now left |].
  destruct Hs as [w u st _].
  destruct (script_with_state col load w u st) as [_ [-> | (cfg & _ & df & s & _ & Ha & ->)]];
    [exact IH | right; eauto 6].
Qed.

(** ** The invitation *)

Section Invitation.
Context {M : MathLib}.
Variables (col : string) (load : loader).

Lemma run_analysis_ends (w : world) (cfg : config) (ss ss' : store) (o : outcome) :
  run_analysis load w cfg ss = (ss', Some o) ->
  (exists message, o = Stopped message) \/ (exists e, o = Raised e).
Proof.
  unfold run_analysis. destruct (load w _ _ _) as [df | e]; [| intros [= _ <-]; eauto].
  destruct (analyse df _) as [s | e]; [discriminate | intros [= _ <-]; eauto].
Qed.

(** The table of a stored analysis has rows: the test of line 109 for
    an empty table never fails. *)
Lemma stored_rows (ss : store) : stored ss -> ss_final_df ss <> Some [].
Proof.
  intros [-> | (df & n & s & cfg & Ha & ->)]; [discriminate |].
  apply analyse_Ok_rows in Ha as [_ Hne]. simpl. congruence.
Qed.

Lemma display_with_stored (ss : store) :
  stored ss -> ss_final_df ss <> None -> display_with col ss <> Hint.
Proof.
  intros Hs Hn. apply stored_rows in Hs. unfold display_with.
  destruct (ss_final_df ss) as [[| r df] |]; try congruence.
  destruct (page_of col (r :: df) (ss_metrics_df ss)); discriminate.
Qed.

(** C24: no run of a session shows the invitation to select a lap and
    click the button (the last two lines of the page): the first run
    analyses without a click, a run that stores nothing stops or
    raises before the page, and a stored table always has rows. *)
Theorem invitation_never_shown (W : world -> Prop) (st : state) (w : world) (u : widgets) :
  reachable col load W st -> snd (script_with col load w u st) <> Hint.
Proof.
  intros Hr. apply reachable_stored in Hr. unfold script_with.
  destruct (sidebar w u (cache st)) as [c [message | cfg]]; [discriminate |].
  destruct (should_run u (session_state st) cfg) eqn:Er.
  - destruct (run_analysis load w cfg (session_state st)) as [ss' [o |]] eqn:Ea.
    + apply run_analysis_ends in Ea as [[m ->] | [e ->]]; discriminate.
    + destruct (run_analysis_cases load w cfg (session_state st))
        as [(o & E & _) | (ss2 & E & df & s & _ & Han & ->)]; [congruence |].
      rewrite Ea in E. injection E as ->. cbn [snd].
      apply display_with_stored; [right; eauto 6 | discriminate].
  - cbn [snd]. apply display_with_stored; [exact Hr |].
    unfold should_run in Er. destruct (ss_final_df (session_state st)); [discriminate |].
    now destruct (run_requested u).
Qed.

End Invitation.

(** ** The page as written *)

Section AsWritten.
Context {M : MathLib}.

Lemma page_of_segment_col (final_df : list final_row) (metrics : option (list cli_row)) :
  exists e, page_of segment_col final_df metrics = Err e.
Proof.
  unfold page_of. destruct metrics; [| simpl; eauto].
  simpl. destruct (compute_insights final_df); simpl; eauto.
Qed.

Lemma display_cases (ss : store) : display ss = Hint \/ exists e, display ss = Raised e.
Proof.
  unfold display, display_with. destruct (ss_final_df ss) as [[| r df] |]; auto.
  destruct (page_of_segment_col (r :: df) (ss_metrics_df ss)) as [e ->]. eauto.
Qed.

Lemma not_analysed_as_written (w : world) (cfg : config) (ss : store) :
  ~ analysed as_written w cfg ss.
Proof. intros (df & s & H & _). discriminate. Qed.

Lemma reachable_as_written (col : string) (W : world -> Prop) (st : state) :
  reachable col as_written W st -> session_state st = empty_store.
Proof.
  induction 1 as [| st st' _ IH Hs]; [reflexivity |].
  destruct Hs as [w u st _].
  destruct (script_with_state col as_written w u st) as [_ [-> | (cfg & _ & H)]]; [exact IH |].
  now apply not_analysed_as_written in H.
Qed.

End AsWritten.

(** ** Reruns *)

Lemma cached_twice {K V : Type} (eqb : K -> K -> bool) (f : K -> V) (key : K)
  (memo memo' : list (K * V)) (v : V) :
  (forall k, eqb k k = true) ->
  cached eqb f key memo = (v, memo') -> cached eqb f key memo' = (v, memo').
Proof.
  intros Hrefl. unfold cached. destruct (find _ memo) as [kv|] eqn:E; intros [= <- <-].
  - now rewrite E.
  - simpl. now rewrite Hrefl.
Qed.

Lemma key_eqb_refl (k : string * string) : key_eqb k k = true.
Proof. now destruct (key_eqb_spec k k). Qed.

(** A second pass through the sidebar finds every answer in the caches
    and leaves them as they are. *)
Lemma sidebar_again (w : world) (u : widgets) (c c' : caches) (selection : string + config) :
  sidebar w u c = (c', selection) -> sidebar w u c' = (c', selection).
Proof.
  unfold sidebar, cached_vehicles, cached_laps.
  destruct (telemetry _) as [[| a path] |]; [now intros [= <- <-] | | now intros [= <- <-]].
  destruct (cached String.eqb _ _ (vehicles_cache c)) as [vehicles memo] eqn:Ev.
  apply cached_twice in Ev; [| apply String.eqb_refl].
  destruct vehicles as [| v0 vs]; [intros [= <- <-]; simpl; now rewrite Ev |].
  cbn [vehicles_cache laps_cache].
  destruct (cached key_eqb _ _ (laps_cache c)) as [laps memo'] eqn:El.
  apply cached_twice in El; [| apply key_eqb_refl].
  destruct laps; intros [= <- <-]; cbn [vehicles_cache laps_cache]; rewrite Ev;
    cbn [vehicles_cache laps_cache]; now rewrite El.
Qed.

(** The widgets of a rerun in which the user touches nothing. *)
Definition no_click (u : widgets) : widgets :=
  mkWidgets (vehicle_choice u) (lap_choice u) (segments_position u) false.

Lemma should_run_no_click (u : widgets) (ss : store) (cfg : config) :
  should_run u ss cfg = false -> should_run (no_click u) ss cfg = false.
Proof. unfold should_run. simpl. now destruct (run_requested u). Qed.

Lemma should_run_stored (u : widgets) (final_df : list final_row) (metrics_df : list cli_row)
  (cfg : config) :
  should_run (no_click u) (mkStore (Some final_df) (Some metrics_df) (Some cfg)) cfg = false.
Proof. unfold should_run. simpl. now rewrite config_eqb_refl. Qed.

Lemma should_run_empty (u : widgets) (cfg : config) : should_run u empty_store cfg = true.
Proof. unfold should_run. simpl. now destruct (run_requested u). Qed.

Lemma should_run_false (u : widgets) (ss : store) (cfg : config) :
  should_run u ss cfg = false -> ss_last_config ss = Some cfg.
Proof.
  unfold should_run, same_config. destruct (run_requested u); [discriminate |].
  destruct (ss_final_df ss); [| discriminate]. destruct (ss_last_config ss) as [c|]; [| discriminate].
  simpl. now destruct (config_eqb_spec c cfg) as [->|].
Qed.

Section RerunFacts.
Context {M : MathLib}.
Variables (col : string) (load : loader) (w : world).

Lemma analysed_run (cfg : config) (ss ss0 : store) :
  analysed load w cfg ss -> run_analysis load w cfg ss0 = (ss, None).
Proof. intros (df & s & El & Ea & ->). unfold run_analysis. now rewrite El, Ea. Qed.

Lemma coherent_last (cfg : config) (ss : store) :
  coherent load w ss -> ss_last_config ss = Some cfg -> analysed load w cfg ss.
Proof.
  intros [-> | (cfg' & _ & H)] E; [discriminate |].
  destruct H as (df & s & El & Ea & ->). injection E as ->. exists df, s. auto.
Qed.

(** After the sidebar has selected [cfg] from caches that a second pass
    leaves alone, a rerun without a click repeats the run. *)
Lemma rerun_after (u : widgets) (ss : store) (c : caches) (cfg : config) :
  coherent load w ss -> sidebar w u c = (c, inr cfg) ->
  script_with col load w (no_click u) (fst (script_with col load w u (mkState ss c)))
  = script_with col load w u (mkState ss c).
Proof.
  intros Hco Es. unfold script_with at 2 3. cbn [cache session_state]. rewrite Es.
  destruct (should_run u ss cfg) eqn:Er.
  - destruct (run_analysis_cases load w cfg ss) as [(o & Ea & _) | (ss' & Ea & Han)];
      rewrite Ea; unfold script_with; cbn [fst cache session_state];
      change (sidebar w (no_click u) c) with (sidebar w u c); rewrite Es.
    + destruct (should_run (no_click u) ss cfg) eqn:Er'; [now rewrite Ea |].
      apply should_run_false, (coherent_last cfg ss Hco), (analysed_run cfg ss ss) in Er'.
      congruence.
    + destruct Han as (df & s & _ & _ & ->). now rewrite should_run_stored.
  - unfold script_with. cbn [fst cache session_state].
    change (sidebar w (no_click u) c) with (sidebar w u c).
    now rewrite Es, (should_run_no_click _ _ _ Er).
Qed.

End RerunFacts.

Section StableFacts.
Context {M : MathLib}.
Variables (col : string) (load : loader) (w : world).

Lemma script_settled (u : widgets) (ss : store) (c c' : caches) (selection : string + config) :
  sidebar w u c = (c', selection) ->
  script_with col load w u (mkState ss c) = script_with col load w u (mkState ss c').
Proof.
  intros Es. unfold script_with. cbn [cache session_state].
  now rewrite Es, (sidebar_again _ _ _ _ _ Es).
Qed.

Lemma rerun_same (u : widgets) (st : state) :
  coherent load w (session_state st) ->
  script_with col load w (no_click u) (fst (script_with col load w u st))
  = script_with col load w u st.
Proof.
  destruct st as [ss c]. cbn [session_state]. intros Hco.
  destruct (sidebar w u c) as [c' selection] eqn:Es.
  rewrite (script_settled u ss c c' selection Es). apply sidebar_again in Es.
  destruct selection as [message | cfg]; [| now apply (rerun_after col load w u ss c' cfg)].
  unfold script_with. cbn [cache session_state]. rewrite Es. cbn [fst cache session_state].
  change (sidebar w (no_click u) c') with (sidebar w u c'). now rewrite Es.
Qed.

End StableFacts.

(** ** The page with the column of section numbers *)

Section ShownFacts.
Context {M : MathLib}.

Lemma tab_section_id (with_cause : bool) (rows : list section_insight) :
  exists t, tab "section_id" with_cause rows = Ok t.
Proof.
  destruct rows as [| s rows]; [now exists None |]. unfold tab.
  rewrite (mapM_Ok _ (fun s => mkTabRow (IntCell (s_section_id (section s)))
                                 (s_CLI_smooth (section s))
                                 (if with_cause then Some (Primary_Cause s) else None)));
    [eexists; reflexivity | reflexivity].
Qed.

Lemma page_of_section_id (final_df : list final_row) (metrics_df : list cli_row)
  (results : insights) :
  (10 <= length final_df)%nat -> compute_insights final_df = Ok results ->
  exists p, page_of "section_id" final_df (Some metrics_df) = Ok p
            /\ shown_max_segment p = Some (s_section_id (section (max_stress_segment results)))
            /\ shown_max_cli p = max_cli results
            /\ primary_stressor p = common_cause results
            /\ fig_line p = map (fun c => (m_segment_id (metrics c), CLI_smooth c)) metrics_df.
Proof.
  intros Hn Hr. unfold page_of. cbn [bind]. rewrite Hr. cbn [bind].
  change (section_get (max_stress_segment results) "section_id")
    with (Ok (A := cell_value) (IntCell (s_section_id (section (max_stress_segment results))))).
  cbn [bind max_stress_label int_of_cell].
  destruct (plot_track_map_total final_df Hn) as (fig & -> & _).
  destruct (tab_section_id true (top_5_high results)) as [high ->].
  destruct (tab_section_id false (top_5_low results)) as [low ->].
  cbn [bind]. eexists. split; [reflexivity |]. now cbn.
Qed.

End ShownFacts.

(** ** Sessions with the processor as loader *)

(** No file of the world holds a negative raw speed. *)
Definition forward (w : world) : Prop :=
  forall path chunks, w_rows w path = Some chunks ->
                      channel_values (fun x => 0 <= x) "speed" (concat chunks).

Section ProcessorFacts.
Context {M : MathLib}.

Lemma channel_values_filter (P : Q -> Prop) (std : string) (keep : raw_row -> bool)
  (df_raw : list raw_row) :
  channel_values P std df_raw -> channel_values P std (filter keep df_raw).
Proof. intros H r x Hr. apply filter_In in Hr as [Hr _]. now apply (H r x). Qed.

Lemma analyse_sections_range (df : list sample) (n : Z) (s : session) :
  (1 <= n)%Z -> Forall (fun r => 0 <= Laptrigger_lapdist_dls r) df -> analyse df n = Ok s ->
  Forall (fun r => (0 <= section_id r <= n - 1)%Z) (final_df s).
Proof.
  intros Hn Hd Ha. destruct (analyse_Ok_inv df n s Ha) as (seg & Hseg & _).
  destruct (joined_sample _ _ _ (analyse_joined df n s seg Ha Hseg)) as [_ E].
  apply (Forall_map_iff section_id (fun i => (0 <= i <= n - 1)%Z)). rewrite E.
  apply Forall_map_iff. exact (segment_lap_ids_range df n seg Hn Hd Hseg).
Qed.

Lemma analysed_sections_range (w : world) (cfg : config) (ss : store) :
  forward w -> on_slider (cfg_segments cfg) -> analysed with_processor w cfg ss ->
  exists final_df, ss_final_df ss = Some final_df
    /\ Forall (fun r => (0 <= section_id r <= cfg_segments cfg - 1)%Z) final_df.
Proof.
  intros Hw [Hn _] (df & s & El & Ea & ->). eexists. split; [reflexivity |].
  unfold with_processor in El. destruct (w_rows w _) as [chunks|] eqn:Er; [| discriminate].
  apply (analyse_sections_range df); [lia | | exact Ea].
  apply (process_lap_data_distance_nonneg chunks (cfg_vehicle_id cfg) (cfg_lap cfg) df);
    [| exact El].
  apply channel_values_filter, (Hw _ _ Er).
Qed.

End ProcessorFacts.

(** ** Progress *)

(** The widgets of a rerun in which the user clicks the button. *)
Definition click (u : widgets) : widgets :=
  mkWidgets (vehicle_choice u) (lap_choice u) (segments_position u) true.

(** [P] holds now, or after some reruns that the user can cause. *)
Inductive eventually {M : MathLib} (col : string) (load : loader) (w : world)
  (P : state -> Prop) : state -> Prop :=
| eventually_now (st : state) : P st -> eventually col load w P st
| eventually_rerun (st : state) (u : widgets) :
    eventually col load w P (fst (script_with col load w u st)) -> eventually col load w P st.

Section ProgressFacts.
Context {M : MathLib}.
Variables (col : string) (load : loader) (w : world).

Lemma eventually_trans (P Q : state -> Prop) (st : state) :
  eventually col load w P st -> (forall st', P st' -> eventually col load w Q st') ->
  eventually col load w Q st.
Proof. induction 1; eauto using eventually_rerun. Qed.

(** A run that has to analyse a configuration that can be analysed
    stores its tables. *)
Lemma run_stores (u : widgets) (st : state) (cfg : config) :
  snd (sidebar w u (cache st)) = inr cfg ->
  should_run u (session_state st) cfg = true ->
  (exists ss, analysed load w cfg ss) ->
  analysed load w cfg (session_state (fst (script_with col load w u st))).
Proof.
  intros Es Hr [ss Ha]. unfold script_with.
  destruct (sidebar w u (cache st)) as [c selection]. cbn [snd] in Es. subst selection.
  rewrite Hr, (analysed_run load w cfg ss _ Ha). exact Ha.
Qed.

(** After a click the store holds the analysis of the selection,
    whatever it held before. *)
Lemma click_stores (u : widgets) (st : state) (cfg : config) :
  caches_coherent w (cache st) -> select w u = inr cfg ->
  (exists ss, analysed load w cfg ss) ->
  analysed load w cfg (session_state (fst (script_with col load w (click u) st))).
Proof.
  intros Hc Es Ha. apply run_stores; [| reflexivity | exact Ha].
  change (sidebar w (click u) (cache st)) with (sidebar w u (cache st)).
  rewrite <- Es. now apply sidebar_select.
Qed.

End ProgressFacts.

(** * Theorems *)

Section SessionTheorems.
Context {M : MathLib}.
Variables (col : string).

(** C8: in a session over one world, with any loader, the store is
    empty or holds exactly the tables that the loader and the analysis
    give for its configuration, which is a vehicle of the file, a lap of
    that vehicle and a value of the slider; the caches hold what the scans
    find in the file. *)
Theorem session_coherent (load : loader) (w : world) (st : state) :
  reachable col load (eq w) st ->
  coherent load w (session_state st) /\ caches_coherent w (cache st).
Proof. intros H. split; [exact (reachable_coherent col load w st H) | exact (reachable_caches col load w st H)]. Qed.

(** A rerun in which the user touches nothing changes nothing: it
    leaves the state of the first run as it is and shows the same, without
    running the analysis again when it has succeeded. *)
Theorem rerun_stable (load : loader) (w : world) (u : widgets) (st : state) :
  reachable col load (eq w) st ->
  script_with col load w (no_click u) (fst (script_with col load w u st))
  = script_with col load w u st.
Proof. intros H. apply rerun_same, (reachable_coherent col load w st H). Qed.

(** C29: with the call of [load_session] as it is written no session
    ever stores an analysis, and every run ends in [st.stop()] after a
    message: in whatever world, whatever the user does. *)
Theorem page_as_written_stops (W : world -> Prop) (st : state) (w : world) (u : widgets) :
  reachable col as_written W st ->
  session_state st = empty_store
  /\ exists message, snd (script_with col as_written w u st) = Stopped message.
Proof.
  intros H. apply reachable_as_written in H. split; [exact H |].
  unfold script_with. destruct (sidebar w u (cache st)) as [c [message | cfg]];
    [simpl; eauto |].
  rewrite H, should_run_empty. simpl. eauto.
Qed.

(** Every lap that the sidebar can select has rows in the file: with
    the processor as loader no run stops for want of data. *)
Theorem selection_has_rows (load : loader) (w : world) (u : widgets) (st : state) (cfg : config) :
  reachable col load (eq w) st -> snd (sidebar w u (cache st)) = inr cfg ->
  exists chunks rows,
    w_rows w (cfg_telemetry cfg) = Some chunks
    /\ load_and_filter chunks (cfg_vehicle_id cfg) (cfg_lap cfg) = Ok rows.
Proof.
  intros H E. apply (reachable_caches col load w st) in H.
  destruct (sidebar_select w u (cache st) H) as [Es _]. rewrite E in Es. symmetry in Es.
  apply select_offered in Es as (_ & _ & Hl & _). unfold file_at in Hl.
  destruct (w_rows w (cfg_telemetry cfg)) as [chunks|]; [| contradiction].
  exists chunks. apply get_available_laps_In in Hl as (r & Hr & Hv & Hlap).
  rewrite load_and_filter_spec.
  destruct (filter _ (concat chunks)) as [| r0 rows] eqn:Ef; [| eauto].
  unfold id_columns in Hr. rewrite <- concat_map in Hr. apply in_map_iff in Hr as (raw & <- & Hraw).
  simpl in Hv, Hlap. injection Hv as Hv. injection Hlap as Hlap.
  assert (Hin : In raw (filter (matches (cfg_vehicle_id cfg) (cfg_lap cfg)) (concat chunks))).
  { apply filter_In. split; [exact Hraw |]. apply matches_spec. auto. }
  rewrite Ef in Hin. contradiction.
Qed.

(** With the processor as loader, in a world without negative raw
    speeds, every sample of a stored table has a section number between 0
    and the segment count of its configuration less one, and that count
    is a value of the slider. *)
Theorem session_sections_in_range (w : world) (st : state) (cfg : config) :
  forward w -> reachable col with_processor (eq w) st ->
  ss_last_config (session_state st) = Some cfg ->
  exists final_df,
    ss_final_df (session_state st) = Some final_df
    /\ Forall (fun r => (0 <= section_id r <= cfg_segments cfg - 1)%Z) final_df
    /\ on_slider (cfg_segments cfg).
Proof.
  intros Hw H E. apply (reachable_coherent col with_processor w st) in H.
  destruct H as [H | (cfg' & (_ & _ & _ & Hs) & Ha)]; [rewrite H in E; discriminate |].
  assert (cfg' = cfg) as ->.
  { destruct Ha as (df & s & _ & _ & Hss). rewrite Hss in E. now injection E. }
  destruct (analysed_sections_range w cfg _ Hw Hs Ha) as (final_df & Ef & Hr). eauto.
Qed.

(** Whatever the loader and however the files change between the
    runs, every sample of a stored table carries a CLI and a smoothed CLI
    that are NaN or lie in [0, 1]. *)
Theorem session_scores_in_unit (load : loader) (W : world -> Prop) (st : state)
  (final_df : list final_row) :
  reachable col load W st -> ss_final_df (session_state st) = Some final_df ->
  Forall (fun f => fholds in_unit (f_CLI f) /\ fholds in_unit (f_CLI_smooth f)) final_df.
Proof.
  intros H E. apply reachable_stored in H as [H | (df & n & s & cfg & Ha & H)];
    rewrite H in E; [discriminate |].
  injection E as <-. exact (analyse_scores_in_unit df n s Ha).
Qed.

(** C28: the caches are never refreshed.  Once the sidebar has asked
    for the vehicles of a path, or for the laps of a vehicle of a path,
    every later run of the session gets the answer of that first scan,
    whatever the files have become: the caches are keyed by the
    arguments of the call, and the content of the file is not one. *)
Theorem caches_never_refreshed (load : loader) (W : world -> Prop) (st st' : state)
  (w : world) (path vehicle : string) :
  later col load W st st' ->
  (forall v, vehicles_entry path (cache st) = Some v ->
             cached_vehicles w path (cache st') = (v, cache st'))
  /\ (forall l, laps_entry path vehicle (cache st) = Some l ->
                cached_laps w path vehicle (cache st') = (l, cache st')).
Proof.
  intros [Hv Hl]%later_keeps. destruct (cache st') as [vs ls] eqn:E.
  unfold cached_vehicles, cached_laps. cbn [vehicles_cache laps_cache].
  split; [intros v H%Hv | intros l H%Hl].
  - now rewrite (cached_entry String.eqb _ path vs v H).
  - now rewrite (cached_entry key_eqb _ (path, vehicle) ls l H).
Qed.

(** C17: progress.  In every state of a session over one world, for
    every selection of the sidebar whose lap the loader can load and the
    analysis can analyse, the user reaches a state whose store holds the
    tables of that selection: one click on the button suffices, whatever
    was stored before. *)
Theorem session_progress (load : loader) (w : world) (u : widgets) (st : state) (cfg : config)
  (df : list sample) (s : session) :
  reachable col load (eq w) st -> select w u = inr cfg ->
  load w (cfg_telemetry cfg) (cfg_vehicle_id cfg) (cfg_lap cfg) = Ok df ->
  analyse df (cfg_segments cfg) = Ok s ->
  eventually col load w
    (fun st' => session_state st'
                = mkStore (Some (final_df s)) (Some (metrics_df s)) (Some cfg)) st.
Proof.
  intros H Es El Ea. apply (eventually_rerun col load w _ st (click u)), eventually_now.
  destruct (click_stores col load w u st cfg (reachable_caches col load w st H) Es)
    as (df' & s' & El' & Ea' & ->); [exists (mkStore (Some (final_df s)) (Some (metrics_df s))
                                               (Some cfg)), df, s; auto |].
  congruence.
Qed.

End SessionTheorems.

(** C25: the page as written never shows the summary: whatever the
    loader, the world, the widgets and the state, a run stops with a
    message, shows the invitation, or ends in an exception. *)
Theorem page_never_shown {M : MathLib} (load : loader) (w : world) (u : widgets) (st : state)
  (p : page) :
  snd (script load w u st) <> Shown p.
Proof.
  unfold script, script_with. destruct (sidebar w u (cache st)) as [c [message | cfg]];
    [discriminate |].
  assert (Hd : forall ss, display_with segment_col ss <> Shown p).
  { intros ss. destruct (display_cases ss) as [E | [e E]]; unfold display in E;
      rewrite E; discriminate. }
  destruct (should_run u (session_state st) cfg); [| apply Hd].
  destruct (run_analysis_cases load w cfg (session_state st)) as [(o & -> & Ho) | (ss' & -> & _)];
    [apply Ho | apply Hd].
Qed.

(** No two rows share a segment. *)
Definition alone (df_segmented : list seg_row) : bool :=
  forallb (fun r => (segment_count (segment_id r) df_segmented =? 1)%nat) df_segmented.

(** The insights of an analysis fail exactly when no two samples
    share a segment. *)
Lemma alone_insights {M : MathLib} {L : MathLibLaws M} (df : list sample) (n : Z)
  (s : session) :
  analyse df n = Ok s ->
  exists df_segmented,
    segment_lap df n = Ok df_segmented
    /\ (alone df_segmented = true <-> exists e, compute_insights (final_df s) = Err e).
Proof.
  intros Ha. destruct (insights_alone df n s Ha) as (seg & Hseg & Hiff).
  exists seg. split; [exact Hseg |]. rewrite Hiff. unfold alone.
  rewrite forallb_forall, Forall_forall. split; intros H r Hr; apply Nat.eqb_eq, H, Hr.
Qed.

(** C26: what the page shows of a stored analysis.  The page ends in
    a KeyError before the summary is complete: 'nan' from the insights
    when no two samples of the lap share a segment, 'segment_id' from
    the lookup of the most stressful section otherwise. *)
Theorem page_raises {M : MathLib} {L : MathLibLaws M} (df : list sample) (n : Z) (s : session)
  (cfg : option config) :
  analyse df n = Ok s ->
  exists df_segmented,
    segment_lap df n = Ok df_segmented
    /\ display (mkStore (Some (final_df s)) (Some (metrics_df s)) cfg)
       = Raised (KeyError (if alone df_segmented then "nan" else "segment_id")).
Proof.
  intros Ha. destruct (analyse_Ok_rows df n s Ha) as [_ Hne].
  destruct (alone_insights df n s Ha) as (seg & Hseg & Hal).
  exists seg. split; [exact Hseg |].
  unfold display, display_with. cbn [ss_final_df ss_metrics_df].
  destruct (final_df s) as [| r rest] eqn:Ef; [congruence |]. unfold page_of. cbn [bind].
  destruct (compute_insights (r :: rest)) as [results | e] eqn:Ec; cbn [bind].
  - destruct (alone seg); [destruct (proj1 Hal eq_refl) as [e He]; discriminate | reflexivity].
  - rewrite (proj2 Hal) by eauto. now rewrite (compute_insights_Err_nan (r :: rest) e).
Qed.

(** C27: the page with the column looked up under the name that the
    table of sections has.  For an analysis of ten samples or more in
    which two samples share a segment the page is shown: the Max Stress
    Segment is a segment of the lap, the Max CLI is a number of [0, 1],
    and no smoothed score of the lap is larger. *)
Theorem corrected_page_shown {M : MathLib} {L : MathLibLaws M} (df : list sample) (n : Z)
  (s : session) (cfg : option config) :
  analyse df n = Ok s -> (10 <= length df)%nat ->
  exists df_segmented,
    segment_lap df n = Ok df_segmented
    /\ (alone df_segmented = false ->
        exists p k v,
          display_with "section_id" (mkStore (Some (final_df s)) (Some (metrics_df s)) cfg)
          = Shown p
          /\ shown_max_segment p = Some k /\ In k (map segment_id df_segmented)
          /\ shown_max_cli p = Some v /\ 0 <= v <= 1
          /\ Forall (fun c => fholds (fun x => x <= v) (CLI_smooth c)) (metrics_df s)).
Proof.
  intros Ha Hlen. destruct (alone_insights df n s Ha) as (seg & Hseg & Hal).
  exists seg. split; [exact Hseg |]. intros Hf.
  destruct (compute_insights (final_df s)) as [results | e] eqn:Hr;
    [| rewrite (proj2 Hal) in Hf by eauto; discriminate].
  rewrite <- (analyse_length df n s Ha) in Hlen.
  destruct (page_of_section_id (final_df s) (metrics_df s) results Hlen Hr)
    as (p & Hp & Hk & Hv & _).
  destruct (max_stress_of_analysis df n s results Ha Hr) as (c & v & Hc & Ec & Hmx & Hu & Hall).
  exists p, (cli_key c), v. rewrite Hk, Hv, Ec. repeat split; auto; try apply Hu.
  - unfold display_with. cbn [ss_final_df ss_metrics_df].
    destruct (final_df s); [simpl in Hlen; lia | now rewrite Hp].
  - destruct (analyse_Ok_inv df n s Ha) as (seg' & Hseg' & Hm & _).
    rewrite Hseg in Hseg'. injection Hseg' as <-.
    apply unique_sorted_In. rewrite <- metrics_keys, <- Hm. now apply in_map.
Qed.

(** With the column looked up under the name that the table of
    sections has, a stored table of ten rows or more whose insights can be
    computed is shown: the summary names the section of the largest
    smoothed index and the most common cause. *)
Theorem page_with_section_id {M : MathLib} (final_df : list final_row)
  (metrics_df : list cli_row) (cfg : option config) (results : insights) :
  (10 <= length final_df)%nat -> compute_insights final_df = Ok results ->
  exists p,
    display_with "section_id" (mkStore (Some final_df) (Some metrics_df) cfg) = Shown p
    /\ shown_max_segment p = Some (s_section_id (section (max_stress_segment results)))
    /\ primary_stressor p = common_cause results.
Proof.
  intros Hn Hr.
  destruct (page_of_section_id final_df metrics_df results Hn Hr) as (p & Hp & H1 & _ & H2 & _).
  exists p. unfold display_with. cbn [ss_final_df ss_metrics_df].
  destruct final_df as [| r df]; [simpl in Hn; lia |]. now rewrite Hp.
Qed.

(** * A session at the race directory *)

(** The directory [race_dir] with the two chunks of [lap_chunks] in its
    telemetry file. *)
Definition race_world : world :=
  mkWorld race_dir
          (fun path => if String.eqb path "data/R1_telemetry_data.csv"
                       then Some lap_chunks else None).

(** The widgets as the page sets them up: the first vehicle, its first
    lap, sixty segments, no click. *)
Definition default_widgets : widgets := mkWidgets 0 0 4 false.

Definition first_config : config := mkConfig "car1" 3 60 "data/R1_telemetry_data.csv".

Definition first_run : state * outcome :=
  script_with (M := rational_math) segment_col with_processor race_world default_widgets initial.

Lemma first_run_reachable :
  reachable (M := rational_math) segment_col with_processor (eq race_world) (fst first_run).
Proof.
  eapply reach_step; [apply reach_initial |].
  exact (step_rerun segment_col with_processor (eq race_world) race_world default_widgets
           initial eq_refl).
Qed.

Lemma race_world_forward : forward race_world.
Proof.
  intros path chunks H. simpl in H.
  destruct (String.eqb path _); [injection H as <- | discriminate]. check_channel.
Qed.

Lemma first_run_config : ss_last_config (session_state (fst first_run)) = Some first_config.
Proof. reflexivity. Qed.

(** A stored table of twelve rows in six sections. *)
Definition final12 : list final_row := (final6 ++ final6)%list.

Definition insights12 : insights :=
  get_or insights6 (compute_insights final12).

Lemma insights12_Ok : compute_insights final12 = Ok insights12.
Proof. apply is_ok_get_or. reflexivity. Qed.

Definition first_table : list final_row :=
  match ss_final_df (session_state (fst first_run)) with
  | Some final_df => final_df
  | None => []
  end.

Lemma is_some_get {A : Type} (d : A) (o : option A) :
  is_some o = true -> o = Some (match o with Some a => a | None => d end).
Proof. now destruct o. Qed.

Lemma first_run_table : ss_final_df (session_state (fst first_run)) = Some first_table.
Proof. apply is_some_get. reflexivity. Qed.

Lemma session_scores_in_unit_witness :
  Forall (fun f => fholds in_unit (f_CLI f) /\ fholds in_unit (f_CLI_smooth f)) first_table.
Proof.
  exact (session_scores_in_unit (M := rational_math) segment_col with_processor
           (eq race_world) (fst first_run) first_table first_run_reachable first_run_table).
Defined.

Definition first_session : session :=
  get_or (mkSession [] [])
         (df <- process_lap_data (M := rational_math) lap_chunks "car1" 3 ;; analyse df 60).

Lemma first_session_Ok :
  exists df, with_processor (M := rational_math) race_world (cfg_telemetry first_config)
               (cfg_vehicle_id first_config) (cfg_lap first_config) = Ok df
             /\ analyse df (cfg_segments first_config) = Ok first_session.
Proof.
  assert (H : (df <- process_lap_data (M := rational_math) lap_chunks "car1" 3 ;; analyse df 60)
              = Ok first_session) by (apply is_ok_get_or; reflexivity).
  apply bind_Ok in H. exact H.
Qed.

Lemma session_progress_witness :
  eventually (M := rational_math) segment_col with_processor race_world
    (fun st' => session_state st'
                = mkStore (Some (final_df first_session)) (Some (metrics_df first_session))
                          (Some first_config)) initial.
Proof.
  destruct first_session_Ok as (df & El & Ea).
  exact (session_progress (M := rational_math) segment_col with_processor race_world
           default_widgets initial first_config df first_session
           (reach_initial segment_col with_processor (eq race_world)) eq_refl El Ea).
Defined.

Lemma session_coherent_witness :
  coherent (M := rational_math) with_processor race_world (session_state (fst first_run))
  /\ caches_coherent race_world (cache (fst first_run)).
Proof.
  exact (session_coherent (M := rational_math) segment_col with_processor race_world
           (fst first_run) first_run_reachable).
Defined.

Lemma rerun_stable_witness :
  script_with (M := rational_math) segment_col with_processor race_world
    (no_click default_widgets) (fst first_run) = first_run.
Proof.
  exact (rerun_stable (M := rational_math) segment_col with_processor race_world
           default_widgets initial (reach_initial segment_col with_processor (eq race_world))).
Defined.

Lemma invitation_never_shown_witness :
  snd (script_with (M := rational_math) segment_col with_processor race_world default_widgets
         initial) <> Hint.
Proof.
  exact (invitation_never_shown (M := rational_math) segment_col with_processor (eq race_world)
           initial race_world default_widgets
           (reach_initial segment_col with_processor (eq race_world))).
Defined.

Lemma page_as_written_stops_witness :
  session_state initial = empty_store
  /\ exists message,
       snd (script_with (M := rational_math) segment_col as_written race_world default_widgets
              initial) = Stopped message.
Proof.
  exact (page_as_written_stops (M := rational_math) segment_col (fun _ => True) initial
           race_world default_widgets (reach_initial segment_col as_written (fun _ => True))).
Defined.

Lemma selection_has_rows_witness :
  exists chunks rows,
    w_rows race_world (cfg_telemetry first_config) = Some chunks
    /\ load_and_filter chunks (cfg_vehicle_id first_config) (cfg_lap first_config) = Ok rows.
Proof.
  exact (selection_has_rows (M := rational_math) segment_col with_processor race_world
           default_widgets initial first_config
           (reach_initial segment_col with_processor (eq race_world)) eq_refl).
Defined.

Lemma session_sections_in_range_witness :
  exists final_df,
    ss_final_df (session_state (fst first_run)) = Some final_df
    /\ Forall (fun r => (0 <= section_id r <= cfg_segments first_config - 1)%Z) final_df
    /\ on_slider (cfg_segments first_config).
Proof.
  exact (session_sections_in_range (M := rational_math) segment_col race_world (fst first_run)
           first_config race_world_forward first_run_reachable first_run_config).
Defined.

Lemma page_with_section_id_witness :
  exists p,
    display_with (M := rational_math) "section_id" (mkStore (Some final12) (Some []) None)
    = Shown p
    /\ shown_max_segment p = Some (s_section_id (section (max_stress_segment insights12)))
    /\ primary_stressor p = common_cause insights12.
Proof.
  apply (page_with_section_id (M := rational_math) final12 [] None insights12);
    [simpl; lia | exact insights12_Ok].
Defined.

(** ** A file that changes under the page *)

(** The directory after the telemetry file has been replaced: the lap
    of the first run is gone. *)
Definition later_world : world :=
  mkWorld race_dir
          (fun path => if String.eqb path "data/R1_telemetry_data.csv"
                       then Some [[mkRaw 0 "car1" 5 "speed" (Some 10)]] else None).

(** The caches are keyed by the path and not by the content of the
    file: after the file has changed the sidebar still offers the laps of
    the first scan, and a click on the button stops for want of data. *)
Theorem stale_selection_stops :
  snd (script (M := rational_math) with_processor later_world (mkWidgets 0 0 4 true)
         (fst first_run))
  = Stopped "Error processing data: No data found for car1 Lap 3".
Proof. reflexivity. Qed.

(** The state after a run on the file that has changed. *)
Definition after_change : state :=
  fst (script_with (M := rational_math) segment_col with_processor later_world
         (mkWidgets 0 0 4 true) (fst first_run)).

(** The general fact on the same two worlds: the sidebar of every run
    after the change answers with the vehicles and the laps of the file
    as it was. *)
Lemma caches_never_refreshed_witness :
  (forall v, vehicles_entry "data/R1_telemetry_data.csv" (cache (fst first_run)) = Some v ->
             cached_vehicles later_world "data/R1_telemetry_data.csv" (cache after_change)
             = (v, cache after_change))
  /\ (forall l, laps_entry "data/R1_telemetry_data.csv" "car1" (cache (fst first_run)) = Some l ->
                cached_laps later_world "data/R1_telemetry_data.csv" "car1" (cache after_change)
                = (l, cache after_change)).
Proof.
  exact (caches_never_refreshed (M := rational_math) segment_col with_processor (fun _ => True)
           (fst first_run) after_change later_world "data/R1_telemetry_data.csv" "car1"
           (rt_step _ _ _ _
              (step_rerun segment_col with_processor (fun _ => True) later_world
                 (mkWidgets 0 0 4 true) (fst first_run) I))).
Defined.

Example stale_answers :
  vehicles_entry "data/R1_telemetry_data.csv" (cache (fst first_run)) = Some ["car1"; "car2"]
  /\ laps_entry "data/R1_telemetry_data.csv" "car1" (cache (fst first_run)) = Some [3; 4]%Z
  /\ get_available_laps (file_at later_world "data/R1_telemetry_data.csv") "car1" = [5]%Z.
Proof. repeat split. Qed.

Lemma page_raises_witness :
  exists df_segmented,
    segment_lap lap4 3 = Ok df_segmented
    /\ display (M := rational_math)
         (mkStore (Some (final_df session4)) (Some (metrics_df session4)) None)
       = Raised (KeyError (if alone df_segmented then "nan" else "segment_id")).
Proof.
  exact (page_raises (M := rational_math) lap4 3 session4 None session4_Ok).
Defined.

(** ** The corrected page on a lap of ten samples *)

Definition lap10 : list sample :=
  map (fun i => sample_at (inject_Z (Z.of_nat i))) (seq 0 10).

Definition session10 : session :=
  get_or (mkSession [] []) (analyse (M := rational_math) lap10 3).

Lemma session10_Ok : analyse (M := rational_math) lap10 3 = Ok session10.
Proof. apply is_ok_get_or. reflexivity. Qed.

Lemma corrected_page_shown_witness :
  exists df_segmented,
    segment_lap lap10 3 = Ok df_segmented
    /\ (alone df_segmented = false ->
        exists p k v,
          display_with (M := rational_math) "section_id"
            (mkStore (Some (final_df session10)) (Some (metrics_df session10)) None)
          = Shown p
          /\ shown_max_segment p = Some k /\ In k (map segment_id df_segmented)
          /\ shown_max_cli p = Some v /\ 0 <= v <= 1
          /\ Forall (fun c => fholds (fun x => x <= v) (CLI_smooth c)) (metrics_df session10)).
Proof.
  apply (corrected_page_shown (M := rational_math) lap10 3 session10 None session10_Ok).
  simpl. lia.
Defined.

(** In that lap samples share segments. *)
Example lap10_not_alone :
  option_map alone (match segment_lap lap10 3 with Ok out => Some out | Err _ => None end)
  = Some false.
Proof. vm_compute. reflexivity. Qed.
