(* ===== verification/Files.v ===== *)
(** * Files: the page on the text of its files

    The page calls three functions on the telemetry file:
    [get_available_vehicles] and [get_available_laps] to fill the
    sidebar, [process_lap_data] to load the lap chosen.  Each opens the
    file and reads it again, with its own [usecols].  This file brings
    the three together on the file system of the page: a [disk] of text
    files, and the [world] of typed chunks that [Dashboard] runs the
    script on.  For a disk whose files are [clean] the three functions on
    the world are the three functions on the text ([world_of_refines]), a
    run of the page that opens the files is a run on the world
    ([page_on_files]), and the section numbers of a stored table are in
    range ([files_sections_in_range]).  What the two scans return in
    terms of the table of a file ([vehicles_of_file_table],
    [laps_of_file_table]) is proved in [Reader]. *)

From Stdlib Require Import String Ascii QArith Lia ZArith Bool Arith.
From Stdlib Require Import List.
From S2P Require Import Prelude MathLib Series Frame Processor Discovery Reader Pipeline.
From S2P Require Import Dashboard.
Import ListNotations.
#[local] Open Scope pipeline_scope.
#[local] Open Scope string_scope.

(** * The files of the page *)

(** The file system as the sources see it: the answers of [glob.glob]
    and the lines of the file at a path, when there is one. *)
Record disk : Type := mkDisk {
  d_glob : string -> bool -> list string;
  d_lines : string -> option (list string)
}.

Section Disk.
Context {C : Cells} {M : MathLib}.

(** The call of the page with the function of processor.py as the
    loader: it opens the file itself. *)
Definition file_loader (d : disk) : loader :=
  fun _ path vehicle_id lap => process_lap_file (d_lines d path) path vehicle_id lap.

(** The world of typed rows that stands for a disk. *)
Definition world_of (d : disk) : world :=
  mkWorld (d_glob d) (fun path => option_map (fun lines => [file_rows lines]) (d_lines d path)).

(** A row that names a vehicle is a record: it has a lap, a time and
    a channel name. *)
Definition full_row (columns : list string) (row : list (option string)) : bool :=
  match cell_at columns row "vehicle_id" with
  | Some _ => is_some (raw_row_of columns row)
  | None => true
  end.

(** A file with the two columns whose rows are records. *)
Definition clean (lines : list string) : bool :=
  has_column "vehicle_id" (file_frame lines) && has_column "lap" (file_frame lines)
  && forallb (full_row (frame_columns (file_frame lines))) (frame_rows (file_frame lines)).

Definition clean_disk (d : disk) : Prop :=
  forall path lines, d_lines d path = Some lines -> clean lines = true.

End Disk.

(** * The world of a disk *)

Section DiskFacts.
Context {C : Cells} {M : MathLib}.

Lemma raw_row_of_cells (columns : list string) (row : list (option string)) (r : raw_row) :
  raw_row_of columns row = Some r ->
  cell_at columns row "vehicle_id" = Some (raw_vehicle_id r)
  /\ lap_of columns row = Some (raw_lap r).
Proof.
  unfold raw_row_of, then_.
  destruct (cell_at columns row "timestamp") as [t |]; [| discriminate].
  destruct (to_datetime t); [| discriminate].
  destruct (cell_at columns row "vehicle_id"); [| discriminate].
  destruct (lap_of columns row); [| discriminate].
  destruct (cell_at columns row "telemetry_name"); [| discriminate].
  now intros [= <-].
Qed.

(** In a table of records the typed rows are the rows that name a
    vehicle. *)
Lemma typed_rows_full (columns : list string) (rows : list (list (option string))) :
  forallb (full_row columns) rows = true ->
  map id_columns (typed_rows (mkFrame columns rows))
  = filter (fun r => is_some (id_vehicle r)) (typed_ids (mkFrame columns rows)).
Proof.
  unfold typed_rows, typed_ids. cbn [frame_columns frame_rows].
  induction rows as [| row rows IH]; [reflexivity |]. cbn [forallb flat_map map filter].
  intros H. apply andb_true_iff in H as [Hrow Hrows]. rewrite map_app, (IH Hrows).
  unfold full_row in Hrow. cbn [id_vehicle].
  destruct (raw_row_of columns row) as [r |] eqn:E.
  - destruct (raw_row_of_cells _ _ _ E) as [-> ->]. reflexivity.
  - destruct (cell_at columns row "vehicle_id"); [discriminate | reflexivity].
Qed.

Lemma dropna_vehicles_filter (ids : list id_row) :
  dropna_cells (map id_vehicle (filter (fun r => is_some (id_vehicle r)) ids))
  = dropna_cells (map id_vehicle ids).
Proof.
  induction ids as [| [[v |] l] ids IH]; [reflexivity | |]; cbn [filter id_vehicle is_some];
    [cbn [map dropna_cells flat_map app]; now f_equal | exact IH].
Qed.

Lemma is_vehicle_filter (v : string) (ids : list id_row) :
  filter (is_vehicle v) (filter (fun r => is_some (id_vehicle r)) ids)
  = filter (is_vehicle v) ids.
Proof.
  induction ids as [| [[v' |] l] ids IH]; [reflexivity | |]; cbn [filter id_vehicle is_some];
    [cbn [filter]; now rewrite IH | exact IH].
Qed.

Section Clean.
Variable lines : list string.
Hypothesis Hclean : clean lines = true.

Lemma clean_columns :
  has_column "vehicle_id" (file_frame lines) && has_column "lap" (file_frame lines) = true.
Proof. unfold clean in Hclean. now apply andb_true_iff in Hclean as [H _]. Qed.

Lemma clean_ids :
  map id_columns (file_rows lines)
  = filter (fun r => is_some (id_vehicle r)) (typed_ids (file_frame lines)).
Proof.
  unfold file_rows, guarded_rows. rewrite clean_columns.
  unfold clean in Hclean. apply andb_true_iff in Hclean as [_ H].
  destruct (file_frame lines) as [columns rows]. now apply typed_rows_full.
Qed.

Lemma clean_vehicles :
  get_available_vehicles (id_chunks [file_rows lines]) = vehicles_of_file (Some lines).
Proof.
  rewrite vehicles_of_file_table.
  pose proof clean_columns as H. apply andb_true_iff in H as [-> _].
  unfold id_chunks. simpl. rewrite !scan_vehicles_concat. cbn [concat].
  now rewrite !app_nil_r, clean_ids, dropna_vehicles_filter.
Qed.

Lemma clean_laps (v : string) :
  get_available_laps (id_chunks [file_rows lines]) v = laps_of_file (Some lines) v.
Proof.
  rewrite laps_of_file_table, clean_columns.
  unfold id_chunks. simpl. rewrite !scan_laps_concat. cbn [concat].
  now rewrite !app_nil_r, clean_ids, is_vehicle_filter.
Qed.

Lemma clean_process (path v : string) (lap : Z) :
  process_lap_data [file_rows lines] v lap = process_lap_file (Some lines) path v lap.
Proof.
  symmetry. apply process_lap_file_rows. unfold file_rows. rewrite <- typed_selected.
  unfold selected. rewrite clean_columns.
  unfold clean in Hclean. apply andb_true_iff in Hclean as [_ H].
  destruct (file_frame lines) as [columns rows]. cbn [frame_columns frame_rows] in *.
  destruct (filter _ rows) as [| row sel] eqn:E; [now intros [] |]. intros _.
  assert (Hin : In row (filter (row_matches columns v lap) rows)) by (rewrite E; now left).
  apply filter_In in Hin as [Hin Hm]. apply row_matches_spec in Hm as [Hv _].
  rewrite forallb_forall in H. specialize (H row Hin). unfold full_row in H. rewrite Hv in H.
  unfold typed_rows. cbn [frame_columns frame_rows flat_map].
  destruct (raw_row_of columns row); [discriminate | discriminate H].
Qed.

End Clean.

End DiskFacts.

(** * Theorems *)

Section FilesTheorems.
Context {C : Cells} {M : MathLib}.

Lemma file_at_world_of (d : disk) (path : string) :
  file_at (world_of d) path
  = match d_lines d path with
    | Some lines => id_chunks [file_rows lines]
    | None => NoFile
    end.
Proof. unfold file_at, world_of. cbn [w_rows]. now destruct (d_lines d path). Qed.

Lemma clean_world (d : disk) (path vehicle_id : string) (lap : Z) :
  clean_disk d ->
  with_processor (world_of d) path vehicle_id lap
  = process_lap_file (d_lines d path) path vehicle_id lap
  /\ get_available_vehicles (file_at (world_of d) path) = vehicles_of_file (d_lines d path)
  /\ get_available_laps (file_at (world_of d) path) vehicle_id
     = laps_of_file (d_lines d path) vehicle_id.
Proof.
  intros Hd. rewrite file_at_world_of. unfold with_processor, world_of. cbn [w_rows].
  destruct (d_lines d path) as [lines |] eqn:E; [| repeat split].
  specialize (Hd path lines E). cbn [option_map].
  auto using clean_process, clean_vehicles, clean_laps.
Qed.

(** On such a disk a run of the page with the function of the sources
    as the loader is a run on the world. *)
Theorem page_on_files (col : string) (d : disk) (u : widgets) (st : state) :
  clean_disk d ->
  script_with col (file_loader d) (world_of d) u st
  = script_with col with_processor (world_of d) u st.
Proof.
  intros Hd. unfold script_with, run_analysis, file_loader.
  destruct (sidebar (world_of d) u (cache st)) as [c [message | cfg]]; [reflexivity |].
  now destruct (clean_world d (cfg_telemetry cfg) (cfg_vehicle_id cfg) (cfg_lap cfg) Hd)
    as [-> _].
Qed.


Lemma reachable_on_files (col : string) (d : disk) (st : state) :
  clean_disk d ->
  reachable col (file_loader d) (eq (world_of d)) st ->
  reachable col with_processor (eq (world_of d)) st.
Proof.
  intros Hd H. induction H as [| st st' _ IH Hs]; [constructor |].
  revert IH. destruct Hs as [w u st <-]. intros IH. rewrite page_on_files by exact Hd.
  eapply reach_step; [exact IH | now constructor].
Qed.

(** C18: from the text of the files to the stored table.  In a session
    of the page on a disk of clean files that hold no negative speed,
    with the function of processor.py as the loader, every sample of a
    stored table has a section number between 0 and the segment count of
    its configuration less one. *)
Theorem files_sections_in_range (col : string) (d : disk) (st : state) (cfg : config) :
  clean_disk d -> forward (world_of d) ->
  reachable col (file_loader d) (eq (world_of d)) st ->
  ss_last_config (session_state st) = Some cfg ->
  exists final_df,
    ss_final_df (session_state st) = Some final_df
    /\ Forall (fun r => (0 <= section_id r <= cfg_segments cfg - 1)%Z) final_df.
Proof.
  intros Hd Hw H E. apply (reachable_on_files col d st Hd) in H.
  destruct (session_sections_in_range col (world_of d) st cfg Hw H E) as (df & Hdf & Hr & _).
  eauto.
Qed.

End FilesTheorems.

(** * The race directory as text *)

(** The telemetry file of [race_world] as its lines: the rows of
    [lap_chunks], a blank line and a line that is too short. *)
Definition race_lines : list string :=
  [ join_fields "," names;
    telemetry_line "3" "speed" "10" "0" "car1";
    telemetry_line "3" "Steering_Angle" "0" "0" "car1";
    telemetry_line "3" "ath" "50" "1000000000" "car1";
    telemetry_line "3" "speed" "20" "1000000000" "car1";
    telemetry_line "3" "speed" "5" "0" "car2";
    "";
    telemetry_line "3" "Steering_Angle" "45" "2000000000" "car1";
    telemetry_line "3" "pbrake_f" "4" "2000000000" "car1";
    telemetry_line "3" "speed" "30" "3000000000" "car1";
    telemetry_line "3" "pbrake_f" "8" "3000000000" "car1";
    telemetry_line "4" "speed" "5" "0" "car1";
    telemetry_line "3" "speed" "99" "3000000000" "car1";
    "a,line,that,is,too,short" ].

Definition race_disk : disk :=
  mkDisk race_dir
         (fun path => if String.eqb path "data/R1_telemetry_data.csv"
                      then Some race_lines else None).

Lemma race_lines_rows : file_rows (C := decimal_cells) race_lines = concat lap_chunks.
Proof. vm_compute. reflexivity. Qed.

Lemma race_disk_clean : clean_disk (C := decimal_cells) race_disk.
Proof.
  intros path lines. unfold race_disk. cbn [d_lines].
  destruct (String.eqb path _); [intros [= <-]; vm_compute; reflexivity | discriminate].
Qed.


Lemma page_on_files_witness :
  script_with (M := rational_math) segment_col (file_loader (C := decimal_cells) race_disk)
              (world_of (C := decimal_cells) race_disk) default_widgets initial
  = script_with (M := rational_math) segment_col with_processor
                (world_of (C := decimal_cells) race_disk) default_widgets initial.
Proof.
  exact (page_on_files (C := decimal_cells) (M := rational_math) segment_col race_disk
           default_widgets initial race_disk_clean).
Defined.

(** The sidebar of the page on the text of the race file. *)
Example race_disk_sidebar :
  vehicles_of_file (C := decimal_cells) (Some race_lines) = ["car1"; "car2"]
  /\ laps_of_file (C := decimal_cells) (Some race_lines) "car1" = [3; 4]%Z.
Proof. split; vm_compute; reflexivity. Qed.

(** The first run of the page on the text of the race file. *)
Definition first_run_on_files : state :=
  fst (script_with (M := rational_math) segment_col (file_loader (C := decimal_cells) race_disk)
         (world_of (C := decimal_cells) race_disk) default_widgets initial).

Lemma race_disk_forward : forward (world_of (C := decimal_cells) race_disk).
Proof.
  intros path chunks H. simpl in H.
  destruct (String.eqb path _); [injection H as <- | discriminate].
  rewrite race_lines_rows. check_channel.
Qed.

Lemma files_sections_in_range_witness :
  exists final_df,
    ss_final_df (session_state first_run_on_files) = Some final_df
    /\ Forall (fun r => (0 <= section_id r <= cfg_segments first_config - 1)%Z) final_df.
Proof.
  apply (files_sections_in_range (C := decimal_cells) (M := rational_math) segment_col
           race_disk first_run_on_files first_config race_disk_clean race_disk_forward).
  - eapply reach_step; [apply reach_initial |].
    exact (step_rerun segment_col (file_loader race_disk) (eq (world_of race_disk))
             (world_of race_disk) default_widgets initial eq_refl).
  - reflexivity.
Defined.
