(* ===== verification/Timestamps.v ===== *)
(** * Timestamps: ISO 8601 times as pandas reads them

    [processor.process_lap_data] hands the column [timestamp] to
    [pd.to_datetime] (line 54), and the race files write their times as
    [2025-09-05T00:28:20.593Z].  [Reader] leaves what pandas makes of
    the text of a cell to the class [Cells]; its instance
    [decimal_cells] reads times that are written as a count of
    nanoseconds.  This file has the instance for the ISO 8601 notation,
    [iso_cells]: the text is cut into its fields ([parse_civil]), the
    fields are checked against the calendar ([valid]), and the time is
    counted in nanoseconds from the first of January 1970
    ([epoch_ns]), as a [datetime64[ns]] holds it.

    The days of the calendar are counted with a closed form
    ([days_before_year], [days_before_month]); the reference is the
    count year by year and month by month ([count_years],
    [count_months]).  The theorems: the closed form is the count; the
    count of nanoseconds follows the order of the times and tells them
    apart; the times of the years 1678 to 2261 fit 64 bits; reading what
    [print_civil] writes gives the time back.

    The notation read is [YYYY-MM-DD], [T] or a blank, [HH:MM:SS], at
    most nine digits of a fraction, and [Z] or nothing for the zone.
    Where pandas raises (a date that the calendar does not have, a time
    outside of the 64 bits, cells in different notations in one column)
    the cell is read as missing, as everywhere in [Reader]. *)

From Stdlib Require Import String Ascii QArith ZArith Lia List Bool.
From S2P Require Import Prelude MathLib Series Frame Processor Discovery Reader Origin Files.
Import ListNotations.
#[local] Open Scope Z_scope.

(** ** The calendar *)

Definition is_leap (y : Z) : bool :=
  ((y mod 4 =? 0) && negb (y mod 100 =? 0)) || (y mod 400 =? 0).

Definition year_length (y : Z) : Z := if is_leap y then 366 else 365.

Definition days_in_month (y m : Z) : Z :=
  if m =? 2 then (if is_leap y then 29 else 28)
  else if (m =? 4) || (m =? 6) || (m =? 9) || (m =? 11) then 30
  else 31.

(** The leap years among the years 1 to [y - 1]. *)
Definition leaps_before (y : Z) : Z := (y - 1) / 4 - (y - 1) / 100 + (y - 1) / 400.

(** The days from the first of January 1970 to the first of January of
    the year [y]. *)
Definition days_before_year (y : Z) : Z :=
  365 * (y - 1970) + (leaps_before y - leaps_before 1970).

(** The days of a year without a leap day before the first of each
    month. *)
Definition month_starts : list Z := [0; 31; 59; 90; 120; 151; 181; 212; 243; 273; 304; 334].

Definition days_before_month (y m : Z) : Z :=
  nth (Z.to_nat (m - 1)) month_starts 0 + (if (2 <? m) && is_leap y then 1 else 0).

Definition days_from_civil (y m d : Z) : Z :=
  days_before_year y + days_before_month y m + (d - 1).

(** ** Times *)

(** A time of the proleptic Gregorian calendar, in UTC. *)
Record civil : Type := mkCivil {
  c_year : Z;
  c_month : Z;
  c_day : Z;
  c_hour : Z;
  c_minute : Z;
  c_second : Z;
  c_nanos : Z
}.

Definition valid_date (y m d : Z) : bool :=
  (1 <=? m) && (m <=? 12) && (1 <=? d) && (d <=? days_in_month y m).

Definition below (bound v : Z) : bool := (0 <=? v) && (v <? bound).

Definition valid_time (t : civil) : bool :=
  below 24 (c_hour t) && below 60 (c_minute t) && below 60 (c_second t)
  && below 1000000000 (c_nanos t).

Definition valid (t : civil) : bool :=
  valid_date (c_year t) (c_month t) (c_day t) && valid_time t.

Definition day_ns : Z := 86400 * 1000000000.

Definition time_of_day (t : civil) : Z :=
  ((c_hour t * 60 + c_minute t) * 60 + c_second t) * 1000000000 + c_nanos t.

(** The nanoseconds from the first of January 1970, 0h UTC. *)
Definition epoch_ns (t : civil) : Z :=
  days_from_civil (c_year t) (c_month t) (c_day t) * day_ns + time_of_day t.

(** What a [datetime64[ns]] holds: a signed 64-bit count, the smallest
    value standing for NaT. *)
Definition in_range (e : Z) : bool := (- 2 ^ 63 <? e) && (e <? 2 ^ 63).

(** ** Reading *)

(** [n] digits at the head of a text: their value after [acc], and the
    rest of the text. *)
Fixpoint field (n : nat) (acc : Z) (s : string) : option (Z * string) :=
  match n with
  | O => Some (acc, s)
  | S k =>
      match s with
      | String c rest =>
          match digit_of c with
          | Some d => field k (10 * acc + d) rest
          | None => None
          end
      | EmptyString => None
      end
  end.

Definition expect (c : ascii) (s : string) : option string :=
  match s with
  | String c' rest => if Ascii.eqb c c' then Some rest else None
  | EmptyString => None
  end.

(** The end of the text: nothing, or the zone [Z]. *)
Definition zone (s : string) : bool := String.eqb s "" || String.eqb s "Z".

(** The digits of the fraction of a second, at most [k] of them, as
    nanoseconds. *)
Fixpoint fraction (k : nat) (acc : Z) (s : string) : option Z :=
  match s with
  | String c rest =>
      match digit_of c, k with
      | Some d, S k' => fraction k' (10 * acc + d) rest
      | Some _, O => None
      | None, _ => if zone s then Some (acc * 10 ^ Z.of_nat k) else None
      end
  | EmptyString => Some (acc * 10 ^ Z.of_nat k)
  end.

(** What follows the seconds: the zone, or a point, at least one digit
    and the zone. *)
Definition subsecond (s : string) : option Z :=
  match s with
  | String "." (String c rest) =>
      match digit_of c with
      | Some d => fraction 8 d rest
      | None => None
      end
  | _ => if zone s then Some 0 else None
  end.

Definition separator (s : string) : option string :=
  match expect "T" s with
  | Some rest => Some rest
  | None => expect " " s
  end.

(** [YYYY-MM-DDTHH:MM:SS], then the fraction and the zone. *)
Definition parse_civil (s : string) : option civil :=
  then_ (field 4 0 s) (fun '(y, s) => then_ (expect "-" s) (fun s =>
  then_ (field 2 0 s) (fun '(mo, s) => then_ (expect "-" s) (fun s =>
  then_ (field 2 0 s) (fun '(d, s) => then_ (separator s) (fun s =>
  then_ (field 2 0 s) (fun '(h, s) => then_ (expect ":" s) (fun s =>
  then_ (field 2 0 s) (fun '(mi, s) => then_ (expect ":" s) (fun s =>
  then_ (field 2 0 s) (fun '(sec, s) => then_ (subsecond s) (fun ns =>
  Some (mkCivil y mo d h mi sec ns))))))))))))).

(** [pd.to_datetime] on the text of a cell: the time in nanoseconds,
    when the text is a time in this notation and the count fits. *)
Definition iso_datetime (s : string) : option Z :=
  then_ (parse_civil s) (fun t =>
  if valid t && in_range (epoch_ns t) then Some (epoch_ns t) else None).

(** Numbers in decimal notation, times in ISO 8601 notation. *)
#[export] Instance iso_cells : Cells := {
  to_number := decimal;
  to_datetime := iso_datetime
}.

(** ** Writing *)

Definition digit_char (d : Z) : ascii := ascii_of_nat (48 + Z.to_nat d).

(** The number [v] in [n] digits, with leading zeros. *)
Fixpoint pad (n : nat) (v : Z) : string :=
  match n with
  | O => EmptyString
  | S k => String (digit_char (v / 10 ^ Z.of_nat k)) (pad k (v mod 10 ^ Z.of_nat k))
  end.

(** The time as [isoformat] writes it with its nanoseconds. *)
Definition print_civil (t : civil) : string :=
  (pad 4 (c_year t) ++ "-" ++ pad 2 (c_month t) ++ "-" ++ pad 2 (c_day t) ++ "T"
   ++ pad 2 (c_hour t) ++ ":" ++ pad 2 (c_minute t) ++ ":" ++ pad 2 (c_second t) ++ "."
   ++ pad 9 (c_nanos t) ++ "Z")%string.

(** The order of the times. *)
Definition before (t t' : civil) : Prop :=
  c_year t < c_year t' \/ (c_year t = c_year t' /\
  (c_month t < c_month t' \/ (c_month t = c_month t' /\
  (c_day t < c_day t' \/ (c_day t = c_day t' /\ time_of_day t < time_of_day t'))))).

(** ** Reference: counting *)

(** The days of [n] years from the year [y] on. *)
Fixpoint count_years (y : Z) (n : nat) : Z :=
  match n with
  | O => 0
  | S k => year_length y + count_years (y + 1) k
  end.

(** The days of the months of the year [y] before the month [m],
    counted from the month [m - n]. *)
Fixpoint count_months (y m : Z) (n : nat) : Z :=
  match n with
  | O => 0
  | S k => days_in_month y (m - 1) + count_months y (m - 1) k
  end.

(** * Facts *)

Ltac divmod := Z.to_euclidean_division_equations; lia.

Lemma is_leap_spec (y : Z) :
  is_leap y = true <-> (y mod 4 = 0 /\ y mod 100 <> 0) \/ y mod 400 = 0.
Proof.
  unfold is_leap. rewrite orb_true_iff, andb_true_iff, negb_true_iff, !Z.eqb_eq, Z.eqb_neq.
  tauto.
Qed.

Lemma leaps_before_succ (y : Z) :
  leaps_before (y + 1) = leaps_before y + (if is_leap y then 1 else 0).
Proof.
  unfold leaps_before. replace (y + 1 - 1) with y by lia.
  destruct (is_leap y) eqn:E.
  - apply is_leap_spec in E. divmod.
  - assert (H : ~ ((y mod 4 = 0 /\ y mod 100 <> 0) \/ y mod 400 = 0))
      by (rewrite <- is_leap_spec, E; discriminate).
    divmod.
Qed.

Lemma days_before_year_succ (y : Z) :
  days_before_year (y + 1) = days_before_year y + year_length y.
Proof.
  unfold days_before_year, year_length. rewrite leaps_before_succ.
  destruct (is_leap y); lia.
Qed.

(** The closed form counts the days of the years. *)
Lemma days_before_year_count (y : Z) (n : nat) :
  days_before_year (y + Z.of_nat n) = days_before_year y + count_years y n.
Proof.
  revert y. induction n as [|n IH]; intros y.
  - cbn [Z.of_nat count_years]. now rewrite !Z.add_0_r.
  - cbn [count_years]. replace (y + Z.of_nat (S n)) with (y + 1 + Z.of_nat n) by lia.
    rewrite IH, days_before_year_succ. lia.
Qed.

(** The table of the months counts their days. *)
Lemma days_before_month_count (y m : Z) :
  1 <= m <= 12 -> days_before_month y m = count_months y m (Z.to_nat (m - 1)).
Proof.
  intros Hm. assert (H : In m [1; 2; 3; 4; 5; 6; 7; 8; 9; 10; 11; 12]) by (simpl; lia).
  simpl in H. decompose [or] H; subst; try contradiction;
    unfold days_before_month; simpl; unfold days_in_month; simpl;
    destruct (is_leap y); reflexivity.
Qed.

Lemma year_length_bounds (y : Z) : 365 <= year_length y <= 366.
Proof. unfold year_length. destruct (is_leap y); lia. Qed.

Lemma days_in_month_bounds (y m : Z) : 28 <= days_in_month y m <= 31.
Proof.
  unfold days_in_month. destruct (m =? 2); [destruct (is_leap y); lia |].
  destruct ((m =? 4) || (m =? 6) || (m =? 9) || (m =? 11)); lia.
Qed.

(** The months follow each other: the first of the next month comes
    after the last day of a month, and the first of January of the next
    year after the last of December. *)
Lemma days_before_month_succ (y m : Z) :
  1 <= m < 12 -> days_before_month y (m + 1) = days_before_month y m + days_in_month y m.
Proof.
  intros Hm. assert (H : In m [1; 2; 3; 4; 5; 6; 7; 8; 9; 10; 11]) by (simpl; lia).
  simpl in H. decompose [or] H; subst; try contradiction;
    unfold days_before_month, days_in_month; simpl; destruct (is_leap y); reflexivity.
Qed.

Lemma days_before_december (y : Z) :
  days_before_month y 12 + days_in_month y 12 = year_length y.
Proof.
  unfold days_before_month, days_in_month, year_length. simpl. destruct (is_leap y); reflexivity.
Qed.

Lemma days_before_month_mono (y m m' : Z) :
  1 <= m -> m < m' -> m' <= 12 ->
  days_before_month y m + days_in_month y m <= days_before_month y m'.
Proof.
  intros H1 Hlt H12.
  assert (H : exists k : nat, m' = m + 1 + Z.of_nat k) by (exists (Z.to_nat (m' - m - 1)); lia).
  destruct H as [k ->]. induction k as [|k IH].
  - rewrite Z.add_0_r, days_before_month_succ by lia. lia.
  - replace (m + 1 + Z.of_nat (S k)) with (m + 1 + Z.of_nat k + 1) by lia.
    rewrite days_before_month_succ by lia.
    pose proof (days_in_month_bounds y (m + 1 + Z.of_nat k)). lia.
Qed.

Lemma days_before_month_range (y m : Z) :
  1 <= m <= 12 ->
  0 <= days_before_month y m /\ days_before_month y m + days_in_month y m <= year_length y.
Proof.
  intros Hm. split.
  - unfold days_before_month.
    assert (H : In m [1; 2; 3; 4; 5; 6; 7; 8; 9; 10; 11; 12]) by (simpl; lia).
    simpl in H. decompose [or] H; subst; try contradiction; simpl; destruct (is_leap y); lia.
  - destruct (Z.eq_dec m 12) as [->|Hne]; [rewrite days_before_december; lia |].
    rewrite <- days_before_december. pose proof (days_before_month_mono y m 12).
    pose proof (days_in_month_bounds y 12). lia.
Qed.

Lemma count_years_nonneg (n : nat) (y : Z) : 0 <= count_years y n.
Proof.
  revert y. induction n as [|n IH]; intros y; simpl; [lia |].
  pose proof (year_length_bounds y). specialize (IH (y + 1)). lia.
Qed.

Lemma days_before_year_mono (y y' : Z) :
  y < y' -> days_before_year y + year_length y <= days_before_year y'.
Proof.
  intros Hlt.
  assert (H : exists k : nat, y' = y + 1 + Z.of_nat k) by (exists (Z.to_nat (y' - y - 1)); lia).
  destruct H as [k ->]. rewrite days_before_year_count, days_before_year_succ.
  pose proof (count_years_nonneg k (y + 1)). lia.
Qed.

(** ** Times *)

Lemma valid_date_spec (y m d : Z) :
  valid_date y m d = true <-> 1 <= m <= 12 /\ 1 <= d <= days_in_month y m.
Proof. unfold valid_date. rewrite !andb_true_iff, !Z.leb_le. tauto. Qed.

Lemma below_spec (bound v : Z) : below bound v = true <-> 0 <= v < bound.
Proof. unfold below. rewrite andb_true_iff, Z.leb_le, Z.ltb_lt. tauto. Qed.

Lemma valid_time_spec (t : civil) :
  valid_time t = true
  <-> 0 <= c_hour t < 24 /\ 0 <= c_minute t < 60 /\ 0 <= c_second t < 60
      /\ 0 <= c_nanos t < 1000000000.
Proof. unfold valid_time. rewrite !andb_true_iff, !below_spec. tauto. Qed.

Lemma time_of_day_range (t : civil) : valid_time t = true -> 0 <= time_of_day t < day_ns.
Proof. rewrite valid_time_spec. unfold time_of_day, day_ns. lia. Qed.

(** The day count follows the order of the dates. *)
Lemma days_from_civil_lt (y m d y' m' d' : Z) :
  valid_date y m d = true -> valid_date y' m' d' = true ->
  y < y' \/ (y = y' /\ (m < m' \/ (m = m' /\ d < d'))) ->
  days_from_civil y m d < days_from_civil y' m' d'.
Proof.
  rewrite !valid_date_spec. intros [Hm Hd] [Hm' Hd'] H. unfold days_from_civil.
  pose proof (days_before_month_range y m Hm). pose proof (days_before_month_range y' m' Hm').
  destruct H as [H|[-> [H|[-> H]]]].
  - pose proof (days_before_year_mono y y' H). lia.
  - pose proof (days_before_month_mono y' m m'). lia.
  - lia.
Qed.

Lemma days_from_civil_inj (y m d y' m' d' : Z) :
  valid_date y m d = true -> valid_date y' m' d' = true ->
  days_from_civil y m d = days_from_civil y' m' d' -> y = y' /\ m = m' /\ d = d'.
Proof.
  intros H H' E.
  pose proof (days_from_civil_lt y m d y' m' d' H H').
  pose proof (days_from_civil_lt y' m' d' y m d H' H). lia.
Qed.

Lemma valid_spec (t : civil) :
  valid t = true <-> valid_date (c_year t) (c_month t) (c_day t) = true /\ valid_time t = true.
Proof. unfold valid. apply andb_true_iff. Qed.

(** A later time has a larger count. *)
Lemma epoch_ns_lt (t t' : civil) :
  valid t = true -> valid t' = true -> before t t' -> epoch_ns t < epoch_ns t'.
Proof.
  rewrite !valid_spec. intros [Hd Ht] [Hd' Ht'] H. unfold epoch_ns.
  pose proof (time_of_day_range t Ht). pose proof (time_of_day_range t' Ht').
  assert (days_from_civil (c_year t) (c_month t) (c_day t)
          <= days_from_civil (c_year t') (c_month t') (c_day t')
          /\ (days_from_civil (c_year t) (c_month t) (c_day t)
               = days_from_civil (c_year t') (c_month t') (c_day t')
              -> time_of_day t < time_of_day t')) as [Hle Heq].
  { pose proof (days_from_civil_lt _ _ _ _ _ _ Hd Hd') as L. unfold before in H.
    destruct H as [H|[Ey [H|[Em [H|[Ed H]]]]]];
      try (split; [apply Z.lt_le_incl, L | intros E; exfalso]; lia).
    rewrite Ey, Em, Ed. split; [lia | auto]. }
  unfold day_ns in *. nia.
Qed.

(** Two valid times of one count are the same time. *)
Lemma epoch_ns_inj (t t' : civil) :
  valid t = true -> valid t' = true -> epoch_ns t = epoch_ns t' -> t = t'.
Proof.
  intros V V' E. pose proof V as W. pose proof V' as W'.
  rewrite valid_spec in W, W'. destruct W as [Hd Ht], W' as [Hd' Ht'].
  pose proof (time_of_day_range t Ht). pose proof (time_of_day_range t' Ht').
  unfold epoch_ns in E.
  assert (Ed : days_from_civil (c_year t) (c_month t) (c_day t)
               = days_from_civil (c_year t') (c_month t') (c_day t'))
    by (unfold day_ns in *; nia).
  destruct (days_from_civil_inj _ _ _ _ _ _ Hd Hd' Ed) as (Ey & Em & Edd).
  assert (Et : time_of_day t = time_of_day t') by lia.
  apply valid_time_spec in Ht, Ht'. unfold time_of_day in Et.
  destruct t, t'; simpl in *. f_equal; lia.
Qed.

(** The times of the years 1678 to 2261 fit the 64 bits of a
    [datetime64[ns]]. *)
Lemma epoch_ns_fits (t : civil) :
  valid t = true -> 1678 <= c_year t <= 2261 -> in_range (epoch_ns t) = true.
Proof.
  rewrite valid_spec. intros [Hd Ht] Hy. pose proof (time_of_day_range t Ht) as Hr.
  apply valid_date_spec in Hd as [Hm Hdd].
  pose proof (days_before_month_range (c_year t) (c_month t) Hm) as [H0 H1].
  assert (Hlo : days_before_year 1678 <= days_before_year (c_year t)).
  { destruct (Z.eq_dec (c_year t) 1678) as [->|]; [lia |].
    pose proof (days_before_year_mono 1678 (c_year t)). pose proof (year_length_bounds 1678).
    lia. }
  assert (Hhi : days_before_year (c_year t) + year_length (c_year t) <= days_before_year 2262)
    by (apply days_before_year_mono; lia).
  change (days_before_year 1678) with (-106650) in Hlo.
  change (days_before_year 2262) with 106651 in Hhi.
  unfold in_range, epoch_ns, days_from_civil, day_ns in *.
  apply andb_true_iff. rewrite Z.ltb_lt, Z.ltb_lt. change (2 ^ 63) with 9223372036854775808.
  lia.
Qed.

(** ** Reading what was written *)

Lemma digit_of_char (d : Z) : 0 <= d < 10 -> digit_of (digit_char d) = Some d.
Proof.
  intros H. assert (E : In d [0; 1; 2; 3; 4; 5; 6; 7; 8; 9]) by (simpl; lia).
  simpl in E. decompose [or] E; subst; try contradiction; reflexivity.
Qed.

(** The leading digit of a number of [n + 1] digits. *)
Lemma leading_digit (p v : Z) :
  0 < p -> 0 <= v < 10 * p -> digit_of (digit_char (v / p)) = Some (v / p).
Proof.
  intros Hp Hv. apply digit_of_char.
  split; [apply Z.div_pos | apply Z.div_lt_upper_bound]; lia.
Qed.

Lemma field_pad (n : nat) (acc v : Z) (rest : string) :
  0 <= v < 10 ^ Z.of_nat n ->
  field n acc (pad n v ++ rest) = Some (acc * 10 ^ Z.of_nat n + v, rest).
Proof.
  revert acc v. induction n as [|n IH]; intros acc v Hv.
  - simpl in *. f_equal. f_equal. lia.
  - rewrite Nat2Z.inj_succ, Z.pow_succ_r in * by lia.
    assert (Hp : 0 < 10 ^ Z.of_nat n) by (apply Z.pow_pos_nonneg; lia).
    cbn [pad field append]. rewrite leading_digit by lia.
    rewrite IH by (apply Z.mod_pos_bound; lia). f_equal. f_equal.
    pose proof (Z.div_mod v (10 ^ Z.of_nat n)). nia.
Qed.

Lemma fraction_pad (n j : nat) (acc v : Z) :
  0 <= v < 10 ^ Z.of_nat n ->
  fraction (n + j) acc (pad n v ++ "Z") = Some ((acc * 10 ^ Z.of_nat n + v) * 10 ^ Z.of_nat j).
Proof.
  revert acc v. induction n as [|n IH]; intros acc v Hv.
  - change (10 ^ Z.of_nat 0) with 1 in *. assert (v = 0) as -> by lia.
    destruct j; cbn [pad append Nat.add fraction]; change (digit_of "Z") with (@None Z);
      change (zone "Z") with true; cbv iota; f_equal; ring.
  - rewrite Nat2Z.inj_succ, Z.pow_succ_r in * by lia.
    assert (Hp : 0 < 10 ^ Z.of_nat n) by (apply Z.pow_pos_nonneg; lia).
    cbn [pad fraction append Nat.add].
    rewrite leading_digit by lia.
    rewrite IH by (apply Z.mod_pos_bound; lia). f_equal.
    pose proof (Z.div_mod v (10 ^ Z.of_nat n)). nia.
Qed.

Lemma subsecond_pad (v : Z) :
  0 <= v < 1000000000 -> subsecond (String "." (pad 9 v ++ "Z")) = Some v.
Proof.
  intros Hv. change (pad 9 v ++ "Z")%string
    with (String (digit_char (v / 10 ^ 8)) (pad 8 (v mod 10 ^ 8) ++ "Z")).
  cbn [subsecond]. rewrite leading_digit by lia.
  rewrite (fraction_pad 8 0) by (apply Z.mod_pos_bound; lia). f_equal.
  pose proof (Z.div_mod v (10 ^ 8)). change (Z.of_nat 8) with 8. change (Z.of_nat 0) with 0. lia.
Qed.

(** Reading the text of a time gives the time back. *)
Lemma parse_print_civil (t : civil) :
  valid t = true -> 0 <= c_year t <= 9999 -> parse_civil (print_civil t) = Some t.
Proof.
  rewrite valid_spec, valid_date_spec, valid_time_spec.
  intros [[Hm Hd] (Hh & Hmi & Hs & Hn)] Hy.
  pose proof (days_in_month_bounds (c_year t) (c_month t)).
  unfold parse_civil, print_civil.
  repeat (rewrite field_pad by (simpl; lia);
          cbn [then_ append expect separator Ascii.eqb Bool.eqb]).
  rewrite subsecond_pad by lia. cbn [then_]. destruct t; simpl. f_equal.
Qed.

(** ** The cells *)

Lemma iso_datetime_Some (s : string) (e : Z) :
  iso_datetime s = Some e
  <-> exists t, parse_civil s = Some t /\ valid t = true /\ in_range e = true
                /\ e = epoch_ns t.
Proof.
  unfold iso_datetime. destruct (parse_civil s) as [t|]; cbn [then_].
  - destruct (valid t) eqn:V; cbn [andb].
    + destruct (in_range (epoch_ns t)) eqn:R.
      * split; [intros [= <-]; exists t; auto | intros (t' & [= <-] & _ & _ & ->); reflexivity].
      * split; [discriminate | intros (t' & [= <-] & _ & R' & ->); congruence].
    + split; [discriminate | intros (t' & [= <-] & V' & _); congruence].
  - split; [discriminate | intros (t' & H & _); discriminate].
Qed.

(** Reading a time that was written gives its count of nanoseconds:
    for every valid time of the years 1678 to 2261, the
    text that [isoformat] writes for it is read by [to_datetime] as the
    nanoseconds from 1970 to that time, which fit the signed 64 bits of
    a [datetime64[ns]]. *)
Theorem iso_datetime_round_trip (t : civil) :
  valid t = true -> 1678 <= c_year t <= 2261 ->
  to_datetime (Cells := iso_cells) (print_civil t) = Some (epoch_ns t)
  /\ - 2 ^ 63 < epoch_ns t < 2 ^ 63.
Proof.
  intros V Hy. pose proof (epoch_ns_fits t V Hy) as R. split.
  - cbn [to_datetime iso_cells]. unfold iso_datetime.
    rewrite parse_print_civil by (auto; lia). cbn [then_]. now rewrite V, R.
  - unfold in_range in R. apply andb_true_iff in R. rewrite !Z.ltb_lt in R. exact R.
Qed.

(** The times that are read keep their order and their identity:
    of two texts that [to_datetime] reads, the one that holds the
    earlier time of the calendar has the smaller count, and two texts
    with one count hold the same time. *)
Theorem iso_datetime_order (s s' : string) (t t' : civil) (e e' : Z) :
  parse_civil s = Some t -> parse_civil s' = Some t' ->
  to_datetime (Cells := iso_cells) s = Some e ->
  to_datetime (Cells := iso_cells) s' = Some e' ->
  (before t t' -> e < e') /\ (e = e' -> t = t').
Proof.
  cbn [to_datetime iso_cells]. intros P P' H H'.
  apply iso_datetime_Some in H as (u & Pu & V & _ & ->).
  apply iso_datetime_Some in H' as (u' & Pu' & V' & _ & ->).
  rewrite P in Pu. rewrite P' in Pu'. injection Pu as <-. injection Pu' as <-.
  split; [now apply epoch_ns_lt | now apply epoch_ns_inj].
Qed.

(** * A race file with its times in ISO notation *)

#[local] Open Scope string_scope.

Definition race_start : civil := mkCivil 2025 9 5 0 28 20 593000000.

Example race_start_round_trip :
  to_datetime (Cells := iso_cells) (print_civil race_start) = Some (epoch_ns race_start)
  /\ - 2 ^ 63 < epoch_ns race_start < 2 ^ 63.
Proof. apply (iso_datetime_round_trip race_start); [reflexivity | simpl; lia]. Qed.

Example race_start_order :
  (before race_start (mkCivil 2025 9 5 0 28 21 0)
   -> 1757032100593000000 < 1757032101000000000)
  /\ (1757032100593000000 = 1757032101000000000 -> race_start = mkCivil 2025 9 5 0 28 21 0).
Proof.
  apply (iso_datetime_order "2025-09-05T00:28:20.593Z" "2025-09-05 00:28:21");
    vm_compute; reflexivity.
Qed.

(** What is read and what is not. *)
Example iso_datetime_examples :
  print_civil race_start = "2025-09-05T00:28:20.593000000Z"
  /\ iso_datetime "2025-09-05T00:28:20.593Z" = Some 1757032100593000000
  /\ iso_datetime "1970-01-01T00:00:00Z" = Some 0
  /\ iso_datetime "1969-12-31T23:59:59.999999999Z" = Some (-1)
  /\ iso_datetime "2024-02-29T12:00:00" = Some 1709208000000000000
  /\ iso_datetime "2023-02-29T12:00:00" = None
  /\ iso_datetime "2262-04-12T00:00:00Z" = None
  /\ iso_datetime "1757032100593000000" = None.
Proof. repeat split; vm_compute; reflexivity. Qed.

(** The race file of [Files] with the times of that evening: a second
    between the samples. *)
Definition evening (seconds : string) : string := "2025-09-05T00:28:2" ++ seconds ++ ".593Z".

Definition evening_lines : list string :=
  [ join_fields "," names;
    telemetry_line "3" "speed" "10" (evening "0") "car1";
    telemetry_line "3" "Steering_Angle" "0" (evening "0") "car1";
    telemetry_line "3" "ath" "50" (evening "1") "car1";
    telemetry_line "3" "speed" "20" (evening "1") "car1";
    telemetry_line "3" "speed" "5" (evening "0") "car2";
    "";
    telemetry_line "3" "Steering_Angle" "45" (evening "2") "car1";
    telemetry_line "3" "pbrake_f" "4" (evening "2") "car1";
    telemetry_line "3" "speed" "30" (evening "3") "car1";
    telemetry_line "3" "pbrake_f" "8" (evening "3") "car1";
    telemetry_line "4" "speed" "5" (evening "0") "car1";
    telemetry_line "3" "speed" "99" (evening "3") "car1";
    "a,line,that,is,too,short" ].

(** The rows of the file are the rows of the file of [Files], that much
    later: the two files are analysed alike, by [Origin]. *)
Example evening_rows :
  file_rows (C := iso_cells) evening_lines
  = map (later 1757032100593000000) (file_rows (C := decimal_cells) race_lines).
Proof. vm_compute. reflexivity. Qed.

Example evening_samples :
  result_rel (Forall2 (retimed 1757032100593000000))
    (process_lap_data (M := rational_math) [file_rows (C := decimal_cells) race_lines] "car1" 3)
    (process_lap_data (M := rational_math) [file_rows (C := iso_cells) evening_lines] "car1" 3).
Proof.
  rewrite evening_rows.
  exact (process_lap_data_later (M := rational_math) 1757032100593000000
           [file_rows (C := decimal_cells) race_lines] "car1" 3).
Qed.
