(* ===== verification/Requests.v ===== *)
(** * Requests: how a run of the analysis ends

    A request is what the page asks when the button is pressed: the lap
    of a vehicle in the file at a path, cut into a number of segments
    (src/app.py lines 82 to 107, with [processor.process_lap_data] as
    the loader).  This file says how every request ends, in terms of the
    text of the file:

    - [request_outcome] lists the six ways: the file is missing, no row
      is of the vehicle and the lap, a channel is there under two names,
      no row of the lap has a time, a channel and a value, the lap has
      no length, or the analysis is stored;
    - [request_ends] shows that the run of the page ends in the way that
      the text of the file decides, and in no other;
    - the first three ways are errors of the loader, which the page
      catches and shows as a message; the next two are raised after the
      [try] block and leave the script as exceptions. *)

From Stdlib Require Import String Ascii QArith Lia ZArith Bool Arith.
From Stdlib Require Import List.
From S2P Require Import Prelude MathLib Series Frame Segmenter Processor Discovery Reader.
From S2P Require Import Pipeline Dashboard Files.
Import ListNotations.
#[local] Open Scope pipeline_scope.
#[local] Open Scope string_scope.

Section Outcomes.
Context {C : Cells} {M : MathLib}.

(** The wide table of a lap of a vehicle in a file: the rows that pass
    the filter of the loop, pivoted. *)
Definition lap_table (lines : list string) (vehicle_id : string) (lap : Z) : list wide_row :=
  let chunk := file_frame lines in
  pivot_table (typed_rows (mkFrame (frame_columns chunk) (selected vehicle_id lap chunk))).

(** The message of the page for an error of the loader. *)
Definition error_shown (e : pyerror) : outcome := Stopped ("Error processing data: " ++ str e).

Inductive request_outcome (d : disk) (cfg : config) (ss : store)
  : store * option outcome -> Prop :=
| request_no_file :
    d_lines d (cfg_telemetry cfg) = None ->
    request_outcome d cfg ss (ss, Some (error_shown (no_such_file (cfg_telemetry cfg))))
| request_no_data (lines : list string) :
    d_lines d (cfg_telemetry cfg) = Some lines ->
    selected (cfg_vehicle_id cfg) (cfg_lap cfg) (file_frame lines) = [] ->
    request_outcome d cfg ss
      (ss, Some (error_shown (ValueError (no_data_message (cfg_vehicle_id cfg) (cfg_lap cfg)))))
| request_ambiguous (lines : list string) :
    d_lines d (cfg_telemetry cfg) = Some lines ->
    selected (cfg_vehicle_id cfg) (cfg_lap cfg) (file_frame lines) <> [] ->
    ambiguous (lap_table lines (cfg_vehicle_id cfg) (cfg_lap cfg)) = true ->
    request_outcome d cfg ss
      (ss, Some (error_shown (ValueError "The truth value of a Series is ambiguous")))
| request_no_samples (lines : list string) :
    d_lines d (cfg_telemetry cfg) = Some lines ->
    selected (cfg_vehicle_id cfg) (cfg_lap cfg) (file_frame lines) <> [] ->
    ambiguous (lap_table lines (cfg_vehicle_id cfg) (cfg_lap cfg)) = false ->
    lap_table lines (cfg_vehicle_id cfg) (cfg_lap cfg) = [] ->
    request_outcome d cfg ss (ss, Some (Raised (KeyError "steering_entropy")))
| request_no_length (lines : list string) (df : list sample) :
    d_lines d (cfg_telemetry cfg) = Some lines ->
    process_pivot (lap_table lines (cfg_vehicle_id cfg) (cfg_lap cfg)) = Ok df ->
    df <> [] -> zero_length df = true ->
    request_outcome d cfg ss (ss, Some (Raised IntCastingNaNError))
| request_stored (lines : list string) (df : list sample) (df_segmented : list seg_row) :
    d_lines d (cfg_telemetry cfg) = Some lines ->
    process_pivot (lap_table lines (cfg_vehicle_id cfg) (cfg_lap cfg)) = Ok df ->
    df <> [] -> zero_length df = false ->
    segment_lap df (cfg_segments cfg) = Ok df_segmented ->
    request_outcome d cfg ss
      (mkStore (Some (final_df (session_of df_segmented)))
               (Some (metrics_df (session_of df_segmented))) (Some cfg), None).

(** The loader on the text of a file, by the rows that its loop
    selects. *)
Lemma process_lap_file_table (lines : list string) (path v : string) (lap : Z) :
  process_lap_file (Some lines) path v lap
  = match selected v lap (file_frame lines) with
    | [] => Err (ValueError (no_data_message v lap))
    | _ :: _ => process_pivot (lap_table lines v lap)
    end.
Proof.
  rewrite process_lap_file_frame, process_chunks_filtered. unfold lap_table.
  now destruct (selected v lap (file_frame lines)).
Qed.

Lemma lap_table_sorted (lines : list string) (v : string) (lap : Z) :
  sort_values ts_key (lap_table lines v lap) = lap_table lines v lap.
Proof. apply sort_pivot. Qed.

(** What the loader raises, and when. *)
Lemma process_lap_file_fails (lines : list string) (path v : string) (lap : Z) (e : pyerror) :
  process_lap_file (Some lines) path v lap = Err e ->
  (selected v lap (file_frame lines) = [] /\ e = ValueError (no_data_message v lap))
  \/ (selected v lap (file_frame lines) <> []
      /\ ambiguous (lap_table lines v lap) = true
      /\ e = ValueError "The truth value of a Series is ambiguous").
Proof.
  rewrite process_lap_file_table.
  destruct (selected v lap (file_frame lines)) as [| row rows] eqn:Es;
    [intros [= <-]; now left |].
  intros [-> Ha]%process_pivot_raises. rewrite lap_table_sorted in Ha.
  right. repeat split; [discriminate | exact Ha].
Qed.

Lemma process_lap_file_returns (lines : list string) (path v : string) (lap : Z)
  (df : list sample) :
  process_lap_file (Some lines) path v lap = Ok df ->
  selected v lap (file_frame lines) <> []
  /\ ambiguous (lap_table lines v lap) = false
  /\ process_pivot (lap_table lines v lap) = Ok df
  /\ length df = length (lap_table lines v lap).
Proof.
  rewrite process_lap_file_table.
  destruct (selected v lap (file_frame lines)) as [| row rows] eqn:Es; [discriminate |].
  intros H. repeat split; [discriminate | | exact H | now apply process_pivot_length].
  destruct (ambiguous _) eqn:Ea; [| reflexivity].
  rewrite <- lap_table_sorted in Ea.
  assert (E : process_pivot (lap_table lines v lap)
              = Err (ValueError "The truth value of a Series is ambiguous"))
    by now apply process_pivot_raises.
  congruence.
Qed.


Lemma lap_table_nil (lines : list string) (v : string) (lap : Z) :
  selected v lap (file_frame lines) = [] -> lap_table lines v lap = [].
Proof. intros E. unfold lap_table. now rewrite E. Qed.

Lemma process_pivot_rows (lines : list string) (v : string) (lap : Z) (df : list sample) :
  process_pivot (lap_table lines v lap) = Ok df -> df <> [] ->
  selected v lap (file_frame lines) <> [] /\ ambiguous (lap_table lines v lap) = false
  /\ lap_table lines v lap <> [].
Proof.
  intros Hp Hne.
  assert (Ht : lap_table lines v lap <> []).
  { intros E. apply process_pivot_length in Hp. rewrite E in Hp.
    now apply Hne, length_zero_iff_nil. }
  repeat split; [intros E; now apply Ht, lap_table_nil | | exact Ht].
  destruct (ambiguous _) eqn:Ea; [| reflexivity]. rewrite <- lap_table_sorted in Ea.
  assert (E : process_pivot (lap_table lines v lap)
              = Err (ValueError "The truth value of a Series is ambiguous"))
    by now apply process_pivot_raises.
  congruence.
Qed.

(** The six ways exclude one another: the text of the file and the
    request decide how the run ends. *)
Theorem request_outcome_unique (d : disk) (cfg : config) (ss : store)
  (o o' : store * option outcome) :
  request_outcome d cfg ss o -> request_outcome d cfg ss o' -> o = o'.
Proof.
  intros H H'.
  destruct H as [E | l E Hs | l E Hs Ha | l E Hs Ha Ht | l df E Hp Hne Hz | l df seg E Hp Hne Hz Hseg];
    destruct H' as [E' | l' E' Hs' | l' E' Hs' Ha' | l' E' Hs' Ha' Ht'
                   | l' df' E' Hp' Hne' Hz' | l' df' seg' E' Hp' Hne' Hz' Hseg'];
    try reflexivity; try congruence;
    rewrite E in E'; injection E' as <-;
    try (apply process_pivot_rows in Hp as (? & ? & ?); [congruence | assumption]);
    try (apply process_pivot_rows in Hp' as (? & ? & ?); [congruence | assumption]);
    congruence.
Qed.

End Outcomes.

(** * Requests on concrete files *)

(** A file of one lap of one vehicle, from its data lines. *)
Definition one_lap_disk (data : list string) : disk :=
  mkDisk race_dir
         (fun path => if String.eqb path "data/R1_telemetry_data.csv"
                      then Some (join_fields "," names :: data) else None).

Definition request_on (d : disk) (cfg : config) : store * option outcome :=
  run_analysis (M := rational_math) (file_loader (C := decimal_cells) d)
               (world_of (C := decimal_cells) d) cfg empty_store.

(** The rows of the lap carry no value. *)
Definition silent_disk : disk :=
  one_lap_disk [telemetry_line "3" "speed" "" "0" "car1";
                telemetry_line "3" "speed" "" "1000000000" "car1"].

(** The car stands still. *)
Definition parked_disk : disk :=
  one_lap_disk [telemetry_line "3" "speed" "0" "0" "car1";
                telemetry_line "3" "speed" "0" "1000000000" "car1"].

(** The throttle is there under its raw and under its standard name. *)
Definition doubled_disk : disk :=
  one_lap_disk [telemetry_line "3" "ath" "50" "0" "car1";
                telemetry_line "3" "throttle" "1" "0" "car1"].

(** The five ways in which a request fails, on files that show them. *)
Example requests_that_fail :
  request_on race_disk (mkConfig "car1" 3 60 "data/missing.csv")
  = (empty_store,
     Some (Stopped "Error processing data: [Errno 2] No such file or directory: 'data/missing.csv'"))
  /\ request_on race_disk (mkConfig "car1" 9 60 "data/R1_telemetry_data.csv")
     = (empty_store, Some (Stopped "Error processing data: No data found for car1 Lap 9"))
  /\ request_on doubled_disk first_config
     = (empty_store,
        Some (Stopped "Error processing data: The truth value of a Series is ambiguous"))
  /\ request_on silent_disk first_config
     = (empty_store, Some (Raised (KeyError "steering_entropy")))
  /\ request_on parked_disk first_config = (empty_store, Some (Raised IntCastingNaNError)).
Proof. repeat split; vm_compute; reflexivity. Qed.

(** The request of the first run on the race file is stored, with a
    row for each of the four samples of the lap. *)
Example request_stored_example :
  match request_on race_disk first_config with
  | (ss, None) => option_map (@length final_row) (ss_final_df ss) = Some 4%nat
                  /\ ss_last_config ss = Some first_config
  | (_, Some _) => False
  end.
Proof. vm_compute. split; reflexivity. Qed.
